(** * ryOS chat-rooms backend (api/chat-rooms.js): tokens, rooms, messages, burst limiter

    A shallow embedding of the request handlers of [api/chat-rooms.js] over an
    explicit model of the Redis store they talk to, and the properties of the
    specification that concern them.

    Conventions of the embedding.
    - The store is a finite map from key strings to entries; an entry is a
      value together with an optional expiry instant (epoch milliseconds).  A
      key whose expiry instant has been reached is absent for every command.
    - Time is explicit: every handler receives [now], the value [Date.now()]
      has during the request (one instant per request; the store's clock is
      the same clock).
    - Randomness is explicit: [crypto.randomBytes n] is an argument holding
      the bytes drawn.
    - The store holds every value as the client returns it.  The client
      parses what it reads as JSON and keeps the text when that fails: JSON
      text written with [JSON.stringify] comes back as the structured value
      it encodes, without any [JSON.parse] in the handler; text that does not
      parse is a plain [VStr] (inside a list, [MRaw]); and a string written
      as a value comes back as that string unless it is the text of a JSON
      literal ([written]).  A [VStr] is text that [JSON.parse] rejects; the
      one exception is a token made of digits, under a key of tokens, which
      the client gives back as text because it is too long for a number.
    - Strings are sequences of 8-bit characters; [toLowerCase] and the
      regular expressions are modelled on ASCII.
    - Logging and the Pusher calls have no effect on the store and are left
      out; the writes to the store performed while broadcasting are kept.
    - A command given several keys acts on each of them; a command given
      one array where it takes keys acts on the single key that is the JSON
      text of the array, which is how the client sends an argument that is
      not a string.
    - An [await]ed store command that fails throws; the store keeps what was
      written before the failure. *)

From Stdlib Require Import ZArith Ascii String List Bool Lia.
From stdpp Require Import base option list strings gmap.

Local Open Scope string_scope.
Local Open Scope Z_scope.

(* ===================================================================== *)
(** ** Strings *)
(* ===================================================================== *)

Module Str.

Definition code (c : ascii) : nat := nat_of_ascii c.

Definition isUpper (c : ascii) : bool :=
  (Nat.leb 65 (code c) && Nat.leb (code c) 90)%bool.
Definition isLower (c : ascii) : bool :=
  (Nat.leb 97 (code c) && Nat.leb (code c) 122)%bool.
Definition isLetter (c : ascii) : bool := (isUpper c || isLower c)%bool.
Definition isDigit (c : ascii) : bool :=
  (Nat.leb 48 (code c) && Nat.leb (code c) 57)%bool.
Definition isAlnum (c : ascii) : bool := (isLetter c || isDigit c)%bool.
(** [\s] on the ASCII range: tab, line feed, vertical tab, form feed,
    carriage return, space. *)
Definition isSpace (c : ascii) : bool :=
  (Nat.leb 9 (code c) && Nat.leb (code c) 13 || Nat.eqb (code c) 32)%bool.

Definition lowerChar (c : ascii) : ascii :=
  if isUpper c then ascii_of_nat (code c + 32) else c.

(** [String.prototype.toLowerCase] *)
Fixpoint toLowerCase (s : string) : string :=
  match s with
  | EmptyString => EmptyString
  | String c r => String (lowerChar c) (toLowerCase r)
  end.

Fixpoint forallb (p : ascii -> bool) (s : string) : bool :=
  match s with
  | EmptyString => true
  | String c r => (p c && forallb p r)%bool
  end.

(** [s.startsWith(p)] *)
Fixpoint startsWith (p s : string) : bool :=
  match p with
  | EmptyString => true
  | String c p' =>
      match s with
      | EmptyString => false
      | String d s' => (Ascii.eqb c d && startsWith p' s')%bool
      end
  end.

(** [s.includes(sub)] *)
Fixpoint includes (sub s : string) : bool :=
  (startsWith sub s ||
     match s with
     | EmptyString => false
     | String _ s' => includes sub s'
     end)%bool.

(** [s.split(":")] read at its last index: the text after the last colon
    (the whole string when it has none). *)
Fixpoint lastSegment (s : string) : string :=
  match s with
  | EmptyString => EmptyString
  | String c r =>
      if includes ":" r then lastSegment r
      else if Ascii.eqb c ":" then r else s
  end.

(** Glob matching as Redis [SCAN ... MATCH] does it, for patterns whose only
    special character is the star (the patterns of this file are a constant
    prefix, a star, and names or tokens). *)
Fixpoint glob (p s : string) : bool :=
  match p with
  | EmptyString => match s with EmptyString => true | _ => false end
  | String c p' =>
      if Ascii.eqb c "*" then
        (fix star (t : string) : bool :=
           (glob p' t ||
              match t with
              | EmptyString => false
              | String _ t' => star t'
              end)%bool) s
      else
        match s with
        | EmptyString => false
        | String d s' => (Ascii.eqb c d && glob p' s')%bool
        end
  end.

(** [s.substring(n)] *)
Fixpoint drop (n : nat) (s : string) : string :=
  match n, s with
  | O, _ => s
  | S n', String _ r => drop n' r
  | S _, EmptyString => EmptyString
  end.

(** The maximal run of non-space characters at the head of [s], and what
    follows it. *)
Fixpoint spanNonSpace (s : string) : string * string :=
  match s with
  | EmptyString => (EmptyString, EmptyString)
  | String c r =>
      if isSpace c then (EmptyString, s)
      else let '(a, b) := spanNonSpace r in (String c a, b)
  end.

End Str.

(* ===================================================================== *)
(** ** Constants of the source *)
(* ===================================================================== *)

Definition CHAT_ROOM_PREFIX := "chat:room:".
Definition CHAT_MESSAGES_PREFIX := "chat:messages:".
Definition CHAT_USERS_PREFIX := "chat:users:".
Definition CHAT_ROOM_USERS_PREFIX := "chat:room:users:".
Definition CHAT_ROOM_PRESENCE_PREFIX := "chat:presence:".

Definition USER_TTL_SECONDS : Z := 7776000.
Definition USER_EXPIRATION_TIME : Z := 7776000.
Definition ROOM_PRESENCE_TTL_SECONDS : Z := 86400.

Definition MAX_MESSAGE_LENGTH : nat := 1000.
Definition MAX_USERNAME_LENGTH : nat := 30.
Definition MIN_USERNAME_LENGTH : nat := 3.

Definition AUTH_TOKEN_PREFIX := "chat:token:".
Definition TOKEN_LENGTH : nat := 32.
Definition TOKEN_GRACE_PERIOD : Z := 86400 * 365.

Definition CHAT_BURST_PREFIX := "rl:chat:b:".
Definition CHAT_BURST_SHORT_WINDOW_SECONDS : Z := 10.
Definition CHAT_BURST_SHORT_LIMIT : Z := 3.
Definition CHAT_BURST_LONG_WINDOW_SECONDS : Z := 60.
Definition CHAT_BURST_LONG_LIMIT : Z := 20.
Definition CHAT_MIN_INTERVAL_SECONDS : Z := 2.

(* ===================================================================== *)
(** ** Data model *)
(* ===================================================================== *)

(** A chat message, [{id, roomId, username, content, timestamp}]. *)
Record message := Message {
  m_id : string;
  m_roomId : string;
  m_username : string;
  m_content : string;
  m_timestamp : Z
}.

(** A room record.  [r_type] is [None] when the stored object has no [type]
    field; [r_members] is [None] when it has no [members] array. *)
Record room := Room {
  r_id : string;
  r_name : string;
  r_type : option string;
  r_createdAt : Z;
  r_userCount : Z;
  r_members : option (list string)
}.

(** A user record, [{username, lastActive}]. *)
Record user := User {
  u_username : string;
  u_lastActive : Z
}.

(** The grace-period record, [{token, expiredAt}]. *)
Record lastToken := LastToken {
  lt_token : string;
  lt_expiredAt : Z
}.

(** An element of a message list: the JSON text of a message, or text that
    does not parse. *)
Inductive item :=
| MJson (m : message)
| MRaw (s : string).

(** What a key holds: a string, an integer, one of the records above, a JSON
    value of another shape ([VObj], which has none of the fields read in
    this file), a list, a set, a boolean, or [null] (a key that exists and
    reads [null]). *)
Inductive rvalue :=
| VStr (s : string)
| VNum (n : Z)
| VUser (u : user)
| VRoom (r : room)
| VLast (t : lastToken)
| VObj
| VList (l : list item)
| VSet (l : list string)
| VBool (b : bool)
| VNull.

Record entry := Entry {
  e_val : rvalue;
  e_exp : option Z
}.

Abbreviation store := (gmap string entry).

(** JavaScript truthiness of a value read from the store. *)
Definition truthy (v : option rvalue) : bool :=
  match v with
  | None => false
  | Some (VStr s) => negb (String.eqb s "")
  | Some (VNum n) => negb (Z.eqb n 0)
  | Some (VBool b) => b
  | Some VNull => false
  | Some _ => true
  end.

(** The white space that JSON allows around a value: space, tab, line feed
    and carriage return. *)
Definition isJsonSpace (c : ascii) : bool :=
  (Ascii.eqb c " " || Ascii.eqb c "009" || Ascii.eqb c "010" || Ascii.eqb c "013")%bool.

Fixpoint trimStart (s : string) : string :=
  match s with
  | EmptyString => EmptyString
  | String c r => if isJsonSpace c then trimStart r else s
  end.

Fixpoint trimEnd (s : string) : string :=
  match s with
  | EmptyString => EmptyString
  | String c r =>
      match trimEnd r with
      | EmptyString => if isJsonSpace c then EmptyString else String c EmptyString
      | r' => String c r'
      end
  end.

(** What the client reads back of a string that was written as a value
    ([redis.set(key, str)]): the stored text parsed as JSON when it parses,
    the text itself otherwise.  The texts [true], [false] and [null] come
    back as a boolean or [null], also with JSON white space around them.
    The text of a number comes back as a number only when it is the
    rendering of that number ([parsed.toString() !== obj] gives the text
    back), which a text as long as a token never is.  The strings written
    as values in this file are usernames, tokens and password hashes; a
    string that is the rendering of a number, or the text of a JSON string,
    array or object, is outside the domain (no username that
    [USERNAME_REGEX] accepts and no token of [generateAuthToken] is one). *)
Definition written (s : string) : rvalue :=
  let text := trimEnd (trimStart s) in
  if String.eqb text "true" then VBool true
  else if String.eqb text "false" then VBool false
  else if String.eqb text "null" then VNull
  else VStr s.

(** [JSON.parse(v)] of a value [v] that the client returned, as far as a
    field can be read from the result.  [JSON.parse] turns its argument into
    a string first: an object becomes the text [[object Object]], which
    throws; a string read from the store is text that the client did not
    parse, which throws too or, for a number too long to be rendered as it
    was written, gives a number, where no field is found; [None] for both.
    A number, a boolean and [null] come back as they are. *)
Definition JSON_parse (v : rvalue) : option rvalue :=
  match v with
  | VNum _ | VBool _ | VNull => Some v
  | _ => None
  end.

(* ===================================================================== *)
(** ** The store: a state monad in which a failed command throws *)
(* ===================================================================== *)

(** A computation runs on a store and yields the store it leaves together
    with its result, [None] when an exception propagates out of it. *)
Definition M (A : Type) : Type := store -> store * option A.

Definition ret {A} (a : A) : M A := fun s => (s, Some a).
Definition throw {A} : M A := fun s => (s, None).
Definition bind {A B} (m : M A) (k : A -> M B) : M B :=
  fun s => match m s with
           | (s', Some a) => k a s'
           | (s', None) => (s', None)
           end.
(** [try { m } catch { h }] *)
Definition catch {A} (m : M A) (h : M A) : M A :=
  fun s => match m s with
           | (s', None) => h s'
           | r => r
           end.

Declare Scope redis_scope.
Delimit Scope redis_scope with redis.
Notation "x <- m ;; k" := (bind m (fun x => k))
  (at level 100, m at next level, right associativity) : redis_scope.
Notation "m ;; k" := (bind m (fun _ => k))
  (at level 100, right associativity) : redis_scope.
Local Open Scope redis_scope.

Module Redis.

Definition live (now : Z) (e : entry) : bool :=
  match e_exp e with
  | None => true
  | Some t => now <? t
  end.

(** The entry a key has at [now], if any. *)
Definition peek (now : Z) (k : string) (s : store) : option entry :=
  match s !! k with
  | Some e => if live now e then Some e else None
  | None => None
  end.

Definition value (now : Z) (k : string) (s : store) : option rvalue :=
  e_val <$> peek now k s.

Definition expiry (now ex : Z) : option Z := Some (now + ex * 1000).

(** GET: fails on a list or a set. *)
Definition get (now : Z) (k : string) : M (option rvalue) :=
  fun s => match value now k s with
           | Some (VList _) | Some (VSet _) => (s, None)
           | v => (s, Some v)
           end.

Definition exists_ (now : Z) (k : string) : M bool :=
  fun s => (s, Some (bool_decide (is_Some (peek now k s)))).

(** SET key value [EX seconds] *)
Definition set (now : Z) (k : string) (v : rvalue) (ex : option Z) : M unit :=
  fun s => (<[k := Entry v (match ex with
                            | Some n => expiry now n
                            | None => None
                            end)]> s, Some tt).

(** SETNX: [true] when the key was written. *)
Definition setnx (now : Z) (k : string) (v : rvalue) : M bool :=
  fun s => match peek now k s with
           | Some _ => (s, Some false)
           | None => (<[k := Entry v None]> s, Some true)
           end.

(** DEL of one key: the number of keys removed. *)
Definition del (now : Z) (k : string) : M Z :=
  fun s => match peek now k s with
           | Some _ => (delete k s, Some 1)
           | None => (delete k s, Some 0)
           end.

(** DEL of several keys. *)
Fixpoint delMany (now : Z) (ks : list string) : M Z :=
  match ks with
  | [] => ret 0
  | k :: ks' => n <- del now k ;; m <- delMany now ks' ;; ret (n + m)
  end.

(** EXPIRE *)
Definition expire (now : Z) (k : string) (ex : Z) : M unit :=
  fun s => match peek now k s with
           | Some e => (<[k := Entry (e_val e) (expiry now ex)]> s, Some tt)
           | None => (s, Some tt)
           end.

(** INCR: a missing key counts from zero; fails on a value that is not an
    integer. *)
Definition incr (now : Z) (k : string) : M Z :=
  fun s => match peek now k s with
           | None => (<[k := Entry (VNum 1) None]> s, Some 1)
           | Some (Entry (VNum n) ex) =>
               (<[k := Entry (VNum (n + 1)) ex]> s, Some (n + 1))
           | Some _ => (s, None)
           end.

(** LPUSH *)
Definition lpush (now : Z) (k : string) (x : item) : M unit :=
  fun s => match peek now k s with
           | None => (<[k := Entry (VList [x]) None]> s, Some tt)
           | Some (Entry (VList l) ex) =>
               (<[k := Entry (VList (x :: l)) ex]> s, Some tt)
           | Some _ => (s, None)
           end.

(** LTRIM key 0 (n-1): keep the first [n] elements; an emptied list is
    removed. *)
Definition ltrim (now : Z) (k : string) (n : nat) : M unit :=
  fun s => match peek now k s with
           | None => (s, Some tt)
           | Some (Entry (VList l) ex) =>
               match take n l with
               | [] => (delete k s, Some tt)
               | l' => (<[k := Entry (VList l') ex]> s, Some tt)
               end
           | Some _ => (s, None)
           end.

(** LRANGE key 0 (n-1) *)
Definition lrange (now : Z) (k : string) (n : nat) : M (list item) :=
  fun s => match value now k s with
           | None => (s, Some [])
           | Some (VList l) => (s, Some (take n l))
           | Some _ => (s, None)
           end.

(** SMEMBERS *)
Definition smembers (now : Z) (k : string) : M (list string) :=
  fun s => match value now k s with
           | None => (s, Some [])
           | Some (VSet l) => (s, Some l)
           | Some _ => (s, None)
           end.

(** The keys present at [now]. *)
Definition keys (now : Z) (s : store) : list string :=
  filter (fun k => is_Some (peek now k s)) (map_to_list s).*1.

End Redis.

(** SCAN with MATCH, run to the end of the cursor: the keys present that
    match the pattern. *)
Definition scan (now : Z) (pattern : string) : M (list string) :=
  fun s => (s, Some (filter (fun k => Str.glob pattern k = true) (Redis.keys now s))).

(* ===================================================================== *)
(** ** Responses *)
(* ===================================================================== *)

Inductive body :=
| BError (error : string)
| BToken (token : string)
| BMessage (m : message)
| BMessages (ms : list message)
| BSuccess
| BLogout (deletedCount : Z)
| BRoom (r : rvalue) (userCount : Z)
| BUsers (users : list string).

Record response := Response {
  status : Z;
  payload : body
}.

Definition createErrorResponse (msg : string) (st : Z) : response :=
  Response st (BError msg).

(* ===================================================================== *)
(** ** Token manager *)
(* ===================================================================== *)

Definition hexDigit (n : N) : ascii :=
  match n with
  | 0 => "0" | 1 => "1" | 2 => "2" | 3 => "3" | 4 => "4" | 5 => "5"
  | 6 => "6" | 7 => "7" | 8 => "8" | 9 => "9" | 10 => "a" | 11 => "b"
  | 12 => "c" | 13 => "d" | 14 => "e" | _ => "f"
  end%N%char.

(** [Buffer.prototype.toString("hex")] *)
Fixpoint toHex (bs : list Byte.byte) : string :=
  match bs with
  | [] => EmptyString
  | b :: r =>
      String (hexDigit (Byte.to_N b / 16))
        (String (hexDigit (Byte.to_N b mod 16)) (toHex r))
  end.

(** [generateAuthToken]: [rnd] is [crypto.randomBytes(TOKEN_LENGTH)]. *)
Definition generateAuthToken (rnd : list Byte.byte) : string := toHex rnd.

(** [generateId]: [rnd] is [crypto.randomBytes(16)]. *)
Definition generateId (rnd : list Byte.byte) : string := toHex rnd.

Definition getTokenKey (token : string) : string :=
  AUTH_TOKEN_PREFIX +:+ token.

Definition getUserTokenKey (username token : string) : string :=
  AUTH_TOKEN_PREFIX +:+ "user:" +:+ Str.toLowerCase username +:+ ":" +:+ token.

Definition getUserTokenPattern (username : string) : string :=
  AUTH_TOKEN_PREFIX +:+ "user:" +:+ Str.toLowerCase username +:+ ":*".

Definition legacyTokenKey (normalizedUsername : string) : string :=
  AUTH_TOKEN_PREFIX +:+ normalizedUsername.

Definition lastTokenKey (normalizedUsername : string) : string :=
  AUTH_TOKEN_PREFIX +:+ "last:" +:+ normalizedUsername.

(** [storeToken] *)
Definition storeToken (now : Z) (username token : string) : M unit :=
  if String.eqb token "" then ret tt
  else
    let normalizedUsername := Str.toLowerCase username in
    Redis.set now (getUserTokenKey normalizedUsername token) (VNum now)
      (Some USER_EXPIRATION_TIME) ;;
    Redis.set now (getTokenKey token) (written normalizedUsername)
      (Some USER_EXPIRATION_TIME).

(** [JSON.stringify] of a character inside a string. *)
Definition jsonEscape (c : ascii) : string :=
  if Ascii.eqb c "034" then String "\" (String "034" EmptyString)
  else if Ascii.eqb c "\" then "\\"
  else if Ascii.eqb c "008" then "\b"
  else if Ascii.eqb c "009" then "\t"
  else if Ascii.eqb c "010" then "\n"
  else if Ascii.eqb c "012" then "\f"
  else if Ascii.eqb c "013" then "\r"
  else if Nat.ltb (Str.code c) 32 then
    "\u00" +:+ String (hexDigit (N.of_nat (Str.code c) / 16))
                (String (hexDigit (N.of_nat (Str.code c) mod 16)) EmptyString)
  else String c EmptyString.

Fixpoint jsonChars (s : string) : string :=
  match s with
  | EmptyString => EmptyString
  | String c r => jsonEscape c +:+ jsonChars r
  end.

(** [JSON.stringify] of a string. *)
Definition jsonString (s : string) : string :=
  String "034" (jsonChars s +:+ String "034" EmptyString).

Fixpoint jsonElements (l : list string) : string :=
  match l with
  | [] => EmptyString
  | [x] => jsonString x
  | x :: r => jsonString x +:+ "," +:+ jsonElements r
  end.

(** [JSON.stringify] of an array of strings. *)
Definition JSON_stringify (l : list string) : string :=
  "[" +:+ jsonElements l +:+ "]".

(** [deleteToken].  The fallback calls [redis.del(keysToDelete)] with the
    array itself, not its elements: the client sends the one argument as its
    JSON text, so the key deleted, if there is one, is the key of that
    name. *)
Definition deleteToken (now : Z) (token : string) : M unit :=
  if String.eqb token "" then ret tt
  else
    let tokenKey := getTokenKey token in
    username <- Redis.get now tokenKey ;;
    Redis.del now tokenKey ;;
    if truthy username then
      match username with
      | Some (VStr u) => Redis.del now (getUserTokenKey u token) ;; ret tt
      | _ => throw (* [username.toLowerCase] is not a function *)
      end
    else
      keysToDelete <- scan now (AUTH_TOKEN_PREFIX +:+ "user:*:" +:+ token) ;;
      match keysToDelete with
      | [] => ret tt
      | _ => Redis.del now (JSON_stringify keysToDelete) ;; ret tt
      end.

(** The username a stored mapping names, lower-cased: a string, or an object
    with a [username] field. *)
Definition mappedLowerOf (v : option rvalue) : option string :=
  match v with
  | Some (VStr m) => Some (Str.toLowerCase m)
  | Some (VUser u) => Some (Str.toLowerCase (u_username u))
  | _ => None
  end.

(** The pipeline of [deleteAllUserTokens], part 1: for each user-scoped key,
    delete it and the flat mapping of its token. *)
Fixpoint delUserTokenKeys (now : Z) (ks : list string) : M unit :=
  match ks with
  | [] => ret tt
  | key :: ks' =>
      Redis.del now key ;;
      Redis.del now (getTokenKey (Str.lastSegment key)) ;;
      delUserTokenKeys now ks'
  end.

(** The loop of [deleteAllUserTokens], part 2: the flat mappings that name
    the user. *)
Fixpoint collectOldTokenKeys (now : Z) (normalizedUsername : string)
    (found : list string) : M (list string) :=
  match found with
  | [] => ret []
  | key :: rest =>
      if (Str.includes (":" +:+ normalizedUsername +:+ ":") key
          || Str.includes ":user:" key)%bool then
        collectOldTokenKeys now normalizedUsername rest
      else if Str.startsWith (AUTH_TOKEN_PREFIX +:+ "last:") key then
        collectOldTokenKeys now normalizedUsername rest
      else if String.eqb key (legacyTokenKey normalizedUsername) then
        collectOldTokenKeys now normalizedUsername rest
      else
        mappedUser <- Redis.get now key ;;
        more <- collectOldTokenKeys now normalizedUsername rest ;;
        if bool_decide (mappedLowerOf mappedUser = Some normalizedUsername)
        then ret (key :: more) else ret more
  end.

(** [deleteAllUserTokens] *)
Definition deleteAllUserTokens (now : Z) (username : string) : M Z :=
  let normalizedUsername := Str.toLowerCase username in
  userTokenKeys <- scan now (getUserTokenPattern normalizedUsername) ;;
  delUserTokenKeys now userTokenKeys ;;
  let deletedCount1 := Z.of_nat (length userTokenKeys) in
  found <- scan now (AUTH_TOKEN_PREFIX +:+ "*") ;;
  oldTokenKeysToDelete <- collectOldTokenKeys now normalizedUsername found ;;
  deleted <- Redis.delMany now oldTokenKeysToDelete ;;
  legacyDeleted <- Redis.del now (legacyTokenKey normalizedUsername) ;;
  lastDeleted <- Redis.del now (lastTokenKey normalizedUsername) ;;
  ret (deletedCount1 + deleted + legacyDeleted + lastDeleted).

(** [v === token] for a string [token]. *)
Definition isString (token : string) (v : option rvalue) : bool :=
  match v with
  | Some (VStr t) => String.eqb t token
  | _ => false
  end.

(** [getUsernameForToken] *)
Definition getUsernameForToken (now : Z) (token : string) : M (option rvalue) :=
  if String.eqb token "" then ret None else Redis.get now (getTokenKey token).

Record authResult := AuthResult {
  valid : bool;
  expired : option bool
}.

Definition authInvalid : authResult := AuthResult false None.
Definition authValid : authResult := AuthResult true (Some false).
Definition authExpired : authResult := AuthResult true (Some true).

(** [validateAuth]; an empty string stands for a missing username or token. *)
Definition validateAuth (now : Z) (username token : string)
    (allowExpired : bool) : M authResult :=
  if (String.eqb username "" || String.eqb token "")%bool then ret authInvalid
  else
    let normalizedUsername := Str.toLowerCase username in
    (* 1. user-scoped token *)
    let userTokenKey := getUserTokenKey normalizedUsername token in
    userTokenExists <- Redis.exists_ now userTokenKey ;;
    if userTokenExists : bool then
      Redis.expire now userTokenKey USER_TTL_SECONDS ;;
      Redis.expire now (getTokenKey token) USER_TTL_SECONDS ;;
      ret authValid
    else
      (* 2. flat mapping token -> username *)
      mappedUsername <- getUsernameForToken now token ;;
      if bool_decide (mappedLowerOf mappedUsername = Some normalizedUsername)
      then
        Redis.expire now (getTokenKey token) USER_TTL_SECONDS ;;
        Redis.set now userTokenKey (VNum now) (Some USER_TTL_SECONDS) ;;
        ret authValid
      else
        (* 3. legacy single token, username -> token *)
        let legacyKey := legacyTokenKey normalizedUsername in
        storedToken <- Redis.get now legacyKey ;;
        if isString token storedToken then
          Redis.expire now legacyKey USER_TTL_SECONDS ;;
          Redis.set now userTokenKey (VNum now) (Some USER_TTL_SECONDS) ;;
          ret authValid
        else
          (* 4. grace period *)
          if allowExpired then
            lastTokenData <- Redis.get now (lastTokenKey normalizedUsername) ;;
            if truthy lastTokenData then
              match lastTokenData ≫= JSON_parse with
              | Some (VLast lt) =>
                  let gracePeriodEnd := lt_expiredAt lt + TOKEN_GRACE_PERIOD * 1000 in
                  if (String.eqb (lt_token lt) token && (now <? gracePeriodEnd))%bool
                  then ret authExpired
                  else ret authInvalid
              | _ =>
                  (* no [token] field, or [JSON.parse] threw and the error
                     was logged *)
                  ret authInvalid
              end
            else ret authInvalid
          else ret authInvalid.

(** [storeLastValidToken] *)
Definition storeLastValidToken (now : Z) (username token : string)
    (expiredAtMs ttlSeconds : Z) : M unit :=
  Redis.set now (lastTokenKey (Str.toLowerCase username))
    (VLast (LastToken token expiredAtMs)) (Some ttlSeconds).

(** [handleGenerateToken]; the [force] field of the body only changes what is
    logged. *)
Definition handleGenerateToken (now : Z) (rnd : list Byte.byte)
    (originalUsername : string) : M response :=
  if String.eqb originalUsername "" then
    ret (createErrorResponse "Username is required" 400)
  else
    let username := Str.toLowerCase originalUsername in
    catch
      (userData <- Redis.get now (CHAT_USERS_PREFIX +:+ username) ;;
       if negb (truthy userData) then
         ret (createErrorResponse "User not found" 404)
       else
         let tokenKey := legacyTokenKey username in
         existingToken <- Redis.get now tokenKey ;;
         let authToken := generateAuthToken rnd in
         Redis.set now tokenKey (written authToken) (Some USER_EXPIRATION_TIME) ;;
         storeToken now username authToken ;;
         storeLastValidToken now username authToken
           (now + USER_EXPIRATION_TIME * 1000)
           (USER_EXPIRATION_TIME + TOKEN_GRACE_PERIOD) ;;
         ret (Response 201 (BToken authToken)))
      (ret (createErrorResponse "Failed to generate token" 500)).

(** [handleRefreshToken] *)
Definition handleRefreshToken (now : Z) (rnd : list Byte.byte)
    (originalUsername oldToken : string) : M response :=
  if (String.eqb originalUsername "" || String.eqb oldToken "")%bool then
    ret (createErrorResponse "Username and oldToken are required" 400)
  else
    let username := Str.toLowerCase originalUsername in
    catch
      (userData <- Redis.get now (CHAT_USERS_PREFIX +:+ username) ;;
       if negb (truthy userData) then
         ret (createErrorResponse "User not found" 404)
       else
         validationResult <- validateAuth now username oldToken true ;;
         if negb (valid validationResult) then
           ret (createErrorResponse "Invalid authentication token" 401)
         else
           storeLastValidToken now username oldToken now TOKEN_GRACE_PERIOD ;;
           deleteToken now oldToken ;;
           let authToken := generateAuthToken rnd in
           Redis.set now (legacyTokenKey username) (written authToken)
             (Some USER_EXPIRATION_TIME) ;;
           storeToken now username authToken ;;
           ret (Response 201 (BToken authToken)))
      (ret (createErrorResponse "Failed to refresh token" 500)).

(** [handleLogoutAllDevices] *)
Definition handleLogoutAllDevices (now : Z) (username : string) : M response :=
  catch
    (deletedCount <- deleteAllUserTokens now username ;;
     ret (Response 200 (BLogout deletedCount)))
    (ret (createErrorResponse "Failed to logout all devices" 500)).

(* ===================================================================== *)
(** ** Input validation and sanitization *)
(* ===================================================================== *)

Definition isSeparator (c : ascii) : bool :=
  (Ascii.eqb c "-" || Ascii.eqb c "_")%bool.

(** The repeated group of [USERNAME_REGEX]: an alphanumeric, or a hyphen or
    underscore that an alphanumeric follows. *)
Fixpoint usernameTail (s : string) : bool :=
  match s with
  | EmptyString => true
  | String c r =>
      ((Str.isAlnum c
        || (isSeparator c
            && match r with
               | String d _ => Str.isAlnum d
               | EmptyString => false
               end))
       && usernameTail r)%bool
  end.

(** [/^[a-z](?:[a-z0-9]|[-_](?=[a-z0-9])){2,29}$/i] *)
Definition USERNAME_REGEX (s : string) : bool :=
  match s with
  | EmptyString => false
  | String c r =>
      (Str.isLetter c && usernameTail r
       && Nat.leb 2 (String.length r) && Nat.leb (String.length r) 29)%bool
  end.

(** [/^[a-z0-9]+$/i] *)
Definition ROOM_ID_REGEX (s : string) : bool :=
  (negb (String.eqb s "") && Str.forallb Str.isAlnum s)%bool.

Definition escapeChar (c : ascii) : string :=
  if Ascii.eqb c "&" then "&amp;"
  else if Ascii.eqb c "<" then "&lt;"
  else if Ascii.eqb c ">" then "&gt;"
  else if Ascii.eqb c "034" then "&quot;" (* the double quote *)
  else if Ascii.eqb c "'" then "&#39;"
  else String c EmptyString.

(** [escapeHTML] *)
Fixpoint escapeHTML (str : string) : string :=
  match str with
  | EmptyString => EmptyString
  | String c r => escapeChar c +:+ escapeHTML r
  end.

(** The [bad-words] filter, an external collaborator. *)
Class ProfanityFilter := {
  clean : string -> string;
  isProfane : string -> bool
}.

(** A match of [/(https?:\/\/[^\s]+)/] at the head of [s]: the URL and the
    text after it. *)
Definition urlAt (s : string) : option (string * string) :=
  let attempt (scheme : string) :=
    if Str.startsWith scheme s then
      let '(rest, after) := Str.spanNonSpace (Str.drop (String.length scheme) s) in
      if String.eqb rest "" then None else Some (scheme +:+ rest, after)
    else None in
  match attempt "http://" with
  | Some r => Some r
  | None => attempt "https://"
  end.

(** The matches of the URL pattern from left to right, each with the text
    between it and the match before, and the text after the last match.
    [fuel] bounds the characters read. *)
Fixpoint urlMatches (fuel : nat) (before s : string)
    : list (string * string) * string :=
  match fuel with
  | O => ([], before +:+ s)
  | S fuel' =>
      match urlAt s with
      | Some (url, after) =>
          let '(ms, tail) := urlMatches fuel' EmptyString after in
          ((before, url) :: ms, tail)
      | None =>
          match s with
          | EmptyString => ([], before)
          | String c r => urlMatches fuel' (before +:+ String c EmptyString) r
          end
      end
  end.

Section Sanitize.
Context `{ProfanityFilter}.

(** [filterProfanityPreservingUrls] *)
Definition filterProfanityPreservingUrls (content : string) : string :=
  let '(ms, tail) := urlMatches (S (String.length content)) EmptyString content in
  match ms with
  | [] => clean content
  | _ =>
      fold_right (fun '(beforeUrl, url) acc => clean beforeUrl +:+ url +:+ acc)
        (if String.eqb tail "" then EmptyString else clean tail) ms
  end.

(** What [handleSendMessage] and [handleGenerateRyoReply] store as content. *)
Definition sanitize (content : string) : string :=
  escapeHTML (filterProfanityPreservingUrls content).
End Sanitize.

(** [parseInt] of a string in base ten: leading white space, a sign, then
    digits; [None] is [NaN].  (JavaScript reads text that starts with [0x] in
    base sixteen; numbers come back from the store as [VNum].) *)
Fixpoint digitsPrefix (acc : option Z) (s : string) : option Z :=
  match s with
  | String c r =>
      if Str.isDigit c then
        digitsPrefix (Some (10 * default 0 acc + Z.of_nat (Str.code c - 48))) r
      else acc
  | EmptyString => acc
  end.

Fixpoint skipSpaces (s : string) : string :=
  match s with
  | String c r => if Str.isSpace c then skipSpaces r else s
  | EmptyString => s
  end.

Definition parseIntString (s : string) : option Z :=
  match skipSpaces s with
  | String c r =>
      if Ascii.eqb c "-" then Z.opp <$> digitsPrefix None r
      else if Ascii.eqb c "+" then digitsPrefix None r
      else digitsPrefix None (String c r)
  | EmptyString => None
  end.

(** [parseInt(v)] for a value read from the store. *)
Definition parseInt (v : rvalue) : option Z :=
  match v with
  | VNum n => Some n
  | VStr s => parseIntString s
  | _ => None
  end.

(* ===================================================================== *)
(** ** Presence *)
(* ===================================================================== *)

Definition roomKey (roomId : string) : string := CHAT_ROOM_PREFIX +:+ roomId.
Definition messagesKey (roomId : string) : string := CHAT_MESSAGES_PREFIX +:+ roomId.
Definition userKey (username : string) : string := CHAT_USERS_PREFIX +:+ username.
Definition roomUsersKey (roomId : string) : string := CHAT_ROOM_USERS_PREFIX +:+ roomId.
Definition presenceKey (roomId username : string) : string :=
  CHAT_ROOM_PRESENCE_PREFIX +:+ roomId +:+ ":" +:+ username.
Definition presencePattern (roomId : string) : string :=
  CHAT_ROOM_PRESENCE_PREFIX +:+ roomId +:+ ":*".

(** [setRoomPresence] *)
Definition setRoomPresence (now : Z) (roomId username : string) : M unit :=
  Redis.set now (presenceKey roomId username) (VNum now)
    (Some ROOM_PRESENCE_TTL_SECONDS).

(** [refreshRoomPresence] *)
Definition refreshRoomPresence (now : Z) (roomId username : string) : M unit :=
  ex <- Redis.exists_ now (presenceKey roomId username) ;;
  if ex : bool then
    Redis.expire now (presenceKey roomId username) ROOM_PRESENCE_TTL_SECONDS
  else ret tt.

(** [getActiveUsersInRoom] *)
Definition getActiveUsersInRoom (now : Z) (roomId : string) : M (list string) :=
  ks <- scan now (presencePattern roomId) ;;
  ret (Str.lastSegment <$> ks).

(** [getActiveUsersAndPrune] *)
Definition getActiveUsersAndPrune (now : Z) (roomId : string) : M (list string) :=
  activeUsers <- getActiveUsersInRoom now roomId ;;
  oldSetMembers <- Redis.smembers now (roomUsersKey roomId) ;;
  match oldSetMembers with
  | [] => ret activeUsers
  | _ => Redis.del now (roomUsersKey roomId) ;; ret activeUsers
  end.

(** [{ ...roomData, userCount }] *)
Definition withUserCount (v : rvalue) (userCount : Z) : rvalue :=
  match v with
  | VRoom r =>
      VRoom (Room (r_id r) (r_name r) (r_type r) (r_createdAt r) userCount (r_members r))
  | VNum _ | VBool _ | VNull => VObj
  | other => other
  end.

(** [refreshRoomUserCount].  Text that does not parse reads as [null]. *)
Definition refreshRoomUserCount (now : Z) (roomId : string) : M Z :=
  activeUsers <- getActiveUsersAndPrune now roomId ;;
  let userCount := Z.of_nat (length activeUsers) in
  roomDataRaw <- Redis.get now (roomKey roomId) ;;
  match roomDataRaw with
  | Some (VStr _) | None => ret userCount
  | Some v =>
      if truthy (Some v) then
        Redis.set now (roomKey roomId) (withUserCount v userCount) None ;;
        ret userCount
      else ret userCount
  end.

(** The [id] field of a stored object, as the template literal of the key
    renders it. *)
Definition idOf (v : rvalue) : string :=
  match v with
  | VRoom r => r_id r
  | _ => "undefined"
  end.

(** The writes of [getDetailedRooms]: for every room record found, the legacy
    membership set of the room is pruned.  The records are processed
    independently of each other; one that fails does not stop the rest. *)
Fixpoint pruneRooms (now : Z) (ks : list string) : M unit :=
  match ks with
  | [] => ret tt
  | k :: ks' =>
      catch
        (raw <- Redis.get now k ;;
         match raw with
         | Some (VStr s) =>
             if String.eqb s "" then ret tt else throw
         | Some v =>
             if truthy (Some v) then getActiveUsersAndPrune now (idOf v) ;; ret tt
             else ret tt
         | None => ret tt
         end)
        (ret tt) ;;
      pruneRooms now ks'
  end.

Definition getDetailedRooms (now : Z) : M unit :=
  ks <- scan now (CHAT_ROOM_PREFIX +:+ "*") ;;
  pruneRooms now ks.

(** [broadcastRoomsUpdated]: failures are caught and logged. *)
Definition broadcastRoomsUpdated (now : Z) : M unit :=
  catch (getDetailedRooms now) (ret tt).

(** [broadcastToSpecificUsers] *)
Definition broadcastToSpecificUsers (now : Z) (usernames : list string) : M unit :=
  match usernames with
  | [] => ret tt
  | _ => catch (getDetailedRooms now) (ret tt)
  end.

(* ===================================================================== *)
(** ** Message store and burst limiter *)
(* ===================================================================== *)

(** What [ensureUserExists] throws itself. *)
Inductive ensureError :=
| ErrProfane      (* "Username contains inappropriate language" *)
| ErrTooShort
| ErrTooLong
| ErrFormat
| ErrRace.        (* "Failed to ensure user existence due to race condition." *)

(** [parseUserData]: text that does not parse reads as [null]. *)
Definition parseUserData (data : option rvalue) : option rvalue :=
  match data with
  | Some (VStr _) => None
  | d => if truthy d then d else None
  end.

(** [{ ...userData, lastActive }] *)
Definition withLastActive (v : rvalue) (lastActive : Z) : rvalue :=
  match v with
  | VUser u => VUser (User (u_username u) lastActive)
  | VNum _ | VBool _ | VNull => VObj
  | other => other
  end.

Definition isPublicRoom (roomRaw : rvalue) : bool :=
  match roomRaw with
  | VRoom r =>
      match r_type r with
      | None => true
      | Some t => (String.eqb t "" || String.eqb t "public")%bool
      end
  | _ => true
  end.

Definition shortKey (roomId username : string) : string :=
  CHAT_BURST_PREFIX +:+ "s:" +:+ roomId +:+ ":" +:+ username.
Definition longKey (roomId username : string) : string :=
  CHAT_BURST_PREFIX +:+ "l:" +:+ roomId +:+ ":" +:+ username.
Definition lastKey (roomId username : string) : string :=
  CHAT_BURST_PREFIX +:+ "last:" +:+ roomId +:+ ":" +:+ username.

Definition nowSeconds (now : Z) : Z := now / 1000.

(** The last check of the burst limiter: the minimum interval between two
    messages, on the clock in whole seconds. *)
Definition intervalCheck (now : Z) (roomId username : string) : M (option response) :=
  lastSent <- Redis.get now (lastKey roomId username) ;;
  if (truthy lastSent
      && match lastSent ≫= parseInt with
         | Some l => nowSeconds now - l <? CHAT_MIN_INTERVAL_SECONDS
         | None => false
         end)%bool
  then
    ret (Some (createErrorResponse
                 "Please wait a moment before sending another message." 429))
  else
    Redis.set now (lastKey roomId username) (VNum (nowSeconds now))
      (Some CHAT_BURST_LONG_WINDOW_SECONDS) ;;
    ret None.

(** The body of the first [try] of [handleSendMessage]: the burst limiter.
    The result is the response of an early [return], if any. *)
Definition burstLimit (now : Z) (roomId username : string) : M (option response) :=
  roomRaw <- Redis.get now (roomKey roomId) ;;
  if negb (truthy roomRaw) then
    ret (Some (createErrorResponse "Room not found" 404))
  else if negb (isPublicRoom (default VObj roomRaw)) then ret None
  else
    shortCount <- Redis.incr now (shortKey roomId username) ;;
    (if shortCount =? 1
     then Redis.expire now (shortKey roomId username) CHAT_BURST_SHORT_WINDOW_SECONDS
     else ret tt) ;;
    if CHAT_BURST_SHORT_LIMIT <? shortCount then
      ret (Some (createErrorResponse
                   "You're sending messages too quickly. Please slow down." 429))
    else
      longCount <- Redis.incr now (longKey roomId username) ;;
      (if longCount =? 1
       then Redis.expire now (longKey roomId username) CHAT_BURST_LONG_WINDOW_SECONDS
       else ret tt) ;;
      if CHAT_BURST_LONG_LIMIT <? longCount then
        ret (Some (createErrorResponse
                     "Too many messages in a short period. Please wait a moment." 429))
      else intervalCheck now roomId username.

(** [JSON.parse] of a list element, [null] when it fails. *)
Definition parseItem (x : item) : option message :=
  match x with
  | MJson m => Some m
  | MRaw _ => None
  end.

Section MessageStore.
Context `{ProfanityFilter}.

(** [ensureUserExists] *)
Definition ensureUserExists (now : Z) (username : string)
    : M (ensureError + option rvalue) :=
  if isProfane username then ret (inl ErrProfane)
  else if Nat.ltb (String.length username) MIN_USERNAME_LENGTH then ret (inl ErrTooShort)
  else if Nat.ltb MAX_USERNAME_LENGTH (String.length username) then ret (inl ErrTooLong)
  else if negb (USERNAME_REGEX username) then ret (inl ErrFormat)
  else
    userData <- Redis.get now (userKey username) ;;
    if truthy userData then ret (inr (parseUserData userData))
    else
      let newUser := VUser (User username now) in
      created <- Redis.setnx now (userKey username) newUser ;;
      if created : bool then ret (inr (Some newUser))
      else
        userData' <- Redis.get now (userKey username) ;;
        if truthy userData' then ret (inr (parseUserData userData'))
        else ret (inl ErrRace).

(** The second [try] of [handleSendMessage]. *)
Definition storeMessage (now : Z) (rnd : list Byte.byte)
    (roomId username content : string) : M response :=
  roomExists <- Redis.exists_ now (roomKey roomId) ;;
  if negb roomExists then ret (createErrorResponse "Room not found" 404)
  else
    ensured <- catch (r <- ensureUserExists now username ;; ret (Some r)) (ret None) ;;
    match ensured with
    | Some (inl ErrProfane) =>
        ret (createErrorResponse "Username contains inappropriate language" 400)
    | Some (inl ErrRace) =>
        ret (createErrorResponse
               "Failed to send message due to temporary issue, please try again." 500)
    | Some (inl _) | None | Some (inr None) =>
        ret (createErrorResponse "Failed to verify or create user" 500)
    | Some (inr (Some userData)) =>
        if Nat.ltb MAX_MESSAGE_LENGTH (String.length content) then
          ret (createErrorResponse
                 "Message exceeds maximum length of 1000 characters" 400)
        else
          lastMessagesRaw <- Redis.lrange now (messagesKey roomId) 1 ;;
          if match head lastMessagesRaw ≫= parseItem with
             | Some lastMsgObj =>
                 (String.eqb (m_username lastMsgObj) username
                  && String.eqb (m_content lastMsgObj) content)%bool
             | None => false
             end
          then ret (createErrorResponse "Duplicate message detected" 400)
          else
            let message := Message (generateId rnd) roomId username content now in
            Redis.lpush now (messagesKey roomId) (MJson message) ;;
            Redis.ltrim now (messagesKey roomId) 100 ;;
            Redis.set now (userKey username) (withLastActive userData now) None ;;
            Redis.expire now (userKey username) USER_EXPIRATION_TIME ;;
            refreshRoomPresence now roomId username ;;
            ret (Response 201 (BMessage message))
    end.

(** [handleSendMessage]; the fields of the body are present strings. *)
Definition handleSendMessage (now : Z) (rnd : list Byte.byte)
    (roomId originalUsername originalContent : string) : M response :=
  let username := Str.toLowerCase originalUsername in
  if negb (USERNAME_REGEX username) then
    ret (createErrorResponse
           "Invalid username: use 3-30 letters/numbers; '-' or '_' allowed between characters; no spaces or symbols"
           400)
  else if negb (ROOM_ID_REGEX roomId) then
    ret (createErrorResponse "Invalid room ID format" 400)
  else if String.eqb originalContent "" then
    ret (createErrorResponse "Content is required" 400)
  else
    let content := sanitize originalContent in
    limited <- catch (burstLimit now roomId username) (ret None) ;;
    match limited with
    | Some r => ret r
    | None =>
        catch (storeMessage now rnd roomId username content)
          (ret (createErrorResponse
                  "Failed to send message due to an internal error" 500))
    end.

(** [handleGenerateRyoReply]: [replyText] is what [generateText] returned,
    [None] when it failed.  The store commands are outside any [try]: a
    failure propagates to the caller. *)
Definition handleGenerateRyoReply (now : Z) (rnd : list Byte.byte)
    (roomId prompt : string) (replyText : option string) : M response :=
  if negb (ROOM_ID_REGEX roomId) then
    ret (createErrorResponse "Invalid room ID format" 400)
  else if String.eqb prompt "" then
    ret (createErrorResponse "Prompt is required" 400)
  else
    roomExists <- Redis.exists_ now (roomKey roomId) ;;
    if negb roomExists then ret (createErrorResponse "Room not found" 404)
    else
      match replyText with
      | None => ret (createErrorResponse "Failed to generate reply" 500)
      | Some text =>
          let message := Message (generateId rnd) roomId "ryo" (sanitize text) now in
          Redis.lpush now (messagesKey roomId) (MJson message) ;;
          Redis.ltrim now (messagesKey roomId) 100 ;;
          ret (Response 201 (BMessage message))
      end.
End MessageStore.

(** [handleGetMessages] *)
Definition handleGetMessages (now : Z) (roomId : string) : M response :=
  catch
    (if negb (ROOM_ID_REGEX roomId) then throw
     else
       roomExists <- Redis.exists_ now (roomKey roomId) ;;
       if negb roomExists then ret (createErrorResponse "Room not found" 404)
       else
         messagesStrings <- Redis.lrange now (messagesKey roomId) 20 ;;
         ret (Response 200 (BMessages (omap parseItem messagesStrings))))
    (ret (createErrorResponse "Failed to fetch messages" 500)).

(* ===================================================================== *)
(** ** Room registry: leaving and deleting *)
(* ===================================================================== *)

Definition isPrivate (v : rvalue) : bool :=
  match v with
  | VRoom r =>
      match r_type r with
      | Some t => String.eqb t "private"
      | None => false
      end
  | _ => false
  end.

Definition membersOf (v : rvalue) : option (list string) :=
  match v with
  | VRoom r => r_members r
  | _ => None
  end.

(** [members.filter((m) => m !== username)] *)
Definition removeMember (username : string) (members : list string) : list string :=
  List.filter (fun m => negb (String.eqb m username)) members.

(** The pipeline that purges a room: record, messages, legacy membership set
    and every presence key found by the scan. *)
Definition purgeRoom (now : Z) (roomId : string) : M unit :=
  presenceKeys <- scan now (presencePattern roomId) ;;
  Redis.del now (roomKey roomId) ;;
  Redis.del now (messagesKey roomId) ;;
  Redis.del now (roomUsersKey roomId) ;;
  Redis.delMany now presenceKeys ;;
  ret tt.

(** [{ ...roomData, members, userCount }] *)
Definition withMembers (v : rvalue) (members : list string) (userCount : Z) : rvalue :=
  match v with
  | VRoom r =>
      VRoom (Room (r_id r) (r_name r) (r_type r) (r_createdAt r) userCount (Some members))
  | other => other
  end.

(** [handleDeleteRoom]; [username] is the authenticated user. *)
Definition handleDeleteRoom (now : Z) (roomId username : string) : M response :=
  catch
    (roomDataRaw <- Redis.get now (roomKey roomId) ;;
     if negb (truthy roomDataRaw) then ret (createErrorResponse "Room not found" 404)
     else
       match roomDataRaw with
       | Some (VStr _) | None => throw (* [JSON.parse] fails *)
       | Some roomData =>
           let lower := Str.toLowerCase username in
           if isPrivate roomData then
             match membersOf roomData with
             | None =>
                 ret (createErrorResponse "Unauthorized - not a member of this room" 403)
             | Some members =>
                 if negb (bool_decide (lower ∈ members)) then
                   ret (createErrorResponse "Unauthorized - not a member of this room" 403)
                 else
                   let updatedMembers := removeMember lower members in
                   (if Nat.leb (length updatedMembers) 1 then purgeRoom now roomId
                    else
                      Redis.set now (roomKey roomId)
                        (withMembers roomData updatedMembers
                           (Z.of_nat (length updatedMembers))) None ;;
                      Redis.del now (presenceKey roomId lower) ;;
                      ret tt) ;;
                   broadcastRoomsUpdated now ;;
                   ret (Response 200 BSuccess)
             end
           else if negb (String.eqb lower "ryo") then
             ret (createErrorResponse
                    "Unauthorized - admin access required for public rooms" 403)
           else
             purgeRoom now roomId ;;
             broadcastRoomsUpdated now ;;
             ret (Response 200 BSuccess)
       end)
    (ret (createErrorResponse "Failed to delete room" 500)).

(** [roomObj.userCount], when the stored object has one. *)
Definition userCountOf (v : rvalue) : option Z :=
  match v with
  | VRoom r => Some (r_userCount r)
  | _ => None
  end.

(** [handleLeaveRoom]; the fields of the body are present strings. *)
Definition handleLeaveRoom (now : Z) (roomId originalUsername : string) : M response :=
  let username := Str.toLowerCase originalUsername in
  if (String.eqb roomId "" || String.eqb username "")%bool then
    ret (createErrorResponse "Room ID and username are required" 400)
  else if negb (USERNAME_REGEX username) then
    ret (createErrorResponse
           "Invalid username: use 3-30 letters/numbers; '-' or '_' allowed between characters; no spaces or symbols"
           400)
  else if negb (ROOM_ID_REGEX roomId) then
    ret (createErrorResponse "Invalid room ID format" 400)
  else
    catch
      (roomDataRaw <- Redis.get now (roomKey roomId) ;;
       if negb (truthy roomDataRaw) then ret (createErrorResponse "Room not found" 404)
       else
         match roomDataRaw with
         | Some (VStr _) | None => throw (* [JSON.parse] fails *)
         | Some roomObj =>
             removed <- Redis.del now (presenceKey roomId username) ;;
             if removed =? 0 then ret (Response 200 BSuccess)
             else
               userCount <- refreshRoomUserCount now roomId ;;
               (if isPrivate roomObj then
                  let updatedMembers :=
                    match membersOf roomObj with
                    | Some members => removeMember username members
                    | None => []
                    end in
                  if Nat.leb (length updatedMembers) 1 then
                    Redis.del now (roomKey roomId) ;;
                    Redis.del now (messagesKey roomId) ;;
                    Redis.del now (roomUsersKey roomId) ;;
                    broadcastToSpecificUsers now (default [] (membersOf roomObj))
                  else
                    Redis.set now (roomKey roomId)
                      (withMembers roomObj updatedMembers userCount) None ;;
                    broadcastRoomsUpdated now
                else if bool_decide (userCountOf roomObj = Some userCount) then ret tt
                else broadcastRoomsUpdated now) ;;
               ret (Response 200 BSuccess)
         end)
      (ret (createErrorResponse "Failed to leave room" 500)).

(* ===================================================================== *)
(** ** The GET router *)
(* ===================================================================== *)

(** What the router reads of a request: the [action] and [roomId] query
    parameters and the two authentication headers. *)
Record request := Request {
  q_action : option string;
  q_roomId : option string;
  h_authorization : option string;
  h_username : option string
}.

(** [extractAuth]: the username and the token, an empty string for [null]. *)
Definition extractAuth (req : request) : string * string :=
  match h_authorization req with
  | Some authHeader =>
      if Str.startsWith "Bearer " authHeader && negb (String.eqb authHeader "")
      then (default "" (h_username req), Str.drop 7 authHeader)
      else ("", "")
  | None => ("", "")
  end.

Definition publicActions : list string :=
  ["getRooms"; "getMessages"; "getBulkMessages"; "getUsers"; "verifyToken"].

(** [handleGetRoom] *)
Definition handleGetRoom (now : Z) (roomId : string) : M response :=
  catch
    (if negb (ROOM_ID_REGEX roomId) then throw
     else
       roomRaw <- Redis.get now (roomKey roomId) ;;
       match roomRaw with
       | Some (VStr _) | None => ret (createErrorResponse "Room not found" 404)
       | Some roomObj =>
           if negb (truthy roomRaw) then ret (createErrorResponse "Room not found" 404)
           else
             userCount <- refreshRoomUserCount now roomId ;;
             ret (Response 200 (BRoom roomObj userCount))
       end)
    (ret (createErrorResponse "Failed to fetch room" 500)).

(** [GET], for the actions [getRoom], [getMessages] and [getRoomUsers]; the
    result is [None] for the other actions of the source, which are outside
    this embedding. *)
Definition GET (now : Z) (req : request) : M (option response) :=
  catch
    (let action := default "" (q_action req) in
     authorized <-
       (if bool_decide (q_action req ∈ Some <$> publicActions) then ret true
        else
          let '(username, token) := extractAuth req in
          isValid <- validateAuth now username token false ;;
          ret (valid isValid)) ;;
     if negb authorized then ret (Some (createErrorResponse "Unauthorized" 401))
     else
       let needRoomId (k : string -> M response) : M (option response) :=
         match q_roomId req with
         | Some roomId =>
             if String.eqb roomId "" then
               ret (Some (createErrorResponse "roomId query parameter is required" 400))
             else r <- k roomId ;; ret (Some r)
         | None =>
             ret (Some (createErrorResponse "roomId query parameter is required" 400))
         end in
       if String.eqb action "getRoom" then needRoomId (handleGetRoom now)
       else if String.eqb action "getMessages" then needRoomId (handleGetMessages now)
       else if String.eqb action "getRoomUsers" then
         needRoomId (fun roomId =>
                       users <- getActiveUsersAndPrune now roomId ;;
                       ret (Response 200 (BUsers users)))
       else if bool_decide (action ∈ ["getRooms"; "getBulkMessages"; "getUsers";
                                       "checkPassword"; "cleanupPresence"; "debugPresence"])
       then ret None
       else ret (Some (createErrorResponse "Invalid action" 400)))
    (ret (Some (createErrorResponse "Internal server error" 500))).

(* ===================================================================== *)
(** ** Predicates used in the statements *)
(* ===================================================================== *)

(** The key [k] is there at instant [t]. *)
Definition present (t : Z) (k : string) (s : store) : Prop :=
  is_Some (Redis.peek t k s).

(** A computation preserves a property of the store, whatever its outcome. *)
Definition preserves {A} (P : store -> Prop) (m : M A) : Prop :=
  forall s, P s -> P (m s).1.

(** A computation leaves the entry of [k] as it is, whatever its outcome. *)
Definition untouched {A} (k : string) (m : M A) : Prop :=
  forall s, (m s).1 !! k = s !! k.

(** The characters of [toString("hex")]. *)
Definition isHexChar (c : ascii) : bool :=
  (Str.isDigit c || (Nat.leb 97 (Str.code c) && Nat.leb (Str.code c) 102))%bool.
Definition isHex (s : string) : bool := Str.forallb isHexChar s.

(** The store after deleting the keys of a list. *)
Definition deleteAll (ks : list string) (s : store) : store :=
  foldl (fun s k => delete k s) s ks.

(** A value that GET returns rather than failing on it. *)
Definition scalar (v : option rvalue) : bool :=
  match v with
  | Some (VList _) | Some (VSet _) => false
  | _ => true
  end.

(** The count a window key holds at instant [t]: zero when the key is not
    there. *)
Definition counter (t : Z) (k : string) (s : store) : Z :=
  match Redis.value t k s with
  | Some (VNum n) => n
  | _ => 0
  end.

(** A window key is absent or holds an integer (what INCR leaves). *)
Definition counterOk (t : Z) (k : string) (s : store) : Prop :=
  match Redis.value t k s with
  | None | Some (VNum _) => True
  | _ => False
  end.

(** The expiry instant a key has at [t], if it is there and has one. *)
Definition expiryOf (t : Z) (k : string) (s : store) : option Z :=
  Redis.peek t k s ≫= e_exp.

(** The message log of a room at instant [t]. *)
Definition logOf (t : Z) (roomId : string) (s : store) : list item :=
  match Redis.value t (messagesKey roomId) s with
  | Some (VList l) => l
  | _ => []
  end.

(** Every list in the store has at most 100 elements. *)
Definition bounded (s : store) : Prop :=
  ∀ k e l, s !! k = Some e → e_val e = VList l → (length l ≤ 100)%nat.

(** The responses of [handleSendMessage] that the statements name. *)
Definition duplicateError : response :=
  createErrorResponse "Duplicate message detected" 400.
Definition tooLongError : response :=
  createErrorResponse "Message exceeds maximum length of 1000 characters" 400.
Definition shortWindowError : response :=
  createErrorResponse "You're sending messages too quickly. Please slow down." 429.
Definition longWindowError : response :=
  createErrorResponse "Too many messages in a short period. Please wait a moment." 429.
Definition minIntervalError : response :=
  createErrorResponse "Please wait a moment before sending another message." 429.

(** A request that passes the checks of identifiers and content at the head
    of [handleSendMessage]. *)
Definition wellFormed (roomId originalUsername originalContent : string) : Prop :=
  USERNAME_REGEX (Str.toLowerCase originalUsername) = true ∧
  ROOM_ID_REGEX roomId = true ∧
  originalContent ≠ "".


(** The room record read by the limiter is a public room. *)
Definition publicRoomAt (t : Z) (roomId : string) (s : store) : Prop :=
  ∃ v, Redis.value t (roomKey roomId) s = Some v ∧ scalar (Some v) = true ∧
       truthy (Some v) = true ∧ isPublicRoom v = true.

(** The room record read by the limiter is a private room. *)
Definition privateRoomAt (t : Z) (roomId : string) (s : store) : Prop :=
  ∃ v, Redis.value t (roomKey roomId) s = Some v ∧ scalar (Some v) = true ∧
       truthy (Some v) = true ∧ isPublicRoom v = false.

Definition roomNotFound : response := createErrorResponse "Room not found" 404.

(** The latest message of a room at instant [t] is by [username] with
    [content]. *)
Definition latestIs (t : Z) (roomId username content : string) (s : store) : Prop :=
  ∃ m rest, Redis.value t (messagesKey roomId) s = Some (VList (MJson m :: rest)) ∧
            m_username m = username ∧ m_content m = content.

(** The pure checks of [ensureUserExists]. *)
Definition nameAccepted `{ProfanityFilter} (username : string) : bool :=
  (negb (isProfane username)
   && negb (Nat.ltb (String.length username) MIN_USERNAME_LENGTH)
   && negb (Nat.ltb MAX_USERNAME_LENGTH (String.length username))
   && USERNAME_REGEX username)%bool.


(** The room record is a private room whose members are [a] and [b]. *)
Definition privateRoomOfTwo (t : Z) (roomId a b : string) (s : store) : Prop :=
  a ≠ b ∧
  ∃ room, Redis.value t (roomKey roomId) s = Some (VRoom room) ∧
          r_type room = Some "private" ∧
          (r_members room = Some [a; b] ∨ r_members room = Some [b; a]).

(** The legacy membership set of the room is absent or a set. *)
Definition legacySetOk (t : Z) (roomId : string) (s : store) : Prop :=
  ∀ v, Redis.value t (roomUsersKey roomId) s = Some v → ∃ l, v = VSet l.

(* ===================================================================== *)
(** ** Sequences of appends, and sample data *)
(* ===================================================================== *)

(** The two requests that append to a message log. *)
Inductive append :=
| Send (now : Z) (rnd : list Byte.byte) (roomId username content : string)
| RyoReply (now : Z) (rnd : list Byte.byte) (roomId prompt : string)
    (replyText : option string).

Definition perform `{ProfanityFilter} (a : append) : M response :=
  match a with
  | Send now rnd roomId username content =>
      handleSendMessage now rnd roomId username content
  | RyoReply now rnd roomId prompt replyText =>
      handleGenerateRyoReply now rnd roomId prompt replyText
  end.

(** The store after a sequence of appends, each run to its end whatever its
    outcome. *)
Definition performAll `{ProfanityFilter} (l : list append) (s : store) : store :=
  foldl (fun s a => (perform a s).1) s l.

(** A filter that finds nothing. *)
Definition sampleFilter : ProfanityFilter :=
  {| clean := fun s => s; isProfane := fun _ => false |}.

Definition sampleBytes (b : Byte.byte) (n : nat) : list Byte.byte := repeat b n.

(** A user [alice] without any token. *)
Definition sampleUsers : store :=
  <[userKey "alice" := Entry (VUser (User "alice" 0)) None]> ∅.

(** A public room [general], a private room [dm1] of [alice] and [bob] with
    one message and the presence of both, and the two users. *)
Definition sampleChat : store :=
  <[roomKey "general" := Entry (VRoom (Room "general" "general" (Some "public") 0 0 None)) None]>
  (<[roomKey "dm1" := Entry (VRoom (Room "dm1" "@alice, @bob" (Some "private") 0 2
                                     (Some ["alice"; "bob"]))) None]>
  (<[messagesKey "dm1" := Entry (VList [MJson (Message "m0" "dm1" "bob" "hi" 1)]) None]>
  (<[presenceKey "dm1" "alice" := Entry (VNum 1) (Some 86400001)]>
  (<[presenceKey "dm1" "bob" := Entry (VNum 1) (Some 86400001)]>
  (<[userKey "alice" := Entry (VUser (User "alice" 0)) None]>
  (<[userKey "bob" := Entry (VUser (User "bob" 0)) None]> ∅)))))).

(** [n] sends of [alice] to [dm1], one second apart, with alternating
    content. *)
Fixpoint sampleSends (n : nat) : list append :=
  match n with
  | O => []
  | S n' =>
      sampleSends n' ++
      [Send (1000 * Z.of_nat n) (sampleBytes Byte.x2a 16) "dm1" "alice"
         (if Nat.even n then "ping" else "pong")]
  end.

(** The random bytes of two tokens and of three message ids. *)
Definition sampleTokenBytes : list Byte.byte := sampleBytes Byte.x1a 32.
Definition sampleTokenBytes' : list Byte.byte := sampleBytes Byte.x2b 32.
Definition sampleIdBytes : list Byte.byte := sampleBytes Byte.x01 16.
Definition sampleIdBytes' : list Byte.byte := sampleBytes Byte.x02 16.
Definition sampleIdBytes'' : list Byte.byte := sampleBytes Byte.x03 16.

(** The store after [alice] got her first token at instant 1000. *)
Definition sampleIssued : store :=
  (handleGenerateToken 1000 sampleTokenBytes "alice" sampleUsers).1.

(** The store after [alice] said hello in [general] at instant [t]. *)
Definition sampleHello (t : Z) : store :=
  (@handleSendMessage sampleFilter t sampleIdBytes "general" "alice" "hello" sampleChat).1.

(** A request for the messages of [dm1] without any header. *)
Definition sampleAnonymous : request :=
  Request (Some "getMessages") (Some "dm1") None None.

(** Every list of the entries of a store has at most 100 elements, as a
    test. *)
Definition boundedEntry (e : entry) : bool :=
  match e_val e with
  | VList l => Nat.leb (length l) 100
  | _ => true
  end.
Definition boundedStore (s : store) : bool :=
  forallb (fun p => boundedEntry p.2) (map_to_list s).

(** The first token of [alice]. *)
Definition sampleToken : string := generateAuthToken sampleTokenBytes.

(** The store after [alice] refreshed her first token at instant 2000. *)
Definition sampleRefreshed : store :=
  (handleRefreshToken 2000 sampleTokenBytes' "alice" sampleToken sampleIssued).1.


(** The store after [alice] said hello in [general] twice: at 1000, and at
    3000 when the message was rejected as a duplicate. *)
Definition sampleHelloTwice : store :=
  (@handleSendMessage sampleFilter 3000 sampleIdBytes' "general" "alice" "hello"
     (sampleHello 1000)).1.

(** [dm1] without the presence of [alice]. *)
Definition sampleAway : store := delete (presenceKey "dm1" "alice") sampleChat.

(** The store after [alice] got a second token at instant 2000. *)
Definition sampleIssuedTwice : store :=
  (handleGenerateToken 2000 sampleTokenBytes' "alice" sampleIssued).1.

(* ===================================================================== *)
(** ** More of the source: channels, rate limit, sessions, passwords *)
(* ===================================================================== *)

(** [sanitizeForChannel]: [name.replace(/[^a-zA-Z0-9_\-\.]/g, "_")] *)
Definition channelChar (c : ascii) : bool :=
  (Str.isAlnum c || Ascii.eqb c "_" || Ascii.eqb c "-" || Ascii.eqb c ".")%bool.

Fixpoint sanitizeForChannel (name : string) : string :=
  match name with
  | EmptyString => EmptyString
  | String c r =>
      String (if channelChar c then c else "_"%char) (sanitizeForChannel r)
  end.

Definition RATE_LIMIT_WINDOW_SECONDS : Z := 60.
Definition RATE_LIMIT_ATTEMPTS : Z := 10.
Definition RATE_LIMIT_PREFIX := "rl:".

Definition rateLimitKey (action identifier : string) : string :=
  RATE_LIMIT_PREFIX +:+ action +:+ ":" +:+ identifier.

(** [checkRateLimit]: [true] when the request is allowed.  A failure of the
    store is caught and the request allowed. *)
Definition checkRateLimit (now : Z) (action identifier : string) : M bool :=
  catch
    (let key := rateLimitKey action identifier in
     current <- Redis.get now key ;;
     if negb (truthy current) then
       Redis.set now key (VNum 1) (Some RATE_LIMIT_WINDOW_SECONDS) ;;
       ret true
     else if match current ≫= parseInt with
             | Some count => RATE_LIMIT_ATTEMPTS <=? count
             | None => false
             end
     then ret false
     else Redis.incr now key ;; ret true)
    (ret true).

(** Bodies that the responses above do not have. *)
Record tokenInfo := TokenInfo {
  t_token : string;
  t_createdAt : option rvalue;
  t_isCurrent : bool;
  t_maskedToken : string
}.

Inductive replyBody :=
| RError (error : string)
| RSuccess                                   (* [{success: true}] *)
| RNoop                                      (* [{success: true, noop: true}] *)
| RLoggedOut                                 (* [{success: true, message: "Logged out from current session"}] *)
| RNothingToClear                            (* [{success: true, message: "No messages to clear"}] *)
| RCleared (rooms : nat)                     (* [{success: true, message: "Cleared messages from n rooms"}] *)
| RTokens (tokens : list tokenInfo) (count : nat)
| RHasPassword (hasPassword : bool) (username : string)
| RTokenUser (token username : string)
| RUserToken (user : rvalue) (token : string)
| RBulk (messagesMap : gmap string (list message))
    (validRoomIds invalidRoomIds : list string).

Record reply := Reply {
  code : Z;
  content : replyBody
}.

Definition createErrorReply (msg : string) (st : Z) : reply := Reply st (RError msg).

(** The token of the [Authorization] header, [None] for [null]. *)
Definition bearerToken (req : request) : option string :=
  match h_authorization req with
  | Some authHeader =>
      if Str.startsWith "Bearer " authHeader then Some (Str.drop 7 authHeader)
      else None
  | None => None
  end.

(** [s.slice(-n)] *)
Definition lastChars (n : nat) (s : string) : string :=
  Str.drop (String.length s - n) s.

(** The loop body of [getUserTokens] on the keys found. *)
Fixpoint readTokens (now : Z) (keys : list string)
    : M (list (string * option rvalue)) :=
  match keys with
  | [] => ret []
  | key :: rest =>
      timestamp <- Redis.get now key ;;
      more <- readTokens now rest ;;
      ret ((Str.lastSegment key, timestamp) :: more)
  end.

(** [getUserTokens] *)
Definition getUserTokens (now : Z) (username : string)
    : M (list (string * option rvalue)) :=
  keys <- scan now (getUserTokenPattern username) ;;
  readTokens now keys.

(** [handleListTokens] *)
Definition handleListTokens (now : Z) (username : string) (req : request) : M reply :=
  catch
    (tokens <- getUserTokens now username ;;
     let currentToken := bearerToken req in
     let tokenList :=
       map (fun '(token, createdAt) =>
              TokenInfo token createdAt (bool_decide (Some token = currentToken))
                ("..." +:+ lastChars 8 token)) tokens in
     ret (Reply 200 (RTokens tokenList (length tokenList))))
    (ret (createErrorReply "Failed to list tokens" 500)).

(** [handleLogoutCurrent]; an empty [token] stands for [null]. *)
Definition handleLogoutCurrent (now : Z) (username token : string) : M reply :=
  catch
    (deleteToken now token ;;
     ret (Reply 200 RLoggedOut))
    (ret (createErrorReply "Failed to logout current session" 500)).

(** [bcrypt], an external collaborator: [hashPassword] draws a salt. *)
Class PasswordHasher := {
  hashPassword : list Byte.byte -> string -> string;
  verifyPassword : string -> string -> bool
}.

Definition PASSWORD_HASH_PREFIX := "chat:password:".
Definition PASSWORD_MIN_LENGTH : nat := 8.

Definition passwordKey (username : string) : string :=
  PASSWORD_HASH_PREFIX +:+ Str.toLowerCase username.

(** [setUserPasswordHash].  A bcrypt hash starts with [$2] and is no JSON
    text: the client reads it back as the string it is. *)
Definition setUserPasswordHash (now : Z) (username passwordHash : string) : M unit :=
  Redis.set now (passwordKey username) (VStr passwordHash) None.

(** [getUserPasswordHash] *)
Definition getUserPasswordHash (now : Z) (username : string) : M (option rvalue) :=
  Redis.get now (passwordKey username).

(** [handleCheckPassword] *)
Definition handleCheckPassword (now : Z) (username : string) : M reply :=
  catch
    (passwordHash <- getUserPasswordHash now username ;;
     ret (Reply 200 (RHasPassword (truthy passwordHash) username)))
    (ret (createErrorReply "Failed to check password status" 500)).

Section Passwords.
Context `{PasswordHasher}.

(** [handleSetPassword]; [password] is the field of the body, [salt] the
    bytes [bcrypt] draws. *)
Definition handleSetPassword (now : Z) (salt : list Byte.byte)
    (password : option string) (username : string) : M response :=
  match password with
  | None => ret (createErrorResponse "Password is required" 400)
  | Some pw =>
      if String.eqb pw "" then ret (createErrorResponse "Password is required" 400)
      else if Nat.ltb (String.length pw) PASSWORD_MIN_LENGTH then
        ret (createErrorResponse "Password must be at least 8 characters" 400)
      else
        catch
          (setUserPasswordHash now username (hashPassword salt pw) ;;
           ret (Response 200 BSuccess))
          (ret (createErrorResponse "Failed to set password" 500))
  end.

(** [handleAuthenticateWithPassword]; the fields of the body are strings, an
    empty one standing for a missing field. *)
Definition handleAuthenticateWithPassword (now : Z) (rnd : list Byte.byte)
    (originalUsername password oldToken : string) : M reply :=
  if (String.eqb originalUsername "" || String.eqb password "")%bool then
    ret (createErrorReply "Username and password are required" 400)
  else
    let username := Str.toLowerCase originalUsername in
    catch
      (userData <- Redis.get now (CHAT_USERS_PREFIX +:+ username) ;;
       if negb (truthy userData) then
         ret (createErrorReply "Invalid username or password" 401)
       else
         passwordHash <- getUserPasswordHash now username ;;
         if negb (truthy passwordHash) then
           ret (createErrorReply "Invalid username or password" 401)
         else
           match passwordHash with
           | Some (VStr hash) =>
               if negb (verifyPassword password hash) then
                 ret (createErrorReply "Invalid username or password" 401)
               else
                 (if String.eqb oldToken "" then ret tt
                  else
                    deleteToken now oldToken ;;
                    storeLastValidToken now username oldToken now TOKEN_GRACE_PERIOD) ;;
                 let authToken := generateAuthToken rnd in
                 Redis.set now (legacyTokenKey username) (written authToken)
                   (Some USER_EXPIRATION_TIME) ;;
                 storeToken now username authToken ;;
                 storeLastValidToken now username authToken
                   (now + USER_EXPIRATION_TIME * 1000)
                   (USER_EXPIRATION_TIME + TOKEN_GRACE_PERIOD) ;;
                 ret (Reply 200 (RTokenUser authToken username))
           | _ => throw (* [bcrypt.compare] rejects a hash that is no string *)
           end)
      (ret (createErrorReply "Failed to authenticate" 500)).
End Passwords.

Section CreateUser.
Context `{ProfanityFilter} `{PasswordHasher}.

(** The login of [handleCreateUser] for a name that is taken: the response
    when the password is the one of the user, [None] otherwise.  A failure
    inside is caught and logged. *)
Definition loginExisting (now : Z) (rnd : list Byte.byte) (username pw : string)
    : M (option reply) :=
  catch
    (passwordHash <- getUserPasswordHash now username ;;
     if truthy passwordHash then
       match passwordHash with
       | Some (VStr hash) =>
           if verifyPassword pw hash then
             let authToken := generateAuthToken rnd in
             Redis.set now (legacyTokenKey username) (written authToken)
               (Some USER_EXPIRATION_TIME) ;;
             existingUserData <- Redis.get now (userKey username) ;;
             existingUser <-
               (if truthy existingUserData then
                  match existingUserData with
                  | Some (VStr _) | None => throw (* [JSON.parse] fails *)
                  | Some v => ret v
                  end
                else ret (VUser (User username now))) ;;
             ret (Some (Reply 200 (RUserToken existingUser authToken)))
           else ret None
       | _ => throw (* [bcrypt.compare] rejects a hash that is no string *)
       end
     else ret None)
    (ret None).

(** [handleCreateUser]; [originalUsername] is a string, empty when missing;
    [password] is the field of the body, [None] when missing; [rnd] is what
    [generateAuthToken] draws and [salt] what [bcrypt] draws. *)
Definition handleCreateUser (now : Z) (rnd salt : list Byte.byte)
    (originalUsername : string) (password : option string) : M reply :=
  let pw := default "" password in
  if String.eqb originalUsername "" then
    ret (createErrorReply "Username is required" 400)
  else if isProfane originalUsername then
    ret (createErrorReply "Username contains inappropriate language" 400)
  else if Nat.ltb MAX_USERNAME_LENGTH (String.length originalUsername) then
    ret (createErrorReply "Username must be 30 characters or less" 400)
  else if Nat.ltb (String.length originalUsername) MIN_USERNAME_LENGTH then
    ret (createErrorReply "Username must be at least 3 characters" 400)
  else if (negb (String.eqb pw "") && Nat.ltb (String.length pw) PASSWORD_MIN_LENGTH)%bool then
    ret (createErrorReply "Password must be at least 8 characters" 400)
  else
    let username := Str.toLowerCase originalUsername in
    if negb (USERNAME_REGEX username) then
      ret (createErrorReply
             "Invalid username: use 3-30 letters/numbers; '-' or '_' allowed between characters; no spaces or symbols"
             400)
    else
      catch
        (let user := VUser (User username now) in
         created <- Redis.setnx now (userKey username) user ;;
         if negb created then
           loggedIn <-
             (if negb (String.eqb pw "") then loginExisting now rnd username pw
              else ret None) ;;
           match loggedIn with
           | Some response => ret response
           | None => ret (createErrorReply "Username already taken" 409)
           end
         else
           (if negb (String.eqb pw "") then
              setUserPasswordHash now username (hashPassword salt pw)
            else ret tt) ;;
           let authToken := generateAuthToken rnd in
           Redis.set now (legacyTokenKey username) (written authToken)
             (Some USER_EXPIRATION_TIME) ;;
           storeToken now username authToken ;;
           storeLastValidToken now username authToken
             (now + USER_EXPIRATION_TIME * 1000)
             (USER_EXPIRATION_TIME + TOKEN_GRACE_PERIOD) ;;
           ret (Reply 201 (RUserToken user authToken)))
        (ret (createErrorReply "Failed to create user" 500)).
End CreateUser.

(* ===================================================================== *)
(** ** More of the source: joining, creating, switching, deleting *)
(* ===================================================================== *)

(** [{ ...v }] of a value read from the store: the characters of a string
    become fields that this file does not read. *)
Definition spread (v : rvalue) : rvalue :=
  match v with
  | VStr _ | VBool _ | VNull => VObj
  | other => other
  end.

(** [handleJoinRoom]; the fields of the body are present strings. *)
Definition handleJoinRoom (now : Z) (roomId originalUsername : string) : M response :=
  let username := Str.toLowerCase originalUsername in
  if (String.eqb roomId "" || String.eqb username "")%bool then
    ret (createErrorResponse "Room ID and username are required" 400)
  else if negb (USERNAME_REGEX username) then
    ret (createErrorResponse
           "Invalid username: use 3-30 letters/numbers; '-' or '_' allowed between characters; no spaces or symbols"
           400)
  else if negb (ROOM_ID_REGEX roomId) then
    ret (createErrorResponse "Invalid room ID format" 400)
  else
    catch
      (roomData <- Redis.get now (roomKey roomId) ;;
       userData <- Redis.get now (userKey username) ;;
       if negb (truthy roomData) then ret (createErrorResponse "Room not found" 404)
       else if negb (truthy userData) then
         ret (createErrorResponse "User not found" 404)
       else
         setRoomPresence now roomId username ;;
         userCount <- refreshRoomUserCount now roomId ;;
         Redis.set now (roomKey roomId)
           (withUserCount (spread (default VObj roomData)) userCount) None ;;
         Redis.set now (userKey username)
           (withLastActive (spread (default VObj userData)) now) None ;;
         broadcastRoomsUpdated now ;;
         ret (Response 200 BSuccess))
      (ret (createErrorResponse "Failed to join room" 500)).

(** [lrange(key, 0, -1)] *)
Definition lrangeAll (now : Z) (k : string) : M (list item) :=
  fun s => match Redis.value now k s with
           | None => (s, Some [])
           | Some (VList l) => (s, Some l)
           | Some _ => (s, None)
           end.

#[global] Instance message_eq_dec : EqDecision message.
Proof. solve_decision. Defined.
#[global] Instance item_eq_dec : EqDecision item.
Proof. solve_decision. Defined.

(** The list without its first element equal to [x]. *)
Fixpoint removeFirst (x : item) (l : list item) : list item :=
  match l with
  | [] => []
  | y :: r => if decide (y = x) then r else y :: removeFirst x r
  end.

(** [lrem(key, 1, x)]: the number of elements removed; an emptied list is
    removed. *)
Definition lrem1 (now : Z) (k : string) (x : item) : M Z :=
  fun s => match Redis.peek now k s with
           | None => (s, Some 0)
           | Some (Entry (VList l) ex) =>
               if bool_decide (x ∈ l) then
                 match removeFirst x l with
                 | [] => (delete k s, Some 1)
                 | l' => (<[k := Entry (VList l') ex]> s, Some 1)
                 end
               else (s, Some 0)
           | Some _ => (s, None)
           end.

(** The first element of the list that parses to a message with the id. *)
Fixpoint findMessage (messageId : string) (l : list item) : option item :=
  match l with
  | [] => None
  | raw :: r =>
      match parseItem raw with
      | Some obj =>
          if String.eqb (m_id obj) messageId then Some raw
          else findMessage messageId r
      | None => findMessage messageId r
      end
  end.

(** [handleDeleteMessage]; an empty string stands for a missing parameter;
    [username] is the authenticated user. *)
Definition handleDeleteMessage (now : Z) (roomId messageId username : string)
    : M response :=
  if (String.eqb roomId "" || String.eqb messageId "")%bool then
    ret (createErrorResponse "Room ID and message ID are required" 400)
  else if negb (String.eqb (Str.toLowerCase username) "ryo") then
    ret (createErrorResponse "Forbidden" 403)
  else
    catch
      (roomExists <- Redis.exists_ now (roomKey roomId) ;;
       if negb roomExists then ret (createErrorResponse "Room not found" 404)
       else
         messagesRaw <- lrangeAll now (messagesKey roomId) ;;
         match findMessage messageId messagesRaw with
         | None => ret (createErrorResponse "Message not found" 404)
         | Some targetRaw =>
             lrem1 now (messagesKey roomId) targetRaw ;;
             ret (Response 200 BSuccess)
         end)
      (ret (createErrorResponse "Failed to delete message" 500)).

(** [handleClearAllMessages]; [username] is the authenticated user. *)
Definition handleClearAllMessages (now : Z) (username : string) : M reply :=
  if negb (String.eqb (Str.toLowerCase username) "ryo") then
    ret (createErrorReply "Forbidden - Admin access required" 403)
  else
    catch
      (messageKeys <- scan now (CHAT_MESSAGES_PREFIX +:+ "*") ;;
       match messageKeys with
       | [] => ret (Reply 200 RNothingToClear)
       | _ =>
           Redis.delMany now messageKeys ;;
           broadcastRoomsUpdated now ;;
           ret (Reply 200 (RCleared (length messageKeys)))
       end)
      (ret (createErrorReply "Failed to clear messages" 500)).

(** The existence checks of [handleGetBulkMessages]. *)
Fixpoint existing (now : Z) (roomIds : list string) : M (list bool) :=
  match roomIds with
  | [] => ret []
  | roomId :: rest =>
      e <- Redis.exists_ now (roomKey roomId) ;;
      more <- existing now rest ;;
      ret (e :: more)
  end.

(** The reads of [handleGetBulkMessages]: for each room the elements of the
    first twenty of its log that parse. *)
Fixpoint readLogs (now : Z) (roomIds : list string)
    : M (list (string * list message)) :=
  match roomIds with
  | [] => ret []
  | roomId :: rest =>
      messagesStrings <- Redis.lrange now (messagesKey roomId) 20 ;;
      more <- readLogs now rest ;;
      ret ((roomId, omap parseItem messagesStrings) :: more)
  end.

(** [roomIds.filter((_, index) => checks[index])] *)
Fixpoint selectBy (keep : bool) (roomIds : list string) (checks : list bool)
    : list string :=
  match roomIds, checks with
  | roomId :: rest, c :: cs =>
      if Bool.eqb c keep then roomId :: selectBy keep rest cs
      else selectBy keep rest cs
  | _, _ => []
  end.

(** [handleGetBulkMessages] *)
Definition handleGetBulkMessages (now : Z) (roomIds : list string) : M reply :=
  catch
    (if negb (List.forallb ROOM_ID_REGEX roomIds) then
       ret (createErrorReply "Invalid room ID format" 400)
     else
       roomExistenceChecks <- existing now roomIds ;;
       let validRoomIds := selectBy true roomIds roomExistenceChecks in
       let invalidRoomIds := selectBy false roomIds roomExistenceChecks in
       results <- readLogs now validRoomIds ;;
       let messagesMap :=
         foldl (fun acc '(roomId, messages) => <[roomId := messages]> acc) ∅ results in
       ret (Reply 200 (RBulk messagesMap validRoomIds invalidRoomIds)))
    (ret (createErrorReply "Failed to fetch bulk messages" 500)).

(** [array.sort()] of strings: by character codes. *)
Fixpoint insertSorted (x : string) (l : list string) : list string :=
  match l with
  | [] => [x]
  | y :: r => if String.leb x y then x :: l else y :: insertSorted x r
  end.

Definition sortStrings (l : list string) : list string :=
  fold_right insertSorted [] l.

(** [array.join(sep)] *)
Fixpoint join (sep : string) (l : list string) : string :=
  match l with
  | [] => EmptyString
  | [x] => x
  | x :: r => x +:+ sep +:+ join sep r
  end.

(** [s.replace(/ /g, "-")] *)
Fixpoint dashSpaces (s : string) : string :=
  match s with
  | EmptyString => EmptyString
  | String c r => String (if Ascii.eqb c " " then "-"%char else c) (dashSpaces r)
  end.

(** The members of a private room as [handleCreateRoom] stores them: in lower
    case, the creator added at the end when missing. *)
Definition normalizeMembers (members : list string) (normalizedUsername : string)
    : list string :=
  let normalizedMembers := map Str.toLowerCase members in
  if bool_decide (normalizedUsername ∈ normalizedMembers) then normalizedMembers
  else normalizedMembers ++ [normalizedUsername].

(** [Promise.all(members.map((member) => setRoomPresence(roomId, member)))] *)
Fixpoint setPresences (now : Z) (roomId : string) (members : list string) : M unit :=
  match members with
  | [] => ret tt
  | member :: rest =>
      setRoomPresence now roomId member ;; setPresences now roomId rest
  end.

(** A field of a request body that holds a room id: missing, [null], or a
    string. *)
Inductive jsField :=
| FMissing
| FNull
| FStr (s : string).

#[global] Instance jsField_eq_dec : EqDecision jsField.
Proof. solve_decision. Defined.

(** The truthiness of the field. *)
Definition given (f : jsField) : bool :=
  match f with
  | FStr s => negb (String.eqb s "")
  | _ => false
  end.

Definition textOf (f : jsField) : string :=
  match f with
  | FStr s => s
  | _ => ""
  end.

Section CreateRoom.
Context `{ProfanityFilter}.

(** [handleCreateRoom]; [name], [type] and [members] are the fields of the
    body, [None] when missing; [username] is the authenticated user; [rnd]
    is what [generateId] draws. *)
Definition handleCreateRoom (now : Z) (rnd : list Byte.byte)
    (name type : option string) (members : option (list string))
    (username : string) : M response :=
  let type := default "public" type in
  let members := default [] members in
  let normalizedUsername := Str.toLowerCase username in
  if negb (String.eqb type "public" || String.eqb type "private") then
    ret (createErrorResponse "Invalid room type. Must be 'public' or 'private'" 400)
  else if (String.eqb type "public" && String.eqb (default "" name) "")%bool then
    ret (createErrorResponse "Room name is required for public rooms" 400)
  else if (String.eqb type "public" && negb (String.eqb normalizedUsername "ryo"))%bool then
    ret (createErrorResponse "Forbidden - Only admin can create public rooms" 403)
  else if (String.eqb type "public" && isProfane (default "" name))%bool then
    ret (createErrorResponse "Room name contains inappropriate language" 400)
  else if (String.eqb type "private" && bool_decide (members = []))%bool then
    ret (createErrorResponse "At least one member is required for private rooms" 400)
  else
    let members :=
      if String.eqb type "private" then normalizeMembers members normalizedUsername
      else members in
    let roomName :=
      if String.eqb type "public" then dashSpaces (Str.toLowerCase (default "" name))
      else join ", " (map (fun m => "@" +:+ m) (sortStrings members)) in
    catch
      (let roomId := generateId rnd in
       let room :=
         Room roomId roomName (Some type) now
           (if String.eqb type "private" then Z.of_nat (length members) else 0)
           (if String.eqb type "private" then Some members else None) in
       Redis.set now (roomKey roomId) (VRoom room) None ;;
       (if String.eqb type "private" then setPresences now roomId members
        else ret tt) ;;
       broadcastRoomsUpdated now ;;
       ret (Response 201 (BRoom (VRoom room) (r_userCount room))))
      (ret (createErrorResponse "Failed to create room" 500)).

(** [handleSwitchRoom]; [previousRoomId] and [nextRoomId] are the fields of
    the body; [originalUsername] is a string, empty when missing. *)
Definition handleSwitchRoom (now : Z)
    (previousRoomId nextRoomId : jsField) (originalUsername : string)
    : M reply :=
  let username := Str.toLowerCase originalUsername in
  if String.eqb username "" then ret (createErrorReply "Username is required" 400)
  else if (given previousRoomId && negb (ROOM_ID_REGEX (textOf previousRoomId))
           || given nextRoomId && negb (ROOM_ID_REGEX (textOf nextRoomId)))%bool
  then ret (createErrorReply "Invalid room ID format" 400)
  else if bool_decide (previousRoomId = nextRoomId) then ret (Reply 200 RNoop)
  else
    catch
      (ensured <- ensureUserExists now username ;;
       match ensured with
       | inl _ => throw
       | inr _ =>
           (if given previousRoomId then
              let previous := textOf previousRoomId in
              roomDataRaw <- Redis.get now (roomKey previous) ;;
              if truthy roomDataRaw then
                match roomDataRaw with
                | Some (VStr _) | None => throw (* [JSON.parse] fails *)
                | Some roomData =>
                    if negb (isPrivate roomData) then
                      Redis.del now (presenceKey previous username) ;;
                      refreshRoomUserCount now previous ;;
                      ret tt
                    else ret tt
                end
              else ret tt
            else ret tt) ;;
           if given nextRoomId then
             let next := textOf nextRoomId in
             roomDataRaw <- Redis.get now (roomKey next) ;;
             if negb (truthy roomDataRaw) then
               ret (createErrorReply "Next room not found" 404)
             else
               setRoomPresence now next username ;;
               userCount <- refreshRoomUserCount now next ;;
               match roomDataRaw with
               | Some (VStr _) | None => throw (* [JSON.parse] fails *)
               | Some roomData =>
                   Redis.set now (roomKey next) (withUserCount roomData userCount) None ;;
                   Redis.set now (userKey username) (VUser (User username now)) None ;;
                   broadcastRoomsUpdated now ;;
                   ret (Reply 200 RSuccess)
               end
           else
             broadcastRoomsUpdated now ;;
             ret (Reply 200 RSuccess)
       end)
      (ret (createErrorReply "Failed to switch room" 500)).
End CreateRoom.

(** [filterRoomsForUser]; [username] is [None] for [null]. *)
Definition filterRoomsForUser (rooms : list rvalue) (username : option string)
    : list rvalue :=
  if String.eqb (default "" username) "" then
    List.filter isPublicRoom rooms
  else
    let lower := Str.toLowerCase (default "" username) in
    List.filter
      (fun room =>
         if isPublicRoom room then true
         else if isPrivate room then
           match membersOf room with
           | Some members => bool_decide (lower ∈ members)
           | None => false
           end
         else false)
      rooms.

(** The rooms that [handleGetRooms] answers with, of the rooms that
    [getDetailedRooms] found; [username] is the query parameter of that
    name, [None] when missing. *)
Definition visibleRooms (username : option string) (allRooms : list rvalue)
    : list rvalue :=
  let username :=
    match username with
    | Some u => if String.eqb (Str.toLowerCase u) "" then None else Some (Str.toLowerCase u)
    | None => None
    end in
  List.filter
    (fun room =>
       if isPublicRoom room then true
       else if isPrivate room then
         match membersOf room, username with
         | Some members, Some username => bool_decide (username ∈ members)
         | _, _ => false
         end
       else false)
    allRooms.

(** [DELETE]; [messageId] is the query parameter of that name. *)
Definition DELETE (now : Z) (req : request) (messageId : option string) : M response :=
  catch
    (let '(username, token) := extractAuth req in
     isValid <- validateAuth now username token false ;;
     if negb (valid isValid) then ret (createErrorResponse "Unauthorized" 401)
     else
       let roomId := default "" (q_roomId req) in
       if bool_decide (q_action req = Some "deleteRoom") then
         if String.eqb roomId "" then
           ret (createErrorResponse "roomId query parameter is required" 400)
         else handleDeleteRoom now roomId username
       else if bool_decide (q_action req = Some "deleteMessage") then
         if (String.eqb roomId "" || String.eqb (default "" messageId) "")%bool then
           ret (createErrorResponse
                  "roomId and messageId query parameters are required" 400)
         else handleDeleteMessage now roomId (default "" messageId) username
       else ret (createErrorResponse "Invalid action" 400))
    (ret (createErrorResponse "Internal server error" 500)).

(* ===================================================================== *)
(** ** Predicates and sample data of the further properties *)
(* ===================================================================== *)

(** The characters that [escapeHTML] replaces, the ampersand apart. *)
Definition htmlSpecial (c : ascii) : bool :=
  (Ascii.eqb c "<" || Ascii.eqb c ">" || Ascii.eqb c "034" || Ascii.eqb c "'")%bool.

(** No character of the string is one of [<], [>], the two quotes. *)
Definition htmlSafe (s : string) : bool :=
  Str.forallb (fun c => negb (htmlSpecial c)) s.

(** The characters of a username: letters, digits, hyphen and underscore. *)
Definition nameChar (c : ascii) : bool := (Str.isAlnum c || isSeparator c)%bool.

(** No two separators are next to each other and the last character is none. *)
Fixpoint separatorsApart (s : string) : bool :=
  match s with
  | EmptyString => true
  | String c r =>
      ((negb (isSeparator c)
        || match r with
           | String d _ => negb (isSeparator d)
           | EmptyString => false
           end)
       && separatorsApart r)%bool
  end.

(** The first character of the string is a letter. *)
Definition startsWithLetter (s : string) : bool :=
  match s with
  | String c _ => Str.isLetter c
  | EmptyString => false
  end.


(** The string is [http://] or [https://] followed by one character or more,
    none of them white space. *)
Definition isUrl (s : string) : bool :=
  let rest scheme := Str.drop (String.length scheme) s in
  let ok scheme :=
    (Str.startsWith scheme s && negb (String.eqb (rest scheme) "")
     && Str.forallb (fun c => negb (Str.isSpace c)) (rest scheme))%bool in
  (ok "http://" || ok "https://")%bool.

(** The string has no colon. *)
Definition noColon (s : string) : bool :=
  Str.forallb (fun c => negb (Ascii.eqb c ":")) s.

(** The answers of [checkRateLimit] to a sequence of attempts made at the
    instants [ts], and the store they leave. *)
Fixpoint rateRun (action identifier : string) (ts : list Z) (s : store)
    : list bool * store :=
  match ts with
  | [] => ([], s)
  | t :: rest =>
      let out := checkRateLimit t action identifier s in
      let '(answers, s') := rateRun action identifier rest out.1 in
      (default true out.2 :: answers, s')
  end.

(** The presence keys of a room that are live at instant [t]. *)
Definition presentIn (t : Z) (roomId : string) (s : store) : list string :=
  filter (fun k => Str.glob (presencePattern roomId) k = true) (Redis.keys t s).

(** The users of a room at instant [t], as [getActiveUsersInRoom] names
    them. *)
Definition activeIn (t : Z) (roomId : string) (s : store) : list string :=
  Str.lastSegment <$> presentIn t roomId s.

(** The room record at instant [t] is a private room that lists [username]
    among its members. *)
Definition memberOfPrivate (t : Z) (roomId username : string) (s : store) : bool :=
  match Redis.value t (roomKey roomId) s with
  | Some v =>
      (isPrivate v
       && match membersOf v with
          | Some members => bool_decide (username ∈ members)
          | None => false
          end)%bool
  | None => false
  end.

(** The sample chat after [alice] got her first token at instant 1000. *)
Definition performAllTokens (s : store) : store :=
  (handleGenerateToken 1000 sampleTokenBytes "alice" s).1.

(** A hasher for the sample data: the hash is the password behind a
    prefix. *)
Definition sampleHasher : PasswordHasher :=
  {| hashPassword := fun _ pw => "h:" +:+ pw;
     verifyPassword := fun pw hash => String.eqb hash ("h:" +:+ pw) |}.

(** [alice] with the password [password1]; the store after she logged in
    through [handleCreateUser] at instant 1000 and got [sampleToken], held in
    the legacy record only; and the store after she used that token at
    1500. *)
Definition samplePassword : store :=
  <[passwordKey "alice" := Entry (VStr "h:password1") None]> sampleUsers.
Definition sampleLoggedIn : store :=
  (@handleCreateUser sampleFilter sampleHasher 1000 sampleTokenBytes [] "alice"
     (Some "password1") samplePassword).1.
Definition sampleMigrated : store :=
  (validateAuth 1500 "alice" sampleToken false sampleLoggedIn).1.

(** The string is the text of a JSON literal, which the client reads back
    as a boolean or [null]. *)
Definition jsonLiteral (s : string) : bool :=
  (String.eqb s "true" || String.eqb s "false" || String.eqb s "null")%bool.
(* ===================================================================== *)
(** ** Lemmas: strings *)
(* ===================================================================== *)

Lemma lowerChar_idem c : Str.lowerChar (Str.lowerChar c) = Str.lowerChar c.
Proof. destruct c as [[] [] [] [] [] [] [] []]; reflexivity. Qed.

Lemma toLowerCase_idem s : Str.toLowerCase (Str.toLowerCase s) = Str.toLowerCase s.
Proof. induction s as [|c r IH]; simpl; [done|]. by rewrite lowerChar_idem, IH. Qed.

Lemma toLowerCase_eq_empty s : String.eqb (Str.toLowerCase s) "" = String.eqb s "".
Proof. by destruct s. Qed.

Lemma length_app (a b : string) :
  String.length (a +:+ b) = (String.length a + String.length b)%nat.
Proof. induction a as [|c a IH]; simpl; [done | by rewrite IH]. Qed.

Lemma toHex_nonempty bs : bs ≠ [] → toHex bs ≠ "".
Proof. destruct bs; [done|]. simpl. discriminate. Qed.

Lemma toHex_isHex bs : isHex (toHex bs) = true.
Proof.
  induction bs as [|b r IH]; [done|]. unfold isHex in *. simpl. rewrite IH.
  by destruct b.
Qed.

Lemma generateAuthToken_nonempty rnd :
  length rnd = TOKEN_LENGTH → String.eqb (generateAuthToken rnd) "" = false.
Proof.
  intros Hlen. apply String.eqb_neq, toHex_nonempty. intros ->. discriminate Hlen.
Qed.

Lemma lowerChar_hex c : isHexChar c = true → Str.lowerChar c = c.
Proof. destruct c as [[] [] [] [] [] [] [] []]; by vm_compute. Qed.

Lemma toLowerCase_hex s : isHex s = true → Str.toLowerCase s = s.
Proof.
  unfold isHex. induction s as [|c r IH]; simpl; [done|].
  intros [Hc Hr]%andb_true_iff. by rewrite lowerChar_hex, IH.
Qed.

Lemma hex_not_user s x : isHex s = true → s ≠ "user:" +:+ x.
Proof. intros Hs ->. discriminate Hs. Qed.

Lemma hex_not_last s x : isHex s = true → s ≠ "last:" +:+ x.
Proof. intros Hs ->. discriminate Hs. Qed.

Lemma hex_no_star s :
  isHex s = true → Str.forallb (fun c => negb (Ascii.eqb c "*")) s = true.
Proof.
  unfold isHex. induction s as [|c r IH]; simpl; [done|].
  intros [Hc Hr]%andb_true_iff. rewrite IH by done.
  destruct c as [[] [] [] [] [] [] [] []]; by vm_compute in Hc |- *.
Qed.

Lemma getUserTokenKey_lower u t :
  getUserTokenKey (Str.toLowerCase u) t = getUserTokenKey u t.
Proof. unfold getUserTokenKey. by rewrite toLowerCase_idem. Qed.

Lemma glob_star_app p x y :
  Str.glob p y = true → Str.glob (String "*" p) (x +:+ y) = true.
Proof.
  intros Hp. induction x as [|c x IH].
  - destruct y; simpl; by rewrite Hp.
  - simpl. simpl in IH. rewrite IH. apply orb_true_r.
Qed.

Lemma glob_refl s :
  Str.forallb (fun c => negb (Ascii.eqb c "*")) s = true → Str.glob s s = true.
Proof.
  induction s as [|c r IH]; simpl; [done|].
  intros [Hc Hr]%andb_true_iff. apply negb_true_iff in Hc. rewrite Hc.
  by rewrite Ascii.eqb_refl, IH.
Qed.

Lemma glob_literal lit p k :
  Str.forallb (fun c => negb (Ascii.eqb c "*")) lit = true →
  Str.glob (lit +:+ p) k = true → ∃ k', k = lit +:+ k' ∧ Str.glob p k' = true.
Proof.
  revert k. induction lit as [|c lit IH]; intros k; simpl; [by eauto|].
  intros [Hc Hl]%andb_true_iff. apply negb_true_iff in Hc. rewrite Hc.
  destruct k as [|d k]; [done|].
  intros [Hcd Hg]%andb_true_iff. apply Ascii.eqb_eq in Hcd as ->.
  destruct (IH k Hl Hg) as (k' & -> & Hk'). eauto.
Qed.

(* ===================================================================== *)
(** ** Lemmas: the monad *)
(* ===================================================================== *)

Lemma bind_inv {A B} (m : M A) (k : A → M B) s s' b :
  bind m k s = (s', Some b) → ∃ s1 a, m s = (s1, Some a) ∧ k a s1 = (s', Some b).
Proof. unfold bind. destruct (m s) as [s1 [a|]]; [eauto|discriminate]. Qed.

Lemma bind_run {A B} (m : M A) (f : A → M B) s s1 a :
  m s = (s1, Some a) → bind m f s = f a s1.
Proof. unfold bind. by intros ->. Qed.

Lemma catch_inv {A} (m h : M A) s s' a :
  catch m h s = (s', Some a) →
  m s = (s', Some a) ∨ ∃ s1, m s = (s1, None) ∧ h s1 = (s', Some a).
Proof. unfold catch. destruct (m s) as [s1 [x|]]; intros; simplify_eq; eauto. Qed.

Lemma ret_inv {A} (a b : A) s s' : ret a s = (s', Some b) → s' = s ∧ b = a.
Proof. unfold ret. intros; by simplify_eq. Qed.

Lemma run_fst {A} (m : M A) s s' r : m s = (s', r) → s' = (m s).1.
Proof. by intros ->. Qed.

Lemma preserves_ret {A} P (a : A) : preserves P (ret a).
Proof. by intros s. Qed.

Lemma preserves_throw {A} P : preserves P (@throw A).
Proof. by intros s. Qed.

Lemma preserves_bind {A B} P (m : M A) (f : A → M B) :
  preserves P m → (∀ a, preserves P (f a)) → preserves P (bind m f).
Proof.
  intros Hm Hf s Hs. unfold bind. specialize (Hm s Hs).
  destruct (m s) as [s1 [a|]]; simpl in *; [by apply Hf | done].
Qed.

Lemma preserves_catch {A} P (m h : M A) :
  preserves P m → preserves P h → preserves P (catch m h).
Proof.
  intros Hm Hh s Hs. unfold catch. specialize (Hm s Hs).
  destruct (m s) as [s1 [a|]]; simpl in *; [done | by apply Hh].
Qed.

Lemma preserves_pure {A} P (m : M A) : (∀ s, (m s).1 = s) → preserves P m.
Proof. intros Hm s Hs. by rewrite Hm. Qed.

(* ===================================================================== *)
(** ** Lemmas: the store commands *)
(* ===================================================================== *)

Lemma peek_insert t k k' e (s : store) :
  Redis.peek t k (<[k' := e]> s) =
    if decide (k' = k) then (if Redis.live t e then Some e else None)
    else Redis.peek t k s.
Proof.
  unfold Redis.peek. rewrite lookup_insert. by destruct (decide (k' = k)).
Qed.

Lemma peek_delete t k k' (s : store) :
  Redis.peek t k (delete k' s) =
    if decide (k' = k) then None else Redis.peek t k s.
Proof.
  unfold Redis.peek. rewrite lookup_delete. by destruct (decide (k' = k)).
Qed.

Lemma live_expiry now t ex v :
  t < now + ex * 1000 → Redis.live t (Entry v (Redis.expiry now ex)) = true.
Proof. intros. unfold Redis.live, Redis.expiry. simpl. by apply Z.ltb_lt. Qed.

Lemma live_mono now t e : now ≤ t → Redis.live t e = true → Redis.live now e = true.
Proof.
  unfold Redis.live. destruct (e_exp e); [|done]. rewrite !Z.ltb_lt. lia.
Qed.

Lemma peek_mono now t k s e :
  now ≤ t → Redis.peek t k s = Some e → Redis.peek now k s = Some e.
Proof.
  unfold Redis.peek. intros Ht. destruct (s !! k) as [e'|]; [|done].
  destruct (Redis.live t e') eqn:Hl; [|done].
  intros [= ->]. by rewrite (live_mono _ _ _ Ht Hl).
Qed.

Lemma peek_none_mono now t k s :
  now ≤ t → Redis.peek now k s = None → Redis.peek t k s = None.
Proof.
  intros Ht Hn. destruct (Redis.peek t k s) eqn:E; [|done].
  by rewrite (peek_mono _ _ _ _ _ Ht E) in Hn.
Qed.

Lemma present_insert t k k' e (s : store) :
  Redis.live t e = true → present t k s → present t k (<[k' := e]> s).
Proof.
  unfold present. intros Hl Hp. rewrite peek_insert.
  destruct (decide (k' = k)); [rewrite Hl; eauto | done].
Qed.

Lemma present_insert_eq t k e (s : store) :
  Redis.live t e = true → present t k (<[k := e]> s).
Proof.
  unfold present. intros Hl. rewrite peek_insert, decide_True, Hl by done. eauto.
Qed.

Lemma get_inv now k s s' v :
  Redis.get now k s = (s', Some v) → s' = s ∧ Redis.value now k s = v.
Proof. unfold Redis.get. intros Hg. repeat case_match; by simplify_eq. Qed.

Lemma get_fst now k s : (Redis.get now k s).1 = s.
Proof. unfold Redis.get. by repeat case_match. Qed.

Lemma exists_inv now k s s' b :
  Redis.exists_ now k s = (s', Some b) → s' = s ∧ (b = true ↔ present now k s).
Proof.
  unfold Redis.exists_. intros; simplify_eq. split; [done|].
  by rewrite bool_decide_eq_true.
Qed.

Lemma del_run now k s : ∃ n, Redis.del now k s = (delete k s, Some n).
Proof. unfold Redis.del. case_match; eauto. Qed.

Lemma delMany_run now ks s : ∃ n, Redis.delMany now ks s = (deleteAll ks s, Some n).
Proof.
  revert s. induction ks as [|k ks IH]; intros s; simpl; [by eexists|].
  destruct (del_run now k s) as [n Hn]. rewrite (bind_run _ _ _ _ _ Hn).
  destruct (IH (delete k s)) as [m Hm]. rewrite (bind_run _ _ _ _ _ Hm).
  by eexists.
Qed.

Lemma peek_deleteAll t k ks s :
  Redis.peek t k (deleteAll ks s) = if decide (k ∈ ks) then None else Redis.peek t k s.
Proof.
  revert s. induction ks as [|k0 ks IH]; intros s.
  - destruct (decide (k ∈ [])) as [Hin|]; [by apply elem_of_nil in Hin | done].
  - change (deleteAll (k0 :: ks) s) with (deleteAll ks (delete k0 s)).
    rewrite IH, peek_delete.
    destruct (decide (k ∈ ks)) as [Hin|Hin].
    + rewrite decide_True; [done | by apply list_elem_of_further].
    + destruct (decide (k0 = k)) as [->|Hne].
      * rewrite decide_True; [done | apply list_elem_of_here].
      * rewrite decide_False; [done|]. intros [?|?]%elem_of_cons; congruence.
Qed.

Lemma elem_of_keys now k s : k ∈ Redis.keys now s ↔ present now k s.
Proof.
  unfold Redis.keys, present. rewrite list_elem_of_filter, list_elem_of_fmap.
  split; [by intros [? _]|]. intros Hp. split; [done|].
  unfold Redis.peek in Hp. destruct (s !! k) as [e|] eqn:E; [|by destruct Hp].
  exists (k, e). split; [done|]. by apply elem_of_map_to_list.
Qed.

Lemma elem_of_scan now p s k :
  k ∈ filter (fun k => Str.glob p k = true) (Redis.keys now s)
  ↔ Str.glob p k = true ∧ present now k s.
Proof. by rewrite list_elem_of_filter, elem_of_keys. Qed.

(** *** Commands that leave a key alone *)

Lemma untouched_peek {A} k (m : M A) t s :
  untouched k m → Redis.peek t k (m s).1 = Redis.peek t k s.
Proof. intros Hm. unfold Redis.peek. by rewrite Hm. Qed.

Lemma untouched_value {A} k (m : M A) t s :
  untouched k m → Redis.value t k (m s).1 = Redis.value t k s.
Proof. intros Hm. unfold Redis.value. by rewrite untouched_peek. Qed.

Lemma untouched_ret {A} k (a : A) : untouched k (ret a).
Proof. by intros s. Qed.

Lemma untouched_throw {A} k : untouched k (@throw A).
Proof. by intros s. Qed.

Lemma untouched_bind {A B} k (m : M A) (f : A → M B) :
  untouched k m → (∀ a, untouched k (f a)) → untouched k (bind m f).
Proof.
  intros Hm Hf s. unfold bind. specialize (Hm s).
  destruct (m s) as [s1 [a|]]; simpl in *; [by rewrite Hf | done].
Qed.

Lemma untouched_catch {A} k (m h : M A) :
  untouched k m → untouched k h → untouched k (catch m h).
Proof.
  intros Hm Hh s. unfold catch. specialize (Hm s).
  destruct (m s) as [s1 [a|]]; simpl in *; [done | by rewrite Hh].
Qed.

Lemma untouched_get k now k' : untouched k (Redis.get now k').
Proof. intros s. by rewrite get_fst. Qed.

Lemma untouched_exists k now k' : untouched k (Redis.exists_ now k').
Proof. by intros s. Qed.

Lemma untouched_scan k now p : untouched k (scan now p).
Proof. by intros s. Qed.

Lemma untouched_lrange k now k' n : untouched k (Redis.lrange now k' n).
Proof. intros s. unfold Redis.lrange. by repeat case_match. Qed.

Lemma untouched_smembers k now k' : untouched k (Redis.smembers now k').
Proof. intros s. unfold Redis.smembers. by repeat case_match. Qed.

Lemma untouched_set k now k' v ex : k' ≠ k → untouched k (Redis.set now k' v ex).
Proof. intros Hne s. simpl. by rewrite lookup_insert_ne. Qed.

Lemma untouched_setnx k now k' v : k' ≠ k → untouched k (Redis.setnx now k' v).
Proof.
  intros Hne s. unfold Redis.setnx. case_match; simpl; [done|].
  by rewrite lookup_insert_ne.
Qed.

Lemma untouched_del k now k' : k' ≠ k → untouched k (Redis.del now k').
Proof.
  intros Hne s. destruct (del_run now k' s) as [n ->]. simpl.
  by rewrite lookup_delete_ne.
Qed.

Lemma lookup_deleteAll k ks (s : store) :
  deleteAll ks s !! k = if decide (k ∈ ks) then None else s !! k.
Proof.
  revert s. induction ks as [|k0 ks IH]; intros s.
  - destruct (decide (k ∈ [])) as [Hin|]; [by apply elem_of_nil in Hin | done].
  - change (deleteAll (k0 :: ks) s) with (deleteAll ks (delete k0 s)).
    rewrite IH, lookup_delete.
    destruct (decide (k ∈ ks)) as [Hin|Hin].
    + rewrite decide_True; [done | by apply list_elem_of_further].
    + destruct (decide (k0 = k)) as [->|Hne].
      * rewrite decide_True; [done | apply list_elem_of_here].
      * rewrite decide_False; [done|]. intros [?|?]%elem_of_cons; congruence.
Qed.

Lemma untouched_delMany k now ks : k ∉ ks → untouched k (Redis.delMany now ks).
Proof.
  intros Hne s. destruct (delMany_run now ks s) as [n ->]. simpl.
  by rewrite lookup_deleteAll, decide_False.
Qed.

Lemma untouched_expire k now k' ex : k' ≠ k → untouched k (Redis.expire now k' ex).
Proof.
  intros Hne s. unfold Redis.expire. case_match; simpl; [|done].
  by rewrite lookup_insert_ne.
Qed.

Lemma untouched_incr k now k' : k' ≠ k → untouched k (Redis.incr now k').
Proof.
  intros Hne s. unfold Redis.incr. repeat case_match; simpl; try done.
  all: by rewrite lookup_insert_ne.
Qed.

Lemma untouched_lpush k now k' x : k' ≠ k → untouched k (Redis.lpush now k' x).
Proof.
  intros Hne s. unfold Redis.lpush. repeat case_match; simpl; try done.
  all: by rewrite lookup_insert_ne.
Qed.

Lemma untouched_ltrim k now k' n : k' ≠ k → untouched k (Redis.ltrim now k' n).
Proof.
  intros Hne s. unfold Redis.ltrim. repeat case_match; simpl; try done.
  all: by rewrite ?lookup_insert_ne, ?lookup_delete_ne.
Qed.

(** *** Commands that keep a key that is there *)

Lemma keeps_set t k now k' v ex :
  t < now + ex * 1000 → preserves (present t k) (Redis.set now k' v (Some ex)).
Proof. intros Ht s Hs. simpl. apply present_insert; [by apply live_expiry | done]. Qed.

Lemma keeps_expire t k now k' ex :
  t < now + ex * 1000 → preserves (present t k) (Redis.expire now k' ex).
Proof.
  intros Ht s Hs. unfold Redis.expire. case_match; simpl; [|done].
  apply present_insert; [by apply live_expiry | done].
Qed.


Lemma expire_present t now k ex s :
  present now k s → t < now + ex * 1000 → present t k (Redis.expire now k ex s).1.
Proof.
  intros [e He] Ht. unfold Redis.expire. rewrite He. simpl.
  apply present_insert_eq. by apply live_expiry.
Qed.

Lemma set_present t now k v ex s :
  t < now + ex * 1000 → present t k (Redis.set now k v (Some ex) s).1.
Proof. intros Ht. simpl. apply present_insert_eq. by apply live_expiry. Qed.

(** EXPIRE issued at [now] does not change what a key holds at [now]. *)
Lemma expire_value now k k' ex s :
  0 < ex → Redis.value now k (Redis.expire now k' ex s).1 = Redis.value now k s.
Proof.
  intros Hex. unfold Redis.value, Redis.expire.
  destruct (Redis.peek now k' s) as [e|] eqn:E; simpl; [|done].
  rewrite peek_insert. destruct (decide (k' = k)) as [->|]; [|done].
  rewrite live_expiry by lia. by rewrite E.
Qed.

Lemma value_insert t k k' e (s : store) :
  Redis.value t k (<[k' := e]> s) =
    if decide (k' = k) then (if Redis.live t e then Some (e_val e) else None)
    else Redis.value t k s.
Proof.
  unfold Redis.value. rewrite peek_insert.
  destruct (decide (k' = k)); [by destruct (Redis.live t e)|done].
Qed.

Lemma get_scalar now k s s' v :
  Redis.get now k s = (s', Some v) → scalar v = true.
Proof. unfold Redis.get. intros Hg. repeat case_match; by simplify_eq. Qed.

Lemma get_run now k s v :
  Redis.value now k s = v → scalar v = true → Redis.get now k s = (s, Some v).
Proof. unfold Redis.get. intros -> Hv. by repeat case_match. Qed.

Lemma exists_run now k s :
  Redis.exists_ now k s = (s, Some (bool_decide (present now k s))).
Proof. done. Qed.

Lemma pv_untouched {A} now k v (m : M A) :
  untouched k m → preserves (fun s => Redis.value now k s = v) m.
Proof. intros Hm s Hs. by rewrite untouched_value. Qed.

Lemma pv_expire now k v k' ex :
  0 < ex → preserves (fun s => Redis.value now k s = v) (Redis.expire now k' ex).
Proof. intros Hex s Hs. by rewrite expire_value. Qed.

(** *** Keys of different families are different *)

Ltac unfold_keys :=
  unfold shortKey, longKey, lastKey, roomKey, messagesKey, userKey, presenceKey,
    roomUsersKey, CHAT_BURST_PREFIX, CHAT_ROOM_PREFIX, CHAT_MESSAGES_PREFIX,
    CHAT_USERS_PREFIX, CHAT_ROOM_PRESENCE_PREFIX, CHAT_ROOM_USERS_PREFIX in *.
Ltac key_neq := unfold_keys; simpl; discriminate.


Lemma expire_run now k ex s :
  Redis.expire now k ex s = ((Redis.expire now k ex s).1, Some tt).
Proof. unfold Redis.expire. by destruct (Redis.peek now k s). Qed.

Lemma bind_fail {A B} (m : M A) (f : A → M B) s s1 :
  m s = (s1, None) → bind m f s = (s1, None).
Proof. intros E. unfold bind. by rewrite E. Qed.

Lemma get_cases now k s :
  Redis.get now k s = (s, None) ∨ ∃ v, Redis.get now k s = (s, Some v).
Proof.
  unfold Redis.get. destruct (Redis.value now k s) as [[]|]; eauto.
Qed.

(** *** What the client reads back of a string *)

Lemma trim_id s :
  Str.forallb (fun c => negb (isJsonSpace c)) s = true → trimEnd (trimStart s) = s.
Proof.
  intros Hs. assert (Hstart : trimStart s = s).
  { destruct s as [|c r]; [done|]. simpl in *.
    apply andb_true_iff in Hs as [Hc _]. by destruct (isJsonSpace c). }
  rewrite Hstart. clear Hstart.
  induction s as [|c r IH]; [done|]. simpl in *.
  apply andb_true_iff in Hs as [Hc Hr]. rewrite (IH Hr).
  destruct r; [|done]. by destruct (isJsonSpace c).
Qed.

Lemma written_cases s :
  written s = VStr s ∨ written s = VBool true ∨ written s = VBool false ∨
  written s = VNull.
Proof. unfold written. repeat case_match; auto. Qed.

Lemma hex_no_space s :
  isHex s = true → Str.forallb (fun c => negb (isJsonSpace c)) s = true.
Proof.
  unfold isHex. induction s as [|c r IH]; simpl; [done|].
  intros [Hc Hr]%andb_true_iff. rewrite IH by done.
  destruct c as [[] [] [] [] [] [] [] []]; by vm_compute in Hc |- *.
Qed.

(** A token comes back as the string it is. *)
Lemma written_hex s : isHex s = true → written s = VStr s.
Proof.
  intros Hs. unfold written. rewrite (trim_id _ (hex_no_space _ Hs)).
  destruct (String.eqb_spec s "true") as [->|_]; [discriminate Hs|].
  destruct (String.eqb_spec s "false") as [->|_]; [discriminate Hs|].
  destruct (String.eqb_spec s "null") as [->|_]; [discriminate Hs|]. done.
Qed.

Lemma written_token rnd :
  written (generateAuthToken rnd) = VStr (generateAuthToken rnd).
Proof. apply written_hex, toHex_isHex. Qed.

Lemma mappedLowerOf_written s x :
  mappedLowerOf (Some (written s)) = Some x → x = Str.toLowerCase s.
Proof.
  destruct (written_cases s) as [-> | [-> | [-> | ->]]]; simpl; [|done..].
  by intros [= <-].
Qed.

Lemma isString_written tok s : isString tok (Some (written s)) = true → s = tok.
Proof.
  destruct (written_cases s) as [-> | [-> | [-> | ->]]]; simpl; [|done..].
  by intros ->%String.eqb_eq.
Qed.

Lemma scalar_written s : scalar (Some (written s)) = true.
Proof. by destruct (written_cases s) as [-> | [-> | [-> | ->]]]. Qed.

(** A string taken away from the end of two texts. *)
Lemma app_inj_tail a b c : a +:+ c = b +:+ c → a = b.
Proof.
  revert b. induction a as [|x a IH]; intros [|y b] E.
  - done.
  - apply (f_equal String.length) in E. rewrite !length_app in E.
    simpl in E. lia.
  - apply (f_equal String.length) in E. rewrite !length_app in E.
    simpl in E. lia.
  - simpl in E. injection E as -> E. f_equal. by apply IH.
Qed.

(** The single key that a DEL given an array acts on is no key of this
    file. *)
Lemma JSON_stringify_bracket l : ∃ x, JSON_stringify l = String "[" x.
Proof. unfold JSON_stringify. by eexists. Qed.
(* ===================================================================== *)
(** ** Token manager: issuing and validating *)
(* ===================================================================== *)


Lemma keeps_storeLastValidToken t k now u tok e ttl :
  t < now + ttl * 1000 → preserves (present t k) (storeLastValidToken now u tok e ttl).
Proof. intros Ht. by apply keeps_set. Qed.


Lemma storeToken_present t now u tok s :
  String.eqb tok "" = false → t < now + USER_EXPIRATION_TIME * 1000 →
  present t (getUserTokenKey u tok) (storeToken now u tok s).1.
Proof.
  intros Htok Ht. unfold storeToken. rewrite Htok. unfold bind. simpl.
  rewrite getUserTokenKey_lower.
  apply present_insert; [by apply live_expiry|].
  apply present_insert_eq. by apply live_expiry.
Qed.

(** Validation through the user-scoped key. *)
Lemma validateAuth_present now u tok b s :
  String.eqb u "" = false → String.eqb tok "" = false →
  present now (getUserTokenKey u tok) s →
  (validateAuth now u tok b s).2 = Some authValid.
Proof.
  intros Hu Htok Hp. unfold validateAuth. rewrite Hu, Htok. simpl.
  rewrite getUserTokenKey_lower. unfold bind at 1. unfold Redis.exists_.
  rewrite bool_decide_eq_true_2 by exact Hp.
  unfold bind, Redis.expire, ret. by repeat case_match.
Qed.

(** [JSON.parse] never yields a grace record. *)
Lemma JSON_parse_last (l : option rvalue) lt : l ≫= JSON_parse ≠ Some (VLast lt).
Proof. by destruct l as [[]|]. Qed.

(** A successful validation leaves the token in the per-identity
    collection (the flat and the legacy records are migrated), with a fresh
    lifetime. *)
Lemma validateAuth_valid_present t0 u T b s0 s r :
  validateAuth t0 u T b s0 = (s, Some r) → valid r = true →
  String.eqb u "" = false ∧ String.eqb T "" = false ∧
  ∀ t, t < t0 + USER_TTL_SECONDS * 1000 → present t (getUserTokenKey u T) s.
Proof.
  unfold validateAuth. intros H Hv.
  destruct (String.eqb u "") eqn:Hu; [apply ret_inv in H as [_ ->]; done|].
  destruct (String.eqb T "") eqn:HT; [apply ret_inv in H as [_ ->]; done|].
  simpl in H. rewrite getUserTokenKey_lower in H.
  split; [done|]. split; [done|]. intros t Ht.
  apply bind_inv in H as (s1 & ex & Hex & H).
  apply exists_inv in Hex as [-> Hex].
  destruct ex.
  - apply bind_inv in H as (s2 & ? & E1 & H).
    apply bind_inv in H as (s3 & ? & E2 & H).
    apply ret_inv in H as [-> _].
    rewrite (run_fst _ _ _ _ E2). apply keeps_expire; [done|].
    rewrite (run_fst _ _ _ _ E1). apply expire_present; [by apply Hex | done].
  - apply bind_inv in H as (s2 & mapped & E1 & H).
    case_match.
    + apply bind_inv in H as (s3 & ? & E2 & H).
      apply bind_inv in H as (s4 & ? & E3 & H).
      apply ret_inv in H as [-> _].
      rewrite (run_fst _ _ _ _ E3). by apply set_present.
    + apply bind_inv in H as (s3 & stored & E2 & H).
      case_match.
      * apply bind_inv in H as (s4 & ? & E3 & H).
        apply bind_inv in H as (s5 & ? & E4 & H).
        apply ret_inv in H as [-> _].
        rewrite (run_fst _ _ _ _ E4). by apply set_present.
      * destruct b; [|apply ret_inv in H as [_ ->]; done].
        apply bind_inv in H as (s4 & l & _ & H).
        destruct (truthy l); [|apply ret_inv in H as [_ ->]; done].
        destruct (l ≫= JSON_parse) as [p|] eqn:Ep;
          [|apply ret_inv in H as [_ ->]; done].
        destruct p; try (apply ret_inv in H as [_ ->]; done).
        by apply JSON_parse_last in Ep.
Qed.

Lemma handleGenerateToken_issued now rnd u s s' resp :
  length rnd = TOKEN_LENGTH →
  handleGenerateToken now rnd u s = (s', Some resp) →
  status resp = 201 →
  String.eqb u "" = false ∧ String.eqb (generateAuthToken rnd) "" = false ∧
  payload resp = BToken (generateAuthToken rnd) ∧
  ∀ t, t < now + USER_EXPIRATION_TIME * 1000 →
       present t (getUserTokenKey u (generateAuthToken rnd)) s'.
Proof.
  intros Hlen H Hst.
  pose proof (generateAuthToken_nonempty rnd Hlen) as Htok.
  unfold handleGenerateToken in H.
  destruct (String.eqb u "") eqn:Hu; [apply ret_inv in H as [_ ->]; done|].
  apply catch_inv in H as [H|(s1 & _ & H)]; [|apply ret_inv in H as [_ ->]; done].
  apply bind_inv in H as (sa & userData & _ & H).
  destruct (negb (truthy userData)); [apply ret_inv in H as [_ ->]; done|].
  apply bind_inv in H as (sb & ? & _ & H).
  apply bind_inv in H as (sc & ? & _ & H).
  apply bind_inv in H as (sd & ? & Hstore & H).
  apply bind_inv in H as (se & ? & Hlast & H).
  apply ret_inv in H as [-> ->]. repeat (split; [done|]).
  intros t Ht.
  rewrite (run_fst _ _ _ _ Hlast). apply keeps_storeLastValidToken.
  { unfold USER_EXPIRATION_TIME, TOKEN_GRACE_PERIOD in *. lia. }
  rewrite (run_fst _ _ _ _ Hstore).
  rewrite <- getUserTokenKey_lower. apply storeToken_present; [done | lia].
Qed.

(** C1. For every username matching the accepted pattern, a token that
    [handleGenerateToken] has just issued and stored for it (response 201)
    validates: the response carries the generated token, and
    [validateAuth username token] answers [{valid: true, expired: false}] at
    every instant from the issuance until the token lifetime has elapsed. *)
Theorem C1_validate_after_issue now rnd u s s' resp :
  USERNAME_REGEX u = true →
  length rnd = TOKEN_LENGTH →
  handleGenerateToken now rnd u s = (s', Some resp) →
  status resp = 201 →
  payload resp = BToken (generateAuthToken rnd) ∧
  ∀ now', now ≤ now' < now + USER_EXPIRATION_TIME * 1000 →
    (validateAuth now' u (generateAuthToken rnd) false s').2 = Some authValid.
Proof.
  intros _ Hlen H Hst.
  destruct (handleGenerateToken_issued _ _ _ _ _ _ Hlen H Hst) as (Hu & Htok & Hp & Hkey).
  split; [done|].
  intros now' Hnow'. apply validateAuth_present; [done..|]. apply Hkey. lia.
Qed.



(** *** Refreshing *)

Lemma validateAuth_value now u tok b k v :
  k ≠ getUserTokenKey u tok →
  preserves (fun s => Redis.value now k s = v) (validateAuth now u tok b).
Proof.
  intros Hk. unfold validateAuth. case_match; [apply preserves_ret|].
  rewrite getUserTokenKey_lower.
  apply preserves_bind; [by apply preserves_pure|]. intros ex.
  destruct ex.
  { apply preserves_bind; [by apply pv_expire|]. intros _.
    apply preserves_bind; [by apply pv_expire|]. intros _. apply preserves_ret. }
  apply preserves_bind.
  { unfold getUsernameForToken. case_match; [apply preserves_ret|].
    apply preserves_pure, get_fst. }
  intros mapped. case_match.
  { apply preserves_bind; [by apply pv_expire|]. intros _.
    apply preserves_bind; [|intros; apply preserves_ret].
    apply pv_untouched, untouched_set. congruence. }
  apply preserves_bind; [apply preserves_pure, get_fst|]. intros stored.
  case_match.
  { apply preserves_bind; [by apply pv_expire|]. intros _.
    apply preserves_bind; [|intros; apply preserves_ret].
    apply pv_untouched, untouched_set. congruence. }
  case_match; [|apply preserves_ret].
  apply preserves_bind; [apply preserves_pure, get_fst|]. intros lastData.
  repeat case_match; apply preserves_ret.
Qed.

Lemma deleteToken_inv now old s2 s3 x :
  String.eqb old "" = false →
  deleteToken now old s2 = (s3, Some x) →
  let sA := delete (getTokenKey old) s2 in
  (∃ m, Redis.value now (getTokenKey old) s2 = Some (VStr m) ∧ m ≠ "" ∧
        s3 = delete (getUserTokenKey m old) sA)
  ∨ (truthy (Redis.value now (getTokenKey old) s2) = false ∧
     (s3 = sA ∨ ∃ ks, s3 = delete (JSON_stringify ks) sA)).
Proof.
  intros Hold H. unfold deleteToken in H. rewrite Hold in H.
  apply bind_inv in H as (s1 & v & Hget & H).
  apply get_inv in Hget as [-> Hv].
  apply bind_inv in H as (sA & n & Hdel & H).
  destruct (del_run now (getTokenKey old) s2) as [n' Hn']. rewrite Hn' in Hdel.
  simplify_eq. simpl.
  destruct (truthy (Redis.value now (getTokenKey old) s2)) eqn:Htr.
  - left. destruct (Redis.value now (getTokenKey old) s2) as [[m| | | | | | | | |]|] eqn:Hv;
      try (by unfold throw in H).
    exists m. split; [done|].
    split; [intros ->; discriminate Htr|].
    apply bind_inv in H as (sB & n2 & Hdel2 & H).
    destruct (del_run now (getUserTokenKey m old) (delete (getTokenKey old) s2)) as [n3 Hn3].
    rewrite Hn3 in Hdel2. apply ret_inv in H as [-> _]. by simplify_eq.
  - right. split; [done|].
    apply bind_inv in H as (sB & ks & Hscan & H).
    unfold scan in Hscan. simplify_eq.
    destruct (filter _ _) as [|k0 ks] eqn:Hks.
    + apply ret_inv in H as [-> _]. by left.
    + apply bind_inv in H as (sC & n2 & Hdm & H).
      destruct (del_run now (JSON_stringify (k0 :: ks)) (delete (getTokenKey old) s2))
        as [n3 Hn3].
      rewrite Hn3 in Hdm. apply ret_inv in H as [-> _]. right. exists (k0 :: ks).
      by simplify_eq.
Qed.

(** A token whose flat mapping reads as nothing, or as a boolean or an
    object, is not taken out of the per-identity collection: [deleteToken]
    deletes the flat mapping and no other key of this file, whether it
    returns or throws. *)
Lemma deleteToken_keeps now old s2 k :
  k ≠ getTokenKey old →
  (∀ m, Redis.value now (getTokenKey old) s2 = Some (VStr m) → m ≠ "" →
        k ≠ getUserTokenKey m old) →
  (∀ x, k ≠ String "[" x) →
  (deleteToken now old s2).1 !! k = s2 !! k.
Proof.
  intros Hk Hm Hb. unfold deleteToken. case_match; [done|].
  destruct (get_cases now (getTokenKey old) s2) as [E|[v E]].
  { by rewrite (bind_fail _ _ _ _ E). }
  rewrite (bind_run _ _ _ _ _ E). apply get_inv in E as [_ Hv].
  destruct (del_run now (getTokenKey old) s2) as [n Hn].
  rewrite (bind_run _ _ _ _ _ Hn).
  assert (HA : delete (getTokenKey old) s2 !! k = s2 !! k)
    by (by apply lookup_delete_ne, not_eq_sym).
  destruct (truthy v) eqn:Htr.
  - destruct v as [[m| | | | | | | | |]|]; try done.
    destruct (del_run now (getUserTokenKey m old) (delete (getTokenKey old) s2))
      as [n2 Hn2].
    rewrite (bind_run _ _ _ _ _ Hn2). simpl.
    rewrite lookup_delete_ne; [done|]. apply not_eq_sym, Hm; [done|].
    intros ->. done.
  - unfold scan. unfold bind at 1.
    destruct (filter _ _) as [|k0 ks]; [done|].
    destruct (del_run now (JSON_stringify (k0 :: ks)) (delete (getTokenKey old) s2))
      as [n2 Hn2].
    rewrite (bind_run _ _ _ _ _ Hn2). simpl.
    rewrite lookup_delete_ne; [done|].
    destruct (JSON_stringify_bracket (k0 :: ks)) as [y ->]. apply not_eq_sym, Hb.
Qed.

(** *** The token keys are distinct *)
Lemma flat_ne_user old u x : isHex old = true → getTokenKey old ≠ getUserTokenKey u x.
Proof.
  intros Hh. unfold getTokenKey, getUserTokenKey, AUTH_TOKEN_PREFIX. simpl.
  intros [= E]. by eapply hex_not_user.
Qed.

Lemma flat_ne_last old x : isHex old = true → getTokenKey old ≠ lastTokenKey x.
Proof.
  intros Hh. unfold getTokenKey, lastTokenKey, AUTH_TOKEN_PREFIX. simpl.
  intros [= E]. by eapply hex_not_last.
Qed.

Lemma last_ne_user x u y : lastTokenKey x ≠ getUserTokenKey u y.
Proof. unfold lastTokenKey, getUserTokenKey, AUTH_TOKEN_PREFIX. simpl. discriminate. Qed.

Lemma legacy_ne_user u y : legacyTokenKey (Str.toLowerCase u) ≠ getUserTokenKey u y.
Proof.
  unfold legacyTokenKey, getUserTokenKey, AUTH_TOKEN_PREFIX. simpl.
  intros [= E]. apply (f_equal String.length) in E. simpl in E.
  rewrite !length_app in E. simpl in E. lia.
Qed.

Lemma legacy_ne_last x : legacyTokenKey x ≠ lastTokenKey x.
Proof.
  unfold legacyTokenKey, lastTokenKey, AUTH_TOKEN_PREFIX. simpl.
  intros [= E]. apply (f_equal String.length) in E. simpl in E. lia.
Qed.

Lemma user_key_inj u a b : getUserTokenKey u a = getUserTokenKey u b → a = b.
Proof.
  unfold getUserTokenKey, AUTH_TOKEN_PREFIX. simpl. intros [= E].
  apply (inj (String.app _)) in E. by simplify_eq.
Qed.

Lemma flat_key_inj a b : getTokenKey a = getTokenKey b → a = b.
Proof. unfold getTokenKey, AUTH_TOKEN_PREFIX. simpl. by intros [= E]. Qed.

Lemma legacy_eq_flat x y : legacyTokenKey x = getTokenKey y → x = y.
Proof. apply flat_key_inj. Qed.





(** What [validateAuth] answers when the user-scoped key is not there, the
    flat mapping does not name the user and the legacy record holds another
    token: invalid, whatever the grace record holds. *)
Lemma validateAuth_fallthrough t u tok b s v w :
  String.eqb u "" = false → String.eqb tok "" = false →
  Redis.peek t (getUserTokenKey u tok) s = None →
  Redis.value t (getTokenKey tok) s = v → scalar v = true →
  mappedLowerOf v ≠ Some (Str.toLowerCase u) →
  Redis.value t (legacyTokenKey (Str.toLowerCase u)) s = w → scalar w = true →
  isString tok w = false →
  (b = true → scalar (Redis.value t (lastTokenKey (Str.toLowerCase u)) s) = true) →
  validateAuth t u tok b s = (s, Some authInvalid).
Proof.
  intros Hu Htok H1 Hv Hsv Hmv Hw Hsw Hiw Hlast.
  unfold validateAuth. rewrite Hu, Htok. simpl.
  rewrite getUserTokenKey_lower.
  rewrite (bind_run _ _ _ _ _ (exists_run _ _ _)).
  rewrite bool_decide_eq_false_2 by (unfold present; rewrite H1; by intros [? ?]).
  unfold getUsernameForToken. rewrite Htok.
  rewrite (bind_run _ _ _ _ _ (get_run _ _ _ _ Hv Hsv)).
  rewrite bool_decide_eq_false_2 by done.
  rewrite (bind_run _ _ _ _ _ (get_run _ _ _ _ Hw Hsw)).
  rewrite Hiw. destruct b; [|done].
  rewrite (bind_run _ _ _ _ _ (get_run _ _ _ _ eq_refl (Hlast eq_refl))).
  destruct (Redis.value t (lastTokenKey (Str.toLowerCase u)) s) as [[]|];
    simpl; try done; by repeat case_match.
Qed.

(** No validation answers [expired]: the grace record comes back from the
    client parsed, and [JSON.parse] of it throws. *)
Lemma validateAuth_not_expired t u tok b s :
  (validateAuth t u tok b s).2 ≠ Some authExpired.
Proof.
  destruct (validateAuth t u tok b s) as [s' [r|]] eqn:H; [|done].
  simpl. intros [= ->]. unfold validateAuth in H.
  destruct (_ || _)%bool; [by apply ret_inv in H as [_ ?]|].
  apply bind_inv in H as (s1 & ex & _ & H).
  destruct ex.
  { apply bind_inv in H as (s2 & ? & _ & H).
    apply bind_inv in H as (s3 & ? & _ & H). by apply ret_inv in H as [_ ?]. }
  apply bind_inv in H as (s2 & mapped & _ & H).
  case_match.
  { apply bind_inv in H as (s3 & ? & _ & H).
    apply bind_inv in H as (s4 & ? & _ & H). by apply ret_inv in H as [_ ?]. }
  apply bind_inv in H as (s3 & stored & _ & H).
  case_match.
  { apply bind_inv in H as (s4 & ? & _ & H).
    apply bind_inv in H as (s5 & ? & _ & H). by apply ret_inv in H as [_ ?]. }
  destruct b; [|by apply ret_inv in H as [_ ?]].
  apply bind_inv in H as (s4 & l & _ & H).
  destruct (truthy l); [|by apply ret_inv in H as [_ ?]].
  destruct (l ≫= JSON_parse) as [p|] eqn:Ep; [|by apply ret_inv in H as [_ ?]].
  destruct p; try (by apply ret_inv in H as [_ ?]).
  by apply JSON_parse_last in Ep.
Qed.

Lemma glob_userkey u tok :
  isHex tok = true →
  Str.glob (AUTH_TOKEN_PREFIX +:+ "user:*:" +:+ tok) (getUserTokenKey u tok) = true.
Proof.
  intros Hh. unfold getUserTokenKey, AUTH_TOKEN_PREFIX. simpl.
  apply (glob_star_app (String ":" tok) (Str.toLowerCase u) (String ":" tok)).
  simpl. apply glob_refl, hex_no_star, Hh.
Qed.

Lemma refresh_inv now rnd u old s s' resp :
  length rnd = TOKEN_LENGTH →
  handleRefreshToken now rnd u old s = (s', Some resp) → status resp = 201 →
  let lu := Str.toLowerCase u in
  let N := generateAuthToken rnd in
  String.eqb u "" = false ∧ String.eqb old "" = false ∧
  ∃ s1 vr s3 x,
    validateAuth now lu old true s = (s1, Some vr) ∧ valid vr = true ∧
    deleteToken now old
      (<[lastTokenKey lu := Entry (VLast (LastToken old now))
                              (Redis.expiry now TOKEN_GRACE_PERIOD)]> s1) = (s3, Some x) ∧
    s' = <[getTokenKey N := Entry (written lu) (Redis.expiry now USER_EXPIRATION_TIME)]>
           (<[getUserTokenKey u N := Entry (VNum now) (Redis.expiry now USER_EXPIRATION_TIME)]>
              (<[legacyTokenKey lu := Entry (VStr N) (Redis.expiry now USER_EXPIRATION_TIME)]> s3)).
Proof.
  intros Hlen H Hst. simpl.
  pose proof (generateAuthToken_nonempty rnd Hlen) as Htok.
  unfold handleRefreshToken in H.
  destruct (String.eqb u "") eqn:Hu; [apply ret_inv in H as [_ ->]; done|].
  destruct (String.eqb old "") eqn:Hold; [apply ret_inv in H as [_ ->]; done|].
  simpl in H. split; [done|]. split; [done|].
  apply catch_inv in H as [H|(s1 & _ & H)]; [|apply ret_inv in H as [_ ->]; done].
  apply bind_inv in H as (sa & userData & Hget & H).
  apply get_inv in Hget as [-> _].
  destruct (negb (truthy userData)); [apply ret_inv in H as [_ ->]; done|].
  apply bind_inv in H as (s1 & vr & Hval & H).
  destruct (valid vr) eqn:Hvr; [|apply ret_inv in H as [_ ->]; done].
  simpl in H.
  apply bind_inv in H as (s2 & y1 & Hlast & H).
  apply bind_inv in H as (s3 & x & Hdel & H).
  apply bind_inv in H as (s4 & y2 & Hset & H).
  apply bind_inv in H as (s5 & y3 & Hstore & H).
  apply ret_inv in H as [-> _].
  exists s1, vr, s3, x. split; [done|]. split; [done|].
  unfold storeLastValidToken, Redis.set in Hlast. rewrite toLowerCase_idem in Hlast.
  simplify_eq. split; [done|].
  unfold Redis.set in Hset. rewrite written_token in Hset.
  simplify_eq.
  unfold storeToken in Hstore. rewrite Htok in Hstore.
  unfold bind, Redis.set in Hstore. rewrite !toLowerCase_idem in Hstore.
  rewrite getUserTokenKey_lower in Hstore. by simplify_eq.
Qed.

(** The user-scoped keys of two users for one token. *)
Lemma user_key_name m u tok :
  getUserTokenKey m tok = getUserTokenKey u tok → Str.toLowerCase m = Str.toLowerCase u.
Proof.
  unfold getUserTokenKey. intros E%(inj (String.app _))%(inj (String.app _)).
  by apply app_inj_tail in E.
Qed.

(** C2. After a successful refresh of [oldToken] (response 201) the grace
    record holds [oldToken] with [expiredAt = now] and a lifetime of 365
    days, but no validation ever answers [expired]: [validateAuth] applies
    [JSON.parse] to the record that the client has parsed already.  When the
    flat mapping of [oldToken] named the user, validation of [oldToken]
    fails from then on in both modes, inside the grace period as after it.
    When it did not (it had expired, or the token came from the legacy
    record), [deleteToken] leaves the user-scoped key where it is and
    [oldToken] goes on validating in strict mode.  The old token is one that
    [generateAuthToken] makes (hexadecimal) and the new token is a fresh
    draw. *)
Theorem C2_refresh_retires_old_token now rnd u old s s' resp :
  isHex old = true →
  length rnd = TOKEN_LENGTH →
  generateAuthToken rnd ≠ old →
  handleRefreshToken now rnd u old s = (s', Some resp) →
  status resp = 201 →
  let lu := Str.toLowerCase u in
  s' !! lastTokenKey lu
  = Some (Entry (VLast (LastToken old now)) (Redis.expiry now TOKEN_GRACE_PERIOD)) ∧
  (∀ t b, (validateAuth t u old b s').2 ≠ Some authExpired) ∧
  ((∃ m, Redis.value now (getTokenKey old) s = Some (VStr m) ∧ m ≠ "" ∧
         Str.toLowerCase m = lu) →
   ∀ t b, now ≤ t → (validateAuth t u old b s').2 = Some authInvalid) ∧
  ((∀ m, Redis.value now (getTokenKey old) s = Some (VStr m) → m ≠ "" →
         Str.toLowerCase m ≠ lu) →
   ∀ t, now ≤ t < now + USER_TTL_SECONDS * 1000 →
        (validateAuth t u old false s').2 = Some authValid).
Proof.
  intros Hhex Hlen Hfresh Href H201 lu.
  destruct (refresh_inv _ _ _ _ _ _ _ Hlen Href H201)
    as (Hu & Hold & s1 & vr & s3 & x & Hval & Hvr & Hdel & Hs').
  fold lu in Hval, Hdel, Hs'.
  set (N := generateAuthToken rnd) in *.
  set (eL := Entry (VLast (LastToken old now)) (Redis.expiry now TOKEN_GRACE_PERIOD)) in *.
  set (s2 := <[lastTokenKey lu := eL]> s1) in *.
  assert (HN : isHex N = true) by apply toHex_isHex.
  assert (Hlu : Str.toLowerCase lu = lu) by apply toLowerCase_idem.
  (* the flat mapping read by deleteToken is the one of the initial store *)
  assert (Hflat2 : Redis.value now (getTokenKey old) s2 = Redis.value now (getTokenKey old) s).
  { unfold s2. rewrite value_insert, decide_False by (apply not_eq_sym; by apply flat_ne_last).
    rewrite (run_fst _ _ _ _ Hval).
    apply (validateAuth_value now lu old true (getTokenKey old)); [|done].
    by apply flat_ne_user. }
  (* what deleteToken deletes is not the grace record *)
  assert (Hlast3 : s3 !! lastTokenKey lu = Some eL).
  { destruct (deleteToken_inv _ _ _ _ _ Hold Hdel) as [(m & _ & _ & ->)|[_ [->|[ks ->]]]].
    - rewrite !lookup_delete_ne;
        [|by apply flat_ne_last|apply not_eq_sym, last_ne_user].
      unfold s2. apply lookup_insert_eq.
    - rewrite lookup_delete_ne by (by apply flat_ne_last).
      unfold s2. apply lookup_insert_eq.
    - destruct (JSON_stringify_bracket ks) as [y ->].
      rewrite !lookup_delete_ne; [|by apply flat_ne_last|done].
      unfold s2. apply lookup_insert_eq. }
  split; [|split; [intros t b; apply validateAuth_not_expired|split]].
  - rewrite Hs'. rewrite !lookup_insert_ne;
      [done|apply legacy_ne_last|apply not_eq_sym, last_ne_user|by apply flat_ne_last].
  - (* the flat mapping named the user *)
    intros (m & Hm & Hne & Hmu) t b Ht.
    destruct (deleteToken_inv _ _ _ _ _ Hold Hdel) as [(m' & Hm' & _ & Hs3)|[Htr _]].
    2:{ rewrite Hflat2, Hm in Htr. simpl in Htr.
        apply negb_false_iff, String.eqb_eq in Htr. done. }
    rewrite Hflat2, Hm in Hm'. injection Hm' as <-.
    assert (Hk : getUserTokenKey m old = getUserTokenKey u old).
    { unfold getUserTokenKey. by rewrite Hmu. }
    rewrite Hk in Hs3.
    assert (HC1 : Redis.peek t (getUserTokenKey u old) s' = None).
    { rewrite Hs', !peek_insert.
      rewrite decide_False by (by apply flat_ne_user).
      rewrite decide_False by (intros E; by apply user_key_inj in E).
      rewrite decide_False by apply legacy_ne_user.
      rewrite Hs3. by rewrite peek_delete, decide_True. }
    assert (HB2 : Redis.peek t (getTokenKey old) s3 = None).
    { rewrite Hs3, !peek_delete. destruct (decide _); [done|]. by rewrite decide_True. }
    assert (HC2 : ∃ v, Redis.value t (getTokenKey old) s' = v ∧ scalar v = true ∧
                       mappedLowerOf v ≠ Some lu).
    { rewrite Hs', !value_insert.
      rewrite decide_False by (intros E; by apply flat_key_inj in E).
      rewrite decide_False by (apply not_eq_sym; by apply flat_ne_user).
      destruct (decide (legacyTokenKey lu = getTokenKey old)) as [E|_].
      - apply legacy_eq_flat in E.
        destruct (Redis.live t _); eexists; (split; [done|]); simpl; [|done].
        split; [done|]. rewrite (toLowerCase_hex N HN). congruence.
      - unfold Redis.value. rewrite HB2. by eexists. }
    assert (HC3 : ∃ w, Redis.value t (legacyTokenKey lu) s' = w ∧ scalar w = true ∧
                       isString old w = false).
    { rewrite Hs', !value_insert.
      assert (HNo : String.eqb N old = false) by (by apply String.eqb_neq).
      destruct (decide (getTokenKey N = legacyTokenKey lu)) as [E|_].
      - apply flat_key_inj in E.
        destruct (Redis.live t _); eexists; (split; [done|]); [|done].
        split; [apply scalar_written|].
        destruct (isString old (Some (written lu))) eqn:Hw; [|done].
        apply isString_written in Hw. congruence.
      - rewrite decide_False by (apply not_eq_sym, legacy_ne_user).
        rewrite decide_True by done.
        destruct (Redis.live t _); eexists; (split; [done|]); simpl; done. }
    assert (HC4 : scalar (Redis.value t (lastTokenKey lu) s') = true).
    { rewrite Hs', !value_insert.
      rewrite decide_False by (by apply flat_ne_last).
      rewrite decide_False by (apply not_eq_sym, last_ne_user).
      rewrite decide_False by apply legacy_ne_last.
      unfold Redis.value, Redis.peek. rewrite Hlast3. by destruct (Redis.live t eL). }
    destruct HC2 as (v & Hv & Hsv & Hmv). destruct HC3 as (w & Hw & Hsw & Hiw).
    by rewrite (validateAuth_fallthrough t u old b s' v w).
  - (* the flat mapping did not name the user *)
    intros Hother t Ht.
    destruct (validateAuth_valid_present _ _ _ _ _ _ _ Hval Hvr) as (_ & _ & Hkey).
    assert (Hp : present t (getUserTokenKey u old) s1).
    { rewrite <- getUserTokenKey_lower. apply Hkey. lia. }
    apply validateAuth_present; [done..|].
    assert (E : s' !! getUserTokenKey u old = s1 !! getUserTokenKey u old).
    { rewrite Hs'. rewrite !lookup_insert_ne;
        [|apply legacy_ne_user|intros E; by apply user_key_inj in E|by apply flat_ne_user].
      rewrite (run_fst _ _ _ _ Hdel).
      rewrite deleteToken_keeps.
      - unfold s2. apply lookup_insert_ne, last_ne_user.
      - apply not_eq_sym. by apply flat_ne_user.
      - intros m Hm Hne E. apply (Hother m); [by rewrite <- Hflat2|done|].
        symmetry in E. apply user_key_name in E. by rewrite E.
      - intros y. unfold getUserTokenKey, AUTH_TOKEN_PREFIX. simpl. discriminate. }
    unfold present, Redis.peek in *. by rewrite E.
Qed.
(* ===================================================================== *)
(** ** The burst limiter *)
(* ===================================================================== *)

Lemma short_ne_long r u r' u' : shortKey r u ≠ longKey r' u'.
Proof. key_neq. Qed.
Lemma short_ne_last r u r' u' : shortKey r u ≠ lastKey r' u'.
Proof. key_neq. Qed.
Lemma long_ne_last r u r' u' : longKey r u ≠ lastKey r' u'.
Proof. key_neq. Qed.
Lemma room_ne_last r r' u : roomKey r ≠ lastKey r' u.
Proof. key_neq. Qed.

Lemma counterOk_cases t k s :
  counterOk t k s →
  Redis.peek t k s = None ∨
  ∃ n ex, s !! k = Some (Entry (VNum n) ex) ∧ Redis.live t (Entry (VNum n) ex) = true.
Proof.
  unfold counterOk, Redis.value, Redis.peek.
  destruct (s !! k) as [[v ex]|]; [|by left].
  destruct (Redis.live t _) eqn:Hl; [|by left]. simpl.
  destruct v; try done. intros _. right. eauto.
Qed.

(** INCR followed by the EXPIRE that starts a window. *)
Lemma window_step now k w s :
  counterOk now k s → 0 < w →
  let c := counter now k s + 1 in
  ∃ e s1,
    Redis.incr now k s = (s1, Some c) ∧
    (if c =? 1 then Redis.expire now k w else ret tt) s1
      = (<[k := Entry (VNum c) e]> s, Some tt) ∧
    Redis.live now (Entry (VNum c) e) = true ∧
    e = (if c =? 1 then Redis.expiry now w else expiryOf now k s).
Proof.
  intros Hok Hw. simpl. unfold counter, expiryOf, Redis.value.
  destruct (counterOk_cases _ _ _ Hok) as [Hn|(n & ex & Hs & Hl)].
  - rewrite Hn. simpl. unfold Redis.incr, Redis.expire. rewrite Hn.
    exists (Redis.expiry now w). eexists. split; [reflexivity|].
    rewrite peek_insert, decide_True by done. simpl.
    rewrite insert_insert_eq. split; [reflexivity|]. split; [|reflexivity].
    apply live_expiry. lia.
  - assert (Hp : Redis.peek now k s = Some (Entry (VNum n) ex)).
    { unfold Redis.peek. by rewrite Hs, Hl. }
    rewrite Hp. simpl. unfold Redis.incr. rewrite Hp.
    exists (if n + 1 =? 1 then Redis.expiry now w else ex). eexists.
    split; [reflexivity|].
    destruct (n + 1 =? 1) eqn:E.
    + unfold Redis.expire. rewrite peek_insert, decide_True by done.
      assert (Hl' : Redis.live now (Entry (VNum (n + 1)) ex) = true) by exact Hl.
      rewrite Hl'. simpl. rewrite insert_insert_eq. split; [reflexivity|].
      split; [|reflexivity]. apply live_expiry. lia.
    + split; [reflexivity|]. split; [exact Hl|reflexivity].
Qed.

Lemma counter_insert_ne t k k' e (s : store) :
  k' ≠ k → counter t k (<[k' := e]> s) = counter t k s.
Proof. intros. unfold counter. by rewrite value_insert, decide_False. Qed.

Lemma counterOk_insert_ne t k k' e (s : store) :
  k' ≠ k → counterOk t k s → counterOk t k (<[k' := e]> s).
Proof. intros. unfold counterOk. by rewrite value_insert, decide_False. Qed.

Lemma expiryOf_insert_ne t k k' e (s : store) :
  k' ≠ k → expiryOf t k (<[k' := e]> s) = expiryOf t k s.
Proof. intros. unfold expiryOf. by rewrite peek_insert, decide_False. Qed.

(** The limiter on a public room whose window keys hold counts: the short
    window, then the long window, then the interval. *)
Lemma burstLimit_public now r u s :
  publicRoomAt now r s →
  counterOk now (shortKey r u) s → counterOk now (longKey r u) s →
  let sc := counter now (shortKey r u) s + 1 in
  let lc := counter now (longKey r u) s + 1 in
  let eS := if sc =? 1 then Redis.expiry now CHAT_BURST_SHORT_WINDOW_SECONDS
            else expiryOf now (shortKey r u) s in
  let eL := if lc =? 1 then Redis.expiry now CHAT_BURST_LONG_WINDOW_SECONDS
            else expiryOf now (longKey r u) s in
  let s1 := <[shortKey r u := Entry (VNum sc) eS]> s in
  let s2 := <[longKey r u := Entry (VNum lc) eL]> s1 in
  Redis.live now (Entry (VNum sc) eS) = true ∧
  if CHAT_BURST_SHORT_LIMIT <? sc then
    burstLimit now r u s = (s1, Some (Some shortWindowError))
  else
    Redis.live now (Entry (VNum lc) eL) = true ∧
    if CHAT_BURST_LONG_LIMIT <? lc then
      burstLimit now r u s = (s2, Some (Some longWindowError))
    else burstLimit now r u s = intervalCheck now r u s2.
Proof.
  intros (v & Hv & Hsc & Htr & Hpub) HokS HokL. simpl.
  destruct (window_step now (shortKey r u) CHAT_BURST_SHORT_WINDOW_SECONDS s HokS)
    as (eS & sa & Hincr & Hexp & HlS & HeS); [done|].
  rewrite <- HeS. split; [done|].
  unfold burstLimit.
  rewrite (bind_run _ _ _ _ _ (get_run _ _ _ _ Hv Hsc)).
  rewrite Htr. simpl. rewrite Hpub. simpl.
  rewrite (bind_run _ _ _ _ _ Hincr).
  rewrite (bind_run _ _ _ _ _ Hexp).
  destruct (CHAT_BURST_SHORT_LIMIT <? _) eqn:E1; [done|].
  set (s1 := <[shortKey r u := _]> s).
  assert (HokL1 : counterOk now (longKey r u) s1).
  { apply counterOk_insert_ne; [apply short_ne_long | done]. }
  destruct (window_step now (longKey r u) CHAT_BURST_LONG_WINDOW_SECONDS s1 HokL1)
    as (eL & sb & Hincr2 & Hexp2 & HlL & HeL); [done|].
  unfold s1 in Hincr2, Hexp2, HlL, HeL.
  rewrite counter_insert_ne in Hincr2, Hexp2, HlL, HeL by apply short_ne_long.
  rewrite expiryOf_insert_ne in HeL by apply short_ne_long.
  rewrite <- HeL. split; [done|].
  rewrite (bind_run _ _ _ _ _ Hincr2).
  rewrite (bind_run _ _ _ _ _ Hexp2).
  destruct (CHAT_BURST_LONG_LIMIT <? _) eqn:E2; [done|].
  reflexivity.
Qed.

(** Private rooms are exempt: the limiter reads the room record and stops. *)
Lemma burstLimit_private now r u s :
  privateRoomAt now r s → burstLimit now r u s = (s, Some None).
Proof.
  intros (v & Hv & Hsc & Htr & Hpub). unfold burstLimit.
  rewrite (bind_run _ _ _ _ _ (get_run _ _ _ _ Hv Hsc)).
  rewrite Htr. simpl. by rewrite Hpub.
Qed.



Lemma intervalCheck_untouched now r u k :
  k ≠ lastKey r u → untouched k (intervalCheck now r u).
Proof.
  intros Hk. unfold intervalCheck.
  apply untouched_bind; [apply untouched_get|]. intros v.
  case_match; [apply untouched_ret|].
  apply untouched_bind; [by apply untouched_set|]. intros _. apply untouched_ret.
Qed.




Section Send.
Context `{ProfanityFilter}.

Lemma ensureUserExists_untouched now u k :
  k ≠ userKey u → untouched k (ensureUserExists now u).
Proof.
  intros Hk. unfold ensureUserExists.
  repeat (case_match; [apply untouched_ret|]).
  apply untouched_bind; [apply untouched_get|]. intros v.
  case_match; [apply untouched_ret|].
  apply untouched_bind; [by apply untouched_setnx|]. intros created.
  destruct created; [apply untouched_ret|].
  apply untouched_bind; [apply untouched_get|]. intros v'.
  case_match; apply untouched_ret.
Qed.

Lemma refreshRoomPresence_untouched now r u k :
  k ≠ presenceKey r u → untouched k (refreshRoomPresence now r u).
Proof.
  intros Hk. unfold refreshRoomPresence.
  apply untouched_bind; [apply untouched_exists|]. intros ex.
  destruct ex; [by apply untouched_expire | apply untouched_ret].
Qed.

(** The second [try] of [handleSendMessage] writes the user record, the
    log of the room and the presence entry, and nothing else. *)
Lemma storeMessage_untouched now rnd r u c k :
  k ≠ userKey u → k ≠ messagesKey r → k ≠ presenceKey r u →
  untouched k (storeMessage now rnd r u c).
Proof.
  intros Hu Hm Hp. unfold storeMessage.
  apply untouched_bind; [apply untouched_exists|]. intros ex.
  case_match; [apply untouched_ret|].
  apply untouched_bind.
  { apply untouched_catch; [|apply untouched_ret].
    apply untouched_bind; [by apply ensureUserExists_untouched|].
    intros; apply untouched_ret. }
  intros ensured.
  repeat (case_match; try apply untouched_ret).
  apply untouched_bind; [apply untouched_lrange|]. intros l.
  case_match; [apply untouched_ret|].
  apply untouched_bind; [by apply untouched_lpush|]. intros _.
  apply untouched_bind; [by apply untouched_ltrim|]. intros _.
  apply untouched_bind; [by apply untouched_set|]. intros _.
  apply untouched_bind; [by apply untouched_expire|]. intros _.
  apply untouched_bind; [by apply refreshRoomPresence_untouched|]. intros _.
  apply untouched_ret.
Qed.

Lemma handleSendMessage_wellFormed now rnd r u c :
  wellFormed r u c →
  handleSendMessage now rnd r u c =
    (limited <- catch (burstLimit now r (Str.toLowerCase u)) (ret None) ;;
     match limited with
     | Some resp => ret resp
     | None =>
         catch (storeMessage now rnd r (Str.toLowerCase u) (sanitize c))
           (ret (createErrorResponse
                   "Failed to send message due to an internal error" 500))
     end).
Proof.
  intros (Hu & Hr & Hc). unfold handleSendMessage.
  rewrite Hu, Hr. simpl. by rewrite (proj2 (String.eqb_neq _ _) Hc).
Qed.

(** Only a well-formed request reaches the duplicate and length checks. *)
Lemma rejected_wellFormed now rnd r u c s s' resp :
  handleSendMessage now rnd r u c s = (s', Some resp) →
  resp = duplicateError ∨ resp = tooLongError →
  wellFormed r u c.
Proof.
  intros Hrun Hresp. unfold handleSendMessage in Hrun.
  destruct (USERNAME_REGEX _) eqn:Hu; simpl in Hrun.
  2:{ apply ret_inv in Hrun as [_ ->]. by destruct Hresp. }
  destruct (ROOM_ID_REGEX _) eqn:Hr; simpl in Hrun.
  2:{ apply ret_inv in Hrun as [_ ->]. by destruct Hresp. }
  destruct (String.eqb c "") eqn:Hc.
  { apply ret_inv in Hrun as [_ ->]. by destruct Hresp. }
  split; [done|]. split; [done|]. by apply String.eqb_neq.
Qed.

Lemma intervalCheck_result now r u s s' x :
  intervalCheck now r u s = (s', Some (Some x)) → x = minIntervalError.
Proof.
  unfold intervalCheck. intros Hrun.
  apply bind_inv in Hrun as (s1 & v & _ & Hrun).
  case_match.
  - apply ret_inv in Hrun as [_ Hx]. by simplify_eq.
  - apply bind_inv in Hrun as (s2 & ? & _ & Hrun).
    apply ret_inv in Hrun as [_ Hx]. by simplify_eq.
Qed.

(** C10. In a public room whose window keys hold counts, a send that is
    rejected as a duplicate or as too long has consumed the sender's quota:
    in the store it leaves, the short-window and the long-window counters
    are each one more than before the request. *)
Theorem C10_rejected_send_consumes_quota now rnd r u c s s' resp :
  handleSendMessage now rnd r u c s = (s', Some resp) →
  resp = duplicateError ∨ resp = tooLongError →
  let lu := Str.toLowerCase u in
  publicRoomAt now r s →
  counterOk now (shortKey r lu) s → counterOk now (longKey r lu) s →
  counter now (shortKey r lu) s' = counter now (shortKey r lu) s + 1 ∧
  counter now (longKey r lu) s' = counter now (longKey r lu) s + 1.
Proof.
  intros Hrun Hresp lu Hroom HokS HokL.
  pose proof (rejected_wellFormed _ _ _ _ _ _ _ _ Hrun Hresp) as Hwf.
  rewrite (handleSendMessage_wellFormed _ _ _ _ _ Hwf) in Hrun.
  fold lu in Hrun.
  apply bind_inv in Hrun as (sL & limited & Hlim & Hrun).
  pose proof (burstLimit_public now r lu s Hroom HokS HokL) as Hb.
  simpl in Hb. destruct Hb as [HlS Hb].
  destruct (CHAT_BURST_SHORT_LIMIT <? _) eqn:E1.
  { unfold catch in Hlim. rewrite Hb in Hlim. simplify_eq.
    apply ret_inv in Hrun as [_ ->]. by destruct Hresp. }
  destruct Hb as [HlL Hb].
  destruct (CHAT_BURST_LONG_LIMIT <? _) eqn:E2.
  { unfold catch in Hlim. rewrite Hb in Hlim. simplify_eq.
    apply ret_inv in Hrun as [_ ->]. by destruct Hresp. }
  set (eS := if _ =? 1 then _ else expiryOf now (shortKey r lu) s) in *.
  set (eL := if _ =? 1 then _ else expiryOf now (longKey r lu) s) in *.
  set (s1 := <[shortKey r lu := _]> s) in *.
  set (s2 := <[longKey r lu := _]> s1) in *.
  assert (HsL : sL !! shortKey r lu = s2 !! shortKey r lu ∧
                sL !! longKey r lu = s2 !! longKey r lu ∧ limited = None).
  { unfold catch in Hlim. rewrite Hb in Hlim.
    pose proof (intervalCheck_untouched now r lu (shortKey r lu)
                  (short_ne_last _ _ _ _) s2) as U1.
    pose proof (intervalCheck_untouched now r lu (longKey r lu)
                  (long_ne_last _ _ _ _) s2) as U2.
    destruct (intervalCheck now r lu s2) as [sx [[x|]|]] eqn:Hic;
      simpl in *; unfold ret in Hlim; simplify_eq; try done.
    apply intervalCheck_result in Hic as ->.
    apply ret_inv in Hrun as [_ ->]. by destruct Hresp. }
  destruct HsL as (Hs1 & Hs2 & ->).
  assert (Hs' : s' !! shortKey r lu = sL !! shortKey r lu ∧
                s' !! longKey r lu = sL !! longKey r lu).
  { rewrite (run_fst _ _ _ _ Hrun). split.
    - apply untouched_catch; [|apply untouched_ret].
      apply storeMessage_untouched; key_neq.
    - apply untouched_catch; [|apply untouched_ret].
      apply storeMessage_untouched; key_neq. }
  destruct Hs' as [Hs'1 Hs'2].
  unfold counter at 1 3, Redis.value, Redis.peek.
  rewrite Hs'1, Hs1, Hs'2, Hs2. unfold s2, s1.
  rewrite lookup_insert_ne by (apply not_eq_sym, short_ne_long).
  rewrite !lookup_insert_eq. by rewrite HlS, HlL.
Qed.








End Send.

(* ===================================================================== *)
(** ** Message store: duplicates *)
(* ===================================================================== *)



Lemma burstLimit_untouched now r u k :
  k ≠ shortKey r u → k ≠ longKey r u → k ≠ lastKey r u →
  untouched k (burstLimit now r u).
Proof.
  intros H1 H2 H3. unfold burstLimit.
  apply untouched_bind; [apply untouched_get|]. intros v.
  repeat (case_match; [apply untouched_ret|]).
  apply untouched_bind; [by apply untouched_incr|]. intros sc.
  apply untouched_bind.
  { case_match; [by apply untouched_expire | apply untouched_ret]. }
  intros _. case_match; [apply untouched_ret|].
  apply untouched_bind; [by apply untouched_incr|]. intros lc.
  apply untouched_bind.
  { case_match; [by apply untouched_expire | apply untouched_ret]. }
  intros _. case_match; [apply untouched_ret|].
  by apply intervalCheck_untouched.
Qed.

(** The early responses of the limiter. *)
Lemma burstLimit_result now r u s s' x :
  burstLimit now r u s = (s', Some (Some x)) →
  (x = roomNotFound ∧ truthy (Redis.value now (roomKey r) s) = false) ∨
  x = shortWindowError ∨ x = longWindowError ∨ x = minIntervalError.
Proof.
  unfold burstLimit. intros Hrun.
  apply bind_inv in Hrun as (s1 & v & Hget & Hrun).
  apply get_inv in Hget as [-> Hv].
  destruct (truthy v) eqn:Htr; simpl in Hrun.
  2:{ apply ret_inv in Hrun as [_ Hx]. left. by simplify_eq. }
  case_match; [by apply ret_inv in Hrun as [_ Hx]|].
  apply bind_inv in Hrun as (s2 & sc & _ & Hrun).
  apply bind_inv in Hrun as (s3 & ? & _ & Hrun).
  case_match; [apply ret_inv in Hrun as [_ Hx]; simplify_eq; auto|].
  apply bind_inv in Hrun as (s4 & lc & _ & Hrun).
  apply bind_inv in Hrun as (s5 & ? & _ & Hrun).
  case_match; [apply ret_inv in Hrun as [_ Hx]; simplify_eq; auto|].
  apply intervalCheck_result in Hrun. auto.
Qed.

Section Duplicate.
Context `{ProfanityFilter}.

Lemma handleSendMessage_untouched now rnd r u c k :
  let lu := Str.toLowerCase u in
  k ≠ shortKey r lu → k ≠ longKey r lu → k ≠ lastKey r lu →
  k ≠ userKey lu → k ≠ messagesKey r → k ≠ presenceKey r lu →
  untouched k (handleSendMessage now rnd r u c).
Proof.
  intros lu H1 H2 H3 H4 H5 H6. unfold handleSendMessage. fold lu.
  repeat (case_match; [apply untouched_ret|]).
  apply untouched_bind.
  { apply untouched_catch; [by apply burstLimit_untouched | apply untouched_ret]. }
  intros [resp|]; [apply untouched_ret|].
  apply untouched_catch; [|apply untouched_ret].
  by apply storeMessage_untouched.
Qed.


Lemma ensureUserExists_accepted now u :
  nameAccepted u = true →
  ensureUserExists now u =
    (userData <- Redis.get now (userKey u) ;;
     if truthy userData then ret (inr (parseUserData userData))
     else
       let newUser := VUser (User u now) in
       created <- Redis.setnx now (userKey u) newUser ;;
       if created : bool then ret (inr (Some newUser))
       else
         userData' <- Redis.get now (userKey u) ;;
         if truthy userData' then ret (inr (parseUserData userData'))
         else ret (inl ErrRace)).
Proof.
  unfold nameAccepted, ensureUserExists.
  intros [[[H1 H2]%andb_true_iff H3]%andb_true_iff H4]%andb_true_iff.
  apply negb_true_iff in H1, H2, H3. by rewrite H1, H2, H3, H4.
Qed.

Lemma ensureUserExists_some now u s s' v :
  ensureUserExists now u s = (s', Some (inr (Some v))) →
  nameAccepted u = true ∧ truthy (Some v) = true ∧ scalar (Some v) = true ∧
  parseUserData (Some v) = Some v.
Proof.
  intros Hrun.
  assert (Hacc : nameAccepted u = true).
  { unfold ensureUserExists, nameAccepted in *.
    destruct (isProfane u); [by apply ret_inv in Hrun as [_ ?]|].
    destruct (Nat.ltb (String.length u) _); [by apply ret_inv in Hrun as [_ ?]|].
    destruct (Nat.ltb MAX_USERNAME_LENGTH _); [by apply ret_inv in Hrun as [_ ?]|].
    destruct (USERNAME_REGEX u); [done|]. by apply ret_inv in Hrun as [_ ?]. }
  split; [done|].
  rewrite (ensureUserExists_accepted _ _ Hacc) in Hrun.
  assert (Hparse : ∀ d w, truthy d = true → scalar d = true →
            parseUserData d = Some w →
            truthy (Some w) = true ∧ scalar (Some w) = true ∧
            parseUserData (Some w) = Some w).
  { intros [[]|] w Ht Hs Hp; simpl in *; simplify_eq; try done.
    all: rewrite Ht in Hp; simplify_eq; simpl; rewrite Ht; auto. }
  apply bind_inv in Hrun as (s1 & d & Hget & Hrun).
  assert (Hsd : scalar d = true).
  { by apply get_scalar in Hget. }
  destruct (truthy d) eqn:Htr.
  { apply ret_inv in Hrun as [_ Hx]. simplify_eq. by eapply Hparse. }
  apply bind_inv in Hrun as (s2 & created & _ & Hrun).
  destruct created.
  { apply ret_inv in Hrun as [_ Hx]. by simplify_eq. }
  apply bind_inv in Hrun as (s3 & d' & Hget' & Hrun).
  assert (Hsd' : scalar d' = true).
  { by apply get_scalar in Hget'. }
  destruct (truthy d') eqn:Htr'.
  { apply ret_inv in Hrun as [_ Hx]. simplify_eq. by eapply Hparse. }
  by apply ret_inv in Hrun as [_ ?].
Qed.

Lemma lrange_inv now k n s s' l :
  Redis.lrange now k n s = (s', Some l) →
  s' = s ∧ ((Redis.value now k s = None ∧ l = []) ∨
            ∃ L, Redis.value now k s = Some (VList L) ∧ l = take n L).
Proof.
  unfold Redis.lrange. intros Hrun.
  destruct (Redis.value now k s) as [[]|]; simplify_eq; eauto.
Qed.

Lemma latestIs_ext t r u c (s s' : store) :
  s' !! messagesKey r = s !! messagesKey r → latestIs t r u c s → latestIs t r u c s'.
Proof.
  intros Heq (m & rest & Hv & Hm). exists m, rest. split; [|done].
  unfold Redis.value, Redis.peek in *. by rewrite Heq.
Qed.

Lemma user_ne_messages u r : userKey u ≠ messagesKey r.
Proof. key_neq. Qed.

(** The duplicate error is given only when the latest message of the room
    is the same pair. *)
Lemma storeMessage_duplicate_inv now rnd r u content s s' :
  storeMessage now rnd r u content s = (s', Some duplicateError) →
  latestIs now r u content s.
Proof.
  unfold storeMessage. intros Hrun.
  apply bind_inv in Hrun as (s1 & ex & Hex & Hrun).
  apply exists_inv in Hex as [-> _].
  destruct ex; simpl in Hrun; [|by apply ret_inv in Hrun as [_ ?]].
  apply bind_inv in Hrun as (s1 & ensured & Hens & Hrun).
  assert (Hm : s1 !! messagesKey r = s !! messagesKey r).
  { rewrite (run_fst _ _ _ _ Hens).
    apply untouched_catch; [|apply untouched_ret].
    apply untouched_bind; [|intros; apply untouched_ret].
    apply ensureUserExists_untouched, not_eq_sym, user_ne_messages. }
  apply (latestIs_ext _ _ _ _ s1); [done|].
  destruct ensured as [[[]|[v|]]|]; try (by apply ret_inv in Hrun as [_ ?]).
  destruct (Nat.ltb _ _); [by apply ret_inv in Hrun as [_ ?]|].
  apply bind_inv in Hrun as (s2 & l & Hl & Hrun).
  apply lrange_inv in Hl as [-> Hl].
  destruct (head l ≫= parseItem) as [lastMsgObj|] eqn:Hhead.
  2:{ apply bind_inv in Hrun as (? & ? & _ & Hrun).
      apply bind_inv in Hrun as (? & ? & _ & Hrun).
      apply bind_inv in Hrun as (? & ? & _ & Hrun).
      apply bind_inv in Hrun as (? & ? & _ & Hrun).
      apply bind_inv in Hrun as (? & ? & _ & Hrun).
      by apply ret_inv in Hrun as [_ ?]. }
  destruct (_ && _)%bool eqn:Hsame.
  2:{ apply bind_inv in Hrun as (? & ? & _ & Hrun).
      apply bind_inv in Hrun as (? & ? & _ & Hrun).
      apply bind_inv in Hrun as (? & ? & _ & Hrun).
      apply bind_inv in Hrun as (? & ? & _ & Hrun).
      apply bind_inv in Hrun as (? & ? & _ & Hrun).
      by apply ret_inv in Hrun as [_ ?]. }
  apply andb_true_iff in Hsame as [Hu%String.eqb_eq Hc%String.eqb_eq].
  destruct Hl as [[_ ->]|(L & HL & ->)]; [done|].
  destruct L as [|[m|raw] rest]; simpl in Hhead; simplify_eq.
  by exists lastMsgObj, rest.
Qed.

Lemma send_duplicate_inv now rnd r u c s s' :
  handleSendMessage now rnd r u c s = (s', Some duplicateError) →
  latestIs now r (Str.toLowerCase u) (sanitize c) s.
Proof.
  intros Hrun.
  pose proof (rejected_wellFormed _ _ _ _ _ _ _ _ Hrun (or_introl eq_refl)) as Hwf.
  rewrite (handleSendMessage_wellFormed _ _ _ _ _ Hwf) in Hrun.
  set (lu := Str.toLowerCase u) in *.
  apply bind_inv in Hrun as (sL & limited & Hlim & Hrun).
  assert (Hm : sL !! messagesKey r = s !! messagesKey r).
  { rewrite (run_fst _ _ _ _ Hlim).
    apply untouched_catch; [|apply untouched_ret].
    apply burstLimit_untouched; key_neq. }
  apply (latestIs_ext _ _ _ _ sL); [done|].
  destruct limited as [x|].
  { apply ret_inv in Hrun as [_ Hx]. subst x.
    apply catch_inv in Hlim as [Hlim|(? & _ & Hlim)];
      [|by apply ret_inv in Hlim as [_ ?]].
    apply burstLimit_result in Hlim as [[? _]|[?|[?|?]]]; discriminate. }
  apply catch_inv in Hrun as [Hrun|(? & _ & Hrun)];
    [|by apply ret_inv in Hrun as [_ ?]].
  by apply storeMessage_duplicate_inv in Hrun.
Qed.

Lemma lpush_ltrim now k x s s1 s2 a b :
  Redis.lpush now k x s = (s1, Some a) →
  Redis.ltrim now k 100 s1 = (s2, Some b) →
  ∃ l ex, s2 !! k = Some (Entry (VList (take 100 (x :: l))) ex) ∧
          (Redis.peek now k s = None ∧ l = [] ∨
           Redis.peek now k s = Some (Entry (VList l) ex)) ∧
          (∀ k', k' ≠ k → s2 !! k' = s !! k') ∧
          Redis.live now (Entry (VList (take 100 (x :: l))) ex) = true.
Proof.
  unfold Redis.lpush. intros Hpush Htrim.
  destruct (Redis.peek now k s) as [[v ex]|] eqn:Hp.
  - destruct v; simplify_eq.
    assert (Hl : Redis.live now (Entry (VList l) ex) = true).
    { unfold Redis.peek in Hp. destruct (s !! k); [|done].
      destruct (Redis.live now e) eqn:E; by simplify_eq. }
    unfold Redis.ltrim in Htrim. rewrite peek_insert, decide_True in Htrim by done.
    assert (Hl' : Redis.live now (Entry (VList (x :: l)) ex) = true) by exact Hl.
    rewrite Hl' in Htrim. simpl in Htrim. simplify_eq.
    exists l, ex. rewrite lookup_insert_eq. split; [done|]. split; [by right|].
    split; [|done]. intros k' Hk'. by rewrite !lookup_insert_ne.
  - simplify_eq.
    unfold Redis.ltrim in Htrim. rewrite peek_insert, decide_True in Htrim by done.
    simpl in Htrim. simplify_eq.
    exists [], None. rewrite lookup_insert_eq. split; [done|]. split; [by left|].
    split; [|done]. intros k' Hk'. by rewrite !lookup_insert_ne.
Qed.

Lemma withLastActive_ok v now :
  truthy (Some v) = true → scalar (Some v) = true →
  parseUserData (Some v) = Some v →
  let w := withLastActive v now in
  truthy (Some w) = true ∧ scalar (Some w) = true ∧ parseUserData (Some w) = Some w.
Proof. destruct v; simpl; try done. Qed.

Lemma user_ne_presence u r u' : userKey u ≠ presenceKey r u'.
Proof. key_neq. Qed.
Lemma messages_ne_presence r r' u : messagesKey r ≠ presenceKey r' u.
Proof. key_neq. Qed.

(** What a stored message leaves behind. *)
Lemma storeMessage_created_inv now rnd r u content s s' m :
  storeMessage now rnd r u content s = (s', Some (Response 201 (BMessage m))) →
  nameAccepted u = true ∧
  Nat.ltb MAX_MESSAGE_LENGTH (String.length content) = false ∧
  m = Message (generateId rnd) r u content now ∧
  (∃ l ex, s' !! messagesKey r = Some (Entry (VList (take 100 (MJson m :: l))) ex) ∧
           logOf now r s = l ∧
           Redis.live now (Entry (VList (take 100 (MJson m :: l))) ex) = true) ∧
  (∃ v, s' !! userKey u = Some (Entry v (Redis.expiry now USER_EXPIRATION_TIME)) ∧
        truthy (Some v) = true ∧ scalar (Some v) = true ∧
        parseUserData (Some v) = Some v).
Proof.
  unfold storeMessage. intros Hrun.
  apply bind_inv in Hrun as (s1 & ex & Hex & Hrun).
  apply exists_inv in Hex as [-> _].
  destruct ex; simpl in Hrun; [|by apply ret_inv in Hrun as [_ ?]].
  apply bind_inv in Hrun as (s1 & ensured & Hens & Hrun).
  assert (Hm1 : s1 !! messagesKey r = s !! messagesKey r).
  { rewrite (run_fst _ _ _ _ Hens).
    apply untouched_catch; [|apply untouched_ret].
    apply untouched_bind; [|intros; apply untouched_ret].
    apply ensureUserExists_untouched, not_eq_sym, user_ne_messages. }
  destruct ensured as [[[]|[v|]]|]; try (by apply ret_inv in Hrun as [_ ?]).
  apply catch_inv in Hens as [Hens|(? & _ & Hens)];
    [|by apply ret_inv in Hens as [_ ?]].
  apply bind_inv in Hens as (s1' & res & Hens & Hret).
  apply ret_inv in Hret as [-> Hres]. simplify_eq.
  apply ensureUserExists_some in Hens as (Hacc & Htr & Hsc & Hparse).
  split; [done|].
  destruct (Nat.ltb _ _) eqn:Hlen; [by apply ret_inv in Hrun as [_ ?]|].
  split; [done|].
  apply bind_inv in Hrun as (s2 & l & Hl & Hrun).
  apply lrange_inv in Hl as [-> _].
  destruct (match head l ≫= parseItem with Some _ => _ | None => false end);
    [by apply ret_inv in Hrun as [_ ?]|].
  apply bind_inv in Hrun as (s3 & ? & Hpush & Hrun).
  apply bind_inv in Hrun as (s4 & ? & Htrim & Hrun).
  apply bind_inv in Hrun as (s5 & ? & Hset & Hrun).
  apply bind_inv in Hrun as (s6 & ? & Hexp & Hrun).
  apply bind_inv in Hrun as (s7 & ? & Hpres & Hrun).
  apply ret_inv in Hrun as [-> Hresp]. simplify_eq.
  split; [done|].
  destruct (lpush_ltrim _ _ _ _ _ _ _ _ Hpush Htrim) as (L & ex & Hlog & Hold & Hother & Hlive).
  unfold Redis.set in Hset. simplify_eq.
  unfold Redis.expire in Hexp. rewrite peek_insert, decide_True in Hexp by done.
  simpl in Hexp. simplify_eq.
  assert (Hp1 : ∀ k, k ≠ presenceKey r u →
            (refreshRoomPresence now r u
               (<[userKey u := Entry (withLastActive v now)
                                 (Redis.expiry now USER_EXPIRATION_TIME)]>
                  (<[userKey u := Entry (withLastActive v now) None]> s4))).1 !! k
            = (<[userKey u := Entry (withLastActive v now)
                                 (Redis.expiry now USER_EXPIRATION_TIME)]>
                  (<[userKey u := Entry (withLastActive v now) None]> s4)) !! k).
  { intros k Hk. by apply refreshRoomPresence_untouched. }
  rewrite <- (run_fst _ _ _ _ Hpres) in Hp1.
  split.
  - exists L, ex. rewrite Hp1 by apply messages_ne_presence.
    rewrite !lookup_insert_ne by apply user_ne_messages. split; [done|].
    split; [|done].
    unfold logOf, Redis.value, Redis.peek.
    unfold Redis.peek in Hold. rewrite Hm1 in Hold.
    destruct Hold as [ [Hold ->] | Hold ]; by rewrite Hold.
  - exists (withLastActive v now). rewrite Hp1 by apply user_ne_presence.
    rewrite lookup_insert_eq. split; [done|]. by apply withLastActive_ok.
Qed.

(** A send of the pair that the latest message of the room already has is
    answered with the duplicate error, when the user record is missing or
    well formed. *)
Lemma storeMessage_duplicate now rnd r u content s :
  present now (roomKey r) s →
  nameAccepted u = true →
  (Redis.peek now (userKey u) s = None ∨
   ∃ e, Redis.peek now (userKey u) s = Some e ∧ truthy (Some (e_val e)) = true ∧
        scalar (Some (e_val e)) = true ∧
        parseUserData (Some (e_val e)) = Some (e_val e)) →
  Nat.ltb MAX_MESSAGE_LENGTH (String.length content) = false →
  latestIs now r u content s →
  (storeMessage now rnd r u content s).2 = Some duplicateError.
Proof.
  intros Hroom Hacc Huser Hlen Hlatest. unfold storeMessage.
  rewrite (bind_run _ _ _ _ _ (exists_run _ _ _)).
  rewrite bool_decide_eq_true_2 by done. simpl.
  rewrite (ensureUserExists_accepted _ _ Hacc).
  assert (Hens : ∃ s1 v,
    catch (r0 <- (userData <- Redis.get now (userKey u) ;;
                  if truthy userData then ret (inr (parseUserData userData))
                  else
                    created <- Redis.setnx now (userKey u) (VUser (User u now)) ;;
                    if created : bool
                    then ret (inr (Some (VUser (User u now))))
                    else
                      userData' <- Redis.get now (userKey u) ;;
                      if truthy userData' then ret (inr (parseUserData userData'))
                      else ret (inl ErrRace)) ;;
           ret (Some r0)) (ret None) s
      = (s1, Some (Some (inr (Some v)))) ∧
    s1 !! messagesKey r = s !! messagesKey r).
  { destruct Huser as [Hn|(e & He & Htr & Hsc & Hparse)].
    - exists (<[userKey u := Entry (VUser (User u now)) None]> s), (VUser (User u now)).
      split; [|by rewrite lookup_insert_ne by apply user_ne_messages].
      unfold catch, bind at 1.
      assert (Hv : Redis.value now (userKey u) s = None).
      { unfold Redis.value. by rewrite Hn. }
      rewrite (bind_run _ _ _ _ _ (get_run _ _ _ _ Hv eq_refl)). simpl.
      unfold bind, Redis.setnx. by rewrite Hn.
    - exists s, (e_val e). split; [|done].
      unfold catch, bind at 1.
      assert (Hv : Redis.value now (userKey u) s = Some (e_val e)).
      { unfold Redis.value. by rewrite He. }
      rewrite (bind_run _ _ _ _ _ (get_run _ _ _ _ Hv Hsc)).
      rewrite Htr, Hparse. done. }
  destruct Hens as (s1 & v & Hens & Hm).
  rewrite (bind_run _ _ _ _ _ Hens). rewrite Hlen.
  destruct (latestIs_ext _ _ _ _ _ s1 Hm Hlatest) as (m & rest & Hv & Hmu & Hmc).
  assert (Hl : Redis.lrange now (messagesKey r) 1 s1 = (s1, Some [MJson m])).
  { unfold Redis.lrange. by rewrite Hv. }
  rewrite (bind_run _ _ _ _ _ Hl). simpl.
  by rewrite Hmu, Hmc, !String.eqb_refl.
Qed.

Lemma created_wellFormed now rnd r u c s s' m :
  handleSendMessage now rnd r u c s = (s', Some (Response 201 (BMessage m))) →
  wellFormed r u c.
Proof.
  intros Hrun. unfold handleSendMessage in Hrun.
  destruct (USERNAME_REGEX _) eqn:Hu; simpl in Hrun;
    [|by apply ret_inv in Hrun as [_ ?]].
  destruct (ROOM_ID_REGEX _) eqn:Hr; simpl in Hrun;
    [|by apply ret_inv in Hrun as [_ ?]].
  destruct (String.eqb c "") eqn:Hc; [by apply ret_inv in Hrun as [_ ?]|].
  split; [done|]. split; [done|]. by apply String.eqb_neq.
Qed.

(** What a successful send leaves behind. *)
Lemma send_created_inv now rnd r u c s s' m :
  handleSendMessage now rnd r u c s = (s', Some (Response 201 (BMessage m))) →
  let lu := Str.toLowerCase u in
  wellFormed r u c ∧
  nameAccepted lu = true ∧
  Nat.ltb MAX_MESSAGE_LENGTH (String.length (sanitize c)) = false ∧
  m = Message (generateId rnd) r lu (sanitize c) now ∧
  truthy (Redis.value now (roomKey r) s) = true ∧
  (∃ l ex, s' !! messagesKey r = Some (Entry (VList (take 100 (MJson m :: l))) ex) ∧
           logOf now r s = l ∧
           Redis.live now (Entry (VList (take 100 (MJson m :: l))) ex) = true) ∧
  (∃ v, s' !! userKey lu = Some (Entry v (Redis.expiry now USER_EXPIRATION_TIME)) ∧
        truthy (Some v) = true ∧ scalar (Some v) = true ∧
        parseUserData (Some v) = Some v).
Proof.
  intros Hrun lu.
  pose proof (created_wellFormed _ _ _ _ _ _ _ _ Hrun) as Hwf.
  split; [done|].
  rewrite (handleSendMessage_wellFormed _ _ _ _ _ Hwf) in Hrun. fold lu in Hrun.
  apply bind_inv in Hrun as (sL & limited & Hlim & Hrun).
  assert (HU : ∀ k, k ≠ shortKey r lu → k ≠ longKey r lu → k ≠ lastKey r lu →
                    sL !! k = s !! k).
  { intros k H1 H2 H3. rewrite (run_fst _ _ _ _ Hlim).
    apply untouched_catch; [|apply untouched_ret]. by apply burstLimit_untouched. }
  destruct limited as [x|].
  { apply ret_inv in Hrun as [_ Hx]. subst x.
    apply catch_inv in Hlim as [Hlim|(? & _ & Hlim)];
      [|by apply ret_inv in Hlim as [_ ?]].
    apply burstLimit_result in Hlim as [[? _]|[?|[?|?]]]; discriminate. }
  assert (Hroom : truthy (Redis.value now (roomKey r) s) = true).
  { apply catch_inv in Hlim as [Hlim|(sx & Hlim & _)].
    - destruct (truthy (Redis.value now (roomKey r) s)) eqn:Htr; [done|].
      unfold burstLimit in Hlim.
      apply bind_inv in Hlim as (s1 & v & Hget & Hlim).
      apply get_inv in Hget as [-> <-]. rewrite Htr in Hlim. simpl in Hlim.
      by apply ret_inv in Hlim as [_ ?].
    - destruct (truthy (Redis.value now (roomKey r) s)) eqn:Htr; [done|].
      assert (Hsc : scalar (Redis.value now (roomKey r) s) = true).
      { by destruct (Redis.value now (roomKey r) s) as [[]|]. }
      unfold burstLimit in Hlim.
      rewrite (bind_run _ _ _ _ _ (get_run _ _ _ _ eq_refl Hsc)) in Hlim.
      rewrite Htr in Hlim. done. }
  apply catch_inv in Hrun as [Hrun|(? & _ & Hrun)];
    [|by apply ret_inv in Hrun as [_ ?]].
  apply storeMessage_created_inv in Hrun
    as (Hacc & Hlen & Hm & (l & ex & Hlog & Hold & Hlive) & Huser).
  repeat (split; [done|]).
  split; [|done].
  exists l, ex. split; [done|]. split; [|done].
  rewrite <- Hold. unfold logOf, Redis.value, Redis.peek.
  by rewrite HU by key_neq.
Qed.

Lemma messagesKey_inj r r' : messagesKey r = messagesKey r' → r = r'.
Proof. unfold messagesKey, CHAT_MESSAGES_PREFIX. simpl. by intros [= ?]. Qed.

Lemma present_lookup t k (s : store) :
  present t k s → ∃ e, s !! k = Some e ∧ Redis.live t e = true.
Proof.
  unfold present, Redis.peek. destruct (s !! k) as [e|]; [|by intros [? ?]].
  destruct (Redis.live t e) eqn:E; [eauto | by intros [? ?]].
Qed.

(** C4 (amended). After [(username, content)] has been stored in a room
    (response 201), sending the same pair again, with no message in
    between and while the room and its log are still there, is rejected:
    with the duplicate error, unless the burst limiter of a public room
    rejects it first (in a private room it is always the duplicate error).
    Content whose sanitized form differs is never rejected as a duplicate,
    and neither is the same content sent to another room whose latest
    message is not that same pair. *)
Theorem C4_duplicate_send now rnd r u c s s1 m :
  handleSendMessage now rnd r u c s = (s1, Some (Response 201 (BMessage m))) →
  let lu := Str.toLowerCase u in
  (∀ t2 rnd2 s2 resp2,
     now ≤ t2 → present t2 (roomKey r) s1 → present t2 (messagesKey r) s1 →
     handleSendMessage t2 rnd2 r u c s1 = (s2, Some resp2) →
     (resp2 = duplicateError ∨ resp2 = shortWindowError ∨
      resp2 = longWindowError ∨ resp2 = minIntervalError) ∧
     (privateRoomAt t2 r s1 → resp2 = duplicateError)) ∧
  (∀ t2 rnd2 c' s2 resp2,
     sanitize c' ≠ sanitize c →
     handleSendMessage t2 rnd2 r u c' s1 = (s2, Some resp2) →
     resp2 ≠ duplicateError) ∧
  (∀ t2 rnd2 r' s2 resp2,
     r' ≠ r → ¬ latestIs t2 r' lu (sanitize c) s →
     handleSendMessage t2 rnd2 r' u c s1 = (s2, Some resp2) →
     resp2 ≠ duplicateError).
Proof.
  intros Hfirst lu.
  destruct (send_created_inv _ _ _ _ _ _ _ _ Hfirst)
    as (Hwf & Hacc & Hlen & Hm & Hroom & (l & ex & Hlog & _) & (v & Huser & Hv)).
  fold lu in Hacc, Hm, Huser.
  assert (Hmu : m_username m = lu) by (by rewrite Hm).
  assert (Hmc : m_content m = sanitize c) by (by rewrite Hm).
  split; [|split].
  - intros t2 rnd2 s2 resp2 Ht2 Hproom Hplog Hrun.
    rewrite (handleSendMessage_wellFormed _ _ _ _ _ Hwf) in Hrun. fold lu in Hrun.
    apply bind_inv in Hrun as (sL & limited & Hlim & Hrun).
    assert (HU : ∀ k, k ≠ shortKey r lu → k ≠ longKey r lu → k ≠ lastKey r lu →
                      sL !! k = s1 !! k).
    { intros k H1 H2 H3. rewrite (run_fst _ _ _ _ Hlim).
      apply untouched_catch; [|apply untouched_ret]. by apply burstLimit_untouched. }
    destruct limited as [x|].
    + apply ret_inv in Hrun as [_ ->].
      apply catch_inv in Hlim as [Hlim|(? & _ & Hlim)];
        [|by apply ret_inv in Hlim as [_ ?]].
      split.
      * apply burstLimit_result in Hlim as [[_ Hfalse]|Hx]; [|by right].
        exfalso.
        destruct (present_lookup _ _ _ Hproom) as (e & He & Hl).
        assert (Hs : s !! roomKey r = Some e).
        { rewrite <- He. symmetry.
          rewrite (run_fst _ _ _ _ Hfirst).
          apply handleSendMessage_untouched; key_neq. }
        unfold Redis.value, Redis.peek in Hfalse, Hroom.
        rewrite He, Hl in Hfalse. rewrite Hs, (live_mono _ _ _ Ht2 Hl) in Hroom.
        simpl in *. congruence.
      * intros Hpriv. rewrite (burstLimit_private _ _ _ _ Hpriv) in Hlim. by simplify_eq.
    + assert (Hdup : (storeMessage t2 rnd2 r lu (sanitize c) sL).2 = Some duplicateError).
      { apply storeMessage_duplicate; [|done| |done|].
        - destruct (present_lookup _ _ _ Hproom) as (e & He & Hl).
          unfold present, Redis.peek. rewrite HU by key_neq. rewrite He, Hl. eauto.
        - unfold Redis.peek. rewrite HU by key_neq. rewrite Huser.
          destruct (Redis.live t2 _); [right; eauto | by left].
        - destruct (present_lookup _ _ _ Hplog) as (e & He & Hl).
          exists m, (take 99 l). split; [|done].
          unfold Redis.value, Redis.peek. rewrite HU by key_neq.
          rewrite He, Hl. rewrite Hlog in He. by simplify_eq. }
      unfold catch in Hrun.
      destruct (storeMessage t2 rnd2 r lu (sanitize c) sL) as [sx [x|]];
        simpl in Hdup; simplify_eq. auto.
  - intros t2 rnd2 c' s2 resp2 Hne Hrun ->.
    apply send_duplicate_inv in Hrun as (m' & rest & Hval & Hu' & Hc').
    unfold Redis.value, Redis.peek in Hval. rewrite Hlog in Hval.
    destruct (Redis.live t2 _); simpl in Hval; simplify_eq; try congruence.
  - intros t2 rnd2 r' s2 resp2 Hr' Hnot Hrun ->.
    apply send_duplicate_inv in Hrun. apply Hnot.
    apply (latestIs_ext _ _ _ _ s1); [|done].
    symmetry. rewrite (run_fst _ _ _ _ Hfirst).
    apply handleSendMessage_untouched; try key_neq.
    intros E. by apply messagesKey_inj in E.
Qed.
End Duplicate.

(* ===================================================================== *)
(** ** The minimum interval between two accepted messages *)
(* ===================================================================== *)

Section Interval.
Context `{ProfanityFilter}.




End Interval.

(* ===================================================================== *)
(** ** The bound of the message log *)
(* ===================================================================== *)

Lemma bounded_insert k e (s : store) :
  bounded s → (∀ l, e_val e = VList l → (length l ≤ 100)%nat) →
  bounded (<[k := e]> s).
Proof.
  intros Hs He k' e' l Hk Hl.
  destruct (decide (k = k')) as [->|Hne].
  - rewrite lookup_insert_eq in Hk. simplify_eq. by apply He.
  - rewrite lookup_insert_ne in Hk by done. by eapply Hs.
Qed.

Lemma bounded_delete k (s : store) : bounded s → bounded (delete k s).
Proof.
  intros Hs k' e' l Hk Hl.
  destruct (decide (k = k')) as [->|Hne].
  - by rewrite lookup_delete_eq in Hk.
  - rewrite lookup_delete_ne in Hk by done. by eapply Hs.
Qed.

Lemma bounded_peek t k e l (s : store) :
  bounded s → Redis.peek t k s = Some e → e_val e = VList l → (length l ≤ 100)%nat.
Proof.
  unfold Redis.peek. intros Hs Hp Hl.
  destruct (s !! k) as [e'|] eqn:Hk; [|done].
  destruct (Redis.live t e'); [|done]. simplify_eq. by eapply Hs.
Qed.

Lemma bounded_logOf t r s : bounded s → (length (logOf t r s) ≤ 100)%nat.
Proof.
  intros Hs. unfold logOf, Redis.value.
  destruct (Redis.peek t (messagesKey r) s) as [[v ex]|] eqn:Hp; simpl; [|lia].
  destruct v; simpl; try lia. by eapply bounded_peek.
Qed.

Lemma bounded_set now k v ex :
  (∀ l, v ≠ VList l) → preserves bounded (Redis.set now k v ex).
Proof.
  intros Hv s Hs. unfold Redis.set. simpl.
  apply bounded_insert; [done|]. intros l Hl. by destruct (Hv l).
Qed.

Lemma bounded_setnx now k v :
  (∀ l, v ≠ VList l) → preserves bounded (Redis.setnx now k v).
Proof.
  intros Hv s Hs. unfold Redis.setnx.
  destruct (Redis.peek now k s); simpl; [done|].
  apply bounded_insert; [done|]. intros l Hl. by destruct (Hv l).
Qed.

Lemma bounded_expire now k ex : preserves bounded (Redis.expire now k ex).
Proof.
  intros s Hs. unfold Redis.expire.
  destruct (Redis.peek now k s) as [e|] eqn:Hp; simpl; [|done].
  apply bounded_insert; [done|]. intros l Hl. by eapply bounded_peek.
Qed.

Lemma bounded_incr now k : preserves bounded (Redis.incr now k).
Proof.
  intros s Hs. unfold Redis.incr.
  destruct (Redis.peek now k s) as [[v ex]|] eqn:Hp; simpl.
  - destruct v; simpl; try done. by apply bounded_insert.
  - by apply bounded_insert.
Qed.

Lemma bounded_del now k : preserves bounded (Redis.del now k).
Proof.
  intros s Hs. destruct (del_run now k s) as [n ->]. by apply bounded_delete.
Qed.

(** LPUSH followed by LTRIM 0 99 keeps the bound, although the list has 101
    elements in between. *)
Lemma bounded_lpush_ltrim {B} now k x (f : M B) :
  preserves bounded f →
  preserves bounded (Redis.lpush now k x ;; Redis.ltrim now k 100 ;; f).
Proof.
  intros Hf s Hs. unfold bind at 1, Redis.lpush.
  destruct (Redis.peek now k s) as [[v ex]|] eqn:Hp.
  - destruct v; try done.
    assert (Hl : Redis.live now (Entry (VList l) ex) = true).
    { unfold Redis.peek in Hp. destruct (s !! k); [|done].
      destruct (Redis.live now e) eqn:E; by simplify_eq. }
    unfold bind, Redis.ltrim. rewrite peek_insert, decide_True by done.
    assert (Hl' : Redis.live now (Entry (VList (x :: l)) ex) = true) by exact Hl.
    rewrite Hl'. simpl. apply Hf. rewrite insert_insert_eq.
    apply bounded_insert; [done|]. intros l' Hl''. simpl in Hl''. simplify_eq.
    simpl. rewrite length_take. lia.
  - unfold bind, Redis.ltrim. rewrite peek_insert, decide_True by done.
    simpl. apply Hf. rewrite insert_insert_eq.
    apply bounded_insert; [done|]. intros l' Hl''. simpl in Hl''. simplify_eq.
    simpl. lia.
Qed.

(** A bind whose continuation relies on a property of the result. *)
Lemma preserves_bind_post {A B} P (Q : A → Prop) (m : M A) (f : A → M B) :
  preserves P m → (∀ s s' a, m s = (s', Some a) → Q a) →
  (∀ a, Q a → preserves P (f a)) → preserves P (bind m f).
Proof.
  intros Hm HQ Hf s Hs. unfold bind.
  destruct (m s) as [s' [a|]] eqn:E.
  - apply (Hf a); [by eapply HQ|]. specialize (Hm s Hs). by rewrite E in Hm.
  - specialize (Hm s Hs). by rewrite E in Hm.
Qed.

Lemma bounded_intervalCheck now r u : preserves bounded (intervalCheck now r u).
Proof.
  unfold intervalCheck.
  apply preserves_bind; [apply preserves_pure, get_fst|]. intros v.
  destruct (_ && _)%bool; [apply preserves_ret|].
  apply preserves_bind; [by apply bounded_set|]. intros. apply preserves_ret.
Qed.

Lemma bounded_burstLimit now r u : preserves bounded (burstLimit now r u).
Proof.
  unfold burstLimit.
  apply preserves_bind; [apply preserves_pure, get_fst|]. intros v.
  destruct (negb (truthy v)); [apply preserves_ret|].
  destruct (negb (isPublicRoom _)); [apply preserves_ret|].
  apply preserves_bind; [apply bounded_incr|]. intros sc.
  apply preserves_bind.
  { destruct (sc =? 1); [apply bounded_expire|apply preserves_ret]. }
  intros _. destruct (_ <? sc); [apply preserves_ret|].
  apply preserves_bind; [apply bounded_incr|]. intros lc.
  apply preserves_bind.
  { destruct (lc =? 1); [apply bounded_expire|apply preserves_ret]. }
  intros _. destruct (_ <? lc); [apply preserves_ret|].
  apply bounded_intervalCheck.
Qed.

Lemma bounded_refreshRoomPresence now r u :
  preserves bounded (refreshRoomPresence now r u).
Proof.
  unfold refreshRoomPresence.
  apply preserves_bind; [by apply preserves_pure|]. intros [].
  - apply bounded_expire.
  - apply preserves_ret.
Qed.

Lemma withLastActive_scalar v now l :
  scalar (Some v) = true → withLastActive v now ≠ VList l.
Proof. by destruct v. Qed.

Section Bounded.
Context `{ProfanityFilter}.

Lemma bounded_ensureUserExists now u : preserves bounded (ensureUserExists now u).
Proof.
  unfold ensureUserExists.
  destruct (isProfane u); [apply preserves_ret|].
  destruct (Nat.ltb _ _); [apply preserves_ret|].
  destruct (Nat.ltb _ _); [apply preserves_ret|].
  destruct (negb _); [apply preserves_ret|].
  apply preserves_bind; [apply preserves_pure, get_fst|]. intros v.
  destruct (truthy v); [apply preserves_ret|].
  apply preserves_bind; [by apply bounded_setnx|]. intros [].
  - apply preserves_ret.
  - apply preserves_bind; [apply preserves_pure, get_fst|]. intros v'.
    destruct (truthy v'); apply preserves_ret.
Qed.

Lemma bounded_storeMessage now rnd r u c :
  preserves bounded (storeMessage now rnd r u c).
Proof.
  unfold storeMessage.
  apply preserves_bind; [by apply preserves_pure|]. intros ex.
  destruct (negb ex); [apply preserves_ret|].
  apply (preserves_bind_post _
           (λ e, ∀ v, e = Some (inr (Some v)) → scalar (Some v) = true)).
  { apply preserves_catch; [|apply preserves_ret].
    apply preserves_bind; [apply bounded_ensureUserExists|].
    intros. apply preserves_ret. }
  { intros s s' e Hrun v ->.
    apply catch_inv in Hrun as [Hrun|(? & _ & Hrun)];
      [|by apply ret_inv in Hrun as [_ ?]].
    apply bind_inv in Hrun as (s1 & res & Hens & Hret).
    apply ret_inv in Hret as [_ Hres]. simplify_eq.
    by apply ensureUserExists_some in Hens as (_ & _ & ? & _). }
  intros [[[]|[v|]]|] Hv; try apply preserves_ret.
  destruct (Nat.ltb _ _); [apply preserves_ret|].
  apply preserves_bind; [by apply preserves_pure; intros s; unfold Redis.lrange;
                         destruct (Redis.value _ _ s) as [[]|]|].
  intros l. destruct (match head l ≫= parseItem with Some _ => _ | None => false end);
    [apply preserves_ret|].
  apply bounded_lpush_ltrim.
  apply preserves_bind.
  { apply bounded_set. intros l'. by apply withLastActive_scalar, Hv. }
  intros _. apply preserves_bind; [apply bounded_expire|].
  intros _. apply preserves_bind; [apply bounded_refreshRoomPresence|].
  intros _. apply preserves_ret.
Qed.

Lemma bounded_handleSendMessage now rnd r u c :
  preserves bounded (handleSendMessage now rnd r u c).
Proof.
  unfold handleSendMessage.
  destruct (negb _); [apply preserves_ret|].
  destruct (negb _); [apply preserves_ret|].
  destruct (String.eqb c ""); [apply preserves_ret|].
  apply preserves_bind.
  { apply preserves_catch; [apply bounded_burstLimit|apply preserves_ret]. }
  intros [x|]; [apply preserves_ret|].
  apply preserves_catch; [apply bounded_storeMessage|apply preserves_ret].
Qed.

Lemma bounded_handleGenerateRyoReply now rnd r p reply :
  preserves bounded (handleGenerateRyoReply now rnd r p reply).
Proof.
  unfold handleGenerateRyoReply.
  destruct (negb _); [apply preserves_ret|].
  destruct (String.eqb p ""); [apply preserves_ret|].
  apply preserves_bind; [by apply preserves_pure|]. intros ex.
  destruct (negb ex); [apply preserves_ret|].
  destruct reply as [text|]; [|apply preserves_ret].
  apply bounded_lpush_ltrim, preserves_ret.
Qed.

Lemma bounded_performAll ops s : bounded s → bounded (performAll ops s).
Proof.
  revert s. induction ops as [|a ops IH]; intros s Hs; [done|].
  simpl. apply IH. destruct a; simpl.
  - by apply bounded_handleSendMessage.
  - by apply bounded_handleGenerateRyoReply.
Qed.

Lemma ryo_created_inv now rnd r p reply s s' m :
  handleGenerateRyoReply now rnd r p reply s = (s', Some (Response 201 (BMessage m))) →
  ∃ text, reply = Some text ∧
          m = Message (generateId rnd) r "ryo" (sanitize text) now ∧
          logOf now r s' = take 100 (MJson m :: logOf now r s).
Proof.
  unfold handleGenerateRyoReply. intros Hrun.
  destruct (negb _); [by apply ret_inv in Hrun as [_ ?]|].
  destruct (String.eqb p ""); [by apply ret_inv in Hrun as [_ ?]|].
  apply bind_inv in Hrun as (s1 & ex & Hex & Hrun).
  apply exists_inv in Hex as [-> _].
  destruct (negb ex); [by apply ret_inv in Hrun as [_ ?]|].
  destruct reply as [text|]; [|by apply ret_inv in Hrun as [_ ?]].
  apply bind_inv in Hrun as (s2 & ? & Hpush & Hrun).
  apply bind_inv in Hrun as (s3 & ? & Htrim & Hrun).
  apply ret_inv in Hrun as [-> Hm]. simplify_eq.
  exists text. split; [done|]. split; [done|].
  destruct (lpush_ltrim _ _ _ _ _ _ _ _ Hpush Htrim)
    as (l & ex' & Hlog & Hold & _ & Hlive).
  unfold logOf at 1, Redis.value, Redis.peek. rewrite Hlog, Hlive. simpl.
  unfold logOf, Redis.value.
  destruct Hold as [ [Hold ->] | Hold ]; by rewrite Hold.
Qed.

Lemma send_created_log now rnd r u c s s' m :
  handleSendMessage now rnd r u c s = (s', Some (Response 201 (BMessage m))) →
  logOf now r s' = take 100 (MJson m :: logOf now r s).
Proof.
  intros Hrun.
  destruct (send_created_inv _ _ _ _ _ _ _ _ Hrun)
    as (_ & _ & _ & _ & _ & (l & ex & Hlog & Hold & Hlive) & _).
  unfold logOf at 1, Redis.value, Redis.peek. rewrite Hlog, Hlive. simpl.
  by rewrite Hold.
Qed.

(** C6: every list of the store, so the message log of every room, has at
    most 100 elements after any sequence of user sends and ryo replies
    that starts in a store where that holds; and a send or a reply that
    is accepted leaves in the log of its room the new message followed by
    the previous log, cut to the first 100. *)
Theorem C6_log_bounded :
  (∀ ops s, bounded s →
     bounded (performAll ops s) ∧
     ∀ t r, (length (logOf t r (performAll ops s)) ≤ 100)%nat) ∧
  (∀ now rnd r u c s s' m,
     handleSendMessage now rnd r u c s = (s', Some (Response 201 (BMessage m))) →
     logOf now r s' = take 100 (MJson m :: logOf now r s)) ∧
  (∀ now rnd r p reply s s' m,
     handleGenerateRyoReply now rnd r p reply s
       = (s', Some (Response 201 (BMessage m))) →
     logOf now r s' = take 100 (MJson m :: logOf now r s)).
Proof.
  split; [|split].
  - intros ops s Hs. pose proof (bounded_performAll ops s Hs) as Hb.
    split; [done|]. intros t r. by apply bounded_logOf.
  - intros. by eapply send_created_log.
  - intros now rnd r p reply s s' m Hrun.
    by destruct (ryo_created_inv _ _ _ _ _ _ _ _ Hrun) as (? & _ & _ & ?).
Qed.
End Bounded.

(* ===================================================================== *)
(** ** Leaving and deleting a private room of two *)
(* ===================================================================== *)

Lemma USERNAME_REGEX_nonempty u : USERNAME_REGEX u = true → String.eqb u "" = false.
Proof. by destruct u. Qed.

Lemma ROOM_ID_REGEX_nonempty r : ROOM_ID_REGEX r = true → String.eqb r "" = false.
Proof. unfold ROOM_ID_REGEX. by destruct (String.eqb r ""). Qed.

Lemma ROOM_ID_REGEX_alnum r : ROOM_ID_REGEX r = true → Str.forallb Str.isAlnum r = true.
Proof. unfold ROOM_ID_REGEX. by intros [_ ?]%andb_true_iff. Qed.

Lemma room_ne_roomUsers r x : ROOM_ID_REGEX r = true → roomKey r ≠ roomUsersKey x.
Proof.
  intros Hr%ROOM_ID_REGEX_alnum. unfold roomKey, roomUsersKey, CHAT_ROOM_PREFIX,
    CHAT_ROOM_USERS_PREFIX. simpl. intros [= E].
  change ("" +:+ r) with r in E.
  change ("users:" +:+ x)
    with (String "u" (String "s" (String "e" (String "r" (String "s" (String ":" x))))))
    in E.
  subst r. simpl in Hr. done.
Qed.

Lemma alnum_no_star r :
  Str.forallb Str.isAlnum r = true →
  Str.forallb (fun c => negb (Ascii.eqb c "*")) r = true.
Proof.
  induction r as [|c r IH]; simpl; [done|].
  intros [Hc Hr]%andb_true_iff. rewrite (IH Hr), andb_true_r.
  destruct (Ascii.eqb c "*") eqn:E; [|done].
  apply Ascii.eqb_eq in E as ->. done.
Qed.

Lemma glob_prefix lit p k :
  Str.forallb (fun c => negb (Ascii.eqb c "*")) lit = true →
  Str.glob p k = true → Str.glob (lit +:+ p) (lit +:+ k) = true.
Proof.
  induction lit as [|c lit IH]; simpl; [done|].
  intros [Hc Hl]%andb_true_iff Hg. apply negb_true_iff in Hc. rewrite Hc.
  by rewrite Ascii.eqb_refl, IH.
Qed.

Lemma glob_star k : Str.glob "*" k = true.
Proof. induction k as [|c k IH]; simpl in *; [done|]. rewrite IH. by destruct k. Qed.

Lemma glob_presence r u :
  ROOM_ID_REGEX r = true → Str.glob (presencePattern r) (presenceKey r u) = true.
Proof.
  intros Hr%ROOM_ID_REGEX_alnum%alnum_no_star.
  unfold presencePattern, presenceKey, CHAT_ROOM_PRESENCE_PREFIX.
  apply (glob_prefix "chat:presence:"); [done|].
  apply glob_prefix; [done|]. simpl. apply glob_star.
Qed.

Lemma presenceKey_inj r u u' : presenceKey r u = presenceKey r u' → u = u'.
Proof.
  unfold presenceKey, CHAT_ROOM_PRESENCE_PREFIX. simpl. intros [= E].
  apply (inj (String.app _)) in E. by simplify_eq.
Qed.

Lemma del_present now k s :
  present now k s → Redis.del now k s = (delete k s, Some 1).
Proof. unfold present, Redis.del. by intros [e ->]. Qed.

Lemma del_absent now k s :
  Redis.peek now k s = None → Redis.del now k s = (delete k s, Some 0).
Proof. unfold Redis.del. by intros ->. Qed.

(** *** The writes of a broadcast *)

Lemma untouched_getActiveUsersAndPrune k now r :
  k ≠ roomUsersKey r → untouched k (getActiveUsersAndPrune now r).
Proof.
  intros Hk. unfold getActiveUsersAndPrune, getActiveUsersInRoom.
  apply untouched_bind.
  { apply untouched_bind; [apply untouched_scan|]. intros. apply untouched_ret. }
  intros users. apply untouched_bind; [apply untouched_smembers|].
  intros [|x l]; [apply untouched_ret|].
  apply untouched_bind; [by apply untouched_del, not_eq_sym|].
  intros. apply untouched_ret.
Qed.

Lemma untouched_pruneRooms k now ks :
  (∀ x, k ≠ roomUsersKey x) → untouched k (pruneRooms now ks).
Proof.
  intros Hk. induction ks as [|k' ks IH]; simpl; [apply untouched_ret|].
  apply untouched_bind; [|by intros].
  apply untouched_catch; [|apply untouched_ret].
  apply untouched_bind; [apply untouched_get|].
  intros [v|]; [|apply untouched_ret].
  assert (Hprune : untouched k (getActiveUsersAndPrune now (idOf v) ;; ret tt)).
  { apply untouched_bind; [by apply untouched_getActiveUsersAndPrune|].
    intros. apply untouched_ret. }
  destruct v; simpl; try exact Hprune.
  - case_match; [apply untouched_ret|apply untouched_throw].
  - case_match; [exact Hprune|apply untouched_ret].
  - case_match; [exact Hprune|apply untouched_ret].
  - apply untouched_ret.
Qed.

Lemma untouched_getDetailedRooms k now :
  (∀ x, k ≠ roomUsersKey x) → untouched k (getDetailedRooms now).
Proof.
  intros Hk. unfold getDetailedRooms.
  apply untouched_bind; [apply untouched_scan|]. intros. by apply untouched_pruneRooms.
Qed.

Lemma broadcast_run now s :
  catch (getDetailedRooms now) (ret tt) s
  = ((catch (getDetailedRooms now) (ret tt) s).1, Some tt).
Proof.
  unfold catch. by destruct (getDetailedRooms now s) as [s' [[]|]].
Qed.

Lemma untouched_broadcast k now :
  (∀ x, k ≠ roomUsersKey x) → untouched k (catch (getDetailedRooms now) (ret tt)).
Proof.
  intros Hk. apply untouched_catch; [by apply untouched_getDetailedRooms|].
  apply untouched_ret.
Qed.

Lemma getActiveUsersAndPrune_run now r s :
  legacySetOk now r s →
  ∃ l, getActiveUsersAndPrune now r s = ((getActiveUsersAndPrune now r s).1, Some l).
Proof.
  intros Hset. unfold getActiveUsersAndPrune.
  assert (H1 : ∃ l, getActiveUsersInRoom now r s = (s, Some l)) by (by eexists).
  destruct H1 as [l0 H1]. rewrite !(bind_run _ _ _ _ _ H1).
  assert (H2 : ∃ l, Redis.smembers now (roomUsersKey r) s = (s, Some l)).
  { unfold Redis.smembers.
    destruct (Redis.value now (roomUsersKey r) s) as [w|] eqn:Hw; [|by eexists].
    destruct (Hset w Hw) as [l ->]. by eexists. }
  destruct H2 as [l H2]. rewrite !(bind_run _ _ _ _ _ H2).
  destruct l as [|x l]; [by eexists|].
  destruct (del_run now (roomUsersKey r) s) as [n Hdel].
  rewrite !(bind_run _ _ _ _ _ Hdel). by eexists.
Qed.

Lemma refreshRoomUserCount_run now r s v :
  ROOM_ID_REGEX r = true →
  legacySetOk now r s →
  Redis.value now (roomKey r) s = Some v → scalar (Some v) = true →
  ∃ n, refreshRoomUserCount now r s = ((refreshRoomUserCount now r s).1, Some n).
Proof.
  intros Hr Hset Hv Hsc. unfold refreshRoomUserCount.
  destruct (getActiveUsersAndPrune_run now r s Hset) as [l Hl].
  assert (Hv' : Redis.value now (roomKey r) (getActiveUsersAndPrune now r s).1 = Some v).
  { rewrite untouched_value; [done|].
    by apply untouched_getActiveUsersAndPrune, room_ne_roomUsers. }
  rewrite !(bind_run _ _ _ _ _ Hl).
  rewrite !(bind_run _ _ _ _ _ (get_run _ _ _ _ Hv' Hsc)).
  destruct v; simpl; try (by eexists); case_match; by eexists.
Qed.

Lemma untouched_refreshRoomUserCount k now r :
  k ≠ roomUsersKey r → k ≠ roomKey r → untouched k (refreshRoomUserCount now r).
Proof.
  intros H1 H2. unfold refreshRoomUserCount.
  apply untouched_bind; [by apply untouched_getActiveUsersAndPrune|]. intros l.
  apply untouched_bind; [apply untouched_get|].
  assert (Hset : ∀ v, untouched k (Redis.set now (roomKey r) v None ;;
                                   ret (Z.of_nat (length l)))).
  { intros v. apply untouched_bind; [by apply untouched_set, not_eq_sym|].
    intros. apply untouched_ret. }
  intros [[]|]; simpl; try apply untouched_ret; try apply Hset;
    (case_match; [apply Hset|apply untouched_ret]).
Qed.

Lemma privateRoomOfTwo_facts t r a b s :
  privateRoomOfTwo t r a b s →
  ∃ room ms, Redis.value t (roomKey r) s = Some (VRoom room) ∧
             isPrivate (VRoom room) = true ∧ membersOf (VRoom room) = Some ms ∧
             a ∈ ms ∧ removeMember a ms = [b] ∧ ms ≠ [].
Proof.
  intros (Hab & room & Hv & Hty & Hms).
  assert (Haa : String.eqb a a = true) by apply String.eqb_refl.
  assert (Hba : String.eqb b a = false) by (by apply String.eqb_neq, not_eq_sym).
  exists room. destruct Hms as [Hms|Hms].
  - exists [a; b]. split; [done|]. split; [by unfold isPrivate; rewrite Hty|].
    split; [done|]. split; [by left|]. split; [|done].
    unfold removeMember. simpl. by rewrite Haa, Hba.
  - exists [b; a]. split; [done|]. split; [by unfold isPrivate; rewrite Hty|].
    split; [done|]. split; [by right; left|]. split; [|done].
    unfold removeMember. simpl. by rewrite Haa, Hba.
Qed.

(** Leaving a private room of two through [handleLeaveRoom], with the
    presence of the leaver there: the record and the log go, the presence of
    the other member stays. *)
Lemma handleLeaveRoom_pair now r u b s :
  let lu := Str.toLowerCase u in
  USERNAME_REGEX lu = true → ROOM_ID_REGEX r = true →
  privateRoomOfTwo now r lu b s → legacySetOk now r s →
  present now (presenceKey r lu) s →
  let out := handleLeaveRoom now r u s in
  out.2 = Some (Response 200 BSuccess) ∧
  out.1 !! roomKey r = None ∧ out.1 !! messagesKey r = None ∧
  out.1 !! presenceKey r lu = None ∧
  out.1 !! presenceKey r b = s !! presenceKey r b.
Proof.
  intros lu Hu Hr Hpair Hset Hpres out.
  pose proof Hpair as [Hne _].
  destruct (privateRoomOfTwo_facts _ _ _ _ _ Hpair)
    as (room & ms & Hv & Hpriv & Hms & _ & Hrem & Hnil).
  set (s1 := delete (presenceKey r lu) s).
  assert (Hv1 : Redis.value now (roomKey r) s1 = Some (VRoom room)).
  { unfold Redis.value, s1. rewrite peek_delete, decide_False by key_neq. exact Hv. }
  assert (Hset1 : legacySetOk now r s1).
  { intros v. unfold Redis.value, s1.
    rewrite peek_delete, decide_False by key_neq. apply Hset. }
  destruct (refreshRoomUserCount_run now r s1 _ Hr Hset1 Hv1 eq_refl) as [n Hn].
  set (s2 := (refreshRoomUserCount now r s1).1) in *.
  destruct (del_run now (roomKey r) s2) as [n1 Hd1].
  destruct (del_run now (messagesKey r) (delete (roomKey r) s2)) as [n2 Hd2].
  destruct (del_run now (roomUsersKey r)
              (delete (messagesKey r) (delete (roomKey r) s2))) as [n3 Hd3].
  set (s3 := delete (roomUsersKey r) (delete (messagesKey r) (delete (roomKey r) s2)))
    in *.
  assert (Hb : (Redis.del now (roomKey r) ;;
                Redis.del now (messagesKey r) ;;
                Redis.del now (roomUsersKey r) ;;
                broadcastToSpecificUsers now ms) s2
               = ((catch (getDetailedRooms now) (ret tt) s3).1, Some tt)).
  { rewrite (bind_run _ _ _ _ _ Hd1), (bind_run _ _ _ _ _ Hd2),
      (bind_run _ _ _ _ _ Hd3). fold s3.
    destruct ms; [done|]. apply broadcast_run. }
  assert (Hout : handleLeaveRoom now r u s
                 = ((catch (getDetailedRooms now) (ret tt) s3).1,
                    Some (Response 200 BSuccess))).
  { unfold handleLeaveRoom. fold lu.
    rewrite (ROOM_ID_REGEX_nonempty _ Hr), (USERNAME_REGEX_nonempty _ Hu), Hu, Hr.
    change (false || false)%bool with false. change (negb true) with false.
    cbv iota. unfold catch at 1.
    rewrite (bind_run _ _ _ _ _ (get_run _ _ _ _ Hv eq_refl)).
    cbv beta iota delta [truthy negb].
    rewrite (bind_run _ _ _ _ _ (del_present _ _ _ Hpres)).
    cbv beta. change (1 =? 0) with false. cbv iota.
    fold s1. rewrite (bind_run _ _ _ _ _ Hn).
    cbv beta zeta. rewrite Hpriv, Hms, Hrem.
    change (Nat.leb (length [b]) 1) with true. cbv iota. simpl default.
    by rewrite (bind_run _ _ _ _ _ Hb). }
  assert (Hk : ∀ k, (∀ x, k ≠ roomUsersKey x) →
                    (catch (getDetailedRooms now) (ret tt) s3).1 !! k = s3 !! k).
  { intros k Hk. by apply untouched_broadcast. }
  unfold out. rewrite Hout.
  set (s4 := (catch (getDetailedRooms now) (ret tt) s3).1) in *. simpl.
  assert (H2 : ∀ k, k ≠ roomUsersKey r → k ≠ roomKey r → s2 !! k = s1 !! k).
  { intros k Hk1 Hk2. by apply untouched_refreshRoomUserCount. }
  split; [done|]. split; [|split; [|split]].
  - rewrite Hk by (intros x; by apply room_ne_roomUsers). unfold s3.
    rewrite lookup_delete_ne by (apply not_eq_sym; by apply room_ne_roomUsers).
    rewrite lookup_delete_ne by key_neq. by rewrite lookup_delete_eq.
  - rewrite Hk by (intros x; key_neq). unfold s3.
    rewrite lookup_delete_ne by key_neq. by rewrite lookup_delete_eq.
  - rewrite Hk by (intros x; key_neq). unfold s3.
    rewrite !lookup_delete_ne by key_neq. rewrite H2 by key_neq.
    unfold s1. by rewrite lookup_delete_eq.
  - rewrite Hk by (intros x; key_neq). unfold s3.
    rewrite !lookup_delete_ne by key_neq. rewrite H2 by key_neq.
    unfold s1. rewrite lookup_delete_ne; [done|].
    intros E. apply presenceKey_inj in E. done.
Qed.

(** Leaving without a presence in the room: [handleLeaveRoom] answers with
    success and the room stays as it is. *)
Lemma handleLeaveRoom_away now r u b s :
  let lu := Str.toLowerCase u in
  USERNAME_REGEX lu = true → ROOM_ID_REGEX r = true →
  privateRoomOfTwo now r lu b s →
  Redis.peek now (presenceKey r lu) s = None →
  handleLeaveRoom now r u s
  = (delete (presenceKey r lu) s, Some (Response 200 BSuccess)) ∧
  privateRoomOfTwo now r lu b (delete (presenceKey r lu) s).
Proof.
  intros lu Hu Hr Hpair Hpres.
  pose proof Hpair as (Hne & room & Hv & Hty & Hms).
  split.
  - unfold handleLeaveRoom. fold lu.
    rewrite (ROOM_ID_REGEX_nonempty _ Hr), (USERNAME_REGEX_nonempty _ Hu), Hu, Hr.
    change (false || false)%bool with false. change (negb true) with false.
    cbv iota. unfold catch at 1.
    rewrite (bind_run _ _ _ _ _ (get_run _ _ _ _ Hv eq_refl)).
    cbv beta iota delta [truthy negb].
    by rewrite (bind_run _ _ _ _ _ (del_absent _ _ _ Hpres)).
  - split; [done|]. exists room. split; [|done].
    unfold Redis.value. rewrite peek_delete, decide_False by key_neq. exact Hv.
Qed.

(** Leaving a private room of two through [handleDeleteRoom]: the record,
    the log and every presence go. *)
Lemma handleDeleteRoom_pair now r u b s :
  let lu := Str.toLowerCase u in
  ROOM_ID_REGEX r = true → privateRoomOfTwo now r lu b s →
  let out := handleDeleteRoom now r u s in
  out.2 = Some (Response 200 BSuccess) ∧
  out.1 !! roomKey r = None ∧ out.1 !! messagesKey r = None ∧
  ∀ user, Redis.peek now (presenceKey r user) out.1 = None.
Proof.
  intros lu Hr Hpair out.
  destruct (privateRoomOfTwo_facts _ _ _ _ _ Hpair)
    as (room & ms & Hv & Hpriv & Hms & Hin & Hrem & Hnil).
  set (ks := filter (fun k => Str.glob (presencePattern r) k = true) (Redis.keys now s)).
  set (s3 := delete (roomUsersKey r) (delete (messagesKey r) (delete (roomKey r) s))).
  assert (Hscan : scan now (presencePattern r) s = (s, Some ks)) by done.
  destruct (del_run now (roomKey r) s) as [n1 Hd1].
  destruct (del_run now (messagesKey r) (delete (roomKey r) s)) as [n2 Hd2].
  destruct (del_run now (roomUsersKey r)
              (delete (messagesKey r) (delete (roomKey r) s))) as [n3 Hd3].
  fold s3 in Hd3.
  destruct (delMany_run now ks s3) as [n4 Hd4].
  assert (Hpurge : purgeRoom now r s = (deleteAll ks s3, Some tt)).
  { unfold purgeRoom.
    rewrite (bind_run _ _ _ _ _ Hscan), (bind_run _ _ _ _ _ Hd1),
      (bind_run _ _ _ _ _ Hd2), (bind_run _ _ _ _ _ Hd3), (bind_run _ _ _ _ _ Hd4).
    done. }
  assert (Hout : handleDeleteRoom now r u s
                 = ((catch (getDetailedRooms now) (ret tt) (deleteAll ks s3)).1,
                    Some (Response 200 BSuccess))).
  { unfold handleDeleteRoom. unfold catch at 1.
    rewrite (bind_run _ _ _ _ _ (get_run _ _ _ _ Hv eq_refl)).
    cbv beta iota delta [truthy negb]. cbv zeta. fold lu.
    rewrite Hpriv, Hms. rewrite bool_decide_eq_true_2 by done. cbv iota.
    rewrite Hrem. change (Nat.leb (length [b]) 1) with true. cbv iota.
    rewrite (bind_run _ _ _ _ _ Hpurge). unfold broadcastRoomsUpdated.
    by rewrite (bind_run _ _ _ _ _ (broadcast_run _ _)). }
  assert (Hk : ∀ k, (∀ x, k ≠ roomUsersKey x) →
                    (catch (getDetailedRooms now) (ret tt) (deleteAll ks s3)).1 !! k
                    = deleteAll ks s3 !! k).
  { intros k Hk. by apply untouched_broadcast. }
  unfold out. rewrite Hout.
  set (s4 := (catch (getDetailedRooms now) (ret tt) (deleteAll ks s3)).1) in *. simpl.
  split; [done|]. split; [|split].
  - rewrite Hk by (intros x; by apply room_ne_roomUsers).
    rewrite lookup_deleteAll. case_decide; [done|]. unfold s3.
    rewrite lookup_delete_ne by (apply not_eq_sym; by apply room_ne_roomUsers).
    rewrite lookup_delete_ne by key_neq. by rewrite lookup_delete_eq.
  - rewrite Hk by (intros x; key_neq).
    rewrite lookup_deleteAll. case_decide; [done|]. unfold s3.
    rewrite lookup_delete_ne by key_neq. by rewrite lookup_delete_eq.
  - intros user. unfold Redis.peek. rewrite Hk by (intros x; key_neq).
    fold (Redis.peek now (presenceKey r user) (deleteAll ks s3)).
    rewrite peek_deleteAll. case_decide as Hin'; [done|]. unfold s3.
    rewrite !peek_delete. rewrite !decide_False by key_neq.
    destruct (Redis.peek now (presenceKey r user) s) as [e|] eqn:Hp; [|done].
    destruct Hin'. apply elem_of_scan. split; [by apply glob_presence|].
    unfold present. by rewrite Hp.
Qed.

(* ===================================================================== *)
(** ** Reading the messages of a room *)
(* ===================================================================== *)

Lemma boundedStore_bounded s : boundedStore s = true → bounded s.
Proof.
  unfold boundedStore. intros Hall k e l Hk Hl.
  rewrite forallb_forall in Hall.
  specialize (Hall (k, e)). simpl in Hall. unfold boundedEntry in Hall.
  rewrite Hl in Hall. apply Nat.leb_le, Hall.
  apply list_elem_of_In. by apply elem_of_map_to_list.
Qed.

Lemma handleGetMessages_run now roomId s :
  ROOM_ID_REGEX roomId = true → present now (roomKey roomId) s →
  (∀ v, Redis.value now (messagesKey roomId) s = Some v → ∃ l, v = VList l) →
  handleGetMessages now roomId s
  = (s, Some (Response 200 (BMessages (omap parseItem (take 20 (logOf now roomId s)))))).
Proof.
  intros Hid Hroom Hlog. unfold handleGetMessages, catch. rewrite Hid. simpl.
  unfold bind at 1, Redis.exists_.
  rewrite bool_decide_eq_true_2 by done. simpl.
  unfold bind, Redis.lrange, logOf.
  destruct (Redis.value now (messagesKey roomId) s) as [v|] eqn:Hv; [|done].
  destruct (Hlog v eq_refl) as [l ->]. done.
Qed.

(** C9: a GET request with the action [getMessages] for a room that is
    there is answered with the first 20 elements of its log that parse,
    whatever the authentication headers of the request and whatever the
    type and the members of the room; the store is left as it is. *)
Theorem C9_getMessages_unauthenticated now req roomId s :
  q_action req = Some "getMessages" → q_roomId req = Some roomId →
  ROOM_ID_REGEX roomId = true → present now (roomKey roomId) s →
  (∀ v, Redis.value now (messagesKey roomId) s = Some v → ∃ l, v = VList l) →
  GET now req s
  = (s, Some (Some (Response 200
                      (BMessages (omap parseItem (take 20 (logOf now roomId s))))))).
Proof.
  intros Hact Hq Hid Hroom Hlog. unfold GET, catch.
  rewrite Hact, Hq. simpl.
  rewrite (ROOM_ID_REGEX_nonempty _ Hid).
  unfold bind at 1. simpl. unfold bind.
  by rewrite (handleGetMessages_run _ _ _ Hid Hroom Hlog).
Qed.

Lemma C9_getMessages_unauthenticated_witness :
  GET 5000 sampleAnonymous sampleChat
  = (sampleChat,
     Some (Some (Response 200 (BMessages [Message "m0" "dm1" "bob" "hi" 1])))).
Proof.
  apply (C9_getMessages_unauthenticated 5000 sampleAnonymous "dm1" sampleChat).
  - reflexivity.
  - reflexivity.
  - reflexivity.
  - vm_compute. by eexists.
  - intros v Hv. vm_compute in Hv. injection Hv as <-. by eexists.
Defined.

(* ===================================================================== *)
(** ** The burst limiter, the duplicate check and the bound on sample data *)
(* ===================================================================== *)

(** A run is determined by the store it leaves and the result it returns. *)
Lemma run_snd {A} (m : M A) s s' a :
  s' = (m s).1 → (m s).2 = Some a → m s = (s', Some a).
Proof. intros -> Ha. destruct (m s) as [s1 r]. simpl in *. by subst. Qed.

Ltac run_sample := apply run_snd; [reflexivity | vm_compute; reflexivity].




(** C4 as worded in the specification fails: in a public room the second
    send of the same content half a second after the first is rejected by
    the burst limiter, which runs first, and not as a duplicate; a send of
    different content at that instant is rejected as well. *)
Lemma C4_counterexample :
  (@handleSendMessage sampleFilter 1000 sampleIdBytes "general" "alice" "hello"
     sampleChat).2
  = Some (Response 201 (BMessage (Message (generateId sampleIdBytes) "general" "alice"
                                    "hello" 1000))) ∧
  (@handleSendMessage sampleFilter 1500 sampleIdBytes' "general" "alice" "hello"
     (sampleHello 1000)).2 = Some minIntervalError ∧
  minIntervalError ≠ duplicateError ∧
  (@handleSendMessage sampleFilter 1500 sampleIdBytes' "general" "alice" "other"
     (sampleHello 1000)).2 = Some minIntervalError.
Proof. repeat split; try (vm_compute; reflexivity). discriminate. Qed.

Lemma C6_log_bounded_witness :
  (length (logOf 200000 "dm1" (@performAll sampleFilter (sampleSends 101) sampleChat))
   ≤ 100)%nat.
Proof.
  apply (proj1 (@C6_log_bounded sampleFilter) (sampleSends 101) sampleChat).
  apply boundedStore_bounded. vm_compute. reflexivity.
Defined.

(** After 101 sends to a room that had one message its log has 100. *)
Lemma log_full :
  length (logOf 200000 "dm1" (@performAll sampleFilter (sampleSends 101) sampleChat))
  = 100%nat.
Proof. vm_compute. reflexivity. Qed.

(* ===================================================================== *)
(** ** Tokens, leaving a room and logging out on sample data *)
(* ===================================================================== *)

Lemma C1_validate_after_issue_witness :
  payload (Response 201 (BToken sampleToken)) = BToken sampleToken ∧
  ∀ now', 1000 ≤ now' < 1000 + USER_EXPIRATION_TIME * 1000 →
    (validateAuth now' "alice" sampleToken false sampleIssued).2 = Some authValid.
Proof.
  apply (C1_validate_after_issue 1000 sampleTokenBytes "alice" sampleUsers).
  - reflexivity.
  - reflexivity.
  - run_sample.
  - reflexivity.
Defined.

Lemma C2_refresh_retires_old_token_witness :
  (validateAuth 2500 "alice" sampleToken true sampleRefreshed).2 = Some authInvalid ∧
  (validateAuth 2500 "alice" sampleToken false sampleRefreshed).2 = Some authInvalid.
Proof.
  pose proof (C2_refresh_retires_old_token 2000 sampleTokenBytes' "alice" sampleToken
                sampleIssued sampleRefreshed
                (Response 201 (BToken (generateAuthToken sampleTokenBytes')))) as X.
  destruct X as (_ & _ & X & _).
  - reflexivity.
  - reflexivity.
  - vm_compute. discriminate.
  - run_sample.
  - reflexivity.
  - assert (E : ∃ m, Redis.value 2000 (getTokenKey sampleToken) sampleIssued = Some (VStr m) ∧
                     m ≠ "" ∧ Str.toLowerCase m = Str.toLowerCase "alice").
    { exists "alice". split; [vm_compute; reflexivity|]. split; [discriminate|reflexivity]. }
    split; apply (X E); lia.
Defined.

(** The two divergences of C2 on sample data.  [alice] refreshes the token
    she was issued at 1000: half a second later the grace record holds the
    old token, and validation that allows expired tokens answers invalid.
    And a token that is held in the legacy record and was migrated by a
    validation (it has a user-scoped key and no flat mapping) still
    validates in strict mode after it has been refreshed. *)
Lemma refresh_on_samples :
  (handleRefreshToken 2000 sampleTokenBytes' "alice" sampleToken sampleIssued).2
  = Some (Response 201 (BToken (generateAuthToken sampleTokenBytes'))) ∧
  Redis.value 2500 (lastTokenKey "alice") sampleRefreshed
  = Some (VLast (LastToken sampleToken 2000)) ∧
  (validateAuth 2500 "alice" sampleToken true sampleRefreshed).2 = Some authInvalid ∧
  (handleRefreshToken 2000 sampleTokenBytes' "alice" sampleToken sampleMigrated).2
  = Some (Response 201 (BToken (generateAuthToken sampleTokenBytes'))) ∧
  (validateAuth 2500 "alice" sampleToken false
     (handleRefreshToken 2000 sampleTokenBytes' "alice" sampleToken sampleMigrated).1).2
  = Some authValid.
Proof. repeat split; vm_compute; reflexivity. Qed.



Lemma C10_rejected_send_consumes_quota_witness :
  counter 3000 (shortKey "general" "alice") sampleHelloTwice
  = counter 3000 (shortKey "general" "alice") (sampleHello 1000) + 1 ∧
  counter 3000 (longKey "general" "alice") sampleHelloTwice
  = counter 3000 (longKey "general" "alice") (sampleHello 1000) + 1.
Proof.
  apply (@C10_rejected_send_consumes_quota sampleFilter 3000 sampleIdBytes' "general"
           "alice" "hello" (sampleHello 1000) sampleHelloTwice duplicateError).
  - run_sample.
  - by left.
  - eexists. split; [vm_compute; reflexivity|].
    split; [reflexivity|split; reflexivity].
  - vm_compute. exact I.
  - vm_compute. exact I.
Defined.

Lemma C4_duplicate_send_witness :
  let m := Message (generateId sampleIdBytes) "general" "alice" "hello" 1000 in
  let filter := sampleFilter in
  (∀ t2 rnd2 s2 resp2,
     1000 ≤ t2 → present t2 (roomKey "general") (sampleHello 1000) →
     present t2 (messagesKey "general") (sampleHello 1000) →
     handleSendMessage t2 rnd2 "general" "alice" "hello" (sampleHello 1000)
     = (s2, Some resp2) →
     (resp2 = duplicateError ∨ resp2 = shortWindowError ∨ resp2 = longWindowError ∨
      resp2 = minIntervalError) ∧
     (privateRoomAt t2 "general" (sampleHello 1000) → resp2 = duplicateError)) ∧
  (∀ t2 rnd2 c' s2 resp2,
     sanitize c' ≠ sanitize "hello" →
     handleSendMessage t2 rnd2 "general" "alice" c' (sampleHello 1000)
     = (s2, Some resp2) →
     resp2 ≠ duplicateError) ∧
  (∀ t2 rnd2 r' s2 resp2,
     r' ≠ "general" →
     ¬ latestIs t2 r' (Str.toLowerCase "alice") (sanitize "hello") sampleChat →
     handleSendMessage t2 rnd2 r' "alice" "hello" (sampleHello 1000)
     = (s2, Some resp2) →
     resp2 ≠ duplicateError).
Proof.
  intros m filter.
  apply (@C4_duplicate_send sampleFilter 1000 sampleIdBytes "general" "alice" "hello"
           sampleChat (sampleHello 1000) m).
  run_sample.
Defined.

(** C7: when a member of a private room of two leaves it through
    [handleDeleteRoom], the record of the room, its log and every presence
    in it are deleted.  Through [handleLeaveRoom], with the presence of the
    leaver in the room, the record and the log are deleted as well, but the
    presence of the other member is left as it was; and when the leaver has
    no presence in the room, [handleLeaveRoom] answers with success and the
    room stays, with its two members. *)
Theorem C7_leaveRoom_keeps_presence now r u b s :
  let lu := Str.toLowerCase u in
  USERNAME_REGEX lu = true → ROOM_ID_REGEX r = true →
  privateRoomOfTwo now r lu b s → legacySetOk now r s →
  (let out := handleDeleteRoom now r u s in
   out.2 = Some (Response 200 BSuccess) ∧
   out.1 !! roomKey r = None ∧ out.1 !! messagesKey r = None ∧
   ∀ user, Redis.peek now (presenceKey r user) out.1 = None) ∧
  (present now (presenceKey r lu) s →
   let out := handleLeaveRoom now r u s in
   out.2 = Some (Response 200 BSuccess) ∧
   out.1 !! roomKey r = None ∧ out.1 !! messagesKey r = None ∧
   out.1 !! presenceKey r lu = None ∧
   out.1 !! presenceKey r b = s !! presenceKey r b) ∧
  (Redis.peek now (presenceKey r lu) s = None →
   handleLeaveRoom now r u s
   = (delete (presenceKey r lu) s, Some (Response 200 BSuccess)) ∧
   privateRoomOfTwo now r lu b (delete (presenceKey r lu) s)).
Proof.
  intros lu Hu Hr Hpair Hset. split; [|split].
  - by apply (handleDeleteRoom_pair now r u b s).
  - intros Hpres. by apply handleLeaveRoom_pair.
  - intros Hpres. by apply handleLeaveRoom_away.
Qed.

Lemma C7_leaveRoom_keeps_presence_witness :
  (handleLeaveRoom 5000 "dm1" "alice" sampleChat).2 = Some (Response 200 BSuccess) ∧
  (handleLeaveRoom 5000 "dm1" "alice" sampleChat).1 !! roomKey "dm1" = None ∧
  (handleLeaveRoom 5000 "dm1" "alice" sampleChat).1 !! messagesKey "dm1" = None ∧
  (handleLeaveRoom 5000 "dm1" "alice" sampleChat).1 !! presenceKey "dm1" "alice" = None ∧
  (handleLeaveRoom 5000 "dm1" "alice" sampleChat).1 !! presenceKey "dm1" "bob"
  = Some (Entry (VNum 1) (Some 86400001)).
Proof.
  assert (Hpair : privateRoomOfTwo 5000 "dm1" "alice" "bob" sampleChat).
  { split; [done|]. eexists. split; [vm_compute; reflexivity|].
    split; [reflexivity|]. by left. }
  assert (Hset : legacySetOk 5000 "dm1" sampleChat).
  { intros v Hv. vm_compute in Hv. discriminate. }
  assert (Hpres : present 5000 (presenceKey "dm1" "alice") sampleChat).
  { vm_compute. by eexists. }
  exact (proj1 (proj2 (C7_leaveRoom_keeps_presence 5000 "dm1" "alice" "bob" sampleChat
                         eq_refl eq_refl Hpair Hset)) Hpres).
Defined.

(** The same on sample data: the presence of [bob] outlives the room that
    [alice] left through [handleLeaveRoom], and does not when she left
    through [handleDeleteRoom]; without a presence of [alice] the room
    stays. *)
Lemma leaveRoom_sample :
  Redis.keys 5000 (handleLeaveRoom 5000 "dm1" "alice" sampleChat).1
  = [userKey "alice"; userKey "bob"; roomKey "general"; presenceKey "dm1" "bob"] ∧
  Redis.keys 5000 (handleDeleteRoom 5000 "dm1" "alice" sampleChat).1
  = [userKey "alice"; userKey "bob"; roomKey "general"] ∧
  handleLeaveRoom 5000 "dm1" "alice" sampleAway
  = (sampleAway, Some (Response 200 BSuccess)) ∧
  membersOf (default VObj (Redis.value 5000 (roomKey "dm1") sampleAway))
  = Some ["alice"; "bob"].
Proof. repeat split; vm_compute; reflexivity. Qed.

(** C8: after one token was issued to [alice], who has that token and no
    other, [handleLogoutAllDevices] deletes the token, its two mappings and
    the grace record, and answers with a count of 3; after a second token
    was issued, with a count of 4. *)
Theorem C8_logout_count :
  scan 2000 (getUserTokenPattern "alice") sampleIssued
  = (sampleIssued, Some [getUserTokenKey "alice" sampleToken]) ∧
  (handleLogoutAllDevices 2000 "alice" sampleIssued).2
  = Some (Response 200 (BLogout 3)) ∧
  (handleLogoutAllDevices 2000 "alice" sampleIssued).1 = sampleUsers ∧
  (∀ b, (validateAuth 2000 "alice" sampleToken b
           (handleLogoutAllDevices 2000 "alice" sampleIssued).1).2
        = Some authInvalid) ∧
  (handleLogoutAllDevices 3000 "alice" sampleIssuedTwice).2
  = Some (Response 200 (BLogout 4)) ∧
  (handleLogoutAllDevices 3000 "alice" sampleIssuedTwice).1 = sampleUsers.
Proof.
  split; [run_sample|]. split; [vm_compute; reflexivity|].
  split; [vm_compute; reflexivity|].
  split; [intros []; vm_compute; reflexivity|].
  split; vm_compute; reflexivity.
Qed.
(* ===================================================================== *)
(** ** Further properties: validation and sanitization *)
(* ===================================================================== *)

Lemma forallb_app p (a b : string) :
  Str.forallb p (a +:+ b) = (Str.forallb p a && Str.forallb p b)%bool.
Proof.
  induction a as [|c a IH]; simpl; [done|].
  change (String c a +:+ b) with (String c (a +:+ b)). simpl.
  by rewrite IH, andb_assoc.
Qed.

Lemma escapeChar_safe c : htmlSafe (escapeChar c) = true.
Proof.
  unfold escapeChar, htmlSafe, htmlSpecial.
  destruct (Ascii.eqb c "&") eqn:E1; [done|].
  destruct (Ascii.eqb c "<") eqn:E2; [done|].
  destruct (Ascii.eqb c ">") eqn:E3; [done|].
  destruct (Ascii.eqb c "034") eqn:E4; [done|].
  destruct (Ascii.eqb c "'") eqn:E5; [done|].
  simpl. by rewrite E2, E3, E4, E5.
Qed.

Lemma escapeHTML_safe str : htmlSafe (escapeHTML str) = true.
Proof.
  induction str as [|c r IH]; simpl; [done|].
  unfold htmlSafe in *. rewrite forallb_app, IH, andb_true_r.
  apply escapeChar_safe.
Qed.

Section StoredContent.
Context `{ProfanityFilter}.

(** X1. No message that [handleSendMessage] or [handleGenerateRyoReply]
    stores holds one of the characters [<], [>], double quote or single
    quote in its content: the message of a 201 answer is the head of the log
    of its room, and its content went through [escapeHTML]. *)
Theorem X1_stored_content_escaped :
  (∀ str, htmlSafe (escapeHTML str) = true) ∧
  (∀ now rnd r u c s s' m,
     handleSendMessage now rnd r u c s = (s', Some (Response 201 (BMessage m))) →
     htmlSafe (m_content m) = true ∧ head (logOf now r s') = Some (MJson m)) ∧
  (∀ now rnd r p reply s s' m,
     handleGenerateRyoReply now rnd r p reply s
       = (s', Some (Response 201 (BMessage m))) →
     htmlSafe (m_content m) = true ∧ head (logOf now r s') = Some (MJson m)).
Proof.
  split; [apply escapeHTML_safe|]. split.
  - intros now rnd r u c s s' m Hrun.
    rewrite (send_created_log _ _ _ _ _ _ _ _ Hrun).
    destruct (send_created_inv _ _ _ _ _ _ _ _ Hrun) as (_ & _ & _ & -> & _).
    split; [apply escapeHTML_safe|done].
  - intros now rnd r p reply s s' m Hrun.
    destruct (ryo_created_inv _ _ _ _ _ _ _ _ Hrun) as (text & _ & -> & ->).
    split; [apply escapeHTML_safe|done].
Qed.
End StoredContent.

Lemma X1_stored_content_escaped_witness :
  htmlSafe (m_content (Message (generateId sampleIdBytes) "general" "alice"
                         (@sanitize sampleFilter "<b>hi</b>") 1000)) = true ∧
  head (logOf 1000 "general"
          (@handleSendMessage sampleFilter 1000 sampleIdBytes "general" "alice"
             "<b>hi</b>" sampleChat).1)
  = Some (MJson (Message (generateId sampleIdBytes) "general" "alice"
                   (@sanitize sampleFilter "<b>hi</b>") 1000)).
Proof.
  apply (proj1 (proj2 (@X1_stored_content_escaped sampleFilter)) 1000 sampleIdBytes
           "general" "alice" "<b>hi</b>" sampleChat).
  apply run_snd; [reflexivity | vm_compute; reflexivity].
Defined.

(** *** The shape of a username *)

Lemma separator_not_alnum c : isSeparator c = true → Str.isAlnum c = false.
Proof.
  unfold isSeparator. intros [E|E]%orb_true_iff; apply Ascii.eqb_eq in E as ->; done.
Qed.

Lemma letter_alnum c : Str.isLetter c = true → Str.isAlnum c = true.
Proof. unfold Str.isAlnum. by intros ->. Qed.

Lemma usernameTail_shape r :
  usernameTail r = (Str.forallb nameChar r && separatorsApart r)%bool.
Proof.
  induction r as [|c r IH]; [done|].
  cbn [usernameTail Str.forallb separatorsApart]. rewrite IH.
  change (nameChar c) with (Str.isAlnum c || isSeparator c)%bool.
  pose proof (separator_not_alnum c) as Hc.
  destruct r as [|d r'].
  - cbn [Str.forallb separatorsApart].
    destruct (Str.isAlnum c), (isSeparator c);
      try (by specialize (Hc eq_refl)); reflexivity.
  - cbn [Str.forallb].
    change (nameChar d) with (Str.isAlnum d || isSeparator d)%bool.
    pose proof (separator_not_alnum d) as Hd.
    generalize (separatorsApart (String d r')) (Str.forallb nameChar r').
    intros b1 b2.
    destruct (Str.isAlnum c), (isSeparator c), (Str.isAlnum d), (isSeparator d);
      try (by specialize (Hc eq_refl)); try (by specialize (Hd eq_refl));
      by destruct b1, b2.
Qed.

Lemma username_chars s :
  USERNAME_REGEX s = true →
  (3 ≤ String.length s ≤ 30)%nat ∧ Str.forallb nameChar s = true.
Proof.
  destruct s as [|c r]; [done|].
  cbn [USERNAME_REGEX String.length]. rewrite usernameTail_shape.
  intros [[[Hl [Hf _]%andb_true_iff]%andb_true_iff H2%Nat.leb_le]%andb_true_iff
            H29%Nat.leb_le]%andb_true_iff.
  split; [lia|]. cbn [Str.forallb].
  change (nameChar c) with (Str.isAlnum c || isSeparator c)%bool.
  by rewrite (letter_alnum _ Hl), Hf.
Qed.

(** X2. [USERNAME_REGEX] accepts exactly the strings of 3 to 30 characters
    that start with a letter, consist of letters, digits, hyphens and
    underscores, and in which no hyphen or underscore is the last character
    or is followed by another one. *)
Theorem X2_username_shape s :
  USERNAME_REGEX s = true ↔
  (3 ≤ String.length s ≤ 30)%nat ∧ startsWithLetter s = true ∧
  Str.forallb nameChar s = true ∧ separatorsApart s = true.
Proof.
  destruct s as [|c r]; [simpl; split; [done|intros [? _]; lia]|].
  cbn [USERNAME_REGEX startsWithLetter String.length].
  rewrite usernameTail_shape. split.
  - intros [[[Hl [Hf Hs]%andb_true_iff]%andb_true_iff H2%Nat.leb_le]%andb_true_iff
              H29%Nat.leb_le]%andb_true_iff.
    split; [lia|]. split; [done|]. split.
    + cbn [Str.forallb]. change (nameChar c) with (Str.isAlnum c || isSeparator c)%bool.
      by rewrite (letter_alnum _ Hl), Hf.
    + cbn [separatorsApart]. rewrite Hs, andb_true_r.
      destruct (isSeparator c) eqn:E; [|done].
      apply separator_not_alnum in E. by rewrite (letter_alnum _ Hl) in E.
  - intros (Hlen & Hl & Hf & Hs).
    cbn [Str.forallb] in Hf. apply andb_true_iff in Hf as [_ Hf].
    cbn [separatorsApart] in Hs. apply andb_true_iff in Hs as [_ Hs].
    rewrite Hl, Hf, Hs. cbn [andb].
    apply andb_true_iff. split; apply Nat.leb_le; lia.
Qed.


(** *** Channel names *)

Lemma nameChar_channelChar c : nameChar c = true → channelChar c = true.
Proof.
  unfold nameChar, channelChar, isSeparator.
  destruct (Str.isAlnum c); [done|]. simpl.
  destruct (Ascii.eqb c "-"), (Ascii.eqb c "_"); done.
Qed.

Lemma sanitizeForChannel_fixed name :
  Str.forallb channelChar name = true → sanitizeForChannel name = name.
Proof.
  induction name as [|c r IH]; simpl; [done|].
  intros [-> Hr]%andb_true_iff. by rewrite IH.
Qed.

Lemma sanitizeForChannel_chars name :
  Str.forallb channelChar (sanitizeForChannel name) = true.
Proof.
  induction name as [|c r IH]; simpl; [done|].
  rewrite IH, andb_true_r. by destruct (channelChar c) eqn:E.
Qed.

Lemma sanitizeForChannel_length name :
  String.length (sanitizeForChannel name) = String.length name.
Proof. induction name as [|c r IH]; simpl; [done|]. by rewrite IH. Qed.

(** X3. [sanitizeForChannel] yields a string of the same length made of
    letters, digits, underscore, hyphen and dot only; it leaves every string
    made of these characters as it is, and so every username that
    [USERNAME_REGEX] accepts: two such usernames that differ have channels
    that differ. *)
Theorem X3_channel_names :
  (∀ name, Str.forallb channelChar (sanitizeForChannel name) = true ∧
           String.length (sanitizeForChannel name) = String.length name ∧
           sanitizeForChannel (sanitizeForChannel name) = sanitizeForChannel name) ∧
  (∀ name, USERNAME_REGEX name = true → sanitizeForChannel name = name) ∧
  (∀ a b, USERNAME_REGEX a = true → USERNAME_REGEX b = true →
          sanitizeForChannel a = sanitizeForChannel b → a = b).
Proof.
  assert (Hfix : ∀ name, USERNAME_REGEX name = true → sanitizeForChannel name = name).
  { intros name (_ & Hf)%username_chars. apply sanitizeForChannel_fixed.
    clear -Hf. induction name as [|c r IH]; simpl in *; [done|].
    apply andb_true_iff in Hf as [Hc Hr]. by rewrite (nameChar_channelChar _ Hc), IH. }
  split; [|split].
  - intros name. split; [apply sanitizeForChannel_chars|].
    split; [apply sanitizeForChannel_length|].
    apply sanitizeForChannel_fixed, sanitizeForChannel_chars.
  - exact Hfix.
  - intros a b Ha Hb. by rewrite (Hfix a Ha), (Hfix b Hb).
Qed.

Lemma X3_channel_names_witness :
  USERNAME_REGEX "alice_b" = true ∧ sanitizeForChannel "alice_b" = "alice_b" ∧
  sanitizeForChannel "a b@c" = "a_b_c".
Proof.
  split; [reflexivity|]. split; [|reflexivity].
  apply (proj1 (proj2 X3_channel_names) "alice_b"). reflexivity.
Defined.

(** *** URLs pass the profanity filter *)

Lemma app_cons x (a b : string) : String x a +:+ b = String x (a +:+ b).
Proof. reflexivity. Qed.

Lemma app_nil_l (b : string) : "" +:+ b = b.
Proof. reflexivity. Qed.

Lemma app_assoc_str (a b c : string) : (a +:+ b) +:+ c = a +:+ (b +:+ c).
Proof. induction a as [|x a IH]; [done|]. by rewrite !app_cons, IH. Qed.

Lemma app_empty_r (a : string) : a +:+ "" = a.
Proof. induction a as [|x a IH]; [done|]. by rewrite app_cons, IH. Qed.

Lemma startsWith_drop p s :
  Str.startsWith p s = true → p +:+ Str.drop (String.length p) s = s.
Proof.
  revert s. induction p as [|c p IH]; intros s; simpl; [done|].
  destruct s as [|d s]; [done|].
  intros [->%Ascii.eqb_eq Hp]%andb_true_iff. by rewrite app_cons, (IH _ Hp).
Qed.

Lemma spanNonSpace_app s a b : Str.spanNonSpace s = (a, b) → a +:+ b = s.
Proof.
  revert a b. induction s as [|c s IH]; intros a b; simpl.
  - by intros [= <- <-].
  - destruct (Str.isSpace c); [by intros [= <- <-]|].
    destruct (Str.spanNonSpace s) as [a' b'] eqn:E. intros [= <- <-].
    by rewrite app_cons, (IH a' b').
Qed.

Lemma spanNonSpace_all s :
  Str.forallb (fun c => negb (Str.isSpace c)) s = true → Str.spanNonSpace s = (s, "").
Proof.
  induction s as [|c s IH]; simpl; [done|].
  intros [Hc Hs]%andb_true_iff. apply negb_true_iff in Hc. by rewrite Hc, (IH Hs).
Qed.

Lemma urlAt_app s url after :
  urlAt s = Some (url, after) →
  url +:+ after = s ∧ (String.length after < String.length s)%nat.
Proof.
  assert (Hone : ∀ scheme,
    scheme ≠ "" →
    (if Str.startsWith scheme s then
       let '(rest, after) := Str.spanNonSpace (Str.drop (String.length scheme) s) in
       if String.eqb rest "" then None else Some (scheme +:+ rest, after)
     else None) = Some (url, after) →
    url +:+ after = s ∧ (String.length after < String.length s)%nat).
  { intros scheme Hne. destruct (Str.startsWith scheme s) eqn:Hs; [|done].
    destruct (Str.spanNonSpace _) as [rest aft] eqn:Hspan.
    destruct (String.eqb rest ""); [done|]. intros [= <- <-].
    apply spanNonSpace_app in Hspan. apply startsWith_drop in Hs.
    rewrite app_assoc_str, Hspan, Hs. split; [done|].
    rewrite <- Hs, <- Hspan, !length_app.
    destruct scheme; [done|]. simpl. lia. }
  unfold urlAt. cbv zeta beta.
  destruct (if Str.startsWith "http://" s then _ else _) as [[u a]|] eqn:E.
  - intros [= <- <-]. by apply (Hone "http://").
  - by apply (Hone "https://").
Qed.

(** Putting the pieces of [urlMatches] together again gives the text. *)
Lemma urlMatches_app fuel before s :
  (String.length s < fuel)%nat →
  let '(ms, tail) := urlMatches fuel before s in
  fold_right (fun '(beforeUrl, url) acc => beforeUrl +:+ url +:+ acc) tail ms
  = before +:+ s.
Proof.
  revert before s. induction fuel as [|fuel IH]; intros before s Hlen; [lia|].
  cbn [urlMatches]. destruct (urlAt s) as [[url after]|] eqn:Hurl.
  - apply urlAt_app in Hurl as [Hs Hlt].
    specialize (IH "" after ltac:(lia)).
    destruct (urlMatches fuel "" after) as [ms tail]. simpl.
    rewrite app_nil_l in IH. by rewrite IH, <- Hs.
  - destruct s as [|c r]; [by rewrite app_empty_r|].
    specialize (IH (before +:+ String c "") r ltac:(simpl in Hlen; lia)).
    destruct (urlMatches fuel _ r) as [ms tail]. rewrite IH.
    by rewrite app_assoc_str.
Qed.

Lemma urlAt_url s : isUrl s = true → urlAt s = Some (s, "").
Proof.
  unfold isUrl, urlAt. cbv zeta beta.
  assert (Hone : ∀ scheme,
    (Str.startsWith scheme s && negb (String.eqb (Str.drop (String.length scheme) s) "")
     && Str.forallb (fun c => negb (Str.isSpace c)) (Str.drop (String.length scheme) s))%bool
    = true →
    (if Str.startsWith scheme s then
       let '(rest, after) := Str.spanNonSpace (Str.drop (String.length scheme) s) in
       if String.eqb rest "" then None else Some (scheme +:+ rest, after)
     else None) = Some (s, "")).
  { intros scheme [[Hs Hne]%andb_true_iff Hall]%andb_true_iff.
    rewrite Hs, (spanNonSpace_all _ Hall). apply negb_true_iff in Hne. rewrite Hne.
    by rewrite (startsWith_drop _ _ Hs). }
  intros [Hh|Hh]%orb_true_iff.
  - by rewrite (Hone "http://" Hh).
  - assert (Hno : Str.startsWith "http://" s = false).
    { apply andb_true_iff in Hh as [[Hs _]%andb_true_iff _].
      apply startsWith_drop in Hs. by rewrite <- Hs. }
    rewrite Hno. exact (Hone "https://" Hh).
Qed.

Section Urls.
Context `{ProfanityFilter}.

(** X4. [filterProfanityPreservingUrls] cuts the content into URLs and the
    text between them without losing a character: with a filter that changes
    nothing the content comes back as it was.  Content that is one URL
    ([http://] or [https://] and then characters none of which is white
    space) is never given to the filter: it comes back unchanged after
    [clean] of the empty text before it. *)
Theorem X4_urls_preserved :
  ((∀ s, clean s = s) → ∀ content, filterProfanityPreservingUrls content = content) ∧
  (∀ url, isUrl url = true → filterProfanityPreservingUrls url = clean "" +:+ url).
Proof.
  split.
  - intros Hid content. unfold filterProfanityPreservingUrls.
    pose proof (urlMatches_app (S (String.length content)) "" content ltac:(lia)) as Happ.
    destruct (urlMatches _ "" content) as [ms tail].
    destruct ms as [|m ms]; [apply Hid|].
    rewrite app_nil_l in Happ. etrans; [|exact Happ].
    assert (Htail : (if String.eqb tail "" then "" else clean tail) = tail).
    { destruct (String.eqb tail "") eqn:E; [by apply String.eqb_eq in E|apply Hid]. }
    rewrite Htail. generalize (m :: ms). intros l.
    induction l as [|[b u] l IH]; simpl; [done|]. by rewrite Hid, IH.
  - intros url Hurl. unfold filterProfanityPreservingUrls.
    cbn [urlMatches]. rewrite (urlAt_url _ Hurl).
    destruct (String.length url); simpl; by rewrite app_empty_r.
Qed.
End Urls.

Lemma X4_urls_preserved_witness :
  @filterProfanityPreservingUrls sampleFilter "see http://a.b/c_d now" = "see http://a.b/c_d now" ∧
  isUrl "https://ryo.lu/x_y" = true ∧
  @filterProfanityPreservingUrls sampleFilter "https://ryo.lu/x_y" = "https://ryo.lu/x_y".
Proof.
  split; [|split; [reflexivity|]].
  - apply (proj1 (@X4_urls_preserved sampleFilter)). reflexivity.
  - apply (proj2 (@X4_urls_preserved sampleFilter) "https://ryo.lu/x_y"). reflexivity.
Defined.
(* ===================================================================== *)
(** ** Further properties: tokens and sessions *)
(* ===================================================================== *)

(** A validation that does not answer [valid] and not expired has written
    nothing. *)
Lemma validateAuth_quiet now u tok b s :
  (validateAuth now u tok b s).2 ≠ Some authValid →
  (validateAuth now u tok b s).1 = s.
Proof.
  unfold validateAuth. destruct (_ || _)%bool eqn:He; [done|].
  apply orb_false_iff in He as [Hu Htok].
  rewrite (bind_run _ _ _ _ _ (exists_run _ _ _)).
  destruct (bool_decide _).
  { intros Hne. exfalso. apply Hne.
    rewrite (bind_run _ _ _ _ _ (expire_run _ _ _ _)).
    by rewrite (bind_run _ _ _ _ _ (expire_run _ _ _ _)). }
  unfold getUsernameForToken. rewrite Htok.
  destruct (get_cases now (getTokenKey tok) s) as [E|[v E]].
  { by rewrite (bind_fail _ _ _ _ E). }
  rewrite (bind_run _ _ _ _ _ E).
  destruct (bool_decide _).
  { intros Hne. exfalso. apply Hne.
    by rewrite (bind_run _ _ _ _ _ (expire_run _ _ _ _)). }
  destruct (get_cases now (legacyTokenKey (Str.toLowerCase u)) s) as [E2|[w E2]].
  { by rewrite (bind_fail _ _ _ _ E2). }
  rewrite (bind_run _ _ _ _ _ E2).
  destruct (isString tok w).
  { intros Hne. exfalso. apply Hne.
    by rewrite (bind_run _ _ _ _ _ (expire_run _ _ _ _)). }
  destruct b; [|done].
  destruct (get_cases now (lastTokenKey (Str.toLowerCase u)) s) as [E3|[l E3]].
  { by rewrite (bind_fail _ _ _ _ E3). }
  rewrite (bind_run _ _ _ _ _ E3). intros _.
  by repeat case_match.
Qed.

(** X5. [validateAuth] writes to the store only when it answers valid and
    not expired: after any other outcome (invalid, or a failed read) the
    store is as it was.  Whatever the outcome, the only value it can change
    is that of the user-scoped key of the pair it validates; what every
    other key holds is as before. *)
Theorem X5_validateAuth_writes now u tok b s :
  ((validateAuth now u tok b s).2 ≠ Some authValid →
   (validateAuth now u tok b s).1 = s) ∧
  (∀ k, k ≠ getUserTokenKey u tok →
        Redis.value now k (validateAuth now u tok b s).1 = Redis.value now k s).
Proof.
  split; [apply validateAuth_quiet|].
  intros k Hk. by apply (validateAuth_value now u tok b k _ Hk s).
Qed.

Lemma X5_validateAuth_writes_witness :
  (validateAuth 5000 "alice" "0000" true sampleIssued).1 = sampleIssued.
Proof.
  apply (proj1 (X5_validateAuth_writes 5000 "alice" "0000" true sampleIssued)).
  vm_compute. discriminate.
Defined.

(** *** Issuance *)

Lemma generate_inv now rnd u s s' resp :
  length rnd = TOKEN_LENGTH →
  handleGenerateToken now rnd u s = (s', Some resp) → status resp = 201 →
  let lu := Str.toLowerCase u in
  let N := generateAuthToken rnd in
  String.eqb u "" = false ∧ resp = Response 201 (BToken N) ∧
  s' = <[lastTokenKey lu :=
           Entry (VLast (LastToken N (now + USER_EXPIRATION_TIME * 1000)))
             (Redis.expiry now (USER_EXPIRATION_TIME + TOKEN_GRACE_PERIOD))]>
         (<[getTokenKey N := Entry (written lu) (Redis.expiry now USER_EXPIRATION_TIME)]>
            (<[getUserTokenKey u N := Entry (VNum now) (Redis.expiry now USER_EXPIRATION_TIME)]>
               (<[legacyTokenKey lu := Entry (VStr N) (Redis.expiry now USER_EXPIRATION_TIME)]> s))).
Proof.
  intros Hlen H Hst. simpl.
  pose proof (generateAuthToken_nonempty rnd Hlen) as Htok.
  unfold handleGenerateToken in H.
  destruct (String.eqb u "") eqn:Hu; [apply ret_inv in H as [_ ->]; done|].
  split; [done|].
  apply catch_inv in H as [H|(s1 & _ & H)]; [|apply ret_inv in H as [_ ->]; done].
  apply bind_inv in H as (sa & userData & Hget & H).
  apply get_inv in Hget as [-> _].
  destruct (negb (truthy userData)); [apply ret_inv in H as [_ ->]; done|].
  apply bind_inv in H as (sb & ? & Hget & H).
  apply get_inv in Hget as [-> _].
  apply bind_inv in H as (sc & ? & Hset & H).
  apply bind_inv in H as (sd & ? & Hstore & H).
  apply bind_inv in H as (se & ? & Hlast & H).
  apply ret_inv in H as [-> ->]. split; [done|].
  unfold Redis.set in Hset. rewrite written_token in Hset. simplify_eq.
  unfold storeToken in Hstore. rewrite Htok in Hstore.
  unfold bind, Redis.set in Hstore. rewrite !toLowerCase_idem in Hstore.
  rewrite getUserTokenKey_lower in Hstore. simplify_eq.
  unfold storeLastValidToken, Redis.set in Hlast. rewrite toLowerCase_idem in Hlast.
  by simplify_eq.
Qed.

(** *** Keys of different users *)

Lemma name_noColon x : USERNAME_REGEX x = true → noColon x = true.
Proof.
  intros (_ & Hf)%username_chars. unfold noColon.
  induction x as [|c x IH]; simpl in *; [done|].
  apply andb_true_iff in Hf as [Hc Hx]. rewrite (IH Hx), andb_true_r.
  destruct (Ascii.eqb c ":") eqn:E; [|done].
  apply Ascii.eqb_eq in E as ->. done.
Qed.

Lemma name_length x : USERNAME_REGEX x = true → (String.length x ≤ 30)%nat.
Proof. intros (Hl & _)%username_chars. lia. Qed.

Lemma toHex_length bs : String.length (toHex bs) = (2 * length bs)%nat.
Proof. induction bs as [|b bs IH]; simpl; [done|]. rewrite IH. lia. Qed.

Lemma noColon_app a b : noColon (a +:+ b) = (noColon a && noColon b)%bool.
Proof. apply forallb_app. Qed.

Lemma hex_noColon s : isHex s = true → noColon s = true.
Proof.
  unfold isHex, noColon. induction s as [|c s IH]; simpl; [done|].
  intros [Hc Hs]%andb_true_iff. rewrite (IH Hs), andb_true_r.
  destruct (Ascii.eqb c ":") eqn:E; [|done].
  apply Ascii.eqb_eq in E as ->. done.
Qed.

(** Two texts cut at their first colon. *)
Lemma colon_split_inj a b x y :
  noColon a = true → noColon b = true →
  a +:+ String ":" x = b +:+ String ":" y → a = b ∧ x = y.
Proof.
  revert b. induction a as [|c a IH]; intros [|d b] Ha Hb E.
  - by simplify_eq.
  - rewrite app_nil_l, app_cons in E. by simplify_eq.
  - rewrite app_nil_l, app_cons in E. by simplify_eq.
  - rewrite !app_cons in E. injection E as -> E.
    unfold noColon in *. simpl in Ha, Hb.
    apply andb_true_iff in Ha as [_ Ha]. apply andb_true_iff in Hb as [_ Hb].
    destruct (IH b Ha Hb E) as [-> ->]. done.
Qed.

Lemma user_key_inj2 u v a b :
  noColon (Str.toLowerCase u) = true → noColon (Str.toLowerCase v) = true →
  getUserTokenKey u a = getUserTokenKey v b →
  Str.toLowerCase u = Str.toLowerCase v ∧ a = b.
Proof.
  intros Hu Hv. unfold getUserTokenKey, AUTH_TOKEN_PREFIX.
  intros E. apply (inj (String.app "chat:token:")) in E.
  apply (inj (String.app "user:")) in E.
  by apply colon_split_inj in E.
Qed.

Lemma legacy_ne_user2 x u a : noColon x = true → legacyTokenKey x ≠ getUserTokenKey u a.
Proof.
  intros Hx. unfold legacyTokenKey, getUserTokenKey, AUTH_TOKEN_PREFIX.
  intros E. apply (inj (String.app "chat:token:")) in E. by subst.
Qed.

Lemma legacy_ne_last2 x y : noColon x = true → legacyTokenKey x ≠ lastTokenKey y.
Proof.
  intros Hx. unfold legacyTokenKey, lastTokenKey, AUTH_TOKEN_PREFIX.
  intros E. apply (inj (String.app "chat:token:")) in E. by subst.
Qed.

Lemma last_key_inj x y : lastTokenKey x = lastTokenKey y → x = y.
Proof.
  unfold lastTokenKey, AUTH_TOKEN_PREFIX. intros E.
  apply (inj (String.app "chat:token:")) in E. by apply (inj (String.app "last:")) in E.
Qed.

(** What an invalid answer of [validateAuth] tells about the store. *)
Lemma validateAuth_invalid_inv t u tok b s :
  String.eqb u "" = false → String.eqb tok "" = false →
  (validateAuth t u tok b s).2 = Some authInvalid →
  Redis.peek t (getUserTokenKey u tok) s = None ∧
  (∃ v, Redis.value t (getTokenKey tok) s = v ∧ scalar v = true ∧
        mappedLowerOf v ≠ Some (Str.toLowerCase u)) ∧
  (∃ w, Redis.value t (legacyTokenKey (Str.toLowerCase u)) s = w ∧ scalar w = true ∧
        isString tok w = false) ∧
  (b = true → scalar (Redis.value t (lastTokenKey (Str.toLowerCase u)) s) = true).
Proof.
  intros Hu Htok. unfold validateAuth. rewrite Hu, Htok. simpl.
  rewrite getUserTokenKey_lower.
  rewrite (bind_run _ _ _ _ _ (exists_run _ _ _)).
  destruct (bool_decide _) eqn:Hex.
  { rewrite (bind_run _ _ _ _ _ (expire_run _ _ _ _)).
    by rewrite (bind_run _ _ _ _ _ (expire_run _ _ _ _)). }
  apply bool_decide_eq_false in Hex.
  assert (Hpk : Redis.peek t (getUserTokenKey u tok) s = None).
  { destruct (Redis.peek t _ s) eqn:E; [|done]. exfalso. apply Hex.
    unfold present. rewrite E. eauto. }
  unfold getUsernameForToken. rewrite Htok.
  destruct (get_cases t (getTokenKey tok) s) as [E|[v E]].
  { by rewrite (bind_fail _ _ _ _ E). }
  rewrite (bind_run _ _ _ _ _ E).
  destruct (bool_decide _) eqn:Hm.
  { by rewrite (bind_run _ _ _ _ _ (expire_run _ _ _ _)). }
  apply bool_decide_eq_false in Hm.
  destruct (get_cases t (legacyTokenKey (Str.toLowerCase u)) s) as [E2|[w E2]].
  { by rewrite (bind_fail _ _ _ _ E2). }
  rewrite (bind_run _ _ _ _ _ E2).
  destruct (isString tok w) eqn:Hw.
  { by rewrite (bind_run _ _ _ _ _ (expire_run _ _ _ _)). }
  intros Hres. split; [done|].
  split. { exists v. pose proof (get_scalar _ _ _ _ _ E). by apply get_inv in E as [_ ->]. }
  split. { exists w. pose proof (get_scalar _ _ _ _ _ E2). by apply get_inv in E2 as [_ ->]. }
  intros ->.
  destruct (get_cases t (lastTokenKey (Str.toLowerCase u)) s) as [E3|[l E3]].
  { by rewrite (bind_fail _ _ _ _ E3) in Hres. }
  pose proof (get_scalar _ _ _ _ _ E3). apply get_inv in E3 as [_ E3].
  by rewrite E3.
Qed.

(** X6. A token that [handleGenerateToken] issues to one user authenticates
    no other user: when the token did not validate for another username
    before the issuance, it does not validate for it afterwards, at any
    instant and in either mode.  Both usernames are of the accepted
    format. *)
Theorem X6_token_owner_only now rnd u s s' T v t b :
  length rnd = TOKEN_LENGTH →
  USERNAME_REGEX (Str.toLowerCase u) = true →
  USERNAME_REGEX (Str.toLowerCase v) = true →
  Str.toLowerCase v ≠ Str.toLowerCase u →
  handleGenerateToken now rnd u s = (s', Some (Response 201 (BToken T))) →
  (validateAuth t v T b s).2 = Some authInvalid →
  (validateAuth t v T b s').2 = Some authInvalid.
Proof.
  intros Hlen Hu Hv Hne Hgen Hbefore.
  destruct (generate_inv _ _ _ _ _ _ Hlen Hgen eq_refl) as (Hu0 & HT & Hs').
  injection HT as HT. set (lu := Str.toLowerCase u) in *.
  set (lv := Str.toLowerCase v) in *.
  pose proof (generateAuthToken_nonempty rnd Hlen) as Htok. rewrite <- HT in *.
  assert (HhT : isHex T = true) by (rewrite HT; apply toHex_isHex).
  assert (Hv0 : String.eqb v "" = false).
  { rewrite <- toLowerCase_eq_empty. by apply USERNAME_REGEX_nonempty. }
  pose proof (name_noColon _ Hu) as Hcu. pose proof (name_noColon _ Hv) as Hcv.
  assert (HlenT : String.length T = 64%nat).
  { rewrite HT. unfold generateAuthToken. rewrite toHex_length, Hlen. done. }
  assert (HTv : T ≠ lv).
  { intros E. pose proof (name_length _ Hv) as Hl. fold lv in Hl.
    rewrite <- E, HlenT in Hl. lia. }
  destruct (validateAuth_invalid_inv _ _ _ _ _ Hv0 Htok Hbefore)
    as (H1 & (x & Hx & Hsx & Hmx) & (w & Hw & Hsw & Hiw) & H4).
  fold lv in Hmx, Hw, H4.
  (* the four records of [v] in the store after the issuance *)
  assert (K1 : Redis.peek t (getUserTokenKey v T) s' = None).
  { rewrite Hs', !peek_insert.
    rewrite decide_False by apply last_ne_user.
    rewrite decide_False by (by apply flat_ne_user).
    rewrite decide_False.
    2:{ intros E. apply user_key_inj2 in E as [E _]; [by symmetry in E|done..]. }
    rewrite decide_False; [done|].
    by apply legacy_ne_user2. }
  assert (K2 : ∃ x', Redis.value t (getTokenKey T) s' = x' ∧ scalar x' = true ∧
                     mappedLowerOf x' ≠ Some lv).
  { rewrite Hs', !value_insert.
    rewrite decide_False by (apply not_eq_sym; by apply flat_ne_last).
    rewrite decide_True by done.
    destruct (Redis.live t _); eexists; (split; [done|]); [|done].
    split; [apply scalar_written|].
    intros E%mappedLowerOf_written. apply Hne. rewrite E. unfold lu.
    apply toLowerCase_idem. }
  assert (K3 : Redis.value t (legacyTokenKey lv) s' = w).
  { rewrite Hs', !value_insert.
    rewrite decide_False by (apply not_eq_sym; by apply legacy_ne_last2).
    rewrite decide_False by (intros E; by apply flat_key_inj in E).
    rewrite decide_False by (apply not_eq_sym; by apply legacy_ne_user2).
    rewrite decide_False; [done|].
    intros E. apply flat_key_inj in E. by symmetry in E. }
  assert (K4 : Redis.value t (lastTokenKey lv) s' = Redis.value t (lastTokenKey lv) s).
  { rewrite Hs', !value_insert.
    rewrite decide_False by (intros E; apply last_key_inj in E; by symmetry in E).
    rewrite decide_False by (by apply flat_ne_last).
    rewrite decide_False by (apply not_eq_sym, last_ne_user).
    rewrite decide_False; [done|]. by apply legacy_ne_last2. }
  destruct K2 as (x' & Hx' & Hsx' & Hmx').
  rewrite (validateAuth_fallthrough t v T b s' x' w); try done.
  intros Hb. fold lv. rewrite K4. by apply H4.
Qed.

Lemma X6_token_owner_only_witness :
  (validateAuth 2000 "bob" sampleToken true sampleIssued).2 = Some authInvalid.
Proof.
  apply (X6_token_owner_only 1000 sampleTokenBytes "alice" sampleUsers sampleIssued
           sampleToken "bob" 2000 true);
    [reflexivity | reflexivity | reflexivity | simpl; discriminate
    | apply run_snd; [reflexivity | vm_compute; reflexivity]
    | vm_compute; reflexivity].
Defined.

(** *** Logging out of the current session *)

Lemma value_delete t k k' (s : store) :
  Redis.value t k (delete k' s) = if decide (k' = k) then None else Redis.value t k s.
Proof. unfold Redis.value. rewrite peek_delete. by destruct (decide _). Qed.

Lemma glob_star_inv p s :
  Str.glob (String "*" p) s = true → ∃ x y, s = x +:+ y ∧ Str.glob p y = true.
Proof.
  induction s as [|c s IH]; simpl.
  - rewrite orb_false_r. intros Hp. by exists "", "".
  - intros [Hp|Hs]%orb_true_iff.
    + by exists "", (String c s).
    + destruct (IH Hs) as (x & y & -> & Hy). by exists (String c x), y.
Qed.

Lemma glob_exact p s :
  Str.forallb (fun c => negb (Ascii.eqb c "*")) p = true →
  Str.glob p s = true → s = p.
Proof.
  intros Hp Hg. destruct (glob_literal p "" s) as (k' & -> & Hk').
  - done.
  - by rewrite app_empty_r.
  - destruct k'; [|done]. by rewrite app_empty_r.
Qed.

(** Two texts cut at their last colon. *)
Lemma last_colon_inj a b x y :
  noColon x = true → noColon y = true →
  a +:+ String ":" x = b +:+ String ":" y → x = y.
Proof.
  intros Hx Hy. revert b. induction a as [|c a IH]; intros [|d b] E.
  - by simplify_eq.
  - rewrite app_nil_l, app_cons in E. injection E as _ E. subst x.
    rewrite noColon_app in Hx. apply andb_true_iff in Hx as [_ Hx]. done.
  - rewrite app_nil_l, app_cons in E. injection E as _ E. subst y.
    rewrite noColon_app in Hy. apply andb_true_iff in Hy as [_ Hy]. done.
  - rewrite !app_cons in E. injection E as _ E. by apply (IH b).
Qed.

(** A key that the fallback scan of [deleteToken] finds is a user-scoped
    key of the token. *)
Lemma fallback_pattern T k :
  isHex T = true →
  Str.glob (AUTH_TOKEN_PREFIX +:+ "user:*:" +:+ T) k = true →
  ∃ x, k = AUTH_TOKEN_PREFIX +:+ "user:" +:+ x +:+ String ":" T.
Proof.
  intros HT Hg.
  apply (glob_literal (AUTH_TOKEN_PREFIX +:+ "user:") ("*:" +:+ T)) in Hg
    as (k' & -> & Hg); [|done].
  apply glob_star_inv in Hg as (x & y & -> & Hy).
  apply glob_exact in Hy as ->; [by exists x|].
  simpl. by apply hex_no_star.
Qed.

Lemma value_lookup t k (s s' : store) :
  s' !! k = s !! k → Redis.value t k s' = Redis.value t k s.
Proof. unfold Redis.value, Redis.peek. by intros ->. Qed.

(** Validation through the legacy record. *)
Lemma validateAuth_legacy t u tok s v :
  String.eqb u "" = false → String.eqb tok "" = false →
  Redis.peek t (getUserTokenKey u tok) s = None →
  Redis.value t (getTokenKey tok) s = v → scalar v = true →
  mappedLowerOf v ≠ Some (Str.toLowerCase u) →
  Redis.value t (legacyTokenKey (Str.toLowerCase u)) s = Some (VStr tok) →
  (validateAuth t u tok false s).2 = Some authValid.
Proof.
  intros Hu Htok H1 Hv Hsv Hmv Hw.
  unfold validateAuth. rewrite Hu, Htok. simpl.
  rewrite getUserTokenKey_lower.
  rewrite (bind_run _ _ _ _ _ (exists_run _ _ _)).
  rewrite bool_decide_eq_false_2 by (unfold present; rewrite H1; by intros [? ?]).
  unfold getUsernameForToken. rewrite Htok.
  rewrite (bind_run _ _ _ _ _ (get_run _ _ _ _ Hv Hsv)).
  rewrite bool_decide_eq_false_2 by done.
  rewrite (bind_run _ _ _ _ _ (get_run _ _ _ _ Hw eq_refl)).
  simpl. rewrite String.eqb_refl.
  by rewrite (bind_run _ _ _ _ _ (expire_run _ _ _ _)).
Qed.

(** [handleLogoutCurrent] leaves the store that [deleteToken] leaves, and
    answers 200 when [deleteToken] returns. *)
Lemma handleLogoutCurrent_run now name T s :
  (handleLogoutCurrent now name T s).1 = (deleteToken now T s).1 ∧
  ((deleteToken now T s).2 = Some tt →
   (handleLogoutCurrent now name T s).2 = Some (Reply 200 RLoggedOut)) ∧
  ((deleteToken now T s).2 = None →
   (handleLogoutCurrent now name T s).2
   = Some (createErrorReply "Failed to logout current session" 500)).
Proof.
  unfold handleLogoutCurrent, catch, bind.
  destruct (deleteToken now T s) as [s1 [[]|]]; simpl; by repeat split.
Qed.

(** [deleteToken] of a token whose flat mapping is a string. *)
Lemma deleteToken_named now T s m :
  String.eqb T "" = false →
  Redis.value now (getTokenKey T) s = Some (VStr m) → m ≠ "" →
  deleteToken now T s
  = (delete (getUserTokenKey m T) (delete (getTokenKey T) s), Some tt).
Proof.
  intros Htok Hflat Hm. unfold deleteToken. rewrite Htok.
  rewrite (bind_run _ _ _ _ _ (get_run _ _ _ _ Hflat eq_refl)).
  destruct (del_run now (getTokenKey T) s) as [n Hn].
  rewrite (bind_run _ _ _ _ _ Hn).
  assert (Htr : truthy (Some (VStr m)) = true).
  { simpl. apply negb_true_iff. by apply String.eqb_neq. }
  rewrite Htr.
  destruct (del_run now (getUserTokenKey m T) (delete (getTokenKey T) s)) as [n' Hn'].
  by rewrite (bind_run _ _ _ _ _ Hn').
Qed.

(** [deleteToken] of a token whose flat mapping reads as nothing returns. *)
Lemma deleteToken_fallback now T s :
  String.eqb T "" = false →
  truthy (Redis.value now (getTokenKey T) s) = false →
  scalar (Redis.value now (getTokenKey T) s) = true →
  (deleteToken now T s).2 = Some tt.
Proof.
  intros Htok Htr Hsc. unfold deleteToken. rewrite Htok.
  rewrite (bind_run _ _ _ _ _ (get_run _ _ _ _ eq_refl Hsc)).
  destruct (del_run now (getTokenKey T) s) as [n Hn].
  rewrite (bind_run _ _ _ _ _ Hn). rewrite Htr.
  unfold scan. unfold bind at 1.
  destruct (filter _ _) as [|k0 ks]; [done|].
  destruct (del_run now (JSON_stringify (k0 :: ks)) (delete (getTokenKey T) s))
    as [n2 Hn2].
  by rewrite (bind_run _ _ _ _ _ Hn2).
Qed.

(** [deleteToken] of a token whose flat mapping reads as a value that is
    truthy and no string throws. *)
Lemma deleteToken_throws now T s v :
  String.eqb T "" = false →
  Redis.value now (getTokenKey T) s = Some v → scalar (Some v) = true →
  truthy (Some v) = true → (∀ m, v ≠ VStr m) →
  (deleteToken now T s).2 = None.
Proof.
  intros Htok Hv Hsc Htr Hns. unfold deleteToken. rewrite Htok.
  rewrite (bind_run _ _ _ _ _ (get_run _ _ _ _ Hv Hsc)).
  destruct (del_run now (getTokenKey T) s) as [n Hn].
  rewrite (bind_run _ _ _ _ _ Hn). rewrite Htr.
  destruct v; try done. by destruct (Hns s0).
Qed.

(** The user-scoped key of a token is no key that [deleteToken] deletes
    when the flat mapping does not name the user. *)
Lemma deleteToken_keeps_user now T s u :
  isHex T = true →
  (∀ m, Redis.value now (getTokenKey T) s = Some (VStr m) → m ≠ "" →
        Str.toLowerCase m ≠ Str.toLowerCase u) →
  (deleteToken now T s).1 !! getUserTokenKey u T = s !! getUserTokenKey u T.
Proof.
  intros HT Hm. apply deleteToken_keeps.
  - apply not_eq_sym. by apply flat_ne_user.
  - intros m Hv Hne E. apply (Hm m Hv Hne). symmetry in E.
    by apply user_key_name in E.
  - intros y. unfold getUserTokenKey, AUTH_TOKEN_PREFIX. simpl. discriminate.
Qed.

(** X7. [handleLogoutCurrent] revokes a token (a hexadecimal string)
    through its flat mapping only.  When the flat mapping is a string that
    names the user, the answer is 200 and the flat mapping and the
    user-scoped key of the token are gone, but not the legacy record of the
    user: from then on strict validation of the token fails when the legacy
    record holds another token or none, and succeeds when the legacy record
    holds this very token; every other token of the user that is in the
    per-user collection validates as before.  When the flat mapping reads as
    nothing (it is missing or has expired, or reads [null] or [false]), the
    answer is 200 as well, but the user-scoped key stays where it is: the
    fallback hands [redis.del] the array of the keys it found, not the keys.
    A token that is in the per-user collection then validates after the
    logout as before it. *)
Theorem X7_logout_current now name u T s :
  isHex T = true → String.eqb T "" = false →
  USERNAME_REGEX (Str.toLowerCase u) = true → Str.toLowerCase u ≠ T →
  let out := handleLogoutCurrent now name T s in
  (∀ m, Redis.value now (getTokenKey T) s = Some (VStr m) → m ≠ "" →
        Str.toLowerCase m = Str.toLowerCase u →
        out.2 = Some (Reply 200 RLoggedOut) ∧
        out.1 !! getTokenKey T = None ∧ out.1 !! getUserTokenKey u T = None ∧
        (∀ t w, now ≤ t →
           Redis.value t (legacyTokenKey (Str.toLowerCase u)) s = w → scalar w = true →
           (validateAuth t u T false out.1).2 =
             Some (if isString T w then authValid else authInvalid)) ∧
        (∀ T' t, isHex T' = true → T' ≠ T → String.eqb T' "" = false →
           present t (getUserTokenKey u T') s →
           (validateAuth t u T' false out.1).2 = Some authValid)) ∧
  (truthy (Redis.value now (getTokenKey T) s) = false →
   scalar (Redis.value now (getTokenKey T) s) = true →
   out.2 = Some (Reply 200 RLoggedOut) ∧
   out.1 !! getUserTokenKey u T = s !! getUserTokenKey u T ∧
   ∀ t, present t (getUserTokenKey u T) s →
        (validateAuth t u T false out.1).2 = Some authValid).
Proof.
  intros HT Hne Hu HuT out. set (lu := Str.toLowerCase u) in *.
  assert (Hu0 : String.eqb u "" = false).
  { rewrite <- toLowerCase_eq_empty. by apply USERNAME_REGEX_nonempty. }
  destruct (handleLogoutCurrent_run now name T s) as (Hst & Hok & _).
  fold out in Hst, Hok. split.
  - intros m Hm Hmne Hmu.
    pose proof (deleteToken_named _ _ _ _ Hne Hm Hmne) as Hdel.
    assert (Hk : getUserTokenKey m T = getUserTokenKey u T).
    { unfold getUserTokenKey. by rewrite Hmu. }
    rewrite Hk in Hdel. rewrite Hdel in Hst, Hok. simpl in Hst.
    split; [by apply Hok|]. rewrite Hst.
    assert (K1 : ∀ t, Redis.peek t (getUserTokenKey u T)
                        (delete (getUserTokenKey u T) (delete (getTokenKey T) s)) = None).
    { intros t. by rewrite peek_delete, decide_True. }
    assert (K2 : ∀ t, Redis.peek t (getTokenKey T)
                        (delete (getUserTokenKey u T) (delete (getTokenKey T) s)) = None).
    { intros t. rewrite !peek_delete. destruct (decide _); [done|].
      by rewrite decide_True. }
    split.
    { rewrite lookup_delete_ne by (apply not_eq_sym; by apply flat_ne_user).
      apply lookup_delete_eq. }
    split; [apply lookup_delete_eq|]. split.
    + intros t w Ht Hw Hsw.
      assert (Hw' : Redis.value t (legacyTokenKey lu)
                      (delete (getUserTokenKey u T) (delete (getTokenKey T) s)) = w).
      { rewrite <- Hw. apply value_lookup. rewrite !lookup_delete_ne; [done| |].
        - intros E. apply flat_key_inj in E. by symmetry in E.
        - apply not_eq_sym, legacy_ne_user. }
      assert (Hflat : Redis.value t (getTokenKey T)
                        (delete (getUserTokenKey u T) (delete (getTokenKey T) s)) = None).
      { unfold Redis.value. by rewrite K2. }
      destruct (isString T w) eqn:Hiw.
      * destruct w as [[x| | | | | | | | |]|]; try done.
        apply String.eqb_eq in Hiw as ->.
        by apply (validateAuth_legacy t u T _ None).
      * by rewrite (validateAuth_fallthrough t u T false _ None w).
    + intros T' t HT' Hdiff Hne' Hp.
      apply validateAuth_present; [done..|].
      unfold present, Redis.peek in *.
      rewrite !lookup_delete_ne; [done| |].
      * by apply flat_ne_user.
      * intros E. apply user_key_inj in E. by symmetry in E.
  - intros Htr Hsc.
    split; [apply Hok; by apply deleteToken_fallback|].
    assert (E : out.1 !! getUserTokenKey u T = s !! getUserTokenKey u T).
    { rewrite Hst. apply deleteToken_keeps_user; [done|].
      intros m Hm Hmne. rewrite Hm in Htr. simpl in Htr.
      apply negb_false_iff, String.eqb_eq in Htr. done. }
    split; [done|]. intros t Hp.
    apply validateAuth_present; [done..|].
    unfold present, Redis.peek in *. by rewrite E.
Qed.

Lemma X7_logout_current_witness :
  (validateAuth 3500 "alice" sampleToken false
     (handleLogoutCurrent 3000 "alice" sampleToken sampleIssuedTwice).1).2
    = Some authInvalid ∧
  (validateAuth 3500 "alice" (generateAuthToken sampleTokenBytes') false
     (handleLogoutCurrent 3000 "alice" sampleToken sampleIssuedTwice).1).2
    = Some authValid.
Proof.
  pose proof (X7_logout_current 3000 "alice" "alice" sampleToken sampleIssuedTwice) as X.
  destruct X as [X _].
  - reflexivity.
  - reflexivity.
  - reflexivity.
  - discriminate.
  - destruct (X "alice") as (_ & _ & _ & X1 & X2).
    + vm_compute. reflexivity.
    + discriminate.
    + reflexivity.
    + split.
      * apply (X1 3500 (Some (VStr (generateAuthToken sampleTokenBytes'))));
          [lia | vm_compute; reflexivity | reflexivity].
      * apply X2; [reflexivity | discriminate | reflexivity |].
        unfold present. vm_compute. eauto.
Defined.

(** A name that [USERNAME_REGEX] accepts has no white space, so the client
    reads it back as it is unless it is a JSON literal. *)
Lemma nameChar_no_space c : nameChar c = true → negb (isJsonSpace c) = true.
Proof. destruct c as [[] [] [] [] [] [] [] []]; by vm_compute. Qed.

Lemma written_name x :
  USERNAME_REGEX x = true → jsonLiteral x = false → written x = VStr x.
Proof.
  intros (_ & Hf)%username_chars Hl. unfold written.
  rewrite trim_id.
  - unfold jsonLiteral in Hl.
    apply orb_false_iff in Hl as [[H1 H2]%orb_false_iff H3]. by rewrite H1, H2, H3.
  - clear Hl. induction x as [|c x IH]; [done|]. simpl in *.
    apply andb_true_iff in Hf as [Hc Hx]. by rewrite (nameChar_no_space _ Hc), IH.
Qed.

(** X8. [handleLogoutCurrent] does not revoke the token that was issued
    last.  After [handleGenerateToken] has issued a token to a user, a
    logout of that token leaves it valid in strict mode until its lifetime
    has elapsed.  For a name other than [true], [false] and [null] the
    logout answers 200 and deletes the flat mapping and the user-scoped key,
    and the token validates through the legacy record
    [chat:token:{username}], which [deleteToken] does not delete.  For these
    three names the client reads the flat mapping back as a boolean or
    [null]: the user-scoped key is not deleted, the logout of [true] answers
    500, and the token validates through that key. *)
Theorem X8_logout_keeps_latest t0 rnd u s s1 T t1 name t :
  length rnd = TOKEN_LENGTH →
  USERNAME_REGEX (Str.toLowerCase u) = true →
  handleGenerateToken t0 rnd u s = (s1, Some (Response 201 (BToken T))) →
  t0 ≤ t1 → t1 ≤ t < t0 + USER_EXPIRATION_TIME * 1000 →
  let out := handleLogoutCurrent t1 name T s1 in
  (validateAuth t u T false out.1).2 = Some authValid ∧
  (jsonLiteral (Str.toLowerCase u) = false →
   out.2 = Some (Reply 200 RLoggedOut) ∧
   out.1 !! getUserTokenKey u T = None ∧ out.1 !! getTokenKey T = None) ∧
  (jsonLiteral (Str.toLowerCase u) = true →
   out.1 !! getUserTokenKey u T = s1 !! getUserTokenKey u T ∧
   (Str.toLowerCase u = "true" →
    out.2 = Some (createErrorReply "Failed to logout current session" 500))).
Proof.
  intros Hlen Hu Hgen Ht1 Ht.
  destruct (generate_inv _ _ _ _ _ _ Hlen Hgen eq_refl) as (Hu0 & HT & Hs1).
  injection HT as HT. set (lu := Str.toLowerCase u) in *.
  pose proof (generateAuthToken_nonempty rnd Hlen) as Htok. rewrite <- HT in *.
  assert (HhT : isHex T = true) by (rewrite HT; apply toHex_isHex).
  assert (HuT : lu ≠ T).
  { intros E. pose proof (name_length _ Hu) as Hl. fold lu in Hl.
    rewrite E, HT in Hl. unfold generateAuthToken in Hl.
    rewrite toHex_length, Hlen in Hl. simpl in Hl. lia. }
  assert (Hlu0 : lu ≠ "").
  { intros E. apply USERNAME_REGEX_nonempty in Hu. fold lu in Hu. by rewrite E in Hu. }
  assert (Hlive : ∀ i v, t0 ≤ i → i ≤ t →
            Redis.live i (Entry v (Redis.expiry t0 USER_EXPIRATION_TIME)) = true).
  { intros i v _ Hi. apply live_expiry. lia. }
  (* the flat mapping read by deleteToken, and the user-scoped key *)
  assert (Hflat : Redis.value t1 (getTokenKey T) s1 = Some (written lu)).
  { rewrite Hs1, !value_insert.
    rewrite decide_False by (apply not_eq_sym; by apply flat_ne_last).
    rewrite decide_True by done. rewrite Hlive by lia. done. }
  assert (Hkey : present t (getUserTokenKey u T) s1).
  { unfold present. rewrite Hs1, !peek_insert.
    rewrite decide_False by apply last_ne_user.
    rewrite decide_False by (by apply flat_ne_user).
    rewrite decide_True by done. rewrite Hlive by lia. eauto. }
  intros out.
  destruct (handleLogoutCurrent_run t1 name T s1) as (Hst & Hok & Hfail).
  fold out in Hst, Hok, Hfail.
  destruct (jsonLiteral lu) eqn:Hlit.
  - (* the flat mapping reads as a boolean or null *)
    assert (E : out.1 !! getUserTokenKey u T = s1 !! getUserTokenKey u T).
    { rewrite Hst. apply deleteToken_keeps_user; [done|].
      intros m Hm _. rewrite Hflat in Hm. exfalso.
      unfold jsonLiteral in Hlit.
      apply orb_true_iff in Hlit as [[E|E]%orb_true_iff|E];
        apply String.eqb_eq in E; rewrite E in Hm; done. }
    split; [|split; [done|]].
    + apply validateAuth_present; [done..|].
      unfold present, Redis.peek in *. by rewrite E.
    + intros _. split; [done|]. intros Etrue. apply Hfail.
      apply (deleteToken_throws t1 T s1 (VBool true)); try done.
      by rewrite Hflat, Etrue.
  - (* the flat mapping names the user *)
    rewrite (written_name _ Hu Hlit) in Hflat.
    pose proof (deleteToken_named _ _ _ _ Htok Hflat Hlu0) as Hdel.
    assert (Hk : getUserTokenKey lu T = getUserTokenKey u T)
      by apply getUserTokenKey_lower.
    rewrite Hk in Hdel. rewrite Hdel in Hst, Hok. simpl in Hst.
    assert (Hgone : out.1 !! getUserTokenKey u T = None ∧ out.1 !! getTokenKey T = None).
    { rewrite Hst. split; [apply lookup_delete_eq|].
      rewrite lookup_delete_ne by (apply not_eq_sym; by apply flat_ne_user).
      apply lookup_delete_eq. }
    split; [|split; [intros _; split; [by apply Hok|done]|done]].
    rewrite Hst.
    apply (validateAuth_legacy t u T _ None); try done.
    + by rewrite peek_delete, decide_True.
    + rewrite !value_delete.
      rewrite decide_False by (apply not_eq_sym; by apply flat_ne_user).
      by rewrite decide_True.
    + fold lu. rewrite !value_delete.
      rewrite decide_False by (apply not_eq_sym, legacy_ne_user).
      rewrite decide_False by (intros E; apply flat_key_inj in E; by symmetry in E).
      rewrite Hs1, !value_insert.
      rewrite decide_False by (apply not_eq_sym, legacy_ne_last).
      rewrite decide_False by (intros E; apply flat_key_inj in E; by symmetry in E).
      rewrite decide_False by (apply not_eq_sym, legacy_ne_user).
      rewrite decide_True by done. rewrite Hlive by lia. done.
Qed.

Lemma X8_logout_keeps_latest_witness :
  (validateAuth 5000 "alice" sampleToken false
     (handleLogoutCurrent 2000 "alice" sampleToken sampleIssued).1).2 = Some authValid.
Proof.
  refine (proj1 (X8_logout_keeps_latest 1000 sampleTokenBytes "alice" sampleUsers
                   sampleIssued sampleToken 2000 "alice" 5000 _ _ _ _ _)).
  - reflexivity.
  - reflexivity.
  - apply run_snd; [reflexivity | vm_compute; reflexivity].
  - lia.
  - unfold USER_EXPIRATION_TIME. lia.
Defined.

(** *** Listing the tokens of a user *)

Lemma includes_colon r : Str.includes ":" r = negb (noColon r).
Proof.
  unfold noColon. induction r as [|c r IH]; [done|].
  cbn [Str.includes Str.startsWith Str.forallb]. rewrite IH.
  rewrite (Ascii.eqb_sym ":" c). by destruct (Ascii.eqb c ":"), (Str.forallb _ r).
Qed.

Lemma lastSegment_app a T : noColon T = true → Str.lastSegment (a +:+ String ":" T) = T.
Proof.
  intros HT. induction a as [|c a IH].
  - rewrite app_nil_l. cbn [Str.lastSegment]. by rewrite includes_colon, HT.
  - rewrite app_cons. cbn [Str.lastSegment].
    rewrite includes_colon, noColon_app. unfold noColon at 2. simpl.
    by rewrite andb_false_r.
Qed.

Lemma lastSegment_userKey u T : isHex T = true → Str.lastSegment (getUserTokenKey u T) = T.
Proof.
  intros HT. unfold getUserTokenKey.
  etrans; [|apply (lastSegment_app (AUTH_TOKEN_PREFIX +:+ "user:" +:+ Str.toLowerCase u) T);
            by apply hex_noColon].
  by rewrite !app_assoc_str.
Qed.

Lemma name_no_star x :
  USERNAME_REGEX x = true → Str.forallb (fun c => negb (Ascii.eqb c "*")) x = true.
Proof.
  intros (_ & Hf)%username_chars.
  induction x as [|c x IH]; simpl in *; [done|].
  apply andb_true_iff in Hf as [Hc Hx]. rewrite (IH Hx), andb_true_r.
  destruct (Ascii.eqb c "*") eqn:E; [|done].
  apply Ascii.eqb_eq in E as ->. done.
Qed.

Lemma glob_userPattern u T :
  USERNAME_REGEX (Str.toLowerCase u) = true →
  Str.glob (getUserTokenPattern u) (getUserTokenKey u T) = true.
Proof.
  intros Hu%name_no_star. unfold getUserTokenPattern, getUserTokenKey, AUTH_TOKEN_PREFIX.
  apply (glob_prefix "chat:token:"); [done|].
  apply (glob_prefix "user:"); [done|].
  apply glob_prefix; [done|].
  apply (glob_prefix ":" "*"); [done|]. apply glob_star.
Qed.

Lemma scan_inv now p s s' ks :
  scan now p s = (s', Some ks) →
  s' = s ∧ ks = filter (fun k => Str.glob p k = true) (Redis.keys now s).
Proof. unfold scan. by intros [= <- <-]. Qed.

Lemma readTokens_inv now keys s s' l :
  readTokens now keys s = (s', Some l) →
  s' = s ∧ l = map (fun key => (Str.lastSegment key, Redis.value now key s)) keys.
Proof.
  revert s' l. induction keys as [|key keys IH]; intros s' l H; simpl in H.
  - by apply ret_inv in H as [-> ->].
  - apply bind_inv in H as (s1 & v & Hget & H). apply get_inv in Hget as [-> <-].
    apply bind_inv in H as (s2 & more & Hmore & H).
    destruct (IH _ _ Hmore) as [-> ->]. by apply ret_inv in H as [-> ->].
Qed.

(** X9. [handleListTokens] reads only.  When it answers 200 the count is the
    length of the list; every token of the per-user collection (a
    hexadecimal token whose user-scoped key is live) is listed with the
    timestamp its key holds; and every entry is flagged current exactly when
    its token is the bearer token of the request, and is masked to its last
    eight characters. *)
Theorem X9_listTokens now u req s s' l n :
  USERNAME_REGEX (Str.toLowerCase u) = true →
  handleListTokens now u req s = (s', Some (Reply 200 (RTokens l n))) →
  s' = s ∧ n = length l ∧
  (∀ T, isHex T = true → present now (getUserTokenKey u T) s →
        ∃ i, i ∈ l ∧ t_token i = T ∧
             t_createdAt i = Redis.value now (getUserTokenKey u T) s) ∧
  (∀ i, i ∈ l →
        t_isCurrent i = bool_decide (Some (t_token i) = bearerToken req) ∧
        t_maskedToken i = "..." +:+ lastChars 8 (t_token i)).
Proof.
  intros Hu H. unfold handleListTokens in H.
  apply catch_inv in H as [H|(s1 & _ & H)]; [|by apply ret_inv in H as [_ ?]].
  apply bind_inv in H as (s1 & tokens & Hget & H).
  apply ret_inv in H as [-> [= -> ->]].
  unfold getUserTokens in Hget.
  apply bind_inv in Hget as (s2 & keys & Hscan & Hread).
  apply scan_inv in Hscan as [-> ->].
  apply readTokens_inv in Hread as [-> ->].
  split; [done|]. split; [done|]. split.
  - intros T HT Hp.
    eexists. split.
    + apply list_elem_of_fmap. eexists. split; [reflexivity|].
      apply list_elem_of_fmap. exists (getUserTokenKey u T). split; [reflexivity|].
      apply elem_of_scan. split; [by apply glob_userPattern|done].
    + split; [exact (lastSegment_userKey _ _ HT)|reflexivity].
  - intros i Hi. apply list_elem_of_fmap in Hi as ([tok ts] & -> & _). done.
Qed.

Lemma X9_listTokens_witness :
  ∃ i, i ∈ [TokenInfo sampleToken (Some (VNum 1000)) true "...1a1a1a1a"] ∧
       t_token i = sampleToken.
Proof.
  destruct (X9_listTokens 2000 "alice"
              (Request (Some "listTokens") None (Some ("Bearer " +:+ sampleToken)) (Some "alice"))
              sampleIssued sampleIssued
              [TokenInfo sampleToken (Some (VNum 1000)) true "...1a1a1a1a"] 1)
    as (_ & _ & X & _).
  - reflexivity.
  - apply run_snd; [reflexivity | vm_compute; reflexivity].
  - destruct (X sampleToken) as (i & Hi & Ht & _).
    + reflexivity.
    + unfold present. vm_compute. eauto.
    + by exists i.
Defined.

(** *** Logging out everywhere *)

Lemma deleteAll_app ks ks' (s : store) :
  deleteAll (ks ++ ks') s = deleteAll ks' (deleteAll ks s).
Proof. unfold deleteAll. by rewrite foldl_app. Qed.

Lemma delUserTokenKeys_run now ks s :
  ∃ dels, delUserTokenKeys now ks s = (deleteAll dels s, Some tt) ∧ ks ⊆ dels.
Proof.
  revert s. induction ks as [|k ks IH]; intros s; simpl.
  - by exists [].
  - destruct (del_run now k s) as [n Hn]. rewrite (bind_run _ _ _ _ _ Hn).
    destruct (del_run now (getTokenKey (Str.lastSegment k)) (delete k s)) as [n' Hn'].
    rewrite (bind_run _ _ _ _ _ Hn').
    destruct (IH (delete (getTokenKey (Str.lastSegment k)) (delete k s))) as (dels & -> & Hsub).
    exists (k :: getTokenKey (Str.lastSegment k) :: dels). split; [done|].
    intros y [->|Hy]%elem_of_cons; [apply elem_of_cons; by left|].
    do 2 (apply elem_of_cons; right). by apply Hsub.
Qed.

(** A store that deletions made of another. *)
Lemma deleteAll_shrinks ks (s : store) k e :
  deleteAll ks s !! k = Some e → s !! k = Some e ∧ k ∉ ks.
Proof.
  rewrite lookup_deleteAll. by destruct (decide (k ∈ ks)).
Qed.

Lemma collect_inv now lu found s s' old :
  collectOldTokenKeys now lu found s = (s', Some old) →
  s' = s ∧
  ∀ key, key ∈ found →
    (Str.includes (":" +:+ lu +:+ ":") key || Str.includes ":user:" key)%bool = false →
    Str.startsWith (AUTH_TOKEN_PREFIX +:+ "last:") key = false →
    String.eqb key (legacyTokenKey lu) = false →
    scalar (Redis.value now key s) = true ∧
    (mappedLowerOf (Redis.value now key s) = Some lu → key ∈ old).
Proof.
  revert s' old. induction found as [|k found IH]; intros s' old H.
  - simpl in H. apply ret_inv in H as [-> ->]. split; [done|]. by intros key ?%elem_of_nil.
  - cbn [collectOldTokenKeys] in H.
    destruct (_ || _)%bool eqn:E1.
    { destruct (IH _ _ H) as [-> Hrest]. split; [done|].
      intros key [->|Hin]%elem_of_cons; [by rewrite E1|by apply Hrest]. }
    destruct (Str.startsWith _ k) eqn:E2.
    { destruct (IH _ _ H) as [-> Hrest]. split; [done|].
      intros key [->|Hin]%elem_of_cons; [by rewrite E2|by apply Hrest]. }
    destruct (String.eqb k _) eqn:E3.
    { destruct (IH _ _ H) as [-> Hrest]. split; [done|].
      intros key [->|Hin]%elem_of_cons; [by rewrite E3|by apply Hrest]. }
    apply bind_inv in H as (s1 & v & Hget & H).
    pose proof (get_scalar _ _ _ _ _ Hget) as Hsc.
    apply get_inv in Hget as [-> <-].
    apply bind_inv in H as (s2 & more & Hmore & H).
    destruct (IH _ _ Hmore) as [-> Hrest].
    assert (Hold : s' = s ∧ (old = more ∨ old = k :: more) ∧
                   (mappedLowerOf (Redis.value now k s) = Some lu → old = k :: more)).
    { destruct (bool_decide _) eqn:Hd; apply ret_inv in H as [-> ->].
      - by eauto.
      - apply bool_decide_eq_false in Hd. split; [done|]. split; [by left|].
        intros Hm. by destruct Hd. }
    destruct Hold as (-> & Hcases & Hk). split; [done|].
    intros key [->|Hin]%elem_of_cons H1 H2 H3.
    + split; [done|]. intros Hm. rewrite (Hk Hm). apply elem_of_cons. by left.
    + destruct (Hrest key Hin H1 H2 H3) as [Hs Hm]. split; [done|].
      intros Hmk. specialize (Hm Hmk).
      destruct Hcases as [->| ->]; [done|]. apply elem_of_cons. by right.
Qed.

Lemma deleteAllUserTokens_inv now u s s' n :
  deleteAllUserTokens now u s = (s', Some n) →
  let lu := Str.toLowerCase u in
  ∃ dels old,
    let sB := deleteAll dels s in
    filter (fun k => Str.glob (getUserTokenPattern lu) k = true) (Redis.keys now s) ⊆ dels ∧
    collectOldTokenKeys now lu
      (filter (fun k => Str.glob (AUTH_TOKEN_PREFIX +:+ "*") k = true) (Redis.keys now sB)) sB
      = (sB, Some old) ∧
    s' = delete (lastTokenKey lu) (delete (legacyTokenKey lu) (deleteAll old sB)).
Proof.
  intros H. unfold deleteAllUserTokens in H.
  apply bind_inv in H as (s1 & ks & Hscan & H). apply scan_inv in Hscan as [-> ->].
  apply bind_inv in H as (sB & x & Hdel & H).
  destruct (delUserTokenKeys_run now
              (filter (fun k => Str.glob (getUserTokenPattern (Str.toLowerCase u)) k = true)
                 (Redis.keys now s)) s) as (dels & Hrun & Hsub).
  rewrite Hrun in Hdel. injection Hdel as <- _.
  apply bind_inv in H as (s2 & found & Hscan & H). apply scan_inv in Hscan as [-> ->].
  apply bind_inv in H as (s3 & old & Hcol & H).
  pose proof (collect_inv _ _ _ _ _ _ Hcol) as [-> _].
  apply bind_inv in H as (s4 & d & Hdm & H).
  destruct (delMany_run now old (deleteAll dels s)) as [d' Hd']. rewrite Hd' in Hdm.
  injection Hdm as <- _.
  apply bind_inv in H as (s5 & d1 & Hd1 & H).
  destruct (del_run now (legacyTokenKey (Str.toLowerCase u)) (deleteAll old (deleteAll dels s)))
    as [d1' Hd1']. rewrite Hd1' in Hd1. injection Hd1 as <- _.
  apply bind_inv in H as (s6 & d2 & Hd2 & H).
  destruct (del_run now (lastTokenKey (Str.toLowerCase u))
              (delete (legacyTokenKey (Str.toLowerCase u)) (deleteAll old (deleteAll dels s))))
    as [d2' Hd2']. rewrite Hd2' in Hd2. injection Hd2 as <- _.
  apply ret_inv in H as [-> _].
  by exists dels, old.
Qed.

(** A text without colon holds no text that starts with a colon. *)
Lemma includes_noColon x T : noColon T = true → Str.includes (String ":" x) T = false.
Proof.
  unfold noColon. induction T as [|c T IH]; [done|].
  cbn [Str.includes Str.startsWith Str.forallb].
  intros [Hc HT]%andb_true_iff. rewrite (IH HT), orb_false_r.
  rewrite (Ascii.eqb_sym ":" c). apply negb_true_iff in Hc. by rewrite Hc.
Qed.

Lemma startsWith_noColon a x T :
  noColon T = true → Str.startsWith (a +:+ String ":" x) T = false.
Proof.
  unfold noColon. revert T. induction a as [|c a IH]; intros [|d T]; try done.
  - rewrite app_nil_l. cbn [Str.startsWith Str.forallb].
    intros [Hc _]%andb_true_iff. rewrite (Ascii.eqb_sym ":" d).
    apply negb_true_iff in Hc. by rewrite Hc.
  - rewrite app_cons. cbn [Str.startsWith Str.forallb].
    intros [_ HT]%andb_true_iff. by rewrite (IH T HT), andb_false_r.
Qed.

Lemma startsWith_colon a b x y :
  noColon a = true → noColon b = true →
  Str.startsWith (a +:+ String ":" x) (b +:+ String ":" y) = true → a = b.
Proof.
  unfold noColon. revert b. induction a as [|c a IH]; intros [|d b] Ha Hb.
  - done.
  - rewrite app_nil_l, app_cons. cbn [Str.startsWith].
    intros [<-%Ascii.eqb_eq _]%andb_true_iff. by simpl in Hb.
  - rewrite app_nil_l, app_cons. cbn [Str.startsWith].
    intros [->%Ascii.eqb_eq _]%andb_true_iff. by simpl in Ha.
  - rewrite !app_cons. cbn [Str.startsWith].
    intros [->%Ascii.eqb_eq Hs]%andb_true_iff.
    simpl in Ha, Hb. apply andb_true_iff in Ha as [_ Ha]. apply andb_true_iff in Hb as [_ Hb].
    by rewrite (IH b Ha Hb Hs).
Qed.

Lemma includes_flat x T :
  noColon T = true →
  Str.includes (String ":" x) (getTokenKey T)
  = (Str.startsWith x ("token:" +:+ T) || Str.startsWith x T)%bool.
Proof.
  intros HcT. unfold getTokenKey, AUTH_TOKEN_PREFIX.
  change ("chat:token:" +:+ T)
    with (String "c" (String "h" (String "a" (String "t" (String ":" ("token:" +:+ T)))))).
  cbn [Str.includes Str.startsWith Ascii.eqb Bool.eqb andb orb].
  f_equal.
  change ("token:" +:+ T)
    with (String "t" (String "o" (String "k" (String "e" (String "n" (String ":" T)))))).
  cbn [Str.includes Str.startsWith Ascii.eqb Bool.eqb andb orb].
  by rewrite (includes_noColon x T HcT), orb_false_r.
Qed.

Lemma startsWith_prefix p a b : Str.startsWith (p +:+ a) (p +:+ b) = Str.startsWith a b.
Proof.
  induction p as [|c p IH]; [done|].
  rewrite !app_cons. cbn [Str.startsWith]. by rewrite Ascii.eqb_refl, IH.
Qed.

(** The flat mapping of a hexadecimal token is among the keys that
    [deleteAllUserTokens] examines, unless the username is [token]. *)
Lemma flat_examined lu T :
  isHex T = true → noColon lu = true → lu ≠ "token" →
  (Str.includes (":" +:+ lu +:+ ":") (getTokenKey T)
   || Str.includes ":user:" (getTokenKey T))%bool = false ∧
  Str.startsWith (AUTH_TOKEN_PREFIX +:+ "last:") (getTokenKey T) = false.
Proof.
  intros HT Hlu Hne. pose proof (hex_noColon _ HT) as HcT. split.
  - apply orb_false_iff. split.
    + change (":" +:+ lu +:+ ":") with (String ":" (lu +:+ String ":" "")).
      rewrite includes_flat by done.
      rewrite (startsWith_noColon lu "" T HcT), orb_false_r.
      destruct (Str.startsWith _ _) eqn:E; [|done].
      apply (startsWith_colon lu "token" "" T) in E; done.
    + change ":user:" with (String ":" ("user" +:+ String ":" "")).
      rewrite includes_flat by done.
      by rewrite (startsWith_noColon "user" "" T HcT), orb_false_r.
  - unfold getTokenKey. rewrite startsWith_prefix.
    by apply (startsWith_noColon "last" "" T).
Qed.

Lemma glob_tokenKey T : Str.glob (AUTH_TOKEN_PREFIX +:+ "*") (getTokenKey T) = true.
Proof.
  unfold getTokenKey, AUTH_TOKEN_PREFIX.
  apply (glob_prefix "chat:token:"); [done|]. apply glob_star.
Qed.

(** X10. After [handleLogoutAllDevices] has answered 200, no hexadecimal
    token validates for the user any more, at any later instant, in strict
    mode or with expired tokens allowed: the user-scoped keys, the flat
    mappings that name the user, the legacy record and the grace record are
    all gone.  The username is of the accepted format and is not [token],
    the one name for which the examination of the flat mappings skips every
    key. *)
Theorem X10_logout_all_revokes now u s s' n T t b :
  USERNAME_REGEX (Str.toLowerCase u) = true →
  Str.toLowerCase u ≠ "token" →
  handleLogoutAllDevices now u s = (s', Some (Response 200 (BLogout n))) →
  isHex T = true → now ≤ t →
  (validateAuth t u T b s').2 = Some authInvalid.
Proof.
  intros Hu Hnt H HT Ht. set (lu := Str.toLowerCase u) in *.
  pose proof (name_noColon _ Hu) as Hcu.
  assert (Hu0 : String.eqb u "" = false).
  { rewrite <- toLowerCase_eq_empty. by apply USERNAME_REGEX_nonempty. }
  destruct (String.eqb T "") eqn:Htok.
  { unfold validateAuth. by rewrite Hu0, Htok. }
  unfold handleLogoutAllDevices in H.
  apply catch_inv in H as [H|(s1 & _ & H)]; [|by apply ret_inv in H as [_ ?]].
  apply bind_inv in H as (s1 & d & Hdel & H). apply ret_inv in H as [-> _].
  destruct (deleteAllUserTokens_inv _ _ _ _ _ Hdel) as (dels & old & Hsub & Hcol & ->).
  fold lu in Hsub, Hcol |- *. set (sB := deleteAll dels s) in *.
  set (s' := delete (lastTokenKey lu) (delete (legacyTokenKey lu) (deleteAll old sB))).
  (* what is left was there before *)
  assert (Hleft : ∀ k e, s' !! k = Some e →
            s !! k = Some e ∧ sB !! k = Some e ∧ (k ∉ dels) ∧ (k ∉ old) ∧
            k ≠ legacyTokenKey lu ∧ k ≠ lastTokenKey lu).
  { intros k e Hk. unfold s' in Hk.
    apply lookup_delete_Some in Hk as [Hn1 Hk].
    apply lookup_delete_Some in Hk as [Hn2 Hk].
    apply deleteAll_shrinks in Hk as [Hk Ho].
    pose proof Hk as HkB. apply deleteAll_shrinks in Hk as [Hk Hd]. done. }
  assert (K1 : Redis.peek t (getUserTokenKey u T) s' = None).
  { unfold Redis.peek. destruct (s' !! getUserTokenKey u T) as [e|] eqn:E; [|done].
    destruct (Redis.live t e) eqn:Hl; [|done]. exfalso.
    destruct (Hleft _ _ E) as (Hs & _ & Hd & _). apply Hd, Hsub.
    apply elem_of_scan. split.
    - rewrite <- (getUserTokenKey_lower u T). apply glob_userPattern.
      unfold lu. by rewrite toLowerCase_idem.
    - unfold present, Redis.peek. rewrite Hs, (live_mono now t e Ht Hl). eauto. }
  assert (K2 : ∃ v, Redis.value t (getTokenKey T) s' = v ∧ scalar v = true ∧
                    mappedLowerOf v ≠ Some lu).
  { unfold Redis.value, Redis.peek.
    destruct (s' !! getTokenKey T) as [e|] eqn:E; [|by eexists].
    destruct (Redis.live t e) eqn:Hl; [|by eexists].
    destruct (Hleft _ _ E) as (Hs & HB & Hd & Ho & Hleg & _).
    destruct (collect_inv _ _ _ _ _ _ Hcol) as [_ Hex].
    destruct (flat_examined lu T HT Hcu Hnt) as [X1 X2].
    assert (Hval : Redis.value now (getTokenKey T) sB = Some (e_val e)).
    { unfold Redis.value, Redis.peek. by rewrite HB, (live_mono now t e Ht Hl). }
    destruct (Hex (getTokenKey T)) as [Hsc Hm]; [|done|done| |].
    - apply elem_of_scan. split; [apply glob_tokenKey|].
      unfold present, Redis.peek. rewrite HB, (live_mono now t e Ht Hl). eauto.
    - by apply String.eqb_neq.
    - rewrite Hval in Hsc, Hm. exists (Some (e_val e)). split; [done|].
      split; [done|]. intros Hmap. by apply Ho, Hm. }
  assert (K3 : Redis.value t (legacyTokenKey lu) s' = None).
  { unfold Redis.value, Redis.peek, s'.
    rewrite lookup_delete_ne by (apply not_eq_sym, legacy_ne_last).
    by rewrite lookup_delete_eq. }
  assert (K4 : Redis.value t (lastTokenKey lu) s' = None).
  { unfold Redis.value, Redis.peek, s'. by rewrite lookup_delete_eq. }
  destruct K2 as (v & Hv & Hsv & Hmv).
  rewrite (validateAuth_fallthrough t u T b s' v None); try done.
  intros _. fold lu. by rewrite K4.
Qed.

Lemma X10_logout_all_revokes_witness :
  (validateAuth 4000 "alice" sampleToken true
     (handleLogoutAllDevices 3000 "alice" sampleIssuedTwice).1).2 = Some authInvalid.
Proof.
  apply (X10_logout_all_revokes 3000 "alice" sampleIssuedTwice _ 4 sampleToken 4000 true);
    [reflexivity | discriminate
    | apply run_snd; [reflexivity | vm_compute; reflexivity]
    | reflexivity | lia].
Defined.
(* ===================================================================== *)
(** ** Further properties: the rate limit of sensitive actions *)
(* ===================================================================== *)

Lemma incr_num now k n ex s :
  s !! k = Some (Entry (VNum n) ex) → Redis.live now (Entry (VNum n) ex) = true →
  Redis.incr now k s = (<[k := Entry (VNum (n + 1)) ex]> s, Some (n + 1)).
Proof. intros Hk Hl. unfold Redis.incr, Redis.peek. by rewrite Hk, Hl. Qed.

(** The first attempt of a window. *)
Lemma checkRateLimit_first now a i s :
  truthy (Redis.value now (rateLimitKey a i) s) = false →
  scalar (Redis.value now (rateLimitKey a i) s) = true →
  checkRateLimit now a i s
  = (<[rateLimitKey a i := Entry (VNum 1) (Redis.expiry now RATE_LIMIT_WINDOW_SECONDS)]> s,
     Some true).
Proof.
  intros Htr Hsc. unfold checkRateLimit, catch.
  rewrite (bind_run _ _ _ _ _ (get_run _ _ _ _ eq_refl Hsc)).
  by rewrite Htr.
Qed.

(** An attempt inside a window. *)
Lemma checkRateLimit_counted now a i s c ex :
  s !! rateLimitKey a i = Some (Entry (VNum c) ex) →
  Redis.live now (Entry (VNum c) ex) = true → c ≠ 0 →
  checkRateLimit now a i s
  = if RATE_LIMIT_ATTEMPTS <=? c then (s, Some false)
    else (<[rateLimitKey a i := Entry (VNum (c + 1)) ex]> s, Some true).
Proof.
  intros Hk Hl Hc. unfold checkRateLimit, catch.
  assert (Hv : Redis.value now (rateLimitKey a i) s = Some (VNum c)).
  { unfold Redis.value, Redis.peek. by rewrite Hk, Hl. }
  rewrite (bind_run _ _ _ _ _ (get_run _ _ _ _ Hv eq_refl)).
  assert (Htr : truthy (Some (VNum c)) = true).
  { simpl. apply negb_true_iff. by apply Z.eqb_neq. }
  rewrite Htr. simpl. destruct (RATE_LIMIT_ATTEMPTS <=? c); [done|].
  by rewrite (bind_run _ _ _ _ _ (incr_num _ _ _ _ _ Hk Hl)).
Qed.

Lemma checkRateLimit_total now a i s :
  ∃ b, (checkRateLimit now a i s).2 = Some b.
Proof.
  unfold checkRateLimit, catch.
  destruct (bind _ _ s) as [s1 [b|]]; [by exists b|by exists true].
Qed.

Lemma checkRateLimit_untouched now a i k :
  k ≠ rateLimitKey a i → untouched k (checkRateLimit now a i).
Proof.
  intros Hk. unfold checkRateLimit.
  apply untouched_catch; [|apply untouched_ret].
  apply untouched_bind; [apply untouched_get|]. intros current.
  destruct (negb (truthy current)).
  { apply untouched_bind; [by apply untouched_set|]. intros; apply untouched_ret. }
  case_match; [apply untouched_ret|].
  apply untouched_bind; [by apply untouched_incr|]. intros; apply untouched_ret.
Qed.

(** The attempts that follow the first one of a window, all of them before
    the window ends. *)
Lemma rateRun_window a i ts s c e :
  s !! rateLimitKey a i = Some (Entry (VNum c) (Some e)) → 1 ≤ c →
  Forall (fun t => t < e) ts →
  (rateRun a i ts s).1
  = map (fun j => Z.of_nat j + c <? RATE_LIMIT_ATTEMPTS) (seq 0 (length ts)).
Proof.
  revert s c. induction ts as [|t ts IH]; intros s c Hk Hc Hts; [done|].
  apply Forall_cons in Hts as [Ht Hts].
  assert (Hl : Redis.live t (Entry (VNum c) (Some e)) = true) by (by apply Z.ltb_lt).
  cbn [rateRun length seq map].
  rewrite (checkRateLimit_counted t a i s c (Some e) Hk Hl) by lia.
  destruct (RATE_LIMIT_ATTEMPTS <=? c) eqn:E.
  - cbn [fst snd default]. specialize (IH s c Hk Hc Hts).
    destruct (rateRun a i ts s) as [answers s'] eqn:Hrun. cbn [fst] in *.
    f_equal.
    + symmetry. apply Z.ltb_ge. apply Z.leb_le in E. lia.
    + rewrite IH, <- seq_shift, map_map.
      apply map_ext_in. intros j _. apply Z.leb_le in E.
      transitivity false; [|symmetry]; apply Z.ltb_ge; lia.
  - cbn [fst snd default].
    specialize (IH (<[rateLimitKey a i := Entry (VNum (c + 1)) (Some e)]> s) (c + 1)).
    rewrite lookup_insert_eq in IH. specialize (IH eq_refl ltac:(lia) Hts).
    destruct (rateRun a i ts _) as [answers s'] eqn:Hrun. cbn [fst] in *.
    f_equal.
    + symmetry. apply Z.ltb_lt. apply Z.leb_gt in E. lia.
    + rewrite IH, <- seq_shift, map_map.
      apply map_ext_in. intros j _. f_equal. lia.
Qed.

(** X11. [checkRateLimit] never fails and touches no key but its own.  An
    attempt that finds no live counter is allowed and opens a window of 60
    seconds; of the attempts made in that window, whenever they are made,
    exactly the first ten (the opening one included) are allowed; a refused
    attempt leaves the store as it was; the first attempt after the window
    has ended is allowed again. *)
Theorem X11_rate_limit a i :
  (∀ now s, ∃ b, (checkRateLimit now a i s).2 = Some b) ∧
  (∀ now k s, k ≠ rateLimitKey a i → (checkRateLimit now a i s).1 !! k = s !! k) ∧
  (∀ t1 ts s,
     Redis.peek t1 (rateLimitKey a i) s = None →
     Forall (fun t => t < t1 + RATE_LIMIT_WINDOW_SECONDS * 1000) ts →
     (rateRun a i (t1 :: ts) s).1
     = map (fun j => Nat.ltb j 10) (seq 0 (S (length ts)))) ∧
  (∀ now s, (checkRateLimit now a i s).2 = Some false → (checkRateLimit now a i s).1 = s) ∧
  (∀ t1 ts s t,
     Redis.peek t1 (rateLimitKey a i) s = None →
     Forall (fun t => t < t1 + RATE_LIMIT_WINDOW_SECONDS * 1000) ts →
     t1 + RATE_LIMIT_WINDOW_SECONDS * 1000 ≤ t →
     (checkRateLimit t a i (rateRun a i (t1 :: ts) s).2).2 = Some true).
Proof.
  assert (Hfirst : ∀ t1 s, Redis.peek t1 (rateLimitKey a i) s = None →
            checkRateLimit t1 a i s
            = (<[rateLimitKey a i :=
                   Entry (VNum 1) (Redis.expiry t1 RATE_LIMIT_WINDOW_SECONDS)]> s, Some true)).
  { intros t1 s Hp. apply checkRateLimit_first; unfold Redis.value; by rewrite Hp. }
  split; [intros; apply checkRateLimit_total|].
  split; [intros now k s Hk; by apply checkRateLimit_untouched|].
  split; [|split].
  - intros t1 ts s Hp Hts. cbn [rateRun]. rewrite (Hfirst t1 s Hp). cbn [fst snd default].
    pose proof (rateRun_window a i ts
                  (<[rateLimitKey a i :=
                       Entry (VNum 1) (Redis.expiry t1 RATE_LIMIT_WINDOW_SECONDS)]> s)
                  1 (t1 + RATE_LIMIT_WINDOW_SECONDS * 1000)) as Hw.
    rewrite lookup_insert_eq in Hw. specialize (Hw eq_refl ltac:(lia) Hts).
    destruct (rateRun a i ts _) as [answers s'] eqn:Hrun. cbn [fst] in *.
    cbn [length seq map]. f_equal.
    rewrite Hw, <- seq_shift, map_map. apply map_ext_in. intros j _.
    unfold RATE_LIMIT_ATTEMPTS.
    destruct (Nat.ltb_spec (S j) 10); [apply Z.ltb_lt|apply Z.ltb_ge]; lia.
  - intros now s. unfold checkRateLimit, catch.
    destruct (get_cases now (rateLimitKey a i) s) as [E|[v E]].
    { by rewrite (bind_fail _ _ _ _ E). }
    rewrite (bind_run _ _ _ _ _ E).
    destruct (negb (truthy v)); [done|].
    assert (Hincr : (bind (Redis.incr now (rateLimitKey a i)) (fun _ => ret true) s).2
                    ≠ Some false).
    { unfold bind. by destruct (Redis.incr now (rateLimitKey a i) s) as [s1 [n|]]. }
    destruct (v ≫= parseInt) as [count|]; [destruct (RATE_LIMIT_ATTEMPTS <=? count)|];
      try done.
    all: destruct (bind _ _ s) as [s1 [[]|]]; done.
  - intros t1 ts s t Hp Hts Ht.
    assert (Hinv : ∀ ts s c, s !! rateLimitKey a i
                     = Some (Entry (VNum c) (Some (t1 + RATE_LIMIT_WINDOW_SECONDS * 1000))) →
              1 ≤ c →
              Forall (fun t => t < t1 + RATE_LIMIT_WINDOW_SECONDS * 1000) ts →
              ∃ c', (rateRun a i ts s).2 !! rateLimitKey a i
                    = Some (Entry (VNum c') (Some (t1 + RATE_LIMIT_WINDOW_SECONDS * 1000)))).
    { clear. induction ts as [|t ts IH]; intros s c Hk Hc Hts; [by exists c|].
      apply Forall_cons in Hts as [Ht Hts].
      assert (Hl : Redis.live t (Entry (VNum c)
                      (Some (t1 + RATE_LIMIT_WINDOW_SECONDS * 1000))) = true)
        by (by apply Z.ltb_lt).
      cbn [rateRun].
      rewrite (checkRateLimit_counted t a i s c _ Hk Hl) by lia.
      destruct (RATE_LIMIT_ATTEMPTS <=? c); cbn [fst snd].
      - destruct (IH s c Hk Hc Hts) as [c' Hc'].
        destruct (rateRun a i ts s) as [answers s']. by exists c'.
      - destruct (IH (<[rateLimitKey a i := Entry (VNum (c + 1))
                          (Some (t1 + RATE_LIMIT_WINDOW_SECONDS * 1000))]> s) (c + 1))
          as [c' Hc']; [by rewrite lookup_insert_eq|lia|done|].
        destruct (rateRun a i ts _) as [answers s']. by exists c'. }
    cbn [rateRun]. rewrite (Hfirst t1 s Hp). cbn [fst snd].
    destruct (Hinv ts (<[rateLimitKey a i :=
                          Entry (VNum 1) (Redis.expiry t1 RATE_LIMIT_WINDOW_SECONDS)]> s) 1)
      as [c' Hc']; [by rewrite lookup_insert_eq|lia|done|].
    destruct (rateRun a i ts _) as [answers s']. cbn [snd] in *.
    rewrite checkRateLimit_first; [done| |].
    + unfold Redis.value, Redis.peek. rewrite Hc'. unfold Redis.live. simpl.
      by rewrite (proj2 (Z.ltb_ge _ _) Ht).
    + unfold Redis.value, Redis.peek. rewrite Hc'. unfold Redis.live. simpl.
      by rewrite (proj2 (Z.ltb_ge _ _) Ht).
Qed.

Lemma X11_rate_limit_witness :
  (rateRun "generateToken" "alice" [1000; 1000; 2000; 2000; 3000; 4000; 5000; 6000;
                                    7000; 8000; 9000; 60999] ∅).1
  = [true; true; true; true; true; true; true; true; true; true; false; false].
Proof.
  apply (proj1 (proj2 (proj2 (X11_rate_limit "generateToken" "alice")))
           1000 [1000; 2000; 2000; 3000; 4000; 5000; 6000; 7000; 8000; 9000; 60999] ∅).
  - reflexivity.
  - unfold RATE_LIMIT_WINDOW_SECONDS. repeat constructor.
Defined.
(* ===================================================================== *)
(** ** Further properties: presence and rooms *)
(* ===================================================================== *)

Lemma keys_NoDup now (s : store) : NoDup (Redis.keys now s).
Proof. unfold Redis.keys. apply NoDup_filter, NoDup_fst_map_to_list. Qed.

(** The number of keys a scan finds depends on the keys of the pattern
    only. *)
Lemma scan_length_ext now p (s s' : store) :
  (∀ k, Str.glob p k = true → s' !! k = s !! k) →
  length (filter (fun k => Str.glob p k = true) (Redis.keys now s'))
  = length (filter (fun k => Str.glob p k = true) (Redis.keys now s)).
Proof.
  intros Hext. apply Permutation_length, NoDup_Permutation.
  - apply NoDup_filter, keys_NoDup.
  - apply NoDup_filter, keys_NoDup.
  - intros k. rewrite !elem_of_scan. unfold present, Redis.peek.
    split; intros [Hg Hp]; (split; [done|]); by rewrite ?Hext in * by done.
Qed.

Lemma getActiveUsersInRoom_run now r s :
  getActiveUsersInRoom now r s = (s, Some (activeIn now r s)).
Proof. reflexivity. Qed.

Lemma getActiveUsersAndPrune_inv now r s s' l :
  getActiveUsersAndPrune now r s = (s', Some l) → l = activeIn now r s.
Proof.
  unfold getActiveUsersAndPrune. rewrite (bind_run _ _ _ _ _ (getActiveUsersInRoom_run _ _ _)).
  intros (s1 & old & _ & H)%bind_inv.
  destruct old; [by apply ret_inv in H as [_ ->]|].
  apply bind_inv in H as (s2 & d & _ & H). by apply ret_inv in H as [_ ->].
Qed.

Lemma refreshRoomUserCount_count now r s s' n :
  refreshRoomUserCount now r s = (s', Some n) →
  n = Z.of_nat (length (presentIn now r s)).
Proof.
  unfold refreshRoomUserCount. intros (s1 & l & Hl & H)%bind_inv.
  apply getActiveUsersAndPrune_inv in Hl as ->.
  unfold activeIn in H. rewrite length_fmap in H.
  apply bind_inv in H as (s2 & raw & _ & H).
  assert (Hset : ∀ v, (Redis.set now (roomKey r) v None ;;
                       ret (Z.of_nat (length (presentIn now r s)))) s2 = (s', Some n) →
                      n = Z.of_nat (length (presentIn now r s))).
  { intros v (s3 & ? & _ & Hr)%bind_inv. by apply ret_inv in Hr as [_ ->]. }
  destruct raw as [[]|]; simpl in H;
    try (by apply ret_inv in H as [_ ->]); try (by eapply Hset).
  all: case_match; [by eapply Hset|by apply ret_inv in H as [_ ->]].
Qed.

Lemma presence_key_shape r k :
  ROOM_ID_REGEX r = true → Str.glob (presencePattern r) k = true →
  ∃ x, k = CHAT_ROOM_PRESENCE_PREFIX +:+ x.
Proof.
  intros _ Hg. unfold presencePattern in Hg.
  apply (glob_literal CHAT_ROOM_PRESENCE_PREFIX) in Hg as (k' & -> & _); [|done].
  by exists k'.
Qed.

Lemma presence_ne_room x r : CHAT_ROOM_PRESENCE_PREFIX +:+ x ≠ roomKey r.
Proof. unfold roomKey, CHAT_ROOM_PREFIX, CHAT_ROOM_PRESENCE_PREFIX. discriminate. Qed.

Lemma presence_ne_roomUsers x r : CHAT_ROOM_PRESENCE_PREFIX +:+ x ≠ roomUsersKey r.
Proof.
  unfold roomUsersKey, CHAT_ROOM_USERS_PREFIX, CHAT_ROOM_PRESENCE_PREFIX. discriminate.
Qed.

Lemma presence_ne_user x u : CHAT_ROOM_PRESENCE_PREFIX +:+ x ≠ userKey u.
Proof. unfold userKey, CHAT_USERS_PREFIX, CHAT_ROOM_PRESENCE_PREFIX. discriminate. Qed.

Lemma presence_ne_messages x r : CHAT_ROOM_PRESENCE_PREFIX +:+ x ≠ messagesKey r.
Proof.
  unfold messagesKey, CHAT_MESSAGES_PREFIX, CHAT_ROOM_PRESENCE_PREFIX. discriminate.
Qed.

Lemma user_ne_roomUsers u x : userKey u ≠ roomUsersKey x.
Proof. unfold userKey, roomUsersKey, CHAT_USERS_PREFIX, CHAT_ROOM_USERS_PREFIX. discriminate. Qed.

Lemma user_ne_room u r : userKey u ≠ roomKey r.
Proof. unfold userKey, roomKey, CHAT_USERS_PREFIX, CHAT_ROOM_PREFIX. discriminate. Qed.

Lemma lastSegment_presenceKey r u :
  noColon u = true → Str.lastSegment (presenceKey r u) = u.
Proof.
  intros Hu. unfold presenceKey.
  etrans; [|apply (lastSegment_app (CHAT_ROOM_PRESENCE_PREFIX +:+ r) u Hu)].
  by rewrite !app_assoc_str.
Qed.

(** The user is among the active users of the room when the presence key is
    live. *)
Lemma active_present t r u s :
  ROOM_ID_REGEX r = true → noColon u = true →
  present t (presenceKey r u) s → u ∈ activeIn t r s.
Proof.
  intros Hr Hu Hp. unfold activeIn. apply list_elem_of_fmap.
  exists (presenceKey r u). split; [by rewrite lastSegment_presenceKey|].
  apply elem_of_scan. split; [by apply glob_presence|done].
Qed.

(** X12. [handleJoinRoom] writes nothing when it answers 400 or 404.  When
    it answers 200 the room and the user exist, the presence key of the user
    in the room is set for 24 hours, so [getActiveUsersInRoom] names the user
    until then, and the room record carries as [userCount] the number of live
    presence keys of the room, that of the user included. *)
Theorem X12_join_room now r u s s' resp :
  handleJoinRoom now r u s = (s', Some resp) →
  let lu := Str.toLowerCase u in
  (status resp = 400 ∨ status resp = 404 → s' = s) ∧
  (status resp = 200 →
   USERNAME_REGEX lu = true ∧ ROOM_ID_REGEX r = true ∧
   (∃ v, Redis.value now (roomKey r) s = Some v ∧
         s' !! roomKey r
         = Some (Entry (withUserCount (spread v)
                          (Z.of_nat (length (presentIn now r s')))) None)) ∧
   truthy (Redis.value now (userKey lu) s) = true ∧
   s' !! presenceKey r lu
   = Some (Entry (VNum now) (Some (now + ROOM_PRESENCE_TTL_SECONDS * 1000))) ∧
   ∀ t, t < now + ROOM_PRESENCE_TTL_SECONDS * 1000 →
        getActiveUsersInRoom t r s' = (s', Some (activeIn t r s')) ∧
        lu ∈ activeIn t r s').
Proof.
  intros H lu. unfold handleJoinRoom in H. fold lu in H.
  destruct (_ || _)%bool; [apply ret_inv in H as [-> ->]; by split|].
  destruct (USERNAME_REGEX lu) eqn:Hu; [|apply ret_inv in H as [-> ->]; by split].
  destruct (ROOM_ID_REGEX r) eqn:Hr; [|apply ret_inv in H as [-> ->]; by split].
  simpl in H.
  apply catch_inv in H as [H|(s1 & _ & H)];
    [|apply ret_inv in H as [-> ->]; split; [by intros [|]|done]].
  apply bind_inv in H as (s0 & roomData & Hroom & H). apply get_inv in Hroom as [-> Hroom].
  apply bind_inv in H as (s0 & userData & Huser & H). apply get_inv in Huser as [-> Huser].
  destruct (truthy roomData) eqn:Htr; [|apply ret_inv in H as [-> ->]; by split].
  destruct (truthy userData) eqn:Htu; [|apply ret_inv in H as [-> ->]; by split].
  simpl in H.
  apply bind_inv in H as (s1 & y1 & Hset & H).
  unfold setRoomPresence, Redis.set in Hset. injection Hset as <- _.
  apply bind_inv in H as (s3 & n & Hcount & H).
  apply bind_inv in H as (s4 & y2 & Hset & H).
  unfold Redis.set in Hset. injection Hset as <- _.
  apply bind_inv in H as (s5 & y3 & Hset & H).
  unfold Redis.set in Hset. injection Hset as <- _.
  apply bind_inv in H as (s6 & y4 & Hb & H). apply ret_inv in H as [-> ->].
  split; [by intros [|]|]. intros _.
  pose proof (name_noColon _ Hu) as Hcu.
  set (s1 := <[presenceKey r lu := Entry (VNum now) (Redis.expiry now ROOM_PRESENCE_TTL_SECONDS)]> s) in *.
  (* the presence keys are those written by setRoomPresence *)
  assert (Hpres : ∀ x, s6 !! (CHAT_ROOM_PRESENCE_PREFIX +:+ x) = s1 !! (CHAT_ROOM_PRESENCE_PREFIX +:+ x)).
  { intros x. apply run_fst in Hb. rewrite Hb.
    unfold broadcastRoomsUpdated.
    rewrite untouched_broadcast by (intros y; apply presence_ne_roomUsers).
    rewrite lookup_insert_ne by apply not_eq_sym, presence_ne_user.
    rewrite lookup_insert_ne by apply not_eq_sym, presence_ne_room.
    apply run_fst in Hcount. rewrite Hcount.
    apply untouched_refreshRoomUserCount;
      [apply presence_ne_roomUsers|apply presence_ne_room]. }
  assert (Hmy : s6 !! presenceKey r lu
                = Some (Entry (VNum now) (Some (now + ROOM_PRESENCE_TTL_SECONDS * 1000)))).
  { unfold presenceKey. rewrite Hpres. fold (presenceKey r lu). unfold s1.
    by rewrite lookup_insert_eq. }
  destruct roomData as [v|]; [|done].
  split; [done|]. split; [done|]. split; [|split; [by rewrite Huser|split; [done|]]].
  - exists v. split; [done|].
    apply refreshRoomUserCount_count in Hcount as ->.
    assert (Hlen : length (presentIn now r s6) = length (presentIn now r s1)).
    { apply scan_length_ext. intros k Hk.
      destruct (presence_key_shape r k Hr Hk) as [x ->]. apply Hpres. }
    rewrite Hlen. apply run_fst in Hb. rewrite Hb. unfold broadcastRoomsUpdated.
    rewrite untouched_broadcast by (intros y; by apply room_ne_roomUsers).
    rewrite lookup_insert_ne by apply user_ne_room.
    by rewrite lookup_insert_eq.
  - intros t Ht. split; [apply getActiveUsersInRoom_run|].
    apply active_present; [done..|].
    unfold present, Redis.peek. rewrite Hmy. unfold Redis.live. simpl.
    rewrite (proj2 (Z.ltb_lt _ _) Ht). eauto.
Qed.

Lemma X12_join_room_witness :
  "bob" ∈ activeIn 6000 "general" (handleJoinRoom 5000 "general" "Bob" sampleChat).1.
Proof.
  pose proof (X12_join_room 5000 "general" "Bob" sampleChat
                (handleJoinRoom 5000 "general" "Bob" sampleChat).1
                (Response 200 BSuccess)) as X.
  destruct X as [_ X].
  - apply run_snd; [reflexivity | vm_compute; reflexivity].
  - destruct (X eq_refl) as (_ & _ & _ & _ & _ & Hact).
    apply (Hact 6000). unfold ROOM_PRESENCE_TTL_SECONDS. lia.
Defined.

(** *** Who may delete *)

Lemma token_ne_room x r : AUTH_TOKEN_PREFIX +:+ x ≠ roomKey r.
Proof. unfold roomKey, CHAT_ROOM_PREFIX, AUTH_TOKEN_PREFIX. discriminate. Qed.

Lemma token_ne_messages x r : AUTH_TOKEN_PREFIX +:+ x ≠ messagesKey r.
Proof. unfold messagesKey, CHAT_MESSAGES_PREFIX, AUTH_TOKEN_PREFIX. discriminate. Qed.

(** [validateAuth] writes token keys only. *)
Lemma untouched_validateAuth now u tok b k :
  (∀ x, k ≠ AUTH_TOKEN_PREFIX +:+ x) → untouched k (validateAuth now u tok b).
Proof.
  intros Hk. unfold validateAuth. case_match; [apply untouched_ret|].
  assert (Hkey : ∀ x, AUTH_TOKEN_PREFIX +:+ x ≠ k) by (intros x; apply not_eq_sym, Hk).
  apply untouched_bind; [apply untouched_exists|]. intros [].
  { apply untouched_bind; [apply untouched_expire, Hkey|]. intros _.
    apply untouched_bind; [apply untouched_expire, Hkey|]. intros _. apply untouched_ret. }
  apply untouched_bind.
  { unfold getUsernameForToken. case_match; [apply untouched_ret|apply untouched_get]. }
  intros mapped. case_match.
  { apply untouched_bind; [apply untouched_expire, Hkey|]. intros _.
    apply untouched_bind; [apply untouched_set, Hkey|]. intros _. apply untouched_ret. }
  apply untouched_bind; [apply untouched_get|]. intros stored. case_match.
  { apply untouched_bind; [apply untouched_expire, Hkey|]. intros _.
    apply untouched_bind; [apply untouched_set, Hkey|]. intros _. apply untouched_ret. }
  case_match; [|apply untouched_ret].
  apply untouched_bind; [apply untouched_get|]. intros lastData.
  repeat case_match; apply untouched_ret.
Qed.

Lemma untouched_purgeRoom now roomId k :
  k ≠ roomKey roomId → k ≠ messagesKey roomId → k ≠ roomUsersKey roomId →
  (∀ x, k ≠ CHAT_ROOM_PRESENCE_PREFIX +:+ x) →
  untouched k (purgeRoom now roomId).
Proof.
  intros H1 H2 H3 H4 s. unfold purgeRoom.
  rewrite (bind_run _ _ _ _ _ eq_refl).
  destruct (del_run now (roomKey roomId) s) as [n1 E1]. rewrite (bind_run _ _ _ _ _ E1).
  destruct (del_run now (messagesKey roomId) (delete (roomKey roomId) s)) as [n2 E2].
  rewrite (bind_run _ _ _ _ _ E2).
  destruct (del_run now (roomUsersKey roomId)
              (delete (messagesKey roomId) (delete (roomKey roomId) s))) as [n3 E3].
  rewrite (bind_run _ _ _ _ _ E3).
  match goal with |- context [bind (Redis.delMany now ?ks) _ ?st] =>
    destruct (delMany_run now ks st) as [n4 E4] end.
  rewrite (bind_run _ _ _ _ _ E4). cbn [fst ret].
  rewrite lookup_deleteAll, decide_False.
  - by rewrite !lookup_delete_ne by (by apply not_eq_sym).
  - intros [Hg _]%elem_of_scan. unfold presencePattern in Hg.
    apply (glob_literal CHAT_ROOM_PRESENCE_PREFIX) in Hg as (k' & -> & _); [|done].
    by apply (H4 k').
Qed.

Lemma untouched_handleDeleteRoom now roomId u k :
  k ≠ roomKey roomId → k ≠ messagesKey roomId → (∀ x, k ≠ roomUsersKey x) →
  (∀ x, k ≠ CHAT_ROOM_PRESENCE_PREFIX +:+ x) →
  untouched k (handleDeleteRoom now roomId u).
Proof.
  intros H1 H2 H3 H4. unfold handleDeleteRoom.
  assert (Hp : untouched k (purgeRoom now roomId)) by (by apply untouched_purgeRoom).
  assert (Hb : untouched k (broadcastRoomsUpdated now)) by (by apply untouched_broadcast).
  apply untouched_catch; [|apply untouched_ret].
  apply untouched_bind; [apply untouched_get|]. intros raw.
  case_match; [apply untouched_ret|].
  destruct raw as [[]|]; try apply untouched_throw.
  all: case_match;
    [ case_match; [|apply untouched_ret];
      case_match; [apply untouched_ret|];
      apply untouched_bind;
        [ case_match; [done|];
          apply untouched_bind; [by apply untouched_set, not_eq_sym|]; intros _;
          apply untouched_bind; [|intros; apply untouched_ret];
          apply untouched_del; unfold presenceKey; apply not_eq_sym, H4
        | intros _; apply untouched_bind; [done|intros; apply untouched_ret] ]
    | case_match; [apply untouched_ret|];
      apply untouched_bind; [done|]; intros _;
      apply untouched_bind; [done|intros; apply untouched_ret] ].
Qed.

(** [handleDeleteRoom] refuses, and writes nothing, when the user is neither
    the administrator nor a member of the private room. *)
Lemma handleDeleteRoom_refused now r u s :
  Str.toLowerCase u ≠ "ryo" →
  memberOfPrivate now r (Str.toLowerCase u) s = false →
  (handleDeleteRoom now r u s).1 = s.
Proof.
  intros Hryo Hmem. unfold handleDeleteRoom, catch, memberOfPrivate in *.
  destruct (get_cases now (roomKey r) s) as [E|[v E]].
  { by rewrite (bind_fail _ _ _ _ E). }
  rewrite (bind_run _ _ _ _ _ E). apply get_inv in E as [_ E]. rewrite E in Hmem.
  destruct (truthy v); [|done]. simpl.
  destruct v as [v|]; [|done].
  assert (Hne : negb (String.eqb (Str.toLowerCase u) "ryo") = true).
  { apply negb_true_iff. by apply String.eqb_neq. }
  destruct v; try done; simpl in *; try (by rewrite Hne).
  destruct (match r_type r0 with Some t => String.eqb t "private" | None => false end);
    [|by rewrite Hne].
  simpl in Hmem. destruct (r_members r0) as [ms|]; [|done].
  by rewrite Hmem.
Qed.

(** X13. A [DELETE] request of a user who is not the administrator [ryo]
    changes neither the record nor the message log of any room in which the
    user is not a member of a private room, whatever its action, its
    parameters and its outcome. *)
Theorem X13_delete_needs_authority now req messageId s r u tok :
  extractAuth req = (u, tok) →
  Str.toLowerCase u ≠ "ryo" →
  ROOM_ID_REGEX r = true →
  memberOfPrivate now r (Str.toLowerCase u) s = false →
  (DELETE now req messageId s).1 !! roomKey r = s !! roomKey r ∧
  (DELETE now req messageId s).1 !! messagesKey r = s !! messagesKey r.
Proof.
  intros Hauth Hryo Hr Hmem.
  assert (Hne : negb (String.eqb (Str.toLowerCase u) "ryo") = true).
  { apply negb_true_iff. by apply String.eqb_neq. }
  assert (Hkeys : ∀ k, k = roomKey r ∨ k = messagesKey r →
            (DELETE now req messageId s).1 !! k = s !! k).
  { intros k Hk. unfold DELETE. rewrite Hauth.
    assert (Hva : untouched k (validateAuth now u tok false)).
    { apply untouched_validateAuth. intros x.
      destruct Hk as [-> | ->]; apply not_eq_sym;
        [apply token_ne_room|apply token_ne_messages]. }
    unfold catch, bind at 1.
    pose proof (Hva s) as Hs1.
    destruct (validateAuth now u tok false s) as [s1 [isValid|]] eqn:Hval; [|done].
    cbn [fst] in Hs1.
    assert (Hdone : ∀ (m : M response), (m s1).1 !! k = s1 !! k →
              (match m s1 with (s', None) => ret (createErrorResponse "Internal server error" 500) s'
                             | x => x end).1 !! k = s !! k).
    { intros m Hm. rewrite <- Hs1, <- Hm. by destruct (m s1) as [s2 [x|]]. }
    destruct (negb (valid isValid)); [by apply Hdone|].
    destruct (bool_decide (q_action req = Some "deleteRoom")).
    { destruct (String.eqb (default "" (q_roomId req)) "") eqn:Hid; [by apply Hdone|].
      apply Hdone.
      destruct (decide (default "" (q_roomId req) = r)) as [->|Hdiff].
      - rewrite handleDeleteRoom_refused; [done..|].
        unfold memberOfPrivate, Redis.value, Redis.peek in *.
        assert (Hroom : s1 !! roomKey r = s !! roomKey r).
        { assert (Hu : untouched (roomKey r) (validateAuth now u tok false)).
          { apply untouched_validateAuth. intros x. apply not_eq_sym, token_ne_room. }
          specialize (Hu s). by rewrite Hval in Hu. }
        by rewrite Hroom.
      - apply untouched_handleDeleteRoom.
        + destruct Hk as [-> | ->]; [|apply not_eq_sym; key_neq].
          unfold roomKey. intros E. by apply (inj (String.app _)) in E.
        + destruct Hk as [-> | ->]; [key_neq|].
          unfold messagesKey. intros E. by apply (inj (String.app _)) in E.
        + intros x. destruct Hk as [-> | ->]; [by apply room_ne_roomUsers|].
          apply not_eq_sym. key_neq.
        + intros x. destruct Hk as [-> | ->]; apply not_eq_sym;
            [apply presence_ne_room|apply presence_ne_messages]. }
    destruct (bool_decide (q_action req = Some "deleteMessage")); [|by apply Hdone].
    destruct (_ || _)%bool; [by apply Hdone|].
    apply Hdone. unfold handleDeleteMessage.
    destruct (_ || _)%bool; [done|]. by rewrite Hne. }
  split; apply Hkeys; auto.
Qed.

Lemma X13_delete_needs_authority_witness :
  (DELETE 5000
     (Request (Some "deleteRoom") (Some "general")
        (Some ("Bearer " +:+ sampleToken)) (Some "alice"))
     None
     (performAllTokens sampleChat)).1 !! roomKey "general"
  = performAllTokens sampleChat !! roomKey "general".
Proof.
  refine (proj1 (X13_delete_needs_authority 5000
                   (Request (Some "deleteRoom") (Some "general")
                      (Some ("Bearer " +:+ sampleToken)) (Some "alice"))
                   None (performAllTokens sampleChat)
                   "general" "alice" sampleToken _ _ _ _)).
  - reflexivity.
  - discriminate.
  - reflexivity.
  - vm_compute. reflexivity.
Defined.

(** *** The routers refuse what is not authenticated *)

(** X14. A [DELETE] request, whatever its action, and a [GET] request for an
    action that is not public, is answered 401 when [validateAuth] rejects
    the headers of the request (a missing header included), and 500 when the
    validation fails on a read; no handler runs and the store is left as it
    was. *)
Theorem X14_unauthenticated_refused now req s u tok :
  extractAuth req = (u, tok) →
  ((validateAuth now u tok false s).2 = Some authInvalid →
   (∀ messageId,
      DELETE now req messageId s = (s, Some (createErrorResponse "Unauthorized" 401))) ∧
   (q_action req ∉ Some <$> publicActions →
    GET now req s = (s, Some (Some (createErrorResponse "Unauthorized" 401))))) ∧
  ((validateAuth now u tok false s).2 = None →
   (∀ messageId,
      DELETE now req messageId s
      = (s, Some (createErrorResponse "Internal server error" 500))) ∧
   (q_action req ∉ Some <$> publicActions →
    GET now req s = (s, Some (Some (createErrorResponse "Internal server error" 500))))).
Proof.
  intros Hauth.
  assert (Hq : ∀ r, (validateAuth now u tok false s).2 = r → r ≠ Some authValid →
             validateAuth now u tok false s = (s, r)).
  { intros r Hr Hne. pose proof (validateAuth_quiet now u tok false s) as Hs.
    destruct (validateAuth now u tok false s) as [s1 r1]. simpl in *. subst r1.
    by rewrite Hs. }
  split; intros Hres; (split; [intros messageId|intros Hpub]).
  - unfold DELETE, catch. rewrite Hauth.
    by rewrite (bind_run _ _ _ _ _ (Hq _ Hres ltac:(done))).
  - unfold GET, catch. rewrite bool_decide_eq_false_2 by done. rewrite Hauth.
    rewrite (bind_run _ _ _ _ _
               (bind_run _ _ _ _ _ (Hq _ Hres ltac:(done)))).
    done.
  - unfold DELETE, catch. rewrite Hauth.
    by rewrite (bind_fail _ _ _ _ (Hq _ Hres ltac:(done))).
  - unfold GET, catch. rewrite bool_decide_eq_false_2 by done. rewrite Hauth.
    by rewrite (bind_fail _ _ _ _ (bind_fail _ _ _ _ (Hq _ Hres ltac:(done)))).
Qed.

Lemma X14_unauthenticated_refused_witness :
  DELETE 5000 (Request (Some "deleteRoom") (Some "general") None (Some "ryo")) None sampleChat
  = (sampleChat, Some (createErrorResponse "Unauthorized" 401)).
Proof.
  refine (proj1 (proj1 (X14_unauthenticated_refused 5000
                          (Request (Some "deleteRoom") (Some "general") None (Some "ryo"))
                          sampleChat "" "" _) _) None); reflexivity.
Defined.

(** *** Creating a room *)

Lemma setPresences_keep now r ms m s :
  m ∉ ms → (setPresences now r ms s).1 !! presenceKey r m = s !! presenceKey r m.
Proof.
  revert s. induction ms as [|y ms IH]; intros s Hn; [done|]. simpl.
  rewrite (bind_run _ _ _ _ _ eq_refl), IH.
  - rewrite lookup_insert_ne; [done|].
    intros E. apply presenceKey_inj in E. apply Hn, elem_of_cons. by left.
  - intros ?. apply Hn, elem_of_cons. by right.
Qed.

Lemma setPresences_run now r ms s :
  ∃ s2, setPresences now r ms s = (s2, Some tt) ∧
        (∀ m, m ∈ ms →
              s2 !! presenceKey r m
              = Some (Entry (VNum now) (Redis.expiry now ROOM_PRESENCE_TTL_SECONDS))) ∧
        (∀ k, (∀ x, k ≠ CHAT_ROOM_PRESENCE_PREFIX +:+ x) → s2 !! k = s !! k).
Proof.
  revert s. induction ms as [|m ms IH]; intros s; simpl.
  - exists s. split; [done|]. split; [by intros ? ?%elem_of_nil|done].
  - rewrite (bind_run _ _ _ _ _ eq_refl).
    destruct (IH (<[presenceKey r m :=
                      Entry (VNum now) (Redis.expiry now ROOM_PRESENCE_TTL_SECONDS)]> s))
      as (s2 & Hrun & Hin & Hout).
    exists s2. split; [done|]. split.
    + intros m' [->|Hm']%elem_of_cons; [|by apply Hin].
      destruct (decide (m ∈ ms)) as [Hm|Hm]; [by apply Hin|].
      pose proof (setPresences_keep now r ms m
                    (<[presenceKey r m :=
                         Entry (VNum now) (Redis.expiry now ROOM_PRESENCE_TTL_SECONDS)]> s)
                    Hm) as Hkeep.
      rewrite Hrun in Hkeep. cbn [fst] in Hkeep.
      by rewrite Hkeep, lookup_insert_eq.
    + intros k Hk. rewrite Hout by done. rewrite lookup_insert_ne; [done|].
      unfold presenceKey. apply not_eq_sym, Hk.
Qed.

Lemma hex_room_ne_roomUsers id x : isHex id = true → roomKey id ≠ roomUsersKey x.
Proof.
  intros Hid. unfold roomKey, roomUsersKey, CHAT_ROOM_PREFIX, CHAT_ROOM_USERS_PREFIX.
  intros E. apply (inj (String.app "chat:room:") id ("users:" +:+ x)) in E.
  rewrite E in Hid. by cbv in Hid.
Qed.

Lemma toLowerCase_members members u m :
  m ∈ normalizeMembers members (Str.toLowerCase u) → Str.toLowerCase m = m.
Proof.
  unfold normalizeMembers. intros Hm.
  assert (Hmap : ∀ x, x ∈ map Str.toLowerCase members → Str.toLowerCase x = x).
  { intros x (y & -> & _)%list_elem_of_fmap. apply toLowerCase_idem. }
  destruct (bool_decide _); [by apply Hmap|].
  apply elem_of_app in Hm as [Hm|Hm]; [by apply Hmap|].
  apply list_elem_of_singleton in Hm as ->. apply toLowerCase_idem.
Qed.

Section CreateRoomProved.
Context `{ProfanityFilter}.

(** X22. [handleCreateRoom] writes nothing unless it answers 201 (or fails
    with 500).  The room of a 201 answer is stored under the id drawn, with
    the instant of the request.  A public room was asked for by the
    administrator [ryo], its name is not profane and is stored in lower case
    with dashes for spaces, and it starts with no user.  A private room
    lists its members in lower case, the creator among them, counts them as
    its users, and every member is present in it for 24 hours. *)
Theorem X22_create_room now rnd name type members u s s' resp :
  handleCreateRoom now rnd name type members u s = (s', Some resp) →
  (status resp = 400 ∨ status resp = 403 → s' = s) ∧
  (status resp = 201 →
   ∃ room,
     payload resp = BRoom (VRoom room) (r_userCount room) ∧
     r_id room = generateId rnd ∧ r_createdAt room = now ∧
     s' !! roomKey (generateId rnd) = Some (Entry (VRoom room) None) ∧
     (r_type room = Some "public" ∨ r_type room = Some "private") ∧
     (r_type room = Some "public" →
      Str.toLowerCase u = "ryo" ∧ isProfane (default "" name) = false ∧
      r_name room = dashSpaces (Str.toLowerCase (default "" name)) ∧
      r_userCount room = 0 ∧ r_members room = None) ∧
     (r_type room = Some "private" →
      ∃ ms, r_members room = Some ms ∧ default [] members ≠ [] ∧
            ms = normalizeMembers (default [] members) (Str.toLowerCase u) ∧
            Str.toLowerCase u ∈ ms ∧ (∀ m, m ∈ ms → Str.toLowerCase m = m) ∧
            r_userCount room = Z.of_nat (length ms) ∧
            ∀ m t, m ∈ ms → t < now + ROOM_PRESENCE_TTL_SECONDS * 1000 →
                   present t (presenceKey (generateId rnd) m) s')).
Proof.
  intros Hrun. unfold handleCreateRoom in Hrun.
  set (ty := default "public" type) in *. set (mem := default [] members) in *.
  set (lu := Str.toLowerCase u) in *.
  destruct (negb (String.eqb ty "public" || String.eqb ty "private")) eqn:Hty;
    [apply ret_inv in Hrun as [-> ->]; by split|].
  destruct (String.eqb ty "public" && String.eqb (default "" name) "")%bool eqn:Hn;
    [apply ret_inv in Hrun as [-> ->]; by split|].
  destruct (String.eqb ty "public" && negb (String.eqb lu "ryo"))%bool eqn:Hadmin;
    [apply ret_inv in Hrun as [-> ->]; by split|].
  destruct (String.eqb ty "public" && isProfane (default "" name))%bool eqn:Hprof;
    [apply ret_inv in Hrun as [-> ->]; by split|].
  destruct (String.eqb ty "private" && bool_decide (mem = []))%bool eqn:Hmem;
    [apply ret_inv in Hrun as [-> ->]; by split|].
  apply catch_inv in Hrun as [Hrun|(s1 & _ & Hrun)];
    [|apply ret_inv in Hrun as [-> ->]; split; [by intros [|]|done]].
  apply bind_inv in Hrun as (s1 & y1 & Hset & Hrun).
  unfold Redis.set in Hset. injection Hset as <- _.
  apply bind_inv in Hrun as (s2 & y2 & Hpres & Hrun).
  apply bind_inv in Hrun as (s3 & y3 & Hb & Hrun).
  apply ret_inv in Hrun as [-> ->]. split; [by intros [|]|]. intros _.
  apply run_fst in Hb. unfold broadcastRoomsUpdated in Hb.
  assert (Hid : isHex (generateId rnd) = true) by apply toHex_isHex.
  eexists. split; [reflexivity|]. split; [done|]. split; [done|].
  apply negb_false_iff, orb_true_iff in Hty.
  destruct (String.eqb ty "private") eqn:Hpriv.
  - (* a private room *)
    apply String.eqb_eq in Hpriv. rewrite Hpriv in *. simpl in *.
    destruct (setPresences_run now (generateId rnd) (normalizeMembers mem lu)
                (<[roomKey (generateId rnd) :=
                     Entry (VRoom (Room (generateId rnd)
                                     (join ", " (map (fun m => "@" +:+ m)
                                                   (sortStrings (normalizeMembers mem lu))))
                                     (Some "private") now
                                     (Z.of_nat (length (normalizeMembers mem lu)))
                                     (Some (normalizeMembers mem lu)))) None]> s))
      as (s2' & Hrun2 & Hin & Hout).
    rewrite Hrun2 in Hpres. injection Hpres as <- _.
    split.
    { rewrite Hb, untouched_broadcast by (intros x; by apply hex_room_ne_roomUsers).
      rewrite Hout by (intros x; apply not_eq_sym, presence_ne_room).
      by rewrite lookup_insert_eq. }
    split; [by right|]. split; [done|]. intros _.
    eexists. split; [reflexivity|].
    split. { intros E. rewrite E in Hmem. done. }
    split; [done|]. split.
    { unfold normalizeMembers.
      destruct (bool_decide (lu ∈ map Str.toLowerCase mem)) eqn:E.
      - by apply bool_decide_eq_true in E.
      - apply elem_of_app. right. by apply list_elem_of_singleton. }
    split; [intros m Hm; by eapply toLowerCase_members|]. split; [done|].
    intros m t Hm Ht. unfold present, Redis.peek.
    rewrite Hb, untouched_broadcast by (intros x; apply presence_ne_roomUsers).
    rewrite (Hin m Hm). unfold Redis.live, Redis.expiry. simpl.
    rewrite (proj2 (Z.ltb_lt _ _) Ht). eauto.
  - (* a public room *)
    destruct Hty as [Hpub|?]; [|done]. apply String.eqb_eq in Hpub.
    rewrite Hpub in *. simpl in *. apply ret_inv in Hpres as [-> _].
    split.
    { rewrite Hb, untouched_broadcast by (intros x; by apply hex_room_ne_roomUsers).
      by rewrite lookup_insert_eq. }
    split; [by left|]. split; [|done]. intros _.
    apply negb_false_iff, String.eqb_eq in Hadmin. done.
Qed.
End CreateRoomProved.

Lemma X22_create_room_witness :
  present 6000 (presenceKey (generateId sampleIdBytes) "bob")
    (@handleCreateRoom sampleFilter 5000 sampleIdBytes None (Some "private")
       (Some ["Bob"]) "Alice" sampleChat).1.
Proof.
  pose proof (@X22_create_room sampleFilter 5000 sampleIdBytes None (Some "private")
                (Some ["Bob"]) "Alice" sampleChat
                (@handleCreateRoom sampleFilter 5000 sampleIdBytes None (Some "private")
                   (Some ["Bob"]) "Alice" sampleChat).1
                (Response 201
                   (BRoom (VRoom (Room (generateId sampleIdBytes) "@alice, @bob"
                                    (Some "private") 5000 2 (Some ["bob"; "alice"]))) 2))) as X.
  destruct X as [_ X].
  - apply run_snd; [reflexivity | vm_compute; reflexivity].
  - destruct (X eq_refl) as (room & Hroom & _ & _ & _ & _ & _ & Hpriv).
    injection Hroom as <-.
    destruct (Hpriv eq_refl) as (ms & Hms & _ & _ & _ & _ & _ & Hpres).
    injection Hms as <-. apply Hpres.
    + apply elem_of_cons. by left.
    + unfold ROOM_PRESENCE_TTL_SECONDS. lia.
Defined.
(* ===================================================================== *)
(** ** Further properties: deleting and reading messages *)
(* ===================================================================== *)

Local Open Scope list_scope.

Lemma findMessage_spec messageId l raw :
  findMessage messageId l = Some raw →
  ∃ l1 m l2, l = l1 ++ raw :: l2 ∧ raw = MJson m ∧ m_id m = messageId ∧
             ∀ x m', x ∈ l1 → parseItem x = Some m' → m_id m' ≠ messageId.
Proof.
  induction l as [|x l IH]; [done|]. cbn [findMessage].
  destruct (parseItem x) as [obj|] eqn:Hx.
  - destruct (String.eqb (m_id obj) messageId) eqn:Hid.
    + intros [= <-]. destruct x as [m|]; [|done]. injection Hx as ->.
      exists [], obj, l. apply String.eqb_eq in Hid.
      split; [done|]. split; [done|]. split; [done|]. by intros ? ? ?%elem_of_nil.
    + intros (l1 & m & l2 & -> & -> & Hm & Hl1)%IH.
      exists (x :: l1), m, l2. split; [done|]. split; [done|]. split; [done|].
      intros y m' [->|Hy]%elem_of_cons Hp.
      * rewrite Hx in Hp. injection Hp as <-. by apply String.eqb_neq.
      * by eapply Hl1.
  - intros (l1 & m & l2 & -> & -> & Hm & Hl1)%IH.
    exists (x :: l1), m, l2. split; [done|]. split; [done|]. split; [done|].
    intros y m' [->|Hy]%elem_of_cons Hp; [congruence|by eapply Hl1].
Qed.

Lemma removeFirst_app raw l1 l2 :
  raw ∉ l1 → removeFirst raw (l1 ++ raw :: l2) = l1 ++ l2.
Proof.
  induction l1 as [|x l1 IH]; intros Hn; simpl.
  - by rewrite decide_True.
  - rewrite decide_False by (intros ->; apply Hn, elem_of_cons; by left).
    rewrite IH; [done|]. intros ?. apply Hn, elem_of_cons. by right.
Qed.

Lemma lrangeAll_inv now k s s' l :
  lrangeAll now k s = (s', Some l) →
  s' = s ∧ (Redis.value now k s = None ∧ l = [] ∨ Redis.value now k s = Some (VList l)).
Proof.
  unfold lrangeAll. destruct (Redis.value now k s) as [[]|]; intros [= <- <-]; eauto.
Qed.

Lemma value_peek now k s v :
  Redis.value now k s = Some v → ∃ ex, Redis.peek now k s = Some (Entry v ex).
Proof.
  unfold Redis.value. destruct (Redis.peek now k s) as [[v' ex]|]; [|done].
  intros [= <-]. by exists ex.
Qed.

Lemma peek_live now k s e : Redis.peek now k s = Some e → Redis.live now e = true.
Proof.
  unfold Redis.peek. destruct (s !! k) as [e'|]; [|done].
  destruct (Redis.live now e') eqn:E; [|done]. by intros [= <-].
Qed.

(** X15. [handleDeleteMessage] changes the store only when it answers 200.
    It then was the administrator who asked, and the log of the room has
    lost exactly one element: the first one that parses to a message with
    the given id; the elements before and after it are as they were, in
    order, and no other key has changed. *)
Theorem X15_delete_message now r messageId u s s' resp :
  handleDeleteMessage now r messageId u s = (s', Some resp) →
  (resp ≠ Response 200 BSuccess → s' = s) ∧
  (resp = Response 200 BSuccess →
   Str.toLowerCase u = "ryo" ∧
   (∀ k, k ≠ messagesKey r → s' !! k = s !! k) ∧
   ∃ l1 m l2,
     logOf now r s = l1 ++ MJson m :: l2 ∧ m_id m = messageId ∧
     (∀ x m', x ∈ l1 → parseItem x = Some m' → m_id m' ≠ messageId) ∧
     logOf now r s' = l1 ++ l2).
Proof.
  intros H. unfold handleDeleteMessage in H.
  destruct (_ || _)%bool; [apply ret_inv in H as [-> ->]; by split|].
  destruct (String.eqb (Str.toLowerCase u) "ryo") eqn:Hryo;
    [|apply ret_inv in H as [-> ->]; by split].
  apply String.eqb_eq in Hryo. simpl in H.
  apply catch_inv in H as [H|(s1 & Hthrow & H)].
  2:{ apply ret_inv in H as [-> ->]. split; [intros _|done].
      (* a failure leaves the store as it was *)
      unfold bind at 1 in Hthrow. rewrite exists_run in Hthrow.
      destruct (negb _); [done|].
      unfold bind at 1 in Hthrow.
      destruct (lrangeAll now (messagesKey r) s) as [s2 [l|]] eqn:Hl.
      - apply lrangeAll_inv in Hl as [-> Hl].
        destruct (findMessage messageId l) as [raw|] eqn:Hf; [|done].
        apply findMessage_spec in Hf as (l1 & m & l2 & -> & -> & _).
        destruct Hl as [[_ Hl]|Hl]; [by destruct l1|].
        apply value_peek in Hl as [ex Hl].
        unfold bind, lrem1 in Hthrow. rewrite Hl in Hthrow.
        rewrite bool_decide_eq_true_2 in Hthrow
          by (apply elem_of_app; right; apply elem_of_cons; by left).
        by destruct (removeFirst _ _).
      - unfold lrangeAll in Hl.
        destruct (Redis.value now (messagesKey r) s) as [[]|]; by simplify_eq. }
  apply bind_inv in H as (s0 & ex & Hex & H). apply exists_inv in Hex as [-> _].
  destruct (negb ex); [apply ret_inv in H as [-> ->]; by split|].
  apply bind_inv in H as (s0 & l & Hl & H). apply lrangeAll_inv in Hl as [-> Hl].
  destruct (findMessage messageId l) as [raw|] eqn:Hf;
    [|apply ret_inv in H as [-> ->]; by split].
  apply bind_inv in H as (s1 & n & Hrem & H). apply ret_inv in H as [-> ->].
  split; [done|]. intros _. split; [done|].
  apply findMessage_spec in Hf as (l1 & m & l2 & -> & -> & Hid & Hl1).
  destruct Hl as [[_ Hl]|Hl]; [by destruct l1|].
  assert (Hnot : MJson m ∉ l1).
  { intros Hin. by apply (Hl1 (MJson m) m Hin eq_refl). }
  pose proof Hl as Hv. apply value_peek in Hl as [e Hp].
  pose proof (peek_live _ _ _ _ Hp) as Hlive.
  unfold lrem1 in Hrem. rewrite Hp in Hrem.
  rewrite bool_decide_eq_true_2 in Hrem
    by (apply elem_of_app; right; apply elem_of_cons; by left).
  rewrite removeFirst_app in Hrem by done.
  assert (Hlog : logOf now r s = l1 ++ MJson m :: l2) by (unfold logOf; by rewrite Hv).
  destruct (l1 ++ l2) as [|y l'] eqn:Hrest; injection Hrem as <- _.
  - split; [intros k Hk; by rewrite lookup_delete_ne|].
    exists l1, m, l2. rewrite Hrest. split; [done|]. split; [done|]. split; [done|].
    unfold logOf. by rewrite value_delete, decide_True.
  - split; [intros k Hk; by rewrite lookup_insert_ne|].
    exists l1, m, l2. rewrite Hrest. split; [done|]. split; [done|]. split; [done|].
    unfold logOf. rewrite value_insert, decide_True by done.
    unfold Redis.live in *. simpl in *. by rewrite Hlive.
Qed.

Lemma X15_delete_message_witness :
  logOf 5000 "dm1" (handleDeleteMessage 5000 "dm1" "m0" "Ryo" sampleChat).1 = [].
Proof.
  pose proof (X15_delete_message 5000 "dm1" "m0" "Ryo" sampleChat
                (handleDeleteMessage 5000 "dm1" "m0" "Ryo" sampleChat).1
                (Response 200 BSuccess)) as X.
  destruct X as [_ X].
  - apply run_snd; [reflexivity | vm_compute; reflexivity].
  - destruct (X eq_refl) as (_ & _ & l1 & m & l2 & Hlog & _ & _ & ->).
    vm_compute in Hlog. destruct l1 as [|x [|y l1]]; [|by destruct l2|done].
    by injection Hlog as _ <-.
Defined.

(** *** Clearing every log *)

Lemma glob_messagesKey r : Str.glob (CHAT_MESSAGES_PREFIX +:+ "*") (messagesKey r) = true.
Proof.
  unfold messagesKey, CHAT_MESSAGES_PREFIX.
  apply (glob_prefix "chat:messages:"); [done|]. apply glob_star.
Qed.

Lemma messages_ne_roomUsers r x : messagesKey r ≠ roomUsersKey x.
Proof.
  unfold messagesKey, roomUsersKey, CHAT_MESSAGES_PREFIX, CHAT_ROOM_USERS_PREFIX.
  discriminate.
Qed.

(** X16. [handleClearAllMessages] refuses everyone but the administrator
    and then writes nothing.  When it answers 200, the log of every room is
    empty from then on, and nothing but message logs and legacy membership
    sets has changed: room records, users, presence and tokens are as
    before.  The number it reports is the number of logs it found. *)
Theorem X16_clear_all_messages now u s s' rep :
  handleClearAllMessages now u s = (s', Some rep) →
  (Str.toLowerCase u ≠ "ryo" →
   rep = createErrorReply "Forbidden - Admin access required" 403 ∧ s' = s) ∧
  (code rep = 200 →
   Str.toLowerCase u = "ryo" ∧
   (∀ t r, now ≤ t → logOf t r s' = []) ∧
   (∀ k, (∀ x, k ≠ CHAT_MESSAGES_PREFIX +:+ x) → (∀ x, k ≠ roomUsersKey x) →
         s' !! k = s !! k) ∧
   (∀ n, content rep = RCleared n →
         n = length (filter (fun k => Str.glob (CHAT_MESSAGES_PREFIX +:+ "*") k = true)
                       (Redis.keys now s)))).
Proof.
  intros H. unfold handleClearAllMessages in H.
  destruct (String.eqb (Str.toLowerCase u) "ryo") eqn:Hryo.
  2:{ apply ret_inv in H as [-> ->]. by split. }
  apply String.eqb_eq in Hryo. simpl in H. split; [done|]. intros Hcode.
  apply catch_inv in H as [H|(s1 & _ & H)]; [|by apply ret_inv in H as [_ ->]].
  apply bind_inv in H as (s0 & ks & Hscan & H). apply scan_inv in Hscan as [-> Hks].
  split; [done|].
  assert (Hgone : ∀ (s2 : store) t r, now ≤ t →
            s2 !! messagesKey r = deleteAll ks s !! messagesKey r →
            logOf t r s2 = []).
  { intros s2 t r Ht Hk. unfold logOf, Redis.value, Redis.peek. rewrite Hk.
    rewrite lookup_deleteAll. destruct (decide (messagesKey r ∈ ks)) as [|Hn]; [done|].
    destruct (s !! messagesKey r) as [e|] eqn:E; [|done].
    destruct (Redis.live t e) eqn:Hl; [|done]. exfalso. apply Hn. rewrite Hks.
    apply elem_of_scan. split; [apply glob_messagesKey|].
    unfold present, Redis.peek. rewrite E, (live_mono now t e Ht Hl). eauto. }
  destruct ks as [|k0 ks'] eqn:Eks.
  - apply ret_inv in H as [-> ->]. split; [|split; [done|done]].
    intros t r Ht. by apply Hgone.
  - rewrite <- Eks in *.
    apply bind_inv in H as (s1 & n & Hdel & H).
    destruct (delMany_run now ks s) as [n' Hn']. rewrite Hn' in Hdel.
    injection Hdel as <- _.
    apply bind_inv in H as (s2 & y & Hb & H). apply ret_inv in H as [-> ->].
    apply run_fst in Hb. unfold broadcastRoomsUpdated in Hb.
    split; [|split].
    + intros t r Ht. apply Hgone; [done|]. rewrite Hb.
      apply untouched_broadcast. intros x. apply messages_ne_roomUsers.
    + intros k Hk1 Hk2. rewrite Hb, untouched_broadcast by done.
      rewrite lookup_deleteAll, decide_False; [done|].
      rewrite Hks. intros [Hg _]%elem_of_scan.
      apply (glob_literal CHAT_MESSAGES_PREFIX "*") in Hg as (k' & -> & _); [|done].
      by apply (Hk1 k').
    + intros n0 [= <-]. by rewrite Hks.
Qed.

Lemma X16_clear_all_messages_witness :
  logOf 6000 "dm1" (handleClearAllMessages 5000 "ryo" sampleChat).1 = [].
Proof.
  pose proof (X16_clear_all_messages 5000 "ryo" sampleChat
                (handleClearAllMessages 5000 "ryo" sampleChat).1
                (Reply 200 (RCleared 1))) as X.
  destruct X as [_ X].
  - apply run_snd; [reflexivity | vm_compute; reflexivity].
  - destruct (X eq_refl) as (_ & Hlog & _). apply Hlog. lia.
Defined.

(** *** Reading several logs at once *)

Lemma existing_inv now roomIds s s' checks :
  existing now roomIds s = (s', Some checks) →
  s' = s ∧ checks = map (fun r => bool_decide (present now (roomKey r) s)) roomIds.
Proof.
  revert s' checks. induction roomIds as [|r ids IH]; intros s' checks H; simpl in H.
  - by apply ret_inv in H as [-> ->].
  - rewrite (bind_run _ _ _ _ _ (exists_run _ _ _)) in H.
    apply bind_inv in H as (s1 & more & Hmore & H).
    destruct (IH _ _ Hmore) as [-> ->]. by apply ret_inv in H as [-> ->].
Qed.

Lemma selectBy_filter keep (f : string → bool) roomIds :
  selectBy keep roomIds (map f roomIds)
  = List.filter (fun r => Bool.eqb (f r) keep) roomIds.
Proof.
  induction roomIds as [|r ids IH]; [done|]. simpl. rewrite IH.
  by destruct (Bool.eqb (f r) keep).
Qed.

Lemma readLogs_inv now roomIds s s' results :
  readLogs now roomIds s = (s', Some results) →
  s' = s ∧
  results = map (fun r => (r, omap parseItem (take 20 (logOf now r s)))) roomIds ∧
  ∀ r v, r ∈ roomIds → Redis.value now (messagesKey r) s = Some v → ∃ l, v = VList l.
Proof.
  revert s' results. induction roomIds as [|r ids IH]; intros s' results H; simpl in H.
  - apply ret_inv in H as [-> ->]. split; [done|]. split; [done|].
    by intros ? ? ?%elem_of_nil.
  - apply bind_inv in H as (s1 & l & Hl & H).
    apply lrange_inv in Hl as [-> Hl].
    apply bind_inv in H as (s2 & more & Hmore & H).
    destruct (IH _ _ Hmore) as (-> & -> & Hlists). apply ret_inv in H as [-> ->].
    split; [done|]. split.
    + simpl. do 2 f_equal. unfold logOf.
      destruct Hl as [[-> ->]|(L & -> & ->)]; [by rewrite take_nil|done].
    + intros r' v [->|Hin]%elem_of_cons Hv; [|by eapply Hlists].
      destruct Hl as [[Hn _]|(L & HL & _)]; [congruence|].
      rewrite HL in Hv. injection Hv as <-. by exists L.
Qed.

Lemma foldl_insert_lookup (g : string → list message) (rs : list string)
    (acc : gmap string (list message)) r :
  foldl (fun acc '(roomId, messages) => <[roomId := messages]> acc) acc
    (map (fun r => (r, g r)) rs) !! r
  = if decide (r ∈ rs) then Some (g r) else acc !! r.
Proof.
  revert acc. induction rs as [|x rs IH]; intros acc; cbn [foldl map].
  - destruct (decide (r ∈ [])) as [Hin|]; [by apply elem_of_nil in Hin|done].
  - rewrite IH. destruct (decide (r ∈ rs)) as [Hin|Hn].
    + rewrite decide_True; [done|]. apply elem_of_cons. by right.
    + destruct (decide (x = r)) as [->|Hx].
      * rewrite lookup_insert_eq. rewrite decide_True; [done|]. apply elem_of_cons. by left.
      * rewrite lookup_insert_ne by done. rewrite decide_False; [done|].
        intros [->|]%elem_of_cons; done.
Qed.

(** X17. [handleGetBulkMessages] reads only.  When it answers 200 the ids
    are split into those whose room exists and the others, in the order
    given; the map has an entry exactly for the rooms that exist, and the
    entry of a room is what [handleGetMessages] answers for it: the first 20
    elements of its log that parse. *)
Theorem X17_bulk_messages now roomIds s s' rep :
  handleGetBulkMessages now roomIds s = (s', Some rep) →
  s' = s ∧
  (code rep = 200 →
   ∃ messagesMap valid invalid,
     content rep = RBulk messagesMap valid invalid ∧
     valid = List.filter (fun r => bool_decide (present now (roomKey r) s)) roomIds ∧
     invalid = List.filter (fun r => negb (bool_decide (present now (roomKey r) s))) roomIds ∧
     (∀ r, r ∉ valid → messagesMap !! r = None) ∧
     (∀ r, r ∈ valid →
        messagesMap !! r = Some (omap parseItem (take 20 (logOf now r s))) ∧
        handleGetMessages now r s
        = (s, Some (Response 200
                      (BMessages (omap parseItem (take 20 (logOf now r s)))))))).
Proof.
  intros H. unfold handleGetBulkMessages in H.
  assert (Hquiet : s' = s ∧
            (code rep = 200 →
             List.forallb ROOM_ID_REGEX roomIds = true ∧
             ∃ results,
               let valid := List.filter (fun r => bool_decide (present now (roomKey r) s))
                              roomIds in
               readLogs now valid s = (s, Some results) ∧
               rep = Reply 200
                       (RBulk (foldl (fun acc '(roomId, messages) => <[roomId := messages]> acc)
                                 ∅ results)
                          valid
                          (List.filter
                             (fun r => negb (bool_decide (present now (roomKey r) s)))
                             roomIds)))).
  { apply catch_inv in H as [H|(s1 & Hthrow & H)].
    - destruct (List.forallb ROOM_ID_REGEX roomIds) eqn:Hall;
        [|apply ret_inv in H as [-> ->]; by split].
      simpl in H. apply bind_inv in H as (s0 & checks & Hex & H).
      apply existing_inv in Hex as [-> ->].
      rewrite !selectBy_filter in H.
      assert (Hf1 : List.filter
                      (fun r => Bool.eqb (bool_decide (present now (roomKey r) s)) true) roomIds
                    = List.filter (fun r => bool_decide (present now (roomKey r) s)) roomIds).
      { apply filter_ext. intros r. by destruct (bool_decide _). }
      assert (Hf2 : List.filter
                      (fun r => Bool.eqb (bool_decide (present now (roomKey r) s)) false) roomIds
                    = List.filter (fun r => negb (bool_decide (present now (roomKey r) s)))
                        roomIds).
      { apply filter_ext. intros r. by destruct (bool_decide _). }
      rewrite Hf1, Hf2 in H.
      apply bind_inv in H as (s0 & results & Hread & H).
      pose proof (readLogs_inv _ _ _ _ _ Hread) as (-> & _).
      apply ret_inv in H as [-> ->]. split; [done|]. intros _. split; [done|].
      by exists results.
    - apply ret_inv in H as [-> ->]. split; [|done].
      destruct (List.forallb ROOM_ID_REGEX roomIds); [|done]. simpl in Hthrow.
      unfold bind at 1 in Hthrow.
      destruct (existing now roomIds s) as [s2 [checks|]] eqn:Hex.
      + apply existing_inv in Hex as [-> _].
        unfold bind at 1 in Hthrow.
        destruct (readLogs now _ s) as [s3 [results|]] eqn:Hread; [done|].
        injection Hthrow as <-.
        clear -Hread. revert s3 Hread.
        generalize (selectBy true roomIds checks) as ids.
        induction ids as [|r ids IH]; intros s3 H; simpl in H; [done|].
        unfold bind at 1 in H.
        destruct (Redis.lrange now (messagesKey r) 20 s) as [s4 [l|]] eqn:Hl.
        * apply lrange_inv in Hl as [-> _]. unfold bind at 1 in H.
          destruct (readLogs now ids s) as [s5 [more|]] eqn:Hmore; [done|].
          injection H as <-. by apply IH.
        * injection H as <-. unfold Redis.lrange in Hl.
          destruct (Redis.value now (messagesKey r) s) as [[]|]; by simplify_eq.
      + injection Hthrow as <-. clear -Hex. revert s2 Hex.
        induction roomIds as [|r ids IH]; intros s2 H; simpl in H; [done|].
        rewrite (bind_run _ _ _ _ _ (exists_run _ _ _)) in H.
        unfold bind at 1 in H.
        destruct (existing now ids s) as [s5 [more|]] eqn:Hmore; [done|].
        injection H as <-. by apply IH. }
  destruct Hquiet as [-> Hok]. split; [done|]. intros Hcode.
  destruct (Hok Hcode) as (Hall & results & Hread & ->). simpl in Hread.
  set (valid := List.filter _ roomIds) in *.
  apply readLogs_inv in Hread as (_ & -> & Hlists).
  eexists _, _, _. split; [reflexivity|]. split; [done|]. split; [done|]. split.
  - intros r Hr. by rewrite foldl_insert_lookup, decide_False.
  - intros r Hr. rewrite foldl_insert_lookup, decide_True by done. split; [done|].
    pose proof Hr as Hr'. unfold valid in Hr'.
    apply list_elem_of_In, filter_In in Hr' as [Hin Hp].
    apply bool_decide_eq_true in Hp.
    apply handleGetMessages_run; [|done|by intros v; apply Hlists].
    rewrite forallb_forall in Hall. by apply Hall.
Qed.

Lemma X17_bulk_messages_witness :
  (handleGetBulkMessages 5000 ["dm1"; "nowhere"; "general"] sampleChat).1 = sampleChat.
Proof.
  refine (proj1 (X17_bulk_messages 5000 ["dm1"; "nowhere"; "general"] sampleChat _
                   (Reply 200
                      (RBulk (<["general" := []]>
                                (<["dm1" := [Message "m0" "dm1" "bob" "hi" 1]]> ∅))
                         ["dm1"; "general"] ["nowhere"])) _)).
  apply run_snd; [reflexivity | vm_compute; reflexivity].
Defined.

(** *** What a send writes *)

Lemma lpush_fail now k x s s' : Redis.lpush now k x s = (s', None) → s' = s.
Proof.
  unfold Redis.lpush. destruct (Redis.peek now k s) as [[[] ex]|]; by intros [= <-].
Qed.

Lemma ltrim_after_lpush now k x s s1 y :
  Redis.lpush now k x s = (s1, Some y) →
  Redis.ltrim now k 100 s1 = ((Redis.ltrim now k 100 s1).1, Some tt).
Proof.
  unfold Redis.lpush. intros Hpush.
  assert (Hlist : ∃ l ex, Redis.peek now k s1 = Some (Entry (VList l) ex)).
  { destruct (Redis.peek now k s) as [[v ex]|] eqn:Hp.
    - pose proof (peek_live _ _ _ _ Hp) as Hl.
      destruct v; try done. injection Hpush as <- _.
      exists (x :: l), ex. rewrite peek_insert, decide_True by done.
      unfold Redis.live in *. simpl in *. by rewrite Hl.
    - injection Hpush as <- _. exists [x], None.
      by rewrite peek_insert, decide_True. }
  destruct Hlist as (l & ex & Hp). unfold Redis.ltrim. rewrite Hp.
  by destruct (take 100 l).
Qed.

Lemma refreshRoomPresence_run now r u s :
  refreshRoomPresence now r u s = ((refreshRoomPresence now r u s).1, Some tt).
Proof.
  unfold refreshRoomPresence. rewrite (bind_run _ _ _ _ _ (exists_run _ _ _)).
  destruct (bool_decide _); [apply expire_run|done].
Qed.

Section SendEffects.
Context `{ProfanityFilter}.

(** The log of the room changes only when the message is accepted. *)
Lemma storeMessage_log now rnd r u c s :
  (∃ m, (storeMessage now rnd r u c s).2 = Some (Response 201 (BMessage m))) ∨
  (storeMessage now rnd r u c s).1 !! messagesKey r = s !! messagesKey r.
Proof.
  unfold storeMessage. rewrite (bind_run _ _ _ _ _ (exists_run _ _ _)).
  destruct (negb _); [by right|].
  set (ens := catch _ _).
  assert (Hens : untouched (messagesKey r) ens).
  { apply untouched_catch; [|apply untouched_ret].
    apply untouched_bind; [|intros; apply untouched_ret].
    apply ensureUserExists_untouched, not_eq_sym, user_ne_messages. }
  specialize (Hens s).
  destruct (ens s) as [s1 [ensured|]] eqn:E; cbn [fst] in Hens.
  2:{ right. by rewrite (bind_fail _ _ _ _ E). }
  rewrite (bind_run _ _ _ _ _ E).
  destruct ensured as [[[]|[v|]]|]; try (by right).
  destruct (Nat.ltb _ _); [by right|].
  destruct (Redis.lrange now (messagesKey r) 1 s1) as [s2 [l|]] eqn:El.
  2:{ right. rewrite (bind_fail _ _ _ _ El).
      pose proof (untouched_lrange (messagesKey r) now (messagesKey r) 1 s1) as Hl.
      rewrite El in Hl. cbn [fst] in *. by rewrite Hl. }
  apply lrange_inv in El as El'. destruct El' as [-> _].
  rewrite (bind_run _ _ _ _ _ El).
  destruct (match head l ≫= parseItem with Some _ => _ | None => false end); [by right|].
  destruct (Redis.lpush now (messagesKey r) (MJson (Message (generateId rnd) r u c now)) s1)
    as [s3 [y|]] eqn:Ep.
  2:{ right. rewrite (bind_fail _ _ _ _ Ep). apply lpush_fail in Ep as ->. done. }
  left. rewrite (bind_run _ _ _ _ _ Ep).
  rewrite (bind_run _ _ _ _ _ (ltrim_after_lpush _ _ _ _ _ _ Ep)).
  rewrite (bind_run _ _ _ _ _ eq_refl).
  rewrite (bind_run _ _ _ _ _ (expire_run _ _ _ _)).
  rewrite (bind_run _ _ _ _ _ (refreshRoomPresence_run _ _ _ _)).
  by eexists.
Qed.

Lemma send_log now rnd r u c s :
  (∃ m, (handleSendMessage now rnd r u c s).2 = Some (Response 201 (BMessage m))) ∨
  (handleSendMessage now rnd r u c s).1 !! messagesKey r = s !! messagesKey r.
Proof.
  unfold handleSendMessage.
  destruct (negb (USERNAME_REGEX _)); [by right|].
  destruct (negb (ROOM_ID_REGEX r)); [by right|].
  destruct (String.eqb c ""); [by right|].
  set (lim := catch _ _).
  assert (Hlim : untouched (messagesKey r) lim).
  { apply untouched_catch; [|apply untouched_ret].
    apply burstLimit_untouched; key_neq. }
  specialize (Hlim s).
  destruct (lim s) as [s1 [limited|]] eqn:E; cbn [fst] in Hlim.
  2:{ right. by rewrite (bind_fail _ _ _ _ E). }
  rewrite (bind_run _ _ _ _ _ E).
  destruct limited as [resp|]; [by right|].
  unfold catch.
  destruct (storeMessage_log now rnd r (Str.toLowerCase u) (sanitize c) s1) as [[m Hm]|Hsame].
  - left. exists m.
    destruct (storeMessage now rnd r (Str.toLowerCase u) (sanitize c) s1) as [s2 [x|]];
      simpl in *; by simplify_eq.
  - right. rewrite <- Hlim, <- Hsame.
    by destruct (storeMessage now rnd r (Str.toLowerCase u) (sanitize c) s1) as [s2 [x|]].
Qed.

(** X23. [handleSendMessage] changes no room record, no log but that of the
    room addressed and no user record but that of the sender; it changes the
    log of the room only when it answers 201.  The message of a 201 answer
    carries the id drawn, the room, the lower-cased name of the sender, the
    sanitized content, of at most 1000 characters, and the instant of the
    request. *)
Theorem X23_send_effects now rnd r u c s :
  let out := handleSendMessage now rnd r u c s in
  let lu := Str.toLowerCase u in
  (∀ r', out.1 !! roomKey r' = s !! roomKey r') ∧
  (∀ r', r' ≠ r → out.1 !! messagesKey r' = s !! messagesKey r') ∧
  (∀ v, v ≠ lu → out.1 !! userKey v = s !! userKey v) ∧
  ((∀ m, out.2 ≠ Some (Response 201 (BMessage m))) →
   out.1 !! messagesKey r = s !! messagesKey r) ∧
  (∀ m, out.2 = Some (Response 201 (BMessage m)) →
        m = Message (generateId rnd) r lu (sanitize c) now ∧
        USERNAME_REGEX lu = true ∧ ROOM_ID_REGEX r = true ∧
        (String.length (m_content m) ≤ MAX_MESSAGE_LENGTH)%nat).
Proof.
  intros out lu. unfold out.
  split; [|split; [|split; [|split]]].
  - intros r'. apply handleSendMessage_untouched; key_neq.
  - intros r' Hr. apply handleSendMessage_untouched; try key_neq.
    intros E. by apply messagesKey_inj in E.
  - intros v Hv. apply handleSendMessage_untouched; try key_neq.
    unfold userKey. intros E. by apply (inj (String.app _)) in E.
  - intros Hno. destruct (send_log now rnd r u c s) as [[m Hm]|Hsame]; [|done].
    by destruct (Hno m).
  - intros m Hm.
    destruct (handleSendMessage now rnd r u c s) as [s' res] eqn:Hrun.
    simpl in Hm. subst res.
    destruct (send_created_inv _ _ _ _ _ _ _ _ Hrun)
      as ((Hu & Hr & _) & _ & Hlen & -> & _).
    split; [done|]. split; [done|]. split; [done|].
    simpl. by apply Nat.ltb_ge in Hlen.
Qed.
End SendEffects.

Lemma X23_send_effects_witness :
  (@handleSendMessage sampleFilter 5000 sampleIdBytes "general" "alice" "hello"
     sampleChat).1 !! messagesKey "dm1"
  = sampleChat !! messagesKey "dm1".
Proof.
  apply (proj1 (proj2 (@X23_send_effects sampleFilter 5000 sampleIdBytes "general" "alice"
                         "hello" sampleChat)) "dm1").
  discriminate.
Defined.
(* ===================================================================== *)
(** ** Further properties: accounts and passwords *)
(* ===================================================================== *)

(** The three writes that issue a token. *)
Lemma issue_run {A} now lu T (y : A) s :
  String.eqb T "" = false →
  (Redis.set now (legacyTokenKey lu) (VStr T) (Some USER_EXPIRATION_TIME) ;;
   storeToken now lu T ;;
   storeLastValidToken now lu T (now + USER_EXPIRATION_TIME * 1000)
     (USER_EXPIRATION_TIME + TOKEN_GRACE_PERIOD) ;;
   ret y) s
  = (<[lastTokenKey (Str.toLowerCase lu) :=
         Entry (VLast (LastToken T (now + USER_EXPIRATION_TIME * 1000)))
           (Redis.expiry now (USER_EXPIRATION_TIME + TOKEN_GRACE_PERIOD))]>
       (<[getTokenKey T :=
            Entry (written (Str.toLowerCase lu)) (Redis.expiry now USER_EXPIRATION_TIME)]>
          (<[getUserTokenKey lu T :=
               Entry (VNum now) (Redis.expiry now USER_EXPIRATION_TIME)]>
             (<[legacyTokenKey lu :=
                  Entry (VStr T) (Redis.expiry now USER_EXPIRATION_TIME)]> s))),
     Some y).
Proof.
  intros HT. rewrite (bind_run _ _ _ _ _ eq_refl).
  unfold storeToken. rewrite HT.
  rewrite (bind_run _ _ _ _ _ eq_refl).
  rewrite (bind_run _ _ _ _ _ eq_refl).
  rewrite getUserTokenKey_lower. reflexivity.
Qed.

(** A token just issued validates until its lifetime has elapsed. *)
Lemma issued_valid now u T (s : store) eL eF t :
  isHex T = true → String.eqb T "" = false → String.eqb u "" = false →
  t < now + USER_EXPIRATION_TIME * 1000 →
  (validateAuth t u T false
     (<[lastTokenKey (Str.toLowerCase u) := eL]>
        (<[getTokenKey T := eF]>
           (<[getUserTokenKey u T :=
                Entry (VNum now) (Redis.expiry now USER_EXPIRATION_TIME)]> s)))).2
  = Some authValid.
Proof.
  intros HT Hne Hu Ht. apply validateAuth_present; [done..|].
  unfold present. rewrite !peek_insert.
  rewrite decide_False by apply last_ne_user.
  rewrite decide_False by (by apply flat_ne_user).
  rewrite decide_True by done. rewrite live_expiry by done. eauto.
Qed.

Section Accounts.
Context `{ProfanityFilter} `{PasswordHasher}.

Lemma loginExisting_inv now rnd lu pw s s' res :
  loginExisting now rnd lu pw s = (s', Some res) →
  (res = None ∧
   (s' = s ∨
    s' = <[legacyTokenKey lu :=
             Entry (VStr (generateAuthToken rnd)) (Redis.expiry now USER_EXPIRATION_TIME)]> s))
  ∨ (∃ hash v,
       res = Some (Reply 200 (RUserToken v (generateAuthToken rnd))) ∧
       Redis.value now (passwordKey lu) s = Some (VStr hash) ∧
       verifyPassword pw hash = true ∧
       s' = <[legacyTokenKey lu :=
                Entry (VStr (generateAuthToken rnd)) (Redis.expiry now USER_EXPIRATION_TIME)]> s).
Proof.
  unfold loginExisting, catch, getUserPasswordHash.
  destruct (get_cases now (passwordKey lu) s) as [E|[ph E]].
  { rewrite (bind_fail _ _ _ _ E). intros [= <- <-]. left. by eauto. }
  rewrite (bind_run _ _ _ _ _ E). apply get_inv in E as [_ Eph].
  destruct (truthy ph) eqn:Htr; [|intros [= <- <-]; left; by eauto].
  destruct ph as [[hash| | | | | | | | |]|]; try (intros [= <- <-]; left; by eauto).
  destruct (verifyPassword pw hash) eqn:Hv; [|intros [= <- <-]; left; by eauto].
  rewrite written_token.
  rewrite (bind_run _ _ _ _ _ eq_refl).
  set (s1 := <[legacyTokenKey lu := _]> s).
  destruct (get_cases now (userKey lu) s1) as [E|[ud E]].
  { rewrite (bind_fail _ _ _ _ E). intros [= <- <-]. left. by eauto. }
  rewrite (bind_run _ _ _ _ _ E).
  destruct (truthy ud).
  - destruct ud as [[]|]; simpl; intros [= <- <-];
      first [ right; by eauto 10 | left; by eauto ].
  - simpl. intros [= <- <-]. right. by eauto 10.
Qed.

(** X18. When [handleCreateUser] answers 201 the name was free and is of
    the accepted format; the user record holds the lower-cased name and the
    instant of the request; a password, when one is given, has at least 8
    characters and its hash is stored; and the token of the response
    validates in strict mode until its lifetime of 90 days has elapsed. *)
Theorem X18_create_user now rnd salt name password s s' body :
  length rnd = TOKEN_LENGTH →
  handleCreateUser now rnd salt name password s = (s', Some (Reply 201 body)) →
  let lu := Str.toLowerCase name in
  let T := generateAuthToken rnd in
  USERNAME_REGEX lu = true ∧ isProfane name = false ∧
  Redis.peek now (userKey lu) s = None ∧
  body = RUserToken (VUser (User lu now)) T ∧
  s' !! userKey lu = Some (Entry (VUser (User lu now)) None) ∧
  (∀ pw, password = Some pw → pw ≠ "" →
         (PASSWORD_MIN_LENGTH ≤ String.length pw)%nat ∧
         s' !! passwordKey lu = Some (Entry (VStr (hashPassword salt pw)) None)) ∧
  (∀ t, t < now + USER_EXPIRATION_TIME * 1000 →
        (validateAuth t name T false s').2 = Some authValid).
Proof.
  intros Hlen Hrun lu T.
  pose proof (generateAuthToken_nonempty rnd Hlen) as HT. fold T in HT.
  assert (HhT : isHex T = true) by apply toHex_isHex.
  unfold handleCreateUser in Hrun. fold lu in Hrun.
  destruct (String.eqb name "") eqn:Hname; [by apply ret_inv in Hrun as [_ ?]|].
  destruct (isProfane name) eqn:Hprof; [by apply ret_inv in Hrun as [_ ?]|].
  destruct (Nat.ltb MAX_USERNAME_LENGTH _); [by apply ret_inv in Hrun as [_ ?]|].
  destruct (Nat.ltb _ MIN_USERNAME_LENGTH); [by apply ret_inv in Hrun as [_ ?]|].
  destruct (negb (String.eqb (default "" password) "")
            && Nat.ltb (String.length (default "" password)) PASSWORD_MIN_LENGTH)%bool
    eqn:Hpw; [by apply ret_inv in Hrun as [_ ?]|].
  destruct (USERNAME_REGEX lu) eqn:Hu; [|by apply ret_inv in Hrun as [_ ?]].
  simpl in Hrun.
  apply catch_inv in Hrun as [Hrun|(s1 & _ & Hrun)]; [|by apply ret_inv in Hrun as [_ ?]].
  apply bind_inv in Hrun as (s1 & created & Hnx & Hrun).
  unfold Redis.setnx in Hnx.
  destruct (Redis.peek now (userKey lu) s) as [e|] eqn:Hpeek.
  { injection Hnx as <- <-. simpl in Hrun.
    apply bind_inv in Hrun as (s2 & loggedIn & Hlog & Hrun).
    destruct loggedIn as [r|]; [|by apply ret_inv in Hrun as [_ ?]].
    apply ret_inv in Hrun as [_ <-].
    destruct (negb (String.eqb (default "" password) "")); [|by apply ret_inv in Hlog as [_ ?]].
    apply loginExisting_inv in Hlog as [[? _]|(hash & v & ? & _)]; done. }
  injection Hnx as <- <-. simpl in Hrun.
  apply bind_inv in Hrun as (s2 & y & Hset & Hrun).
  rewrite ?written_token in Hrun. fold T in Hrun.
  rewrite (issue_run now lu T _ s2 HT) in Hrun. injection Hrun as <- <-.
  assert (Hidem : Str.toLowerCase lu = lu) by apply toLowerCase_idem.
  assert (Hkey : getUserTokenKey lu T = getUserTokenKey name T)
    by apply getUserTokenKey_lower.
  rewrite !Hidem, !Hkey.
  assert (Hs2 : s2 !! userKey lu = Some (Entry (VUser (User lu now)) None) ∧
                ∀ pw, password = Some pw → pw ≠ "" →
                      s2 !! passwordKey lu = Some (Entry (VStr (hashPassword salt pw)) None)).
  { destruct (negb (String.eqb (default "" password) "")) eqn:Hp.
    - unfold setUserPasswordHash, Redis.set in Hset. injection Hset as <- _.
      assert (Hpk : passwordKey lu = passwordKey name).
      { unfold passwordKey. by rewrite Hidem. }
      rewrite !Hpk. split.
      + rewrite lookup_insert_ne by (unfold passwordKey, userKey; discriminate).
        by rewrite lookup_insert_eq.
      + intros pw -> _. simpl. by rewrite lookup_insert_eq.
    - apply ret_inv in Hset as [-> _]. split; [by rewrite lookup_insert_eq|].
      intros pw -> Hne. simpl in Hp. apply negb_false_iff, String.eqb_eq in Hp. done. }
  destruct Hs2 as [Huser Hpass].
  split; [done|]. split; [done|]. split; [done|]. split; [done|]. split.
  { rewrite !lookup_insert_ne; [done|unfold legacyTokenKey, userKey; discriminate
      |unfold getUserTokenKey, userKey; discriminate
      |unfold getTokenKey, userKey; discriminate
      |unfold lastTokenKey, userKey; discriminate]. }
  split.
  - intros pw Hpwd Hne. split.
    + rewrite Hpwd in Hpw. simpl in Hpw.
      assert (Hn : negb (String.eqb pw "") = true).
      { apply negb_true_iff. by apply String.eqb_neq. }
      rewrite Hn in Hpw. simpl in Hpw. apply Nat.ltb_ge in Hpw. done.
    + rewrite !lookup_insert_ne; [by apply Hpass
        |unfold legacyTokenKey, passwordKey; discriminate
        |unfold getUserTokenKey, passwordKey; discriminate
        |unfold getTokenKey, passwordKey; discriminate
        |unfold lastTokenKey, passwordKey; discriminate].
  - intros t Ht. by apply issued_valid.
Qed.

(** X19. [handleCreateUser] never touches the record or the password of a
    user who exists.  For a name that is taken it answers 400, 409 or, as a
    login, 200: the latter only when a password was given that verifies
    against the stored hash.  Whatever the outcome, the only key it can
    have written is the legacy token record of the name. *)
Theorem X19_create_user_taken now rnd salt name password s s' rep :
  let lu := Str.toLowerCase name in
  present now (userKey lu) s →
  handleCreateUser now rnd salt name password s = (s', Some rep) →
  (∀ k, k ≠ legacyTokenKey lu → s' !! k = s !! k) ∧
  (code rep = 400 ∨ code rep = 409 ∨ code rep = 200) ∧
  (code rep = 200 →
   ∃ pw hash, password = Some pw ∧
              Redis.value now (passwordKey lu) s = Some (VStr hash) ∧
              verifyPassword pw hash = true ∧
              ∃ v, content rep = RUserToken v (generateAuthToken rnd)).
Proof.
  intros lu Hex Hrun. unfold handleCreateUser in Hrun. fold lu in Hrun.
  destruct (String.eqb name ""); [apply ret_inv in Hrun as [-> ->]; split; [done|split; [simpl; auto|done]]|].
  destruct (isProfane name); [apply ret_inv in Hrun as [-> ->]; split; [done|split; [simpl; auto|done]]|].
  destruct (Nat.ltb MAX_USERNAME_LENGTH _); [apply ret_inv in Hrun as [-> ->]; split; [done|split; [simpl; auto|done]]|].
  destruct (Nat.ltb _ MIN_USERNAME_LENGTH); [apply ret_inv in Hrun as [-> ->]; split; [done|split; [simpl; auto|done]]|].
  destruct (_ && _)%bool; [apply ret_inv in Hrun as [-> ->]; split; [done|split; [simpl; auto|done]]|].
  destruct (USERNAME_REGEX lu); [|apply ret_inv in Hrun as [-> ->]; split; [done|split; [simpl; auto|done]]].
  simpl in Hrun.
  assert (Hnx : Redis.setnx now (userKey lu) (VUser (User lu now)) s = (s, Some false)).
  { unfold Redis.setnx. by destruct Hex as [e ->]. }
  unfold catch in Hrun. rewrite (bind_run _ _ _ _ _ Hnx) in Hrun. simpl in Hrun.
  destruct (negb (String.eqb (default "" password) "")) eqn:Hp.
  - unfold bind at 1 in Hrun.
    destruct (loginExisting now rnd lu (default "" password) s) as [s1 [res|]] eqn:Hlog.
    2:{ unfold loginExisting, catch in Hlog. by destruct (bind _ _ s) as [? [?|]]. }
    apply loginExisting_inv in Hlog
      as [[-> Hs1]|(hash & v & -> & Hhash & Hver & ->)].
    + apply ret_inv in Hrun as [-> ->]. split; [|split; [simpl; auto|done]].
      intros k Hk. destruct Hs1 as [-> | ->]; [done|by rewrite lookup_insert_ne].
    + apply ret_inv in Hrun as [-> ->]. split; [|split; [simpl; auto|]].
      * intros k Hk. by rewrite lookup_insert_ne.
      * intros _. destruct password as [pw|]; [|done]. by eauto 10.
  - rewrite (bind_run _ _ _ _ _ eq_refl) in Hrun.
    apply ret_inv in Hrun as [-> ->]. split; [done|split; [simpl; auto|done]].
Qed.
End Accounts.

Lemma X18_create_user_witness :
  (validateAuth 5000 "Carol" sampleToken false
     (@handleCreateUser sampleFilter sampleHasher 1000 sampleTokenBytes [] "Carol"
        (Some "password1") sampleChat).1).2 = Some authValid.
Proof.
  pose proof (@X18_create_user sampleFilter sampleHasher 1000 sampleTokenBytes [] "Carol"
                (Some "password1") sampleChat
                (@handleCreateUser sampleFilter sampleHasher 1000 sampleTokenBytes [] "Carol"
                   (Some "password1") sampleChat).1
                (RUserToken (VUser (User "carol" 1000)) sampleToken)) as X.
  destruct X as (_ & _ & _ & _ & _ & _ & X).
  - reflexivity.
  - apply run_snd; [reflexivity | vm_compute; reflexivity].
  - apply X. unfold USER_EXPIRATION_TIME. lia.
Defined.

Lemma X19_create_user_taken_witness :
  (@handleCreateUser sampleFilter sampleHasher 1000 sampleTokenBytes [] "Alice"
     (Some "password1") sampleChat).1 !! userKey "alice"
  = sampleChat !! userKey "alice".
Proof.
  pose proof (@X19_create_user_taken sampleFilter sampleHasher 1000 sampleTokenBytes []
                "Alice" (Some "password1") sampleChat
                (@handleCreateUser sampleFilter sampleHasher 1000 sampleTokenBytes [] "Alice"
                   (Some "password1") sampleChat).1
                (createErrorReply "Username already taken" 409)) as X.
  destruct X as (X & _).
  - unfold present. vm_compute. eauto.
  - apply run_snd; [reflexivity | vm_compute; reflexivity].
  - apply X. discriminate.
Defined.

(** *** Passwords *)

Section PasswordsProved.
Context `{PasswordHasher}.

Lemma passwordKey_lower u : passwordKey (Str.toLowerCase u) = passwordKey u.
Proof. unfold passwordKey. by rewrite toLowerCase_idem. Qed.

(** X20. [handleAuthenticateWithPassword] issues a token only to a user who
    exists and whose stored hash verifies the password given; the token of
    a 200 answer validates in strict mode until its lifetime has elapsed.
    An answer 400 or 401 leaves the store as it was. *)
Theorem X20_password_login now rnd name password oldToken s s' rep :
  handleAuthenticateWithPassword now rnd name password oldToken s = (s', Some rep) →
  (code rep = 400 ∨ code rep = 401 → s' = s) ∧
  (code rep = 200 →
   truthy (Redis.value now (userKey (Str.toLowerCase name)) s) = true ∧
   (∃ hash, Redis.value now (passwordKey name) s = Some (VStr hash) ∧
            verifyPassword password hash = true) ∧
   content rep = RTokenUser (generateAuthToken rnd) (Str.toLowerCase name) ∧
   (length rnd = TOKEN_LENGTH →
    ∀ t, t < now + USER_EXPIRATION_TIME * 1000 →
         (validateAuth t name (generateAuthToken rnd) false s').2 = Some authValid)).
Proof.
  intros Hrun. unfold handleAuthenticateWithPassword in Hrun.
  set (lu := Str.toLowerCase name) in *.
  destruct (String.eqb name "" || String.eqb password "")%bool eqn:Hreq;
    [apply ret_inv in Hrun as [-> ->]; by split|].
  apply orb_false_iff in Hreq as [Hname Hpw].
  apply catch_inv in Hrun as [Hrun|(s1 & _ & Hrun)];
    [|apply ret_inv in Hrun as [-> ->]; split; [by intros [|]|done]].
  apply bind_inv in Hrun as (s0 & userData & Hget & Hrun).
  apply get_inv in Hget as [-> Huser].
  destruct (truthy userData) eqn:Htu; [|apply ret_inv in Hrun as [-> ->]; by split].
  simpl in Hrun.
  apply bind_inv in Hrun as (s0 & ph & Hget & Hrun).
  assert (Hpk : passwordKey lu = passwordKey name) by apply passwordKey_lower.
  unfold getUserPasswordHash in Hget. rewrite Hpk in Hget.
  apply get_inv in Hget as [-> Hph].
  destruct (truthy ph) eqn:Htp; [|apply ret_inv in Hrun as [-> ->]; by split].
  simpl in Hrun.
  destruct ph as [[hash| | | | | | | | |]|]; try done.
  destruct (verifyPassword password hash) eqn:Hver;
    [|apply ret_inv in Hrun as [-> ->]; by split].
  simpl in Hrun.
  apply bind_inv in Hrun as (s1 & y & _ & Hrun).
  destruct (String.eqb (generateAuthToken rnd) "") eqn:HT.
  - (* an empty draw: only the legacy record and the grace record are written *)
    apply bind_inv in Hrun as (s2 & y2 & _ & Hrun).
    apply bind_inv in Hrun as (s3 & y3 & _ & Hrun).
    apply bind_inv in Hrun as (s4 & y4 & _ & Hrun).
    apply ret_inv in Hrun as [_ ->]. split; [by intros [|]|]. intros _.
    split; [unfold userKey; by rewrite Huser|]. split; [by eauto|]. split; [done|].
    intros Hlen. by rewrite (generateAuthToken_nonempty rnd Hlen) in HT.
  - rewrite written_token in Hrun.
    rewrite (issue_run now lu _ _ s1 HT) in Hrun. injection Hrun as <- <-.
    split; [by intros [|]|]. intros _.
    split; [unfold userKey; by rewrite Huser|]. split; [by eauto|]. split; [done|].
    intros _ t Ht. unfold lu. rewrite toLowerCase_idem, getUserTokenKey_lower.
    apply issued_valid; [apply toHex_isHex|done..].
Qed.

(** X21. A password set with [handleSetPassword] has at least 8 characters;
    from then on [handleCheckPassword] reports that the user has a
    password, and [handleAuthenticateWithPassword] with this password logs
    the user in (200, with a token that validates), while a password that
    the hash does not verify is refused with 401 and nothing is written.
    The hasher verifies the hashes it makes, and makes no empty hash. *)
Theorem X21_password_round_trip now salt pw u s s1 :
  (∀ salt pw, verifyPassword pw (hashPassword salt pw) = true) →
  (∀ salt pw, hashPassword salt pw ≠ "") →
  handleSetPassword now salt (Some pw) u s = (s1, Some (Response 200 BSuccess)) →
  (PASSWORD_MIN_LENGTH ≤ String.length pw)%nat ∧
  (∀ t, handleCheckPassword t u s1 = (s1, Some (Reply 200 (RHasPassword true u)))) ∧
  (∀ t rnd usr,
     length rnd = TOKEN_LENGTH → String.eqb u "" = false →
     Redis.value t (userKey (Str.toLowerCase u)) s1 = Some (VUser usr) →
     (handleAuthenticateWithPassword t rnd u pw "" s1).2
     = Some (Reply 200 (RTokenUser (generateAuthToken rnd) (Str.toLowerCase u))) ∧
     ∀ t', t' < t + USER_EXPIRATION_TIME * 1000 →
       (validateAuth t' u (generateAuthToken rnd) false
          (handleAuthenticateWithPassword t rnd u pw "" s1).1).2 = Some authValid) ∧
  (∀ t rnd usr pw',
     String.eqb u "" = false → String.eqb pw' "" = false →
     Redis.value t (userKey (Str.toLowerCase u)) s1 = Some (VUser usr) →
     verifyPassword pw' (hashPassword salt pw) = false →
     handleAuthenticateWithPassword t rnd u pw' "" s1
     = (s1, Some (createErrorReply "Invalid username or password" 401))).
Proof.
  intros Hverify Hnonempty Hset. unfold handleSetPassword in Hset.
  destruct (String.eqb pw "") eqn:Hpw0; [by apply ret_inv in Hset as [_ ?]|].
  destruct (Nat.ltb (String.length pw) PASSWORD_MIN_LENGTH) eqn:Hlen;
    [by apply ret_inv in Hset as [_ ?]|].
  apply Nat.ltb_ge in Hlen.
  apply catch_inv in Hset as [Hset|(s2 & _ & Hset)]; [|by apply ret_inv in Hset as [_ ?]].
  apply bind_inv in Hset as (s2 & y & Hset & Hret). apply ret_inv in Hret as [-> _].
  unfold setUserPasswordHash, Redis.set in Hset. injection Hset as <- _.
  set (hash := hashPassword salt pw) in *.
  set (s1 := <[passwordKey u := Entry (VStr hash) None]> s).
  assert (Hhash : ∀ t, Redis.value t (passwordKey u) s1 = Some (VStr hash)).
  { intros t. unfold s1. by rewrite value_insert, decide_True. }
  assert (Htr : truthy (Some (VStr hash)) = true).
  { simpl. apply negb_true_iff, String.eqb_neq, Hnonempty. }
  assert (Hstart : ∀ t rnd usr pw',
            String.eqb u "" = false → String.eqb pw' "" = false →
            Redis.value t (userKey (Str.toLowerCase u)) s1 = Some (VUser usr) →
            handleAuthenticateWithPassword t rnd u pw' "" s1
            = catch
                (if negb (verifyPassword pw' hash)
                 then ret (createErrorReply "Invalid username or password" 401)
                 else
                   ret tt ;;
                   Redis.set t (legacyTokenKey (Str.toLowerCase u))
                     (VStr (generateAuthToken rnd)) (Some USER_EXPIRATION_TIME) ;;
                   storeToken t (Str.toLowerCase u) (generateAuthToken rnd) ;;
                   storeLastValidToken t (Str.toLowerCase u) (generateAuthToken rnd)
                     (t + USER_EXPIRATION_TIME * 1000)
                     (USER_EXPIRATION_TIME + TOKEN_GRACE_PERIOD) ;;
                   ret (Reply 200 (RTokenUser (generateAuthToken rnd) (Str.toLowerCase u))))
                (ret (createErrorReply "Failed to authenticate" 500)) s1).
  { intros t rnd usr pw' Hu Hpw' Huser. unfold handleAuthenticateWithPassword, catch.
    rewrite Hu, Hpw'. simpl.
    rewrite (bind_run _ _ _ _ _ (get_run _ _ _ _ Huser eq_refl)). simpl.
    unfold getUserPasswordHash. rewrite passwordKey_lower.
    rewrite (bind_run _ _ _ _ _ (get_run _ _ _ _ (Hhash t) eq_refl)).
    by rewrite Htr, written_token. }
  split; [done|]. split; [|split].
  - intros t. unfold handleCheckPassword, catch, getUserPasswordHash.
    rewrite (bind_run _ _ _ _ _ (get_run _ _ _ _ (Hhash t) eq_refl)).
    by rewrite Htr.
  - intros t rnd usr Hrnd Hu Huser.
    pose proof (generateAuthToken_nonempty rnd Hrnd) as HT.
    rewrite (Hstart t rnd usr pw Hu Hpw0 Huser). unfold hash. rewrite Hverify.
    unfold catch. cbn [negb]. rewrite (bind_run _ _ _ _ _ eq_refl).
    rewrite (issue_run t _ _ _ s1 HT). split; [done|].
    intros t' Ht'. cbn [fst]. rewrite toLowerCase_idem, getUserTokenKey_lower.
    apply issued_valid; [apply toHex_isHex|done..].
  - intros t rnd usr pw' Hu Hpw' Huser Hno.
    rewrite (Hstart t rnd usr pw' Hu Hpw' Huser). fold hash in Hno.
    unfold catch. by rewrite Hno.
Qed.
End PasswordsProved.

Lemma X20_password_login_witness :
  (validateAuth 5000 "alice" sampleToken false
     (@handleAuthenticateWithPassword sampleHasher 2000 sampleTokenBytes "Alice" "password1" ""
        (@handleSetPassword sampleHasher 1000 [] (Some "password1") "alice" sampleChat).1).1).2
  = Some authValid.
Proof.
  pose proof (@X20_password_login sampleHasher 2000 sampleTokenBytes "Alice" "password1" ""
                (@handleSetPassword sampleHasher 1000 [] (Some "password1") "alice" sampleChat).1
                (@handleAuthenticateWithPassword sampleHasher 2000 sampleTokenBytes "Alice"
                   "password1" ""
                   (@handleSetPassword sampleHasher 1000 [] (Some "password1") "alice"
                      sampleChat).1).1
                (Reply 200 (RTokenUser sampleToken "alice"))) as X.
  destruct X as (_ & X).
  - apply run_snd; [reflexivity | vm_compute; reflexivity].
  - destruct (X eq_refl) as (_ & _ & _ & Hvalid).
    apply Hvalid; [reflexivity|]. unfold USER_EXPIRATION_TIME. lia.
Defined.

Lemma X21_password_round_trip_witness :
  @handleCheckPassword 1500 "alice"
    (@handleSetPassword sampleHasher 1000 [] (Some "password1") "alice" sampleChat).1
  = ((@handleSetPassword sampleHasher 1000 [] (Some "password1") "alice" sampleChat).1,
     Some (Reply 200 (RHasPassword true "alice"))).
Proof.
  pose proof (@X21_password_round_trip sampleHasher 1000 [] "password1" "alice" sampleChat
                (@handleSetPassword sampleHasher 1000 [] (Some "password1") "alice"
                   sampleChat).1) as X.
  destruct X as (_ & X & _).
  - intros salt pw. simpl. apply String.eqb_refl.
  - intros salt pw. discriminate.
  - apply run_snd; [reflexivity | vm_compute; reflexivity].
  - apply X.
Defined.
(* ===================================================================== *)
(** ** Further properties: refused token requests, users, switching rooms *)
(* ===================================================================== *)

Lemma valid_false_invalid r : valid r = false → r ≠ authValid.
Proof. by intros H ->. Qed.

(** X24. [handleGenerateToken] issues a token only to a user whose record
    exists, and writes nothing when it answers anything but 201.
    [handleRefreshToken] answers 201 only when the record of the user exists
    and [validateAuth], expired tokens allowed, accepts the old token; when
    it answers 400, 401 or 404 it has written nothing. *)
Theorem X24_token_requests now rnd u old s :
  let lu := Str.toLowerCase u in
  (∀ s' resp,
     handleGenerateToken now rnd u s = (s', Some resp) →
     (status resp = 201 →
      truthy (Redis.value now (CHAT_USERS_PREFIX +:+ lu) s) = true) ∧
     (status resp ≠ 201 → s' = s)) ∧
  (∀ s' resp,
     handleRefreshToken now rnd u old s = (s', Some resp) →
     (status resp = 201 →
      truthy (Redis.value now (CHAT_USERS_PREFIX +:+ lu) s) = true ∧
      ∃ r, (validateAuth now lu old true s).2 = Some r ∧ valid r = true) ∧
     (status resp = 400 ∨ status resp = 401 ∨ status resp = 404 → s' = s)).
Proof.
  intros lu. split.
  - intros s' resp H. unfold handleGenerateToken in H. fold lu in H.
    destruct (String.eqb u ""); [apply ret_inv in H as [-> ->]; by split|].
    apply catch_inv in H as [H|(s1 & H & Hh)].
    + apply bind_inv in H as (sa & userData & Hget & H).
      apply get_inv in Hget as [-> Hget]. rewrite Hget.
      destruct (truthy userData); simpl in H;
        [|apply ret_inv in H as [-> ->]; by split].
      apply bind_inv in H as (sb & ? & _ & H).
      apply bind_inv in H as (sc & ? & _ & H).
      apply bind_inv in H as (sd & ? & _ & H).
      apply bind_inv in H as (se & ? & _ & H).
      apply ret_inv in H as [_ ->]. by split.
    + apply ret_inv in Hh as [-> ->]. split; [done|]. intros _.
      destruct (get_cases now (CHAT_USERS_PREFIX +:+ lu) s) as [E|[v E]].
      { rewrite (bind_fail _ _ _ _ E) in H. by simplify_eq. }
      rewrite (bind_run _ _ _ _ _ E) in H.
      destruct (truthy v); simpl in H; [|done].
      destruct (get_cases now (legacyTokenKey lu) s) as [E'|[v' E']].
      { rewrite (bind_fail _ _ _ _ E') in H. by simplify_eq. }
      rewrite (bind_run _ _ _ _ _ E') in H.
      unfold bind, Redis.set, storeToken, storeLastValidToken in H.
      by repeat case_match.
  - intros s' resp H. unfold handleRefreshToken in H. fold lu in H.
    destruct (_ || _)%bool; [apply ret_inv in H as [-> ->]; split; [done|auto]|].
    apply catch_inv in H as [H|(s1 & H & Hh)];
      [|apply ret_inv in Hh as [-> ->]; split; [done|by intros [|[|]]]].
    apply bind_inv in H as (sa & userData & Hget & H).
    apply get_inv in Hget as [-> Hget]. rewrite Hget.
    destruct (truthy userData); simpl in H;
      [|apply ret_inv in H as [-> ->]; split; [done|auto]].
    apply bind_inv in H as (s1 & vr & Hval & H).
    destruct (valid vr) eqn:Hvr; simpl in H.
    + apply bind_inv in H as (s2 & ? & _ & H).
      apply bind_inv in H as (s3 & ? & _ & H).
      apply bind_inv in H as (s4 & ? & _ & H).
      apply bind_inv in H as (s5 & ? & _ & H).
      apply ret_inv in H as [_ ->]. split; [|by intros [|[|]]].
      intros _. split; [done|]. exists vr. by rewrite Hval.
    + apply ret_inv in H as [-> ->]. split; [done|]. intros _.
      rewrite (run_fst _ _ _ _ Hval). apply validateAuth_quiet.
      rewrite Hval. simpl. intros [= ->]. done.
Qed.

Lemma X24_token_requests_witness :
  (handleRefreshToken 2000 sampleTokenBytes' "alice" "stale" sampleIssued).1
  = sampleIssued.
Proof.
  refine (proj2 (proj2 (X24_token_requests 2000 sampleTokenBytes' "alice" "stale"
                          sampleIssued) _
                   (createErrorResponse "Invalid authentication token" 401) _) _).
  - apply run_snd; [reflexivity | vm_compute; reflexivity].
  - simpl. auto.
Defined.

Section Users.
Context `{ProfanityFilter}.

(** X25. [ensureUserExists] changes no key but the record of the user, and
    not even that one when it rejects the name or when the key of the record
    holds something.  When the name is accepted and the key holds nothing,
    it writes the record [{username, lastActive: now}], without expiry, and
    returns it.  Whenever it returns, rather than throws, the name is
    accepted and the record it leaves is truthy. *)
Theorem X25_ensureUserExists now u s s' r :
  ensureUserExists now u s = (s', Some r) →
  (∀ k, k ≠ userKey u → s' !! k = s !! k) ∧
  (nameAccepted u = false ∨ present now (userKey u) s → s' = s) ∧
  (nameAccepted u = true → Redis.peek now (userKey u) s = None →
   s' = <[userKey u := Entry (VUser (User u now)) None]> s ∧
   r = inr (Some (VUser (User u now)))) ∧
  (∀ v, r = inr v →
        nameAccepted u = true ∧ truthy (Redis.value now (userKey u) s') = true).
Proof.
  intros Hrun. split.
  { intros k Hk. rewrite (run_fst _ _ _ _ Hrun).
    by apply ensureUserExists_untouched. }
  destruct (nameAccepted u) eqn:Hacc.
  - rewrite (ensureUserExists_accepted _ _ Hacc) in Hrun.
    apply bind_inv in Hrun as (s0 & d & Hget & Hrun).
    apply get_inv in Hget as [-> Hd].
    destruct (truthy d) eqn:Htr.
    { apply ret_inv in Hrun as [-> ->]. split; [done|]. split.
      - intros _ Hp. unfold Redis.value in Hd. rewrite Hp in Hd.
        by rewrite <- Hd in Htr.
      - intros v _. split; [done|]. by rewrite Hd. }
    apply bind_inv in Hrun as (s1 & created & Hnx & Hrun).
    unfold Redis.setnx in Hnx.
    destruct (Redis.peek now (userKey u) s) as [e|] eqn:Hp.
    + injection Hnx as <- <-.
      apply bind_inv in Hrun as (s2 & d' & Hget & Hrun).
      apply get_inv in Hget as [-> Hd']. rewrite Hd in Hd'. subst d'.
      rewrite Htr in Hrun. apply ret_inv in Hrun as [-> ->].
      split; [done|]. split; [done|]. by intros v.
    + injection Hnx as <- <-. apply ret_inv in Hrun as [-> ->].
      split; [intros [?|[e He]]; [done|by rewrite Hp in He]|]. split; [done|].
      intros v _. split; [done|].
      unfold Redis.value, Redis.peek. by rewrite lookup_insert_eq.
  - assert (s' = s ∧ ∃ e, r = inl e) as [-> [e ->]].
    { unfold ensureUserExists, nameAccepted in *.
      destruct (isProfane u); [apply ret_inv in Hrun as [-> ->]; eauto|].
      destruct (Nat.ltb (String.length u) _); [apply ret_inv in Hrun as [-> ->]; eauto|].
      destruct (Nat.ltb MAX_USERNAME_LENGTH _); [apply ret_inv in Hrun as [-> ->]; eauto|].
      destruct (USERNAME_REGEX u); [done|]. apply ret_inv in Hrun as [-> ->]; eauto. }
    split; [done|]. split; [done|]. by intros v.
Qed.
End Users.

Lemma X25_ensureUserExists_witness :
  (@ensureUserExists sampleFilter 1000 "carol" sampleChat).1
  = <[userKey "carol" := Entry (VUser (User "carol" 1000)) None]> sampleChat.
Proof.
  refine (proj1 (proj1 (proj2 (proj2 (@X25_ensureUserExists sampleFilter 1000 "carol"
            sampleChat _ (inr (Some (VUser (User "carol" 1000)))) _))) _ _)).
  - apply run_snd; [reflexivity | vm_compute; reflexivity].
  - reflexivity.
  - vm_compute. reflexivity.
Defined.

(** *** Switching rooms *)

Lemma untouched_at {A} k (m : M A) s s' r :
  untouched k m → m s = (s', r) → s' !! k = s !! k.
Proof. intros Hm E. rewrite <- (Hm s). by rewrite E. Qed.

Lemma presenceKey_room_inj r r' u : presenceKey r u = presenceKey r' u → r = r'.
Proof.
  unfold presenceKey. intros E%(inj (String.app _)).
  by apply app_inj_tail in E.
Qed.

Lemma roomKey_inj r r' : roomKey r = roomKey r' → r = r'.
Proof. unfold roomKey. by intros E%(inj (String.app _)). Qed.

Lemma presenceKey_ne_user r u x : presenceKey r u ≠ userKey x.
Proof. apply presence_ne_user. Qed.

Lemma presenceKey_ne_room r u x : presenceKey r u ≠ roomKey x.
Proof. apply presence_ne_room. Qed.

Lemma presenceKey_ne_roomUsers r u x : presenceKey r u ≠ roomUsersKey x.
Proof. apply presence_ne_roomUsers. Qed.

Lemma given_text p n :
  given p = true → given n = true → p ≠ n → textOf p ≠ textOf n.
Proof. destruct p, n; simpl; try done. intros _ _ Hne E. apply Hne. by f_equal. Qed.

Section Switch.
Context `{ProfanityFilter}.

(** X26. [handleSwitchRoom] writes nothing when it answers 400 or when the
    two room ids are the same.  When it answers with success or with 404 and
    a previous room was given whose record exists, the presence of the user
    in it is removed if the room is not private and left as it was if the
    room is private.  It answers 404 only when the record of the next room
    is missing.  When it answers with success and a next room was given, the
    record of that room existed, the presence of the user in it is set for
    24 hours, and the record of the user is [{username, lastActive: now}]. *)
Theorem X26_switch_room now p n u s s' rep :
  handleSwitchRoom now p n u s = (s', Some rep) →
  let lu := Str.toLowerCase u in
  (code rep = 400 ∨ p = n → s' = s) ∧
  (content rep = RSuccess ∨ code rep = 404 →
   given p = true →
   ∀ v, Redis.value now (roomKey (textOf p)) s = Some v → truthy (Some v) = true →
        if isPrivate v
        then s' !! presenceKey (textOf p) lu = s !! presenceKey (textOf p) lu
        else s' !! presenceKey (textOf p) lu = None) ∧
  (code rep = 404 →
   given n = true ∧ truthy (Redis.value now (roomKey (textOf n)) s) = false) ∧
  (content rep = RSuccess → given n = true →
   truthy (Redis.value now (roomKey (textOf n)) s) = true ∧
   s' !! presenceKey (textOf n) lu
   = Some (Entry (VNum now) (Some (now + ROOM_PRESENCE_TTL_SECONDS * 1000))) ∧
   s' !! userKey lu = Some (Entry (VUser (User lu now)) None)).
Proof.
  intros Hrun lu. unfold handleSwitchRoom in Hrun. fold lu in Hrun.
  destruct (String.eqb lu "");
    [apply ret_inv in Hrun as [-> ->]; split; [done|]; split; [by intros [|]|done]|].
  destruct (_ || _)%bool eqn:Hids;
    [apply ret_inv in Hrun as [-> ->]; split; [done|]; split; [by intros [|]|done]|].
  apply orb_false_iff in Hids as [Hp Hn].
  assert (Hpr : given p = true → ROOM_ID_REGEX (textOf p) = true).
  { intros E. rewrite E in Hp. by destruct (ROOM_ID_REGEX (textOf p)). }
  assert (Hnr : given n = true → ROOM_ID_REGEX (textOf n) = true).
  { intros E. rewrite E in Hn. by destruct (ROOM_ID_REGEX (textOf n)). }
  clear Hp Hn.
  destruct (bool_decide (p = n)) eqn:Hpn;
    [apply ret_inv in Hrun as [-> ->]; split; [done|]; split; [by intros [|]|done]|].
  apply bool_decide_eq_false in Hpn.
  apply catch_inv in Hrun as [Hrun|(s1 & _ & Hh)];
    [|apply ret_inv in Hh as [-> ->]; split; [by intros [|]|];
      split; [by intros [|]|done]].
  apply bind_inv in Hrun as (s1 & ensured & Hens & Hrun).
  destruct ensured as [e|ensured]; [done|].
  apply bind_inv in Hrun as (s2 & [] & Hleave & Hjoin).
  set (kp := presenceKey (textOf p) lu) in *.
  (* the keys that [ensureUserExists] leaves *)
  assert (H1 : ∀ k, k ≠ userKey lu → s1 !! k = s !! k).
  { intros k Hk. eapply untouched_at; [|exact Hens].
    by apply ensureUserExists_untouched. }
  (* leaving the previous room *)
  assert (Hleft : (∀ k, k ≠ kp → k ≠ roomKey (textOf p) →
                        k ≠ roomUsersKey (textOf p) → s2 !! k = s1 !! k) ∧
                  (given p = true →
                   ∀ v, Redis.value now (roomKey (textOf p)) s1 = Some v →
                        truthy (Some v) = true →
                        if isPrivate v then s2 = s1 else s2 !! kp = None)).
  { destruct (given p) eqn:Hgp; [|apply ret_inv in Hleave as [-> _]; by split].
    apply bind_inv in Hleave as (s0 & raw & Hget & Hleave).
    apply get_inv in Hget as [-> Hraw].
    destruct (truthy raw) eqn:Htr.
    2:{ apply ret_inv in Hleave as [-> _]. split; [done|].
        intros _ v Hv Hvt. rewrite Hv in Hraw. subst raw. by rewrite Hvt in Htr. }
    assert (Hpub : ∀ roomData, raw = Some roomData →
              (if negb (isPrivate roomData)
               then Redis.del now kp ;; refreshRoomUserCount now (textOf p) ;; ret tt
               else ret tt) s1 = (s2, Some tt) →
              (∀ k, k ≠ kp → k ≠ roomKey (textOf p) →
                    k ≠ roomUsersKey (textOf p) → s2 !! k = s1 !! k) ∧
              (true = true →
               ∀ v, Redis.value now (roomKey (textOf p)) s1 = Some v →
                    truthy (Some v) = true →
                    if isPrivate v then s2 = s1 else s2 !! kp = None)).
    { intros roomData -> Hl.
      destruct (isPrivate roomData) eqn:Hpriv; simpl in Hl.
      { apply ret_inv in Hl as [-> _]. split; [done|].
        intros _ v Hv _. rewrite Hraw in Hv. injection Hv as <-. by rewrite Hpriv. }
      apply bind_inv in Hl as (sa & removed & Hdel & Hl).
      apply bind_inv in Hl as (sb & cnt & Hcnt & Hl).
      apply ret_inv in Hl as [-> _].
      destruct (del_run now kp s1) as [m Hm]. rewrite Hm in Hdel.
      injection Hdel as <- _.
      split.
      - intros k Hk1 Hk2 Hk3.
        rewrite (untouched_at k _ _ _ _
                   (untouched_refreshRoomUserCount k now (textOf p) Hk3 Hk2) Hcnt).
        by apply lookup_delete_ne, not_eq_sym.
      - intros _ v Hv _. rewrite Hraw in Hv. injection Hv as <-. rewrite Hpriv.
        rewrite (untouched_at kp _ _ _ _
                   (untouched_refreshRoomUserCount kp now (textOf p)
                      (presenceKey_ne_roomUsers _ _ _) (presenceKey_ne_room _ _ _)) Hcnt).
        apply lookup_delete_eq. }
    destruct raw as [[]|]; try done; by eapply Hpub. }
  destruct Hleft as [Hother Hprev].
  (* what the previous room holds after [ensureUserExists] *)
  assert (Hprev' : given p = true →
            ∀ v, Redis.value now (roomKey (textOf p)) s = Some v →
                 truthy (Some v) = true →
                 if isPrivate v then s2 !! kp = s !! kp else s2 !! kp = None).
  { intros Hgp v Hv Hvt.
    assert (Hv1 : Redis.value now (roomKey (textOf p)) s1 = Some v).
    { unfold Redis.value, Redis.peek in *. rewrite H1; [done|].
      apply not_eq_sym, user_ne_room. }
    specialize (Hprev Hgp v Hv1 Hvt). destruct (isPrivate v); [|done].
    rewrite Hprev. apply H1, presenceKey_ne_user. }
  (* the record of the next room is not written before it is read *)
  assert (Hnext : given n = true →
            Redis.value now (roomKey (textOf n)) s2
            = Redis.value now (roomKey (textOf n)) s).
  { intros Hgn. unfold Redis.value, Redis.peek.
    destruct (given p) eqn:Hgp.
    - rewrite Hother, H1; [done|apply not_eq_sym, user_ne_room|..].
      + apply not_eq_sym, presenceKey_ne_room.
      + intros E%roomKey_inj. by apply (given_text p n).
      + by apply room_ne_roomUsers, Hnr.
    - apply ret_inv in Hleave as [-> _]. rewrite H1; [done|].
      apply not_eq_sym, user_ne_room. }
  assert (Hfirst : code rep ≠ 400 → code rep = 400 ∨ p = n → s' = s)
    by (by intros ? [|]).
  destruct (given n) eqn:Hgn.
  2:{ apply bind_inv in Hjoin as (s3 & [] & Hb & Hjoin).
      apply ret_inv in Hjoin as [-> ->].
      split; [by apply Hfirst|]. split; [|by split].
      intros _ Hgp v Hv Hvt. specialize (Hprev' Hgp v Hv Hvt).
      unfold broadcastRoomsUpdated in Hb.
      rewrite (untouched_at kp _ _ _ _
                 (untouched_broadcast kp now (presenceKey_ne_roomUsers _ _)) Hb).
      exact Hprev'. }
  specialize (Hnext eq_refl).
  apply bind_inv in Hjoin as (s0 & raw & Hget & Hjoin).
  apply get_inv in Hget as [-> Hraw]. rewrite Hnext in Hraw.
  destruct (truthy raw) eqn:Htr; simpl in Hjoin.
  2:{ apply ret_inv in Hjoin as [-> ->].
      split; [by apply Hfirst|]. split; [|split; [|done]].
      - intros _. exact Hprev'.
      - intros _. split; [done|]. by rewrite Hraw. }
  apply bind_inv in Hjoin as (s3 & [] & Hset & Hjoin).
  unfold setRoomPresence, Redis.set in Hset. injection Hset as <-.
  apply bind_inv in Hjoin as (s4 & cnt & Hcnt & Hjoin).
  assert (Htail : ∀ roomData,
            (Redis.set now (roomKey (textOf n)) (withUserCount roomData cnt) None ;;
             Redis.set now (userKey lu) (VUser (User lu now)) None ;;
             broadcastRoomsUpdated now ;;
             ret (Reply 200 RSuccess)) s4 = (s', Some rep) →
            rep = Reply 200 RSuccess ∧
            (∀ k, k ≠ roomKey (textOf n) → k ≠ userKey lu →
                  (∀ x, k ≠ roomUsersKey x) → s' !! k = s4 !! k) ∧
            s' !! userKey lu = Some (Entry (VUser (User lu now)) None)).
  { intros roomData Ht.
    apply bind_inv in Ht as (s5 & [] & Hs5 & Ht).
    unfold Redis.set in Hs5. injection Hs5 as <-.
    apply bind_inv in Ht as (s6 & [] & Hs6 & Ht).
    unfold Redis.set in Hs6. injection Hs6 as <-.
    apply bind_inv in Ht as (s7 & [] & Hb & Ht).
    apply ret_inv in Ht as [-> ->]. split; [done|].
    unfold broadcastRoomsUpdated in Hb. split.
    - intros k Hk1 Hk2 Hk3.
      rewrite (untouched_at k _ _ _ _ (untouched_broadcast k now Hk3) Hb).
      rewrite !lookup_insert_ne; [done|by apply not_eq_sym..].
    - rewrite (untouched_at _ _ _ _ _
                 (untouched_broadcast (userKey lu) now (user_ne_roomUsers lu)) Hb).
      apply lookup_insert_eq. }
  assert (Hend : rep = Reply 200 RSuccess ∧
            (∀ k, k ≠ roomKey (textOf n) → k ≠ userKey lu →
                  (∀ x, k ≠ roomUsersKey x) → s' !! k = s4 !! k) ∧
            s' !! userKey lu = Some (Entry (VUser (User lu now)) None)).
  { destruct raw as [[]|]; try done; by eapply Htail. }
  clear Htail Hjoin. destruct Hend as (-> & Hkeep & Huser).
  assert (H4 : ∀ k, k ≠ roomKey (textOf n) → (∀ x, k ≠ roomUsersKey x) →
                    s4 !! k = <[presenceKey (textOf n) lu :=
                                  Entry (VNum now) (Redis.expiry now ROOM_PRESENCE_TTL_SECONDS)]>
                                s2 !! k).
  { intros k Hk1 Hk2. eapply untouched_at; [|exact Hcnt].
    by apply untouched_refreshRoomUserCount. }
  split; [by apply Hfirst|]. split; [|split; [done|]].
  - intros _ Hgp v Hv Hvt. specialize (Hprev' Hgp v Hv Hvt).
    rewrite Hkeep, H4; try apply presenceKey_ne_room; try apply presenceKey_ne_user;
      try apply presenceKey_ne_roomUsers.
    rewrite lookup_insert_ne; [exact Hprev'|].
    intros E%presenceKey_room_inj. by apply (given_text p n).
  - intros _ _. split; [by rewrite Hraw|]. split; [|done].
    rewrite Hkeep, H4; try apply presenceKey_ne_room; try apply presenceKey_ne_user;
      try apply presenceKey_ne_roomUsers.
    by rewrite lookup_insert_eq.
Qed.
End Switch.

Lemma X26_switch_room_witness :
  (@handleSwitchRoom sampleFilter 5000 (FStr "dm1") (FStr "general") "Alice"
     sampleChat).1 !! presenceKey "dm1" "alice"
  = sampleChat !! presenceKey "dm1" "alice" ∧
  (@handleSwitchRoom sampleFilter 5000 (FStr "dm1") (FStr "general") "Alice"
     sampleChat).1 !! presenceKey "general" "alice"
  = Some (Entry (VNum 5000) (Some (5000 + ROOM_PRESENCE_TTL_SECONDS * 1000))).
Proof.
  pose proof (@X26_switch_room sampleFilter 5000 (FStr "dm1") (FStr "general") "Alice"
                sampleChat
                (@handleSwitchRoom sampleFilter 5000 (FStr "dm1") (FStr "general") "Alice"
                   sampleChat).1
                (Reply 200 RSuccess)) as X.
  destruct X as (_ & Xp & _ & Xn).
  - apply run_snd; [reflexivity | vm_compute; reflexivity].
  - split.
    + exact (Xp (or_introl eq_refl) eq_refl
               (VRoom (Room "dm1" "@alice, @bob" (Some "private") 0 2
                         (Some ["alice"; "bob"]))) eq_refl eq_refl).
    + exact (proj1 (proj2 (Xn eq_refl eq_refl))).
Defined.

(** *** Which rooms a user is shown *)

(** X27. [handleGetRooms] shows a user the rooms that [filterRoomsForUser]
    selects for the channel of that user.  These are, in the order found,
    the rooms that are public (no type, or the type [public]) and the
    private rooms that list the user, in lower case, among their members: a
    private room is shown to no one else, and to nobody when no username is
    given. *)
Theorem X27_room_visibility :
  (∀ rooms q, visibleRooms q rooms = filterRoomsForUser rooms q) ∧
  (∀ rooms q room,
     In room (filterRoomsForUser rooms q) ↔
     In room rooms ∧
     (isPublicRoom room = true ∨
      ∃ u members, q = Some u ∧ u ≠ "" ∧ isPrivate room = true ∧
                   membersOf room = Some members ∧
                   Str.toLowerCase u ∈ members)).
Proof.
  split.
  - intros rooms q. unfold visibleRooms, filterRoomsForUser.
    destruct q as [u|]; simpl.
    + rewrite toLowerCase_eq_empty. destruct (String.eqb u "").
      * apply filter_ext. intros room.
        destruct (isPublicRoom room); [done|].
        destruct (isPrivate room); [|done]. by destruct (membersOf room).
      * apply filter_ext. intros room.
        destruct (isPublicRoom room); [done|].
        destruct (isPrivate room); [|done]. by destruct (membersOf room).
    + apply filter_ext. intros room.
      destruct (isPublicRoom room); [done|].
      destruct (isPrivate room); [|done]. by destruct (membersOf room).
  - intros rooms q room. unfold filterRoomsForUser.
    destruct (String.eqb (default "" q) "") eqn:Hq; rewrite filter_In.
    + split; [intros [? ?]; auto|]. intros [Hin [Hpub|(u & ms & -> & Hu & _)]]; [done|].
      simpl in Hq. by apply String.eqb_eq in Hq.
    + split.
      * intros [Hin Hsel]. split; [done|].
        destruct (isPublicRoom room); [by left|]. right.
        destruct q as [u|]; [|done]. simpl in *.
        destruct (isPrivate room); [|done].
        destruct (membersOf room) as [ms|]; [|done].
        exists u, ms. apply bool_decide_eq_true in Hsel.
        split; [done|]. split; [|done]. intros ->. done.
      * intros [Hin [->|(u & ms & -> & Hu & -> & -> & Hmem)]]; [done|].
        split; [done|]. destruct (isPublicRoom room); [done|].
        by apply bool_decide_eq_true.
Qed.

(** *** Reading and leaving a room *)

Lemma messages_ne_room r x : messagesKey r ≠ roomKey x.
Proof. unfold messagesKey, roomKey, CHAT_MESSAGES_PREFIX, CHAT_ROOM_PREFIX. discriminate. Qed.

(** [refreshRoomUserCount] writes the count into a record that is there. *)
Lemma refreshRoomUserCount_record now r s s' n v :
  ROOM_ID_REGEX r = true →
  refreshRoomUserCount now r s = (s', Some n) →
  Redis.value now (roomKey r) s = Some v → truthy (Some v) = true →
  (∀ x, v ≠ VStr x) →
  s' !! roomKey r = Some (Entry (withUserCount v n) None).
Proof.
  intros Hr Hrun Hv Htr Hstr.
  pose proof (refreshRoomUserCount_count _ _ _ _ _ Hrun) as Hn.
  unfold refreshRoomUserCount in Hrun.
  apply bind_inv in Hrun as (s1 & l & Hl & Hrun).
  assert (Hv1 : Redis.value now (roomKey r) s1 = Some v).
  { rewrite (run_fst _ _ _ _ Hl), untouched_value; [done|].
    by apply untouched_getActiveUsersAndPrune, room_ne_roomUsers. }
  apply getActiveUsersAndPrune_inv in Hl as ->.
  unfold activeIn in *. rewrite length_fmap in Hrun. rewrite <- Hn in Hrun.
  apply bind_inv in Hrun as (s0 & raw & Hget & Hrun).
  apply get_inv in Hget as [-> Hraw]. rewrite Hv1 in Hraw. subst raw.
  assert (Hset : (Redis.set now (roomKey r) (withUserCount v n) None ;; ret n) s1
                 = (s', Some n) →
                 s' !! roomKey r = Some (Entry (withUserCount v n) None)).
  { intros (s2 & [] & Hs & Hret)%bind_inv. apply ret_inv in Hret as [-> _].
    unfold Redis.set in Hs. injection Hs as <-. apply lookup_insert_eq. }
  destruct v as [x| | | | | | | | |]; [by destruct (Hstr x)|..]; try (by apply Hset).
  all: simpl in Hrun, Htr; try done; rewrite ?Htr in Hrun; by apply Hset.
Qed.

(** X28. [handleGetRoom] answers 500, not 400, for a room id that is not
    alphanumeric, and 404 when the room has no record; it writes nothing in
    both cases.  When it answers 200 the body carries the record and, as
    [userCount], the number of live presence keys of the room; the record is
    written back with that count, and no key other than the record and the
    legacy membership set of the room has changed. *)
Theorem X28_get_room now r s s' resp :
  handleGetRoom now r s = (s', Some resp) →
  (ROOM_ID_REGEX r = false →
   s' = s ∧ resp = createErrorResponse "Failed to fetch room" 500) ∧
  (status resp = 404 → s' = s) ∧
  (status resp = 200 →
   ∃ v, Redis.value now (roomKey r) s = Some v ∧
        resp = Response 200 (BRoom v (Z.of_nat (length (presentIn now r s)))) ∧
        s' !! roomKey r
        = Some (Entry (withUserCount v (Z.of_nat (length (presentIn now r s)))) None) ∧
        ∀ k, k ≠ roomKey r → k ≠ roomUsersKey r → s' !! k = s !! k).
Proof.
  intros Hrun. unfold handleGetRoom in Hrun.
  destruct (ROOM_ID_REGEX r) eqn:Hr; simpl in Hrun.
  2:{ unfold catch, throw in Hrun. apply ret_inv in Hrun as [-> ->]. by split. }
  split; [done|].
  apply catch_inv in Hrun as [Hrun|(s1 & _ & Hh)];
    [|apply ret_inv in Hh as [-> ->]; by split].
  apply bind_inv in Hrun as (s0 & raw & Hget & Hrun).
  apply get_inv in Hget as [-> Hraw].
  assert (Hfound : ∀ v, raw = Some v → (∀ x, v ≠ VStr x) →
            (if negb (truthy raw) then ret (createErrorResponse "Room not found" 404)
             else userCount <- refreshRoomUserCount now r ;;
                  ret (Response 200 (BRoom v userCount))) s = (s', Some resp) →
            (status resp = 404 → s' = s) ∧
            (status resp = 200 →
             ∃ v, Redis.value now (roomKey r) s = Some v ∧
                  resp = Response 200 (BRoom v (Z.of_nat (length (presentIn now r s)))) ∧
                  s' !! roomKey r
                  = Some (Entry (withUserCount v (Z.of_nat (length (presentIn now r s))))
                            None) ∧
                  ∀ k, k ≠ roomKey r → k ≠ roomUsersKey r → s' !! k = s !! k)).
  { intros v -> Hstr H.
    destruct (truthy (Some v)) eqn:Htr; simpl in H;
      [|apply ret_inv in H as [-> ->]; by split].
    apply bind_inv in H as (s1 & cnt & Hcnt & H). apply ret_inv in H as [-> ->].
    split; [done|]. intros _. exists v. split; [done|].
    pose proof (refreshRoomUserCount_count _ _ _ _ _ Hcnt) as Hn.
    pose proof (refreshRoomUserCount_record _ _ _ _ _ _ Hr Hcnt Hraw Htr Hstr) as Hrec.
    subst cnt. split; [done|]. split; [done|].
    intros k Hk1 Hk2. eapply untouched_at; [|exact Hcnt].
    by apply untouched_refreshRoomUserCount. }
  destruct raw as [v|]; [|apply ret_inv in Hrun as [-> ->]; by split].
  destruct v; try (by apply ret_inv in Hrun as [-> ->]); by eapply Hfound.
Qed.

Lemma X28_get_room_witness :
  (handleGetRoom 5000 "dm1" sampleChat).1 !! roomKey "dm1"
  = Some (Entry (withUserCount
                   (VRoom (Room "dm1" "@alice, @bob" (Some "private") 0 2
                             (Some ["alice"; "bob"])))
                   (Z.of_nat (length (presentIn 5000 "dm1" sampleChat)))) None).
Proof.
  pose proof (X28_get_room 5000 "dm1" sampleChat (handleGetRoom 5000 "dm1" sampleChat).1
                (Response 200
                   (BRoom (VRoom (Room "dm1" "@alice, @bob" (Some "private") 0 2
                                    (Some ["alice"; "bob"]))) 2))) as X.
  destruct X as (_ & _ & X).
  - apply run_snd; [reflexivity | vm_compute; reflexivity].
  - destruct (X eq_refl) as (v & Hv & _ & Hrec & _).
    assert (E : v = VRoom (Room "dm1" "@alice, @bob" (Some "private") 0 2
                             (Some ["alice"; "bob"]))).
    { vm_compute in Hv. by injection Hv as <-. }
    rewrite <- E. exact Hrec.
Defined.

Lemma value_present now k s v : Redis.value now k s = Some v → present now k s.
Proof.
  unfold Redis.value, present. destruct (Redis.peek now k s); [by eexists|done].
Qed.

Lemma untouched_broadcastToSpecificUsers k now l :
  (∀ x, k ≠ roomUsersKey x) → untouched k (broadcastToSpecificUsers now l).
Proof.
  intros Hk. destruct l; [apply untouched_ret|by apply untouched_broadcast].
Qed.

(** X29. [handleLeaveRoom] writes nothing when it answers 400 or 404.  When
    it answers 200 the presence key of the user in the room is gone and no
    other presence key has changed; and if the room is not private its log
    is as it was and its record is still there. *)
Theorem X29_leave_room now r u s s' resp :
  handleLeaveRoom now r u s = (s', Some resp) →
  let lu := Str.toLowerCase u in
  (status resp = 400 ∨ status resp = 404 → s' = s) ∧
  (status resp = 200 →
   USERNAME_REGEX lu = true ∧ ROOM_ID_REGEX r = true ∧
   s' !! presenceKey r lu = None ∧
   (∀ x, CHAT_ROOM_PRESENCE_PREFIX +:+ x ≠ presenceKey r lu →
         s' !! (CHAT_ROOM_PRESENCE_PREFIX +:+ x)
         = s !! (CHAT_ROOM_PRESENCE_PREFIX +:+ x)) ∧
   (∀ v, Redis.value now (roomKey r) s = Some v → isPrivate v = false →
         s' !! messagesKey r = s !! messagesKey r ∧ present now (roomKey r) s')).
Proof.
  intros H lu. unfold handleLeaveRoom in H. fold lu in H.
  destruct (_ || _)%bool; [apply ret_inv in H as [-> ->]; by split|].
  destruct (USERNAME_REGEX lu) eqn:Hu; [|apply ret_inv in H as [-> ->]; by split].
  destruct (ROOM_ID_REGEX r) eqn:Hr; [|apply ret_inv in H as [-> ->]; by split].
  simpl in H.
  apply catch_inv in H as [H|(s1 & _ & H)];
    [|apply ret_inv in H as [-> ->]; split; [by intros [|]|done]].
  apply bind_inv in H as (s0 & raw & Hget & H). apply get_inv in Hget as [-> Hraw].
  destruct (truthy raw) eqn:Htr; simpl in H;
    [|apply ret_inv in H as [-> ->]; by split].
  set (kp := presenceKey r lu) in *.
  assert (Hmain : ∀ roomObj, raw = Some roomObj → (∀ x, roomObj ≠ VStr x) →
    (removed <- Redis.del now kp ;;
     if removed =? 0 then ret (Response 200 BSuccess)
     else
       userCount <- refreshRoomUserCount now r ;;
       (if isPrivate roomObj then
          let updatedMembers :=
            match membersOf roomObj with
            | Some members => removeMember lu members
            | None => []
            end in
          if Nat.leb (length updatedMembers) 1 then
            Redis.del now (roomKey r) ;;
            Redis.del now (messagesKey r) ;;
            Redis.del now (roomUsersKey r) ;;
            broadcastToSpecificUsers now (default [] (membersOf roomObj))
          else
            Redis.set now (roomKey r)
              (withMembers roomObj updatedMembers userCount) None ;;
            broadcastRoomsUpdated now
        else if bool_decide (userCountOf roomObj = Some userCount) then ret tt
        else broadcastRoomsUpdated now) ;;
       ret (Response 200 BSuccess)) s = (s', Some resp) →
    resp = Response 200 BSuccess ∧
    s' !! kp = None ∧
    (∀ x, CHAT_ROOM_PRESENCE_PREFIX +:+ x ≠ kp →
          s' !! (CHAT_ROOM_PRESENCE_PREFIX +:+ x)
          = s !! (CHAT_ROOM_PRESENCE_PREFIX +:+ x)) ∧
    (isPrivate roomObj = false →
     s' !! messagesKey r = s !! messagesKey r ∧ present now (roomKey r) s')).
  { intros roomObj -> Hstr Hm.
    apply bind_inv in Hm as (s1 & removed & Hdel & Hm).
    destruct (del_run now kp s) as [m Hdm]. rewrite Hdm in Hdel.
    injection Hdel as <- <-.
    destruct (m =? 0).
    { apply ret_inv in Hm as [-> ->]. split; [done|].
      split; [apply lookup_delete_eq|]. split.
      - intros x Hx. by apply lookup_delete_ne, not_eq_sym.
      - intros _. split; [apply lookup_delete_ne, presence_ne_messages|].
        apply value_present in Hraw. unfold present, Redis.peek in *.
        rewrite lookup_delete_ne; [done|apply presence_ne_room]. }
    apply bind_inv in Hm as (s2 & cnt & Hcnt & Hm).
    apply bind_inv in Hm as (s3 & [] & Hbr & Hm).
    apply ret_inv in Hm as [-> ->]. split; [done|].
    (* nothing after the first [del] writes a presence key *)
    assert (Hpres : ∀ x, s3 !! (CHAT_ROOM_PRESENCE_PREFIX +:+ x)
                         = delete kp s !! (CHAT_ROOM_PRESENCE_PREFIX +:+ x)).
    { intros x.
      assert (Hx : ∀ y, CHAT_ROOM_PRESENCE_PREFIX +:+ x ≠ roomUsersKey y)
        by (intros y; apply presence_ne_roomUsers).
      etrans; [|eapply untouched_at; [|exact Hcnt];
                apply untouched_refreshRoomUserCount;
                [apply presence_ne_roomUsers|apply presence_ne_room]].
      eapply untouched_at; [|exact Hbr].
      destruct (isPrivate roomObj); simpl.
      - destruct (Nat.leb _ 1).
        + apply untouched_bind;
            [apply untouched_del, not_eq_sym, presence_ne_room|intros _].
          apply untouched_bind;
            [apply untouched_del, not_eq_sym, presence_ne_messages|intros _].
          apply untouched_bind;
            [apply untouched_del, not_eq_sym, presence_ne_roomUsers|intros _].
          by apply untouched_broadcastToSpecificUsers.
        + apply untouched_bind;
            [apply untouched_set, not_eq_sym, presence_ne_room|intros _].
          by apply untouched_broadcast.
      - destruct (bool_decide _); [apply untouched_ret|by apply untouched_broadcast]. }
    split; [unfold kp, presenceKey; rewrite Hpres; apply lookup_delete_eq|].
    split.
    - intros x Hx. rewrite Hpres. by apply lookup_delete_ne, not_eq_sym.
    - intros Hpub. rewrite Hpub in Hbr.
      assert (Hv1 : Redis.value now (roomKey r) (delete kp s) = Some roomObj).
      { unfold Redis.value, Redis.peek in *.
        rewrite lookup_delete_ne; [done|apply presence_ne_room]. }
      pose proof (refreshRoomUserCount_record _ _ _ _ _ _ Hr Hcnt Hv1 Htr Hstr) as Hrec.
      assert (Hb : ∀ k, (∀ x, k ≠ roomUsersKey x) → s3 !! k = s2 !! k).
      { intros k Hk. eapply untouched_at; [|exact Hbr].
        destruct (bool_decide _); [apply untouched_ret|by apply untouched_broadcast]. }
      split.
      + rewrite Hb by apply messages_ne_roomUsers.
        etrans; [eapply untouched_at; [|exact Hcnt];
                 apply untouched_refreshRoomUserCount;
                 [apply messages_ne_roomUsers|apply messages_ne_room]|].
        apply lookup_delete_ne, presence_ne_messages.
      + unfold present, Redis.peek.
        rewrite Hb by (intros x; by apply room_ne_roomUsers).
        rewrite Hrec. simpl. eauto. }
  destruct raw as [roomObj|]; [|done].
  assert (Hns : ∀ x, roomObj ≠ VStr x).
  { intros x ->. done. }
  assert (Hrun : (removed <- Redis.del now kp ;;
     if removed =? 0 then ret (Response 200 BSuccess)
     else
       userCount <- refreshRoomUserCount now r ;;
       (if isPrivate roomObj then
          let updatedMembers :=
            match membersOf roomObj with
            | Some members => removeMember lu members
            | None => []
            end in
          if Nat.leb (length updatedMembers) 1 then
            Redis.del now (roomKey r) ;;
            Redis.del now (messagesKey r) ;;
            Redis.del now (roomUsersKey r) ;;
            broadcastToSpecificUsers now (default [] (membersOf roomObj))
          else
            Redis.set now (roomKey r)
              (withMembers roomObj updatedMembers userCount) None ;;
            broadcastRoomsUpdated now
        else if bool_decide (userCountOf roomObj = Some userCount) then ret tt
        else broadcastRoomsUpdated now) ;;
       ret (Response 200 BSuccess)) s = (s', Some resp)).
  { by destruct roomObj. }
  destruct (Hmain roomObj eq_refl Hns Hrun) as (-> & Hgone & Hothers & Hpublic).
  split; [by intros [|]|]. intros _.
  split; [done|]. split; [done|]. split; [done|]. split; [done|].
  intros v Hv Hpub. rewrite Hraw in Hv. injection Hv as <-. by apply Hpublic.
Qed.

Lemma X29_leave_room_witness :
  (handleLeaveRoom 5000 "dm1" "Alice" sampleChat).1 !! presenceKey "dm1" "alice" = None ∧
  (handleLeaveRoom 5000 "dm1" "Alice" sampleChat).1 !! presenceKey "dm1" "bob"
  = sampleChat !! presenceKey "dm1" "bob".
Proof.
  pose proof (X29_leave_room 5000 "dm1" "Alice" sampleChat
                (handleLeaveRoom 5000 "dm1" "Alice" sampleChat).1
                (Response 200 BSuccess)) as X.
  destruct X as (_ & X).
  - apply run_snd; [reflexivity | vm_compute; reflexivity].
  - destruct (X eq_refl) as (_ & _ & Hgone & Hothers & _).
    split; [exact Hgone|]. apply (Hothers "dm1:bob"). discriminate.
Defined.
